(** * TrueBlocks: the decode-and-valuation pipeline

    A shallow embedding of the core of the repository,

      - [modules/fetch/A01_decode_txs.py]: log decoding, wallet deltas,
        classification and ledger rows;
      - [modules/fetch/A02_onchain_price_WETH_WBTC.py]: the block-time
        resolver ([BlockFinder]) and the pool price oracle,

    followed by the properties of these definitions.  Python values are
    modelled as the code has them: text as [string], integers as [Z],
    dictionaries whose iteration order is observable as insertion-ordered
    association lists, the resolver's minute cache as a [gmap], [Decimal]
    numbers as exact rationals rounded to the context precision after each
    operation, and exceptions as an explicit result type. *)

From Stdlib Require Import ZArith QArith Qabs Qround Qpower List String Ascii Lia Lqa DecimalString.
From Stdlib Require Import Sorting.Sorted.
From Stdlib Require Import DecimalPos DecimalFacts.
From Stdlib Require Strings.Byte.
From stdpp Require Import gmap.
Import ListNotations.
#[local] Open Scope string_scope.
#[local] Open Scope Z_scope.

(* ===================================================================== *)
(** * Python primitives used by the two scripts                           *)
(* ===================================================================== *)

Module Py.

(** Exceptions that the modelled code can raise.  The scripts only ever
    catch [Exception], so the class matters for documentation only.
    [FuelExhausted] is not a Python exception: it marks a loop of the model
    that ran out of its iteration budget, and is shown never to occur. *)
Inductive exn : Set :=
| ValueError | KeyError | TypeError | DivisionByZero | RuntimeError | BlockNotFound
| FuelExhausted.

(** The outcome of a Python expression: a value, or a raised exception. *)
Inductive result (A : Type) : Type :=
| Ok (a : A)
| Raise (e : exn).
Arguments Ok {A} a.
Arguments Raise {A} e.

Definition bind {A B : Type} (m : result A) (k : A -> result B) : result B :=
  match m with
  | Ok a => k a
  | Raise e => Raise e
  end.

(** [try: v = m / except Exception: v = h]. *)
Definition try_except {A : Type} (m : result A) (h : A) : A :=
  match m with
  | Ok a => a
  | Raise _ => h
  end.

Definition of_option {A : Type} (e : exn) (o : option A) : result A :=
  match o with
  | Some a => Ok a
  | None => Raise e
  end.

Definition returns {A : Type} (m : result A) : Prop :=
  exists a, m = Ok a.

(** [x or d] on an optional string: [None] and the empty string are falsy. *)
Definition str_or (x : option string) (d : string) : string :=
  match x with
  | Some (String c s) => String c s
  | _ => d
  end.

(** ** Characters and strings *)

Definition code (c : ascii) : Z := Z.of_nat (nat_of_ascii c).

Definition lower_char (c : ascii) : ascii :=
  if (65 <=? code c) && (code c <=? 90)
  then ascii_of_nat (nat_of_ascii c + 32)
  else c.

(** [str.lower] (on ASCII text). *)
Fixpoint lower (s : string) : string :=
  match s with
  | EmptyString => EmptyString
  | String c r => String (lower_char c) (lower r)
  end.

(** Python's whitespace, restricted to ASCII: TAB..CR, FS..US and SPACE. *)
Definition is_space (c : ascii) : bool :=
  ((9 <=? code c) && (code c <=? 13)) || ((28 <=? code c) && (code c <=? 32)).

Fixpoint lstrip_chars (p : ascii -> bool) (s : string) : string :=
  match s with
  | String c r => if p c then lstrip_chars p r else s
  | EmptyString => EmptyString
  end.

(** Drops the trailing characters satisfying [p]. *)
Fixpoint rstrip_chars (p : ascii -> bool) (s : string) : string :=
  match s with
  | EmptyString => EmptyString
  | String c r =>
      match rstrip_chars p r with
      | EmptyString => if p c then EmptyString else String c EmptyString
      | r' => String c r'
      end
  end.

(** [str.strip()]. *)
Definition strip (s : string) : string :=
  rstrip_chars is_space (lstrip_chars is_space s).

(** [s[n:]] and [s[:n]] for [n >= 0], and [s[-n:]]. *)
Fixpoint drop (n : nat) (s : string) : string :=
  match n, s with
  | O, _ => s
  | S n', String _ r => drop n' r
  | S _, EmptyString => EmptyString
  end.

Fixpoint take (n : nat) (s : string) : string :=
  match n, s with
  | S n', String c r => String c (take n' r)
  | _, _ => EmptyString
  end.

Definition slice (i j : nat) (s : string) : string := take (j - i) (drop i s).

Definition last_n (n : nat) (s : string) : string :=
  drop (String.length s - n) s.

Definition startswith (s p : string) : bool := String.prefix p s.

Fixpoint all_chars (p : ascii -> bool) (s : string) : bool :=
  match s with
  | EmptyString => true
  | String c r => p c && all_chars p r
  end.

Fixpoint repeat_char (c : ascii) (n : nat) : string :=
  match n with
  | O => EmptyString
  | S n' => String c (repeat_char c n')
  end.

(** [sep.join(items)]. *)
Fixpoint join (sep : string) (items : list string) : string :=
  match items with
  | [] => EmptyString
  | [x] => x
  | x :: rest => x ++ sep ++ join sep rest
  end.

(** ** Integer literals *)

(** The value of a character as a digit in bases up to 36. *)
Definition digit_val (c : ascii) : option Z :=
  let n := code c in
  if (48 <=? n) && (n <=? 57) then Some (n - 48)
  else if (97 <=? n) && (n <=? 122) then Some (n - 87)
  else if (65 <=? n) && (n <=? 90) then Some (n - 55)
  else None.

(** [c in string.hexdigits]. *)
Definition is_hexdigit (c : ascii) : bool :=
  match digit_val c with
  | Some d => d <? 16
  | None => false
  end.

(** The digits of a literal: single underscores may separate digits, and
    the literal may not end with one. *)
Fixpoint digits_acc (base : Z) (s : string) (acc : Z) (prev_us : bool) : option Z :=
  match s with
  | EmptyString => if prev_us then None else Some acc
  | String c r =>
      if Ascii.eqb c "_"
      then (if prev_us then None else digits_acc base r acc true)
      else match digit_val c with
           | Some d => if d <? base then digits_acc base r (acc * base + d) false else None
           | None => None
           end
  end.

Definition parse_digits (base : Z) (s : string) : option Z :=
  match s with
  | EmptyString => None
  | String c _ => if Ascii.eqb c "_" then None else digits_acc base s 0 false
  end.

(** [int(s, base)] for [base] 10 or 16, as CPython parses it: surrounding
    whitespace is skipped, one sign is accepted, base 16 accepts a [0x] or
    [0X] prefix which one underscore may follow.  [None] stands for the
    [ValueError] of a malformed literal.  (The interpreter's configurable
    limit on the number of decimal digits is not modelled.) *)
Definition int_of_str (base : Z) (s : string) : option Z :=
  let s1 := strip s in
  let '(neg, s2) :=
    match s1 with
    | String "-" r => (true, r)
    | String "+" r => (false, r)
    | _ => (false, s1)
    end in
  let s3 :=
    if (base =? 16) && (startswith s2 "0x" || startswith s2 "0X")
    then match drop 2 s2 with
         | String "_" r => r
         | r => r
         end
    else s2 in
  match parse_digits base s3 with
  | Some v => Some (if neg then - v else v)
  | None => None
  end.

Definition int16 (s : string) : result Z := of_option ValueError (int_of_str 16 s).
Definition int10 (s : string) : result Z := of_option ValueError (int_of_str 10 s).

(** [str.isdigit()] on ASCII text. *)
Definition isdigit (s : string) : bool :=
  match s with
  | EmptyString => false
  | _ => all_chars (fun c => (48 <=? code c) && (code c <=? 57)) s
  end.

(** [str(n)] for an integer. *)
Definition str_of_int (n : Z) : string := NilZero.string_of_int (Z.to_int n).

Definition hex_char (d : Z) : ascii :=
  if d <? 10 then ascii_of_nat (Z.to_nat (48 + d)) else ascii_of_nat (Z.to_nat (87 + d)).

Fixpoint hex_digits (fuel : nat) (n : Z) (acc : string) : string :=
  match fuel with
  | O => acc
  | S fuel' =>
      let acc' := String (hex_char (n mod 16)) acc in
      if n <? 16 then acc' else hex_digits fuel' (n / 16) acc'
  end.

(** [hex(n)]: lower-case digits after [0x], with the sign in front. *)
Definition hex (n : Z) : string :=
  let a := Z.abs n in
  (if n <? 0 then "-0x" else "0x") ++ hex_digits (S (Z.to_nat (Z.log2 a))) a EmptyString.

(** [int.from_bytes(bs, byteorder="big")]. *)
Definition int_from_bytes (bs : list Byte.byte) : Z :=
  fold_left (fun acc b => acc * 256 + Z.of_N (Byte.to_N b)) bs 0.

(** ** Insertion-ordered dictionaries *)

Section Dict.
Context {V : Type}.

Fixpoint dict_get (d : list (string * V)) (k : string) : option V :=
  match d with
  | [] => None
  | (k', v) :: rest => if String.eqb k' k then Some v else dict_get rest k
  end.

(** [d[k] = v]: an existing key keeps its position, a new key goes last. *)
Fixpoint dict_set (d : list (string * V)) (k : string) (v : V) : list (string * V) :=
  match d with
  | [] => [(k, v)]
  | (k', v') :: rest =>
      if String.eqb k' k then (k', v) :: rest else (k', v') :: dict_set rest k v
  end.

Definition dict_mem (d : list (string * V)) (k : string) : bool :=
  match dict_get d k with
  | Some _ => true
  | None => false
  end.

(** [d.get(k, dflt)]. *)
Definition dict_get_default (d : list (string * V)) (k : string) (dflt : V) : V :=
  match dict_get d k with
  | Some v => v
  | None => dflt
  end.
End Dict.

(** ** Text and dictionaries of the price runner *)

Definition upper_char (c : ascii) : ascii :=
  if (97 <=? code c) && (code c <=? 122)
  then ascii_of_nat (nat_of_ascii c - 32)
  else c.

(** [str.upper] (on ASCII text). *)
Fixpoint upper (s : string) : string :=
  match s with
  | EmptyString => EmptyString
  | String c r => String (upper_char c) (upper r)
  end.

(** [sub in s]. *)
Fixpoint contains (sub s : string) : bool :=
  String.prefix sub s
  || match s with
     | EmptyString => false
     | String _ r => contains sub r
     end.

(** [s.split(sep)] for a separator of one character. *)
Fixpoint split_char (sep : ascii) (s : string) : list string :=
  match s with
  | EmptyString => [EmptyString]
  | String c r =>
      if Ascii.eqb c sep then EmptyString :: split_char sep r
      else match split_char sep r with
           | x :: xs => String c x :: xs
           | [] => [String c EmptyString]
           end
  end.

(** [d.pop(k, None)], for its effect on the dictionary. *)
Fixpoint dict_pop {V : Type} (d : list (string * V)) (k : string) : list (string * V) :=
  match d with
  | [] => []
  | (k', v) :: rest => if String.eqb k' k then rest else (k', v) :: dict_pop rest k
  end.

(** ** Sorting *)

(** [l.sort(key=key, reverse=True)], for keys ordered by [ltb]: the stable
    sort into descending order (records with equal keys retain their
    original order).  An insertion sort computes it: each element goes in
    front of the first element that is not greater than it. *)
Fixpoint insert_reverse {A K : Type} (ltb : K -> K -> bool) (key : A -> K) (x : A)
    (l : list A) : list A :=
  match l with
  | [] => [x]
  | y :: rest =>
      if ltb (key x) (key y) then y :: insert_reverse ltb key x rest else x :: l
  end.

Definition sort_reverse {A K : Type} (ltb : K -> K -> bool) (key : A -> K) (l : list A)
    : list A :=
  fold_right (insert_reverse ltb key) [] l.

End Py.

Import Py.

Notation "'let*' x ':=' m 'in' k" := (Py.bind m (fun x => k))
  (at level 10, x name, m at level 100, k at level 200).

(* ===================================================================== *)
(** * [decimal.Decimal] at a fixed context precision                      *)
(* ===================================================================== *)

(** Both scripts compute with [Decimal] under the default rounding mode
    (round-half-even).  The precision belongs to the decimal context of the
    running thread: A01 sets [getcontext().prec = 50] and computes in that
    thread; A02 sets 60 in the thread that loads it, and computes its
    ratios in the threads of a pool, whose contexts keep the default of 28
    digits.  A finite [Decimal] is modelled by its exact rational value; every
    arithmetic operation returns the exact result rounded to [prec]
    significant digits, which is what the decimal arithmetic guarantees for
    multiplication, division and exact powers.  The exponent limits of the
    context (10^±999999) are far outside the values handled here and are not
    modelled. *)

Module Dec.

#[local] Open Scope Q_scope.

Definition pow10 (e : Z) : Q := inject_Z 10 ^ e.

(** Nearest integer, ties to the even neighbour. *)
Definition round_half_even (x : Q) : Z :=
  let n := Qnum x in
  let d := Zpos (Qden x) in
  let q := (n / d)%Z in
  let r := (n mod d)%Z in
  if (2 * r <? d)%Z then q
  else if (d <? 2 * r)%Z then (q + 1)%Z
  else if Z.even q then q else (q + 1)%Z.

Fixpoint ndigits_aux (fuel : nat) (n : Z) : Z :=
  match fuel with
  | O => 1%Z
  | S fuel' => if (n <? 10)%Z then 1%Z else (1 + ndigits_aux fuel' (n / 10))%Z
  end.

(** Number of decimal digits of a positive integer. *)
Definition ndigits (n : Z) : Z := ndigits_aux (S (Z.to_nat (Z.log2 n))) n.

(** The exponent [m] with [10^m <= |x| < 10^(m+1)], for [x <> 0]. *)
Definition magnitude (x : Q) : Z :=
  let a := Qabs x in
  let m0 := (ndigits (Qnum a) - ndigits (Zpos (Qden a)))%Z in
  if Qle_bool (pow10 m0) a then m0 else (m0 - 1)%Z.

(** Rounding to [prec] significant digits. *)
Definition round_sig (prec : Z) (x : Q) : Q :=
  if Qeq_bool x 0 then 0
  else
    let e := (magnitude x - prec + 1)%Z in
    let c := round_half_even (Qabs x / pow10 e) in
    Qred ((if Qle_bool 0 x then 1 else -1) * inject_Z c * pow10 e).

Definition mul (prec : Z) (x y : Q) : Q := round_sig prec (x * y).

(** Division raises on a zero divisor ([DivisionByZero], or
    [InvalidOperation] for 0/0: both are [Exception]s). *)
Definition div (prec : Z) (x y : Q) : Py.result Q :=
  if Qeq_bool y 0 then Py.Raise Py.DivisionByZero
  else Py.Ok (round_sig prec (x / y)).

(** [x ** n] for an integer [n].  The powers taken by the scripts
    ([Decimal(2) ** 96] and [Decimal(10) ** Decimal(k)]) are exact. *)
Definition pow (prec : Z) (x : Q) (n : Z) : Q := round_sig prec (x ^ n).

(** [x / (Decimal(10) ** Decimal(k))]: the divisor is a power of ten, which
    is not zero, so this division cannot raise. *)
Definition div_pow10 (prec : Z) (x : Q) (k : Z) : Q :=
  round_sig prec (x / pow prec (inject_Z 10) k).

(** [f"{x:.{places}f}"]: fixed-point text with [places] fractional digits;
    the sign of a negative value is kept even when it rounds to zero. *)
Definition to_fixed (places : nat) (x : Q) : string :=
  let scale := (10 ^ Z.of_nat places)%Z in
  let m := round_half_even (Qabs x * inject_Z scale) in
  let whole := Py.str_of_int (m / scale) in
  let frac := Py.str_of_int (m mod scale) in
  let padded := (Py.repeat_char "0" (places - String.length frac) ++ frac)%string in
  ((if Qle_bool 0 x then "" else "-") ++ whole
     ++ match places with O => "" | S _ => "." ++ padded end)%string.

End Dec.

(* ===================================================================== *)
(** * A01_decode_txs.py                                                   *)
(* ===================================================================== *)

Module A01.

(** ** Data, as the JSON and CSV layers deliver it *)

(** A field that is absent, or JSON [null], is [None]. *)
Record LogEntry : Type := {
  lg_address : option string;
  lg_topics : list string;
  lg_data : option string
}.

Record Receipt : Type := {
  rc_status : option string;
  rc_logs : list LogEntry;
  rc_gasUsed : option string;
  rc_effectiveGasPrice : option string
}.

(** One row of [data_raw_txs.csv]; the field [r_x] is the column [x]. *)
Record RawTx : Type := {
  r_hash : option string;
  r_tx_hash : option string;
  r_from : option string;
  r_to : option string;
  r_value : option string;
  r_blockNumber : option string;
  r_blockHash : option string;
  r_timeStamp : option string;
  r_gasPrice : option string
}.

Record InternalTx : Type := {
  itx_from : option string;
  itx_to : option string;
  itx_value : option string
}.

(** The answer of the explorer's [txlistinternal] action. *)
Record Internals : Type := {
  int_status : option string;
  int_result : list InternalTx
}.

(** One entry of a [trace_transaction] answer, with its [action]. *)
Record Trace : Type := {
  tr_type : option string;
  tr_value : option string;
  tr_from : option string;
  tr_to : option string
}.

Record Block : Type := {
  blk_timestamp : option string
}.

Record TokenMeta : Type := {
  tm_symbol : string;
  tm_decimals : Z
}.

(** [(contract, tokenId, deltaQty)]. *)
Definition NftMove : Type := (string * Z * Z)%type.

(** The collaborators of the script: the explorer API and the RPC nodes
    ([_get], [rpc], [rpc_direct], [safe_eth_call] behind the memoising
    metadata readers), and the library functions of [eth_abi], [eth_utils]
    and [datetime] whose code is not part of the repository.  A network
    call that the script lets propagate is a [result]. *)
Record World : Type := {
  (** [get_tx_receipt]: the receipt, or [None] after the retries. *)
  w_get_tx_receipt : string -> result (option Receipt);
  w_get_block_by_hash : string -> result (option Block);
  w_get_block_by_number : string -> result (option Block);
  (** [rpc(eth_getBalance, address, tag)]. *)
  w_eth_getBalance : string -> string -> result (option string);
  (** [_get(txlistinternal, txhash)]. *)
  w_txlistinternal : string -> result Internals;
  (** [rpc_direct(url, "trace_transaction", [txhash])], when it is a list. *)
  w_trace_transaction : string -> string -> option (list Trace);
  (** [fetch_tokentx_metadata]. *)
  w_fetch_tokentx_metadata : string -> result (list (string * TokenMeta));
  (** What [erc20_symbol] finds in its cache or on chain for a lower-case
      address, ["UNKNOWN"] included. *)
  w_symbol_lookup : string -> string;
  (** What [erc20_decimals] finds in its cache, on chain or in the table of
      well-known symbols, 18 by default. *)
  w_decimals_lookup : string -> string -> Z;
  (** [token_name]. *)
  w_token_name : string -> option string;
  (** [abi_decode(["uint256[]","uint256[]"], payload)]; [None] when the
      decoder raises. *)
  w_abi_decode_arrays : list Byte.byte -> option (list Z * list Z);
  (** The EIP-55 capitalisation of a normalised address. *)
  w_eip55 : string -> string;
  (** [datetime.fromtimestamp(ts, tz=AT_TZ).strftime(...)]. *)
  w_strftime : Z -> result string
}.

Definition LINEA_RPCS : list string :=
  ["https://rpc.linea.build"; "https://linea.drpc.org"; "https://1rpc.io/linea"].

(** ** hex/topic utils *)

Definition is_hex_data (s : option string) : bool :=
  match s with
  | None => false
  | Some s =>
      if negb (startswith s "0x") then false
      else
        let payload := drop 2 s in
        if (String.length payload =? 0)%nat then true
        else if negb (String.length payload mod 2 =? 0)%nat then false
        else all_chars is_hexdigit payload
  end.

(** [eth_utils.to_normalized_address] on text: an optional [0x] prefix and
    forty hexadecimal digits, returned in lower case with the prefix. *)
Definition to_normalized_address (s : string) : result string :=
  let body := if startswith s "0x" || startswith s "0X" then drop 2 s else s in
  if (String.length body =? 40)%nat && all_chars is_hexdigit body
  then Ok ("0x" ++ lower body)
  else Raise ValueError.

Definition to_checksum_address (w : World) (s : string) : result string :=
  let* a := to_normalized_address s in Ok (w_eip55 w a).

(** [to_checksum_address(s).lower()] is the normalised address: the
    checksum only changes the case of letters. *)
Definition address_from_topic (topic_hex : string) : string :=
  try_except
    (let* a := to_normalized_address ("0x" ++ last_n 40 topic_hex) in Ok (lower a))
    "".

Definition h2i (x : option string) : result Z :=
  match x with
  | None => Ok 0
  | Some s =>
      if String.eqb s "" || String.eqb s "0x" then Ok 0 else int16 s
  end.

Definition decode_address (w : World) (addr : option string) : string :=
  let s := strip (str_or addr "") in
  if String.eqb s "" || negb (startswith s "0x") || negb (String.length s =? 42)%nat
  then ""
  else try_except (to_checksum_address w s) "".

(** [bytes.fromhex] on a payload of hexadecimal digit pairs. *)
Fixpoint bytes_fromhex (s : string) : option (list Byte.byte) :=
  match s with
  | EmptyString => Some []
  | String a (String b r) =>
      match digit_val a, digit_val b, bytes_fromhex r with
      | Some x, Some y, Some bs =>
          if (x <? 16) && (y <? 16)
          then match Byte.of_N (Z.to_N (16 * x + y)) with
               | Some v => Some (v :: bs)
               | None => None
               end
          else None
      | _, _, _ => None
      end
  | String _ EmptyString => None
  end.

(** ** topics: [keccak] of the event signatures *)

Definition TOPIC_TRANSFER : string :=
  "0xddf252ad1be2c89b69c2b068fc378daa952ba7f163c4a11628f55a4df523b3ef".
Definition TOPIC_TRANSFER_SINGLE : string :=
  "0xc3d58168c5ae7397731d063d5bbf3d657854427343f4c083240f7aacaa2d0f62".
Definition TOPIC_TRANSFER_BATCH : string :=
  "0x4a39dc06d4c0dbc64b70af90fd698a233a518aa5d07e595d983b8c0526c8f7fb".
Definition TOPIC_WETH_DEPOSIT : string :=
  "0xe1fffcc4923d04b559f4d29a8bfc6cda04eb5b0d3c460751c2402c5c5cc9109c".
Definition TOPIC_WETH_WITHDRAWAL : string :=
  "0x7fcf532c15f0a6db0bd6d0e038bea71d30d808c7d98cb3bf7268a95bf5081b65".

Definition TOPIC_SWAP_V3 : string :=
  "0xc42079f94a6350d7e6235f29174924f928cc2ac818eb64fed8004e115fbcca67".
Definition TOPIC_MINT_V3 : string :=
  "0x7a53080ba414158be7ec69b987b5fb7d07dee101fe85488f0853ae16239d0bde".
Definition TOPIC_BURN_V3 : string :=
  "0x0c396cd989a39f4459b5fa1aed6a9a8dcdbc45908acfd67e028cd568da98982c".
Definition TOPIC_INC_LIQ_V3 : string :=
  "0x3067048beee31b25b2f1681f88dac838c8bba36af25bfb2b7cf7473a5847e35f".
Definition TOPIC_DEC_LIQ_V3 : string :=
  "0x26f6a048ee9138f2c0ce266f322cb99228e8d619ae2bff30c67f8dcf9d2377b4".
Definition TOPIC_SWAP_V2 : string :=
  "0xd78ad95fa46c994b6551d0da85fc275fe613ce37657fb8d5e3d130840159d822".
Definition TOPIC_MINT_V2 : string :=
  "0x4c209b5fc8ad50758f13e2e1088ba56a560dff690a1c6fef26394f4c03821c4f".
Definition TOPIC_BURN_V2 : string :=
  "0xdccd412f0b1252819cb1fd330b93224ca42612892bb3f4f789976e6d81936496".

(** ** ERC-20 / NFT metadata *)

Definition SYMBOL_ALIASES : list (string * string) :=
  [("wrapped btc", "WBTC"); ("wbtc.e", "WBTC")].

Definition normalize_symbol (sym : string) : string :=
  let s := strip sym in
  if String.eqb s "" then "UNKNOWN"
  else match dict_get SYMBOL_ALIASES (lower s) with
       | Some (String c r) => String c r
       | _ => s
       end.

(** The hint of the transaction's token transfers wins; otherwise the
    cache and the chain are asked. *)
Definition erc20_symbol (w : World) (addr : string) (meta_hint : list (string * TokenMeta)) : string :=
  let a := lower addr in
  match dict_get meta_hint a with
  | Some {| tm_symbol := String c r |} => normalize_symbol (String c r)
  | _ => w_symbol_lookup w a
  end.

Definition erc20_decimals (w : World) (addr : string) (meta_hint : list (string * TokenMeta))
    (sym_hint : string) : Z :=
  let a := lower addr in
  match dict_get meta_hint a with
  | Some m => if 0 <? tm_decimals m then tm_decimals m else w_decimals_lookup w a sym_hint
  | None => w_decimals_lookup w a sym_hint
  end.

(** ** formatting *)

(** [s.partition(".")]. *)
Fixpoint partition_dot (s : string) : string * string * string :=
  match s with
  | EmptyString => (EmptyString, EmptyString, EmptyString)
  | String c r =>
      if Ascii.eqb c "."
      then (EmptyString, ".", r)
      else let '(a, d, b) := partition_dot r in (String c a, d, b)
  end.

Definition fmt_amount (value_wei decimals : Z) (min_dp max_dp : nat) : string :=
  if value_wei =? 0 then Dec.to_fixed min_dp 0
  else
    let q := Dec.div_pow10 50 (inject_Z value_wei) decimals in
    let s := Dec.to_fixed max_dp q in
    let '(whole, dot, frac) := partition_dot s in
    let trimmed := rstrip_chars (Ascii.eqb "0") frac in
    let trimmed :=
      if (String.length trimmed <? min_dp)%nat
      then take min_dp (trimmed ++ repeat_char "0" min_dp)
      else trimmed in
    whole ++ (if String.eqb trimmed "" then "" else dot ++ trimmed).

Definition format_token_display_signed (delta_wei decimals : Z) (symbol : string) : string :=
  let sign := if delta_wei <? 0 then "-" else "+" in
  sign ++ fmt_amount (Z.abs delta_wei) decimals 2 12 ++ " " ++ symbol.

Definition format_nft_signed (symbol_or_name : string) (token_id qty : Z) : string :=
  let sign := if qty <? 0 then "-" else "+" in
  let label := symbol_or_name ++ "#" ++ str_of_int token_id in
  if Z.abs qty =? 1 then sign ++ label
  else sign ++ label ++ " x " ++ str_of_int (Z.abs qty).

Definition wei_str_eth (wei : Z) : string := fmt_amount wei 18 5 8.

(** ** classify *)

Definition first_topics (logs : list LogEntry) : list string :=
  flat_map (fun lg => match lg_topics lg with [] => [] | t0 :: _ => [t0] end) logs.

Definition any_in (ts t0s : list string) : bool :=
  existsb (fun t => existsb (String.eqb t) t0s) ts.

Definition classify_from_topics (logs : list LogEntry) : option string :=
  let t0s := first_topics logs in
  if any_in [TOPIC_SWAP_V3; TOPIC_SWAP_V2] t0s then Some "swap"
  else if any_in [TOPIC_MINT_V3; TOPIC_INC_LIQ_V3; TOPIC_MINT_V2] t0s then Some "add_liquidity"
  else if any_in [TOPIC_BURN_V3; TOPIC_DEC_LIQ_V3; TOPIC_BURN_V2] t0s then Some "remove_liquidity"
  else None.

(** ** core delta *)

Definition nonempty (s : string) : bool := negb (String.eqb s "").

(** The three locals that the log loop of [compute_wallet_deltas] updates. *)
Record Acc : Type := {
  acc_erc20_eth : list (string * Z);
  acc_nft_moves : list NftMove;
  acc_eth_log_delta : Z
}.

Definition add_delta (d : list (string * Z)) (k : string) (x : Z) : list (string * Z) :=
  dict_set d k (dict_get_default d k 0 + x).

(** [if frm == wallet: moves.append((addr, id, -q))] then
    [if to == wallet: moves.append((addr, id, +q))]. *)
Definition append_moves (wallet frm to addr : string) (token_id q : Z)
    (moves : list NftMove) : list NftMove :=
  let moves := if String.eqb frm wallet then (moves ++ [(addr, token_id, - q)])%list else moves in
  if String.eqb to wallet then (moves ++ [(addr, token_id, q)])%list else moves.

(** The body of [for token_id, qty in zip(ids, values)]. *)
Fixpoint batch_loop (wallet frm to addr : string) (pairs : list (Z * Z))
    (moves : list NftMove) : list NftMove :=
  match pairs with
  | [] => moves
  | (token_id, qty) :: rest =>
      if qty <=? 0 then batch_loop wallet frm to addr rest moves
      else batch_loop wallet frm to addr rest (append_moves wallet frm to addr token_id qty moves)
  end.

(** [t[i]], for an index that the branch has checked. *)
Definition topic (t : list string) (i : nat) : string := nth i t "".

(** One iteration of [for lg in (rcpt.get("logs") or [])]. *)
Definition log_step (w : World) (wallet : string) (a : Acc) (lg : LogEntry) : result Acc :=
  let t := lg_topics lg in
  match t with
  | [] => Ok a
  | t0 :: _ =>
      let addr := lower (str_or (lg_address lg) "") in
      if String.eqb t0 TOPIC_TRANSFER && (3 <=? length t)%nat then
        let frm := address_from_topic (topic t 1) in
        let to := address_from_topic (topic t 2) in
        if (4 <=? length t)%nat then
          (* ERC-721 *)
          let* token_id := h2i (Some (topic t 3)) in
          if nonempty wallet
          then Ok {| acc_erc20_eth := acc_erc20_eth a;
                     acc_nft_moves := append_moves wallet frm to addr token_id 1 (acc_nft_moves a);
                     acc_eth_log_delta := acc_eth_log_delta a |}
          else Ok a
        else
          (* ERC-20 *)
          let data_hex := lg_data lg in
          if is_hex_data data_hex && negb (String.eqb (str_or data_hex "") "0x") then
            let* amt := int16 (str_or data_hex "") in
            if nonempty wallet && (0 <? amt) then
              let d := acc_erc20_eth a in
              let d := if String.eqb frm wallet then dict_set d addr (dict_get_default d addr 0 - amt) else d in
              let d := if String.eqb to wallet then dict_set d addr (dict_get_default d addr 0 + amt) else d in
              Ok {| acc_erc20_eth := d; acc_nft_moves := acc_nft_moves a; acc_eth_log_delta := acc_eth_log_delta a |}
            else Ok a
          else Ok a
      else if String.eqb t0 TOPIC_TRANSFER_SINGLE && (4 <=? length t)%nat then
        let data_hex := drop 2 (str_or (lg_data lg) "0x") in
        if (128 <=? String.length data_hex)%nat then
          let* token_id := int16 (slice 0 64 data_hex) in
          let* qty := int16 (slice 64 128 data_hex) in
          let frm := address_from_topic (topic t 2) in
          let to := address_from_topic (topic t 3) in
          if nonempty wallet && (0 <? qty)
          then Ok {| acc_erc20_eth := acc_erc20_eth a;
                     acc_nft_moves := append_moves wallet frm to addr token_id qty (acc_nft_moves a);
                     acc_eth_log_delta := acc_eth_log_delta a |}
          else Ok a
        else Ok a
      else if String.eqb t0 TOPIC_TRANSFER_BATCH && (4 <=? length t)%nat then
        let data_hex := str_or (lg_data lg) "0x" in
        if is_hex_data (Some data_hex) && negb (String.eqb data_hex "0x") then
          let '(ids, values) :=
            match bytes_fromhex (drop 2 data_hex) with
            | Some payload =>
                match w_abi_decode_arrays w payload with
                | Some r => r
                | None => ([], [])
                end
            | None => ([], [])
            end in
          let frm := address_from_topic (topic t 2) in
          let to := address_from_topic (topic t 3) in
          if nonempty wallet && (length ids =? length values)%nat
          then Ok {| acc_erc20_eth := acc_erc20_eth a;
                     acc_nft_moves := batch_loop wallet frm to addr (combine ids values) (acc_nft_moves a);
                     acc_eth_log_delta := acc_eth_log_delta a |}
          else Ok a
        else Ok a
      else if String.eqb t0 TOPIC_WETH_WITHDRAWAL && (2 <=? length t)%nat then
        let who := address_from_topic (topic t 1) in
        let* amt := h2i (lg_data lg) in
        if nonempty wallet && String.eqb who wallet && (0 <? amt)
        then Ok {| acc_erc20_eth := acc_erc20_eth a; acc_nft_moves := acc_nft_moves a;
                   acc_eth_log_delta := acc_eth_log_delta a + amt |}
        else Ok a
      else if String.eqb t0 TOPIC_WETH_DEPOSIT && (2 <=? length t)%nat then
        let who := address_from_topic (topic t 1) in
        let* amt := h2i (lg_data lg) in
        if nonempty wallet && String.eqb who wallet && (0 <? amt)
        then Ok {| acc_erc20_eth := acc_erc20_eth a; acc_nft_moves := acc_nft_moves a;
                   acc_eth_log_delta := acc_eth_log_delta a - amt |}
        else Ok a
      else Ok a
  end.

Fixpoint log_loop (w : World) (wallet : string) (a : Acc) (logs : list LogEntry) : result Acc :=
  match logs with
  | [] => Ok a
  | lg :: rest => let* a' := log_step w wallet a lg in log_loop w wallet a' rest
  end.

(** The loop over the internal transfers runs inside [try]: an exception
    leaves it with what was accumulated so far. *)
Fixpoint internals_loop (wallet : string) (itxs : list InternalTx) (delta : Z) : Z :=
  match itxs with
  | [] => delta
  | itx :: rest =>
      let frm := lower (str_or (itx_from itx) "") in
      let to := lower (str_or (itx_to itx) "") in
      match int10 (str_or (itx_value itx) "0") with
      | Raise _ => delta
      | Ok val =>
          if negb (nonempty wallet) || (val <=? 0) then internals_loop wallet rest delta
          else
            let delta := if String.eqb to wallet then delta + val else delta in
            let delta := if String.eqb frm wallet then delta - val else delta in
            internals_loop wallet rest delta
      end
  end.

(** ** traces *)

Fixpoint trace_loop (wl : string) (res : list Trace) (delta : Z) : Z :=
  match res with
  | [] => delta
  | tr :: rest =>
      if negb (match tr_type tr with Some ty => String.eqb ty "call" | None => false end)
      then trace_loop wl rest delta
      else
        let value := try_except (int16 (str_or (tr_value tr) "0x0")) 0 in
        if value =? 0 then trace_loop wl rest delta
        else
          let frm := lower (str_or (tr_from tr) "") in
          let to := lower (str_or (tr_to tr) "") in
          let delta := if nonempty wl && String.eqb to wl then delta + value else delta in
          let delta := if nonempty wl && String.eqb frm wl then delta - value else delta in
          trace_loop wl rest delta
  end.

Fixpoint trace_first (w : World) (urls : list string) (txhash wl : string) : option Z :=
  match urls with
  | [] => None
  | url :: rest =>
      match w_trace_transaction w url txhash with
      | Some res => Some (trace_loop wl res 0)
      | None => trace_first w rest txhash wl
      end
  end.

Definition trace_eth_delta (w : World) (txhash wallet : string) : option Z :=
  trace_first w LINEA_RPCS txhash (lower wallet).

(** ** the delta computation *)

Definition hex_tag (n : Z) : string := hex (Z.max n 0).

Definition get_balance (w : World) (addr tag_hex : string) : result string :=
  let* r := w_eth_getBalance w addr tag_hex in Ok (str_or r "0x0").

(** [h2i(rcpt.get("effectiveGasPrice")) or int(row.get("gasPrice") or "0")]:
    the row's price is read only when the receipt's is zero or missing. *)
Definition effective_price (row : RawTx) (rcpt : Receipt) : result Z :=
  let* p := h2i (rc_effectiveGasPrice rcpt) in
  if p =? 0 then int10 (str_or (r_gasPrice row) "0") else Ok p.

(** The body of the [try] of the balance-delta fallback, up to the value
    that is stored under ["eth"] when it is not zero. *)
Definition balance_delta (w : World) (row_tx : RawTx) (rcpt : Receipt) (wallet : string) : result Z :=
  let* bn := int10 (str_or (r_blockNumber row_tx) "0") in
  let before_hex := hex_tag (if 0 <? bn then bn - 1 else 0) in
  let after_hex := hex_tag bn in
  let* sb := get_balance w wallet before_hex in
  let* bal_before := h2i (Some sb) in
  let* sa := get_balance w wallet after_hex in
  let* bal_after := h2i (Some sa) in
  let eth_delta := bal_after - bal_before in
  if String.eqb (lower (str_or (r_from row_tx) "")) wallet then
    let* gas_used := h2i (rc_gasUsed rcpt) in
    let* eff_price := effective_price row_tx rcpt in
    let gas_cost := if negb (gas_used =? 0) && negb (eff_price =? 0) then gas_used * eff_price else 0 in
    Ok (eth_delta + gas_cost)
  else Ok eth_delta.

Definition compute_wallet_deltas (w : World) (row_tx : RawTx) (rcpt : Receipt) (wallet : string)
    (meta_hint : list (string * TokenMeta)) : result (list (string * Z) * list NftMove) :=
  let wallet := strip (lower wallet) in
  (* OUTER msg.value *)
  let outer_val := try_except (int10 (str_or (r_value row_tx) "0")) 0 in
  let eth_log_delta := 0 in
  let eth_log_delta :=
    if nonempty wallet && (0 <? outer_val) then
      let e := if String.eqb (lower (str_or (r_from row_tx) "")) wallet
               then eth_log_delta - outer_val else eth_log_delta in
      if String.eqb (lower (str_or (r_to row_tx) "")) wallet then e + outer_val else e
    else eth_log_delta in
  (* Logs: ERC20/721/1155 + WETH *)
  let* a := log_loop w wallet
              {| acc_erc20_eth := []; acc_nft_moves := []; acc_eth_log_delta := eth_log_delta |}
              (rc_logs rcpt) in
  (* Internals *)
  let eth_log_delta :=
    match r_hash row_tx with
    | None => acc_eth_log_delta a
    | Some h =>
        match w_txlistinternal w h with
        | Ok internals =>
            if match int_status internals with Some s => String.eqb s "1" | None => false end
            then internals_loop wallet (int_result internals) (acc_eth_log_delta a)
            else acc_eth_log_delta a
        | Raise _ => acc_eth_log_delta a
        end
    end in
  let erc20_eth :=
    if negb (eth_log_delta =? 0)
    then add_delta (acc_erc20_eth a) "eth" eth_log_delta
    else acc_erc20_eth a in
  (* trace fallback *)
  let* erc20_eth :=
    if negb (dict_mem erc20_eth "eth") then
      let* h := of_option KeyError (r_hash row_tx) in
      match trace_eth_delta w h wallet with
      | Some traced => if negb (traced =? 0) then Ok (dict_set erc20_eth "eth" traced) else Ok erc20_eth
      | None => Ok erc20_eth
      end
    else Ok erc20_eth in
  (* balance-delta fallback *)
  let erc20_eth :=
    if negb (dict_mem erc20_eth "eth") then
      match balance_delta w row_tx rcpt wallet with
      | Ok eth_delta => if negb (eth_delta =? 0) then dict_set erc20_eth "eth" eth_delta else erc20_eth
      | Raise _ => erc20_eth
      end
    else erc20_eth in
  Ok (erc20_eth, acc_nft_moves a).

(** ** stringify *)

(** The loop of [build_ft_strings] over [erc20_eth.items()]. *)
Fixpoint ft_loop (w : World) (meta_hint : list (string * TokenMeta))
    (items : list (string * Z)) (sent_items recv_items : list string)
    : result (list string * list string) :=
  match items with
  | [] => Ok (sent_items, recv_items)
  | (key, delta) :: rest =>
      if delta =? 0 then ft_loop w meta_hint rest sent_items recv_items
      else
        let* s :=
          if String.eqb key "eth" then Ok (format_token_display_signed delta 18 "ETH")
          else
            let* checksum := to_checksum_address w key in
            let sym := erc20_symbol w checksum meta_hint in
            let dec := erc20_decimals w checksum meta_hint sym in
            Ok (format_token_display_signed delta dec sym) in
        if delta <? 0
        then ft_loop w meta_hint rest (sent_items ++ [s])%list recv_items
        else ft_loop w meta_hint rest sent_items (recv_items ++ [s])%list
  end.

Definition build_ft_strings (w : World) (erc20_eth : list (string * Z))
    (meta_hint : list (string * TokenMeta)) : result (string * string) :=
  let* r := ft_loop w meta_hint erc20_eth [] [] in
  Ok (join "; " (fst r), join "; " (snd r)).

Fixpoint nft_loop (w : World) (meta_hint : list (string * TokenMeta))
    (moves : list NftMove) (parts : list string) : result (list string) :=
  match moves with
  | [] => Ok parts
  | (contract, token_id, qty) :: rest =>
      let* checksum := to_checksum_address w contract in
      (* Prefer collection NAME; fallback to SYMBOL; finally "UNKNOWN" *)
      let nm :=
        match w_token_name w (lower checksum) with
        | Some (String c r) => String c r
        | _ => match erc20_symbol w checksum meta_hint with
               | String c r => String c r
               | EmptyString => "UNKNOWN"
               end
        end in
      nft_loop w meta_hint rest (parts ++ [format_nft_signed nm token_id qty])%list
  end.

Definition build_nft_field (w : World) (nft_moves : list NftMove)
    (meta_hint : list (string * TokenMeta)) : result string :=
  let* parts := nft_loop w meta_hint nft_moves [] in
  Ok (join "; " parts).

(** ** decode one *)

Definition classify_from_balances (erc20_eth : list (string * Z)) : string :=
  let outs := length (List.filter (fun kv => snd kv <? 0) erc20_eth) in
  let ins := length (List.filter (fun kv => 0 <? snd kv) erc20_eth) in
  if (1 <=? outs)%nat && (1 <=? ins)%nat then "swap"
  else if (1 <=? outs)%nat && (ins =? 0)%nat then "add_liquidity"
  else if (outs =? 0)%nat && (1 <=? ins)%nat then "remove_liquidity"
  else "unknown".

(** [classify_from_topics(logs) or classify_from_balances(erc20_eth)]. *)
Definition action_type_of (logs : list LogEntry) (erc20_eth : list (string * Z)) : string :=
  match classify_from_topics logs with
  | Some (String c r) => String c r
  | _ => classify_from_balances erc20_eth
  end.

(** The dictionary that [decode_one_from_row] returns, a field per key. *)
Record OutRow : Type := {
  tx_hash : string;
  tx_timestamp : string;
  block_time : Z;
  type : string;
  from_address : string;
  to_address : string;
  amount_sent : string;
  amount_received : string;
  total_gas_eth : string;
  nft_transfere : string;
  _failed : bool
}.

(** The unix time of the row, with the two block lookups that replace a
    missing or zero [timeStamp]. *)
Definition resolve_ts_unix (w : World) (row : RawTx) : result Z :=
  let ts_unix := try_except (int10 (str_or (r_timeStamp row) "0")) 0 in
  if negb (ts_unix =? 0) then Ok ts_unix
  else
    let* block :=
      match r_blockHash row with
      | Some (String c r) => w_get_block_by_hash w (String c r)
      | _ => Ok None
      end in
    let* ts_unix :=
      match block with
      | Some b => h2i (blk_timestamp b)
      | None => Ok ts_unix
      end in
    if negb (ts_unix =? 0) then Ok ts_unix
    else
      match r_blockNumber row with
      | Some (String c r) =>
          let bn := String c r in
          let* tag := if isdigit bn then (let* n := int10 bn in Ok (hex n)) else Ok bn in
          let* block2 := w_get_block_by_number w tag in
          match block2 with
          | Some b => h2i (blk_timestamp b)
          | None => Ok ts_unix
          end
      | _ => Ok ts_unix
      end.

Definition decode_one_from_row (w : World) (WALLET_ADDRESS : string) (row : RawTx)
    (already_known : gset string) : result (option OutRow) :=
  let txh := str_or (r_hash row) (str_or (r_tx_hash row) "") in
  if String.eqb txh "" || bool_decide (txh ∈ already_known) then Ok None
  else
    let from_addr := decode_address w (r_from row) in
    let to_addr := decode_address w (r_to row) in
    let* rcpt := w_get_tx_receipt w txh in
    match rcpt with
    | None => Ok None
    | Some rcpt =>
        let status_hex := lower (str_or (rc_status rcpt) "") in
        let is_failed := String.eqb status_hex "0x0" in
        let* ts_unix := resolve_ts_unix w row in
        let* ts_iso := if negb (ts_unix =? 0) then w_strftime w ts_unix else Ok "" in
        let* gas_used := h2i (rc_gasUsed rcpt) in
        let* eff_price := effective_price row rcpt in
        let total_gas_eth :=
          if negb (gas_used =? 0) && negb (eff_price =? 0)
          then wei_str_eth (gas_used * eff_price)
          else fmt_amount 0 18 5 8 in
        if is_failed then
          Ok (Some {| tx_hash := txh;
                      tx_timestamp := ts_iso;
                      block_time := ts_unix;
                      type := "failed";
                      from_address := from_addr;
                      to_address := to_addr;
                      amount_sent := "";
                      amount_received := "";
                      total_gas_eth := total_gas_eth;
                      nft_transfere := "";
                      _failed := true |})
        else
          let* meta_hint := w_fetch_tokentx_metadata w txh in
          let* deltas := compute_wallet_deltas w row rcpt WALLET_ADDRESS meta_hint in
          let '(erc20_eth, nft_moves) := deltas in
          let action_type := action_type_of (rc_logs rcpt) erc20_eth in
          let* ft := build_ft_strings w erc20_eth meta_hint in
          let* nft_field := build_nft_field w nft_moves meta_hint in
          Ok (Some {| tx_hash := txh;
                      tx_timestamp := ts_iso;
                      block_time := ts_unix;
                      type := action_type;
                      from_address := from_addr;
                      to_address := to_addr;
                      amount_sent := fst ft;
                      amount_received := snd ft;
                      total_gas_eth := total_gas_eth;
                      nft_transfere := nft_field;
                      _failed := false |})
    end.

(** ** main: the ledger file *)

(** A value of a row dictionary: text, or the integer [block_time]. *)
Inductive pyval : Type :=
| VStr (s : string)
| VInt (n : Z).

(** [str(v)]: how the csv writer renders a field. *)
Definition csv_field (v : pyval) : string :=
  match v with
  | VStr s => s
  | VInt n => str_of_int n
  end.

(** [int(v)]. *)
Definition int_of_val (v : pyval) : result Z :=
  match v with
  | VInt n => Ok n
  | VStr s => int10 s
  end.

(** [v or d]: the empty string and zero are falsy. *)
Definition val_or (v : option pyval) (d : pyval) : pyval :=
  match v with
  | Some (VStr (String c s)) => VStr (String c s)
  | Some (VInt n) => if n =? 0 then d else VInt n
  | _ => d
  end.

(** The dictionary of a decoded row, once [main] has popped ["_failed"]. *)
Definition row_dict (r : OutRow) : list (string * pyval) :=
  [("tx_hash", VStr (tx_hash r));
   ("tx_timestamp", VStr (tx_timestamp r));
   ("block_time", VInt (block_time r));
   ("type", VStr (type r));
   ("from_address", VStr (from_address r));
   ("to_address", VStr (to_address r));
   ("amount_sent", VStr (amount_sent r));
   ("amount_received", VStr (amount_received r));
   ("total_gas_eth", VStr (total_gas_eth r));
   ("nft_transfere", VStr (nft_transfere r))].

(** The integer that [main] stores back under ["block_time"] before it
    sorts the rows: the value read, or 0 when it is missing, empty or not a
    number. *)
Definition block_time_of (r : list (string * pyval)) : Z :=
  match dict_get r "block_time" with
  | None => 0
  | Some (VStr EmptyString) => 0
  | Some v => try_except (int_of_val v) 0
  end.

Definition normalise_block_time (r : list (string * pyval)) : list (string * pyval) :=
  dict_set r "block_time" (VInt (block_time_of r)).

Definition cols : list string :=
  ["tx_hash"; "tx_timestamp"; "block_time"; "type";
   "from_address"; "to_address";
   "amount_sent"; "amount_received"; "total_gas_eth"; "nft_transfere"].

(** The dictionary that [main] hands to [w.writerow] for the row [r]. *)
Definition main_rowdict (r : list (string * pyval)) : result (list (string * pyval)) :=
  let* block_time := int_of_val (val_or (dict_get r "block_time") (VInt 0)) in
  Ok [("tx_hash", dict_get_default r "tx_hash" (VStr ""));
      ("tx_timestamp", dict_get_default r "tx_timestamp" (VStr ""));
      ("block_time", VInt block_time);
      ("type", dict_get_default r "type" (VStr "unknown"));
      ("from_address", dict_get_default r "from_address" (VStr ""));
      ("to_address", dict_get_default r "to_address" (VStr ""));
      ("amount_sent", dict_get_default r "amount_sent" (VStr ""));
      ("amount_received", dict_get_default r "amount_received" (VStr ""));
      ("total_gas_eth", dict_get_default r "total_gas_eth" (VStr (fmt_amount 0 18 5 8)));
      ("nft_transfere", dict_get_default r "nft_transfere" (VStr ""))].

(** [csv.DictWriter(f, fieldnames).writerow(rowdict)]: a key outside
    [fieldnames] is a [ValueError]; the record has one field per name, in
    the order of [fieldnames], empty where the dictionary has no entry. *)
Definition DictWriter_writerow (fieldnames : list string) (rowdict : list (string * pyval))
    : result (list string) :=
  if forallb (fun kv => existsb (String.eqb (fst kv)) fieldnames) rowdict
  then Ok (map (fun k => csv_field (dict_get_default rowdict k (VStr ""))) fieldnames)
  else Raise ValueError.

(** The loop [for r in out_rows: w.writerow({...})] of [main]. *)
Fixpoint write_main_rows (out_rows : list (list (string * pyval))) : result (list (list string)) :=
  match out_rows with
  | [] => Ok []
  | r :: rest =>
      let* rowdict := main_rowdict r in
      let* line := DictWriter_writerow cols rowdict in
      let* lines := write_main_rows rest in
      Ok (line :: lines)
  end.

(** The records of the written ledger: the header, then the rows, whose
    [block_time] has been normalised and which have been sorted. *)
Definition write_ledger (out_rows : list (list (string * pyval))) : result (list (list string)) :=
  let* lines := write_main_rows out_rows in
  Ok (cols :: lines).

(** [writer.writerows(rows)]. *)
Fixpoint write_rows (fieldnames : list string) (rows : list (list (string * pyval)))
    : result (list (list string)) :=
  match rows with
  | [] => Ok []
  | r :: rest =>
      let* line := DictWriter_writerow fieldnames r in
      let* lines := write_rows fieldnames rest in
      Ok (line :: lines)
  end.

(** ** main: the decoding loop *)

(** The rows of the raw file that [main] keeps as [pending]. *)
Definition pending_rows (rows : list RawTx) (already : gset string) : list RawTx :=
  List.filter
    (fun row =>
       let txh := str_or (r_hash row) (str_or (r_tx_hash row) "") in
       negb (String.eqb txh "") && negb (bool_decide (txh ∈ already)))
    rows.

(** The loop of [main] over [pending].  [already] is the set that
    [decode_one_from_row] consults and that the loop extends, so that a
    hash decoded earlier in the run is known; an exception of the decoding
    is logged and the row is skipped. *)
Fixpoint decode_loop (w : World) (WALLET_ADDRESS : string) (pending : list RawTx)
    (already : gset string) (new_rows : list OutRow) (succ_cnt fail_cnt : Z)
    : gset string * list OutRow * Z * Z :=
  match pending with
  | [] => (already, new_rows, succ_cnt, fail_cnt)
  | row :: rest =>
      let txh := str_or (r_hash row) (str_or (r_tx_hash row) "") in
      match decode_one_from_row w WALLET_ADDRESS row already with
      | Ok (Some decoded) =>
          let already := {[txh]} ∪ already in
          if _failed decoded
          then decode_loop w WALLET_ADDRESS rest already (new_rows ++ [decoded])%list
                 succ_cnt (fail_cnt + 1)
          else decode_loop w WALLET_ADDRESS rest already (new_rows ++ [decoded])%list
                 (succ_cnt + 1) fail_cnt
      | _ => decode_loop w WALLET_ADDRESS rest already new_rows succ_cnt fail_cnt
      end
  end.

(** ** main: the rows of the ledger *)

(** The loop of [main] over the rows of the decoded file, as
    [csv.DictReader] yields them: a row without hash is skipped, the others
    are stored under their hash with the block time as a number (0 when it
    is empty or malformed). *)
Fixpoint load_existing (rows : list (list (string * string)))
    (existing : list (string * list (string * pyval))) (already : gset string)
    : list (string * list (string * pyval)) * gset string :=
  match rows with
  | [] => (existing, already)
  | row :: rest =>
      match dict_get row "tx_hash" with
      | Some (String c s) =>
          let txh := String c s in
          let block_time :=
            try_except
              (int_of_val (val_or (option_map VStr (dict_get row "block_time")) (VInt 0))) 0 in
          let row := dict_set (map (fun kv => (fst kv, VStr (snd kv))) row)
                       "block_time" (VInt block_time) in
          load_existing rest (dict_set existing txh row) ({[txh]} ∪ already)
      | _ => load_existing rest existing already
      end
  end.

(** [merged = dict(existing)], then [merged[r["tx_hash"]] = r] for every
    new row. *)
Definition merge_rows (existing : list (string * list (string * pyval)))
    (new_rows : list OutRow) : list (string * list (string * pyval)) :=
  fold_left (fun merged r => dict_set merged (tx_hash r) (row_dict r)) new_rows existing.

(** [main], up to the rows that it normalises, sorts and writes; [None]
    when there is nothing new to decode and the file is left as it is. *)
Definition main_out_rows (w : World) (WALLET_ADDRESS : string)
    (decoded_file : list (list (string * string))) (raw_file : list RawTx)
    : option (list (list (string * pyval))) :=
  let '(existing, already) := load_existing decoded_file [] ∅ in
  let pending := pending_rows raw_file already in
  match pending with
  | [] => None
  | _ =>
      let '(_, new_rows, _, _) := decode_loop w WALLET_ADDRESS pending already [] 0 0 in
      Some (map snd (merge_rows existing new_rows))
  end.

End A01.

(* ===================================================================== *)
(** * A02_onchain_price_WETH_WBTC.py                                      *)
(* ===================================================================== *)

Module A02.

(** What the script reads through [web3]: the block headers (the list holds
    the timestamp of block [n] at index [n], the last one being the head),
    the pool's [slot0()] and [getReserves()] at a block. *)
Record Web3 : Type := {
  w3_blocks : list Z;
  w3_call_slot0 : Z -> result (option (list Byte.byte));
  w3_getReserves : Z -> result (Z * Z * Z)
}.

(** [w3.eth.block_number]. *)
Definition block_number (w3 : Web3) : Z := Z.of_nat (length (w3_blocks w3)) - 1.

(** [w3.eth.get_block(num).timestamp]; a block that does not exist raises. *)
Definition get_block_timestamp (w3 : Web3) (num : Z) : result Z :=
  if num <? 0 then Raise BlockNotFound
  else of_option BlockNotFound (nth_error (w3_blocks w3) (Z.to_nat num)).

(** ** Faster block finding with cache *)

Record BlockFinder : Type := {
  _cache_by_minute : gmap Z Z;
  _latest_num : option Z;
  _latest_ts : option Z;
  rpc_calls : Z
}.

(** [BlockFinder(w3)]. *)
Definition BlockFinder_init : BlockFinder :=
  {| _cache_by_minute := ∅; _latest_num := None; _latest_ts := None; rpc_calls := 0 |}.

(** A method of the finder: it returns or raises, and leaves the object in
    a new state either way. *)
Definition M (A : Type) : Type := BlockFinder -> result A * BlockFinder.

Definition ret {A : Type} (a : A) : M A := fun bf => (Ok a, bf).

Definition raise {A : Type} (e : exn) : M A := fun bf => (Raise e, bf).

Definition bindM {A B : Type} (m : M A) (k : A -> M B) : M B :=
  fun bf =>
    match m bf with
    | (Ok a, bf') => k a bf'
    | (Raise e, bf') => (Raise e, bf')
    end.

Notation "'do*' x ':=' m 'in' k" := (bindM m (fun x => k))
  (at level 10, x name, m at level 100, k at level 200).

Definition _get_block (w3 : Web3) (num : Z) : M Z :=
  fun bf =>
    match get_block_timestamp w3 num with
    | Ok ts =>
        (Ok ts, {| _cache_by_minute := _cache_by_minute bf;
                   _latest_num := _latest_num bf;
                   _latest_ts := _latest_ts bf;
                   rpc_calls := rpc_calls bf + 1 |})
    | Raise e => (Raise e, bf)
    end.

Definition set_latest_num (n : Z) : M unit :=
  fun bf =>
    (Ok tt, {| _cache_by_minute := _cache_by_minute bf;
               _latest_num := Some n;
               _latest_ts := _latest_ts bf;
               rpc_calls := rpc_calls bf |}).

Definition set_latest_ts (ts : Z) : M unit :=
  fun bf =>
    (Ok tt, {| _cache_by_minute := _cache_by_minute bf;
               _latest_num := _latest_num bf;
               _latest_ts := Some ts;
               rpc_calls := rpc_calls bf |}).

(** [self._cache_by_minute[key] = ans]. *)
Definition cache_store (key ans : Z) : M unit :=
  fun bf =>
    (Ok tt, {| _cache_by_minute := <[key := ans]> (_cache_by_minute bf);
               _latest_num := _latest_num bf;
               _latest_ts := _latest_ts bf;
               rpc_calls := rpc_calls bf |}).

(** Returns the memoised head [(latest_num, latest_ts)]. *)
Definition _ensure_latest (w3 : Web3) : M (Z * Z) :=
  fun bf =>
    match _latest_num bf with
    | None =>
        (do* _u := set_latest_num (block_number w3) in
         do* ts := _get_block w3 (block_number w3) in
         do* _v := set_latest_ts ts in
         ret (block_number w3, ts)) bf
    | Some n =>
        match _latest_ts bf with
        | Some ts => (Ok (n, ts), bf)
        | None => (Raise TypeError, bf)
        end
    end.

(** The [while low <= high] loop of [_binary_search]. *)
Fixpoint bs_loop (fuel : nat) (w3 : Web3) (target_ts latest_num low high : Z) : M Z :=
  match fuel with
  | O => if low <=? high then raise FuelExhausted else ret (Z.max 1 high)
  | S fuel' =>
      if low <=? high then
        let mid := (low + high) / 2 in
        do* ts := _get_block w3 mid in
        if target_ts <? ts then bs_loop fuel' w3 target_ts latest_num low (mid - 1)
        else
          do* nts := _get_block w3 (Z.min (mid + 1) latest_num) in
          if target_ts <? nts then ret mid
          else bs_loop fuel' w3 target_ts latest_num (mid + 1) high
      else ret (Z.max 1 high)
  end.

Definition _binary_search (w3 : Web3) (target_ts : Z) : M Z :=
  do* latest := _ensure_latest w3 in
  let '(latest_num, latest_ts) := latest in
  if latest_ts <=? target_ts then ret latest_num
  else bs_loop (Z.to_nat latest_num) w3 target_ts latest_num 1 latest_num.

(** The forward scan from the hint: [n] is the number of probes that
    [local_step_limit] still allows; the result is [(cur, b.timestamp)]. *)
Fixpoint scan_loop (n : nat) (w3 : Web3) (target_ts cur ts : Z) : M (Z * Z) :=
  match n with
  | O => ret (cur, ts)
  | S n' =>
      if (ts <=? target_ts) && (cur <? block_number w3) then
        do* ts' := _get_block w3 (cur + 1) in
        scan_loop n' w3 target_ts (cur + 1) ts'
      else ret (cur, ts)
  end.

Definition truthy (x : option Z) : option Z :=
  match x with
  | Some v => if v =? 0 then None else Some v
  | None => None
  end.

Definition find_before (w3 : Web3) (target_ts : Z) (hint_block : option Z)
    (local_step_limit : Z) : M Z :=
  fun bf =>
    let key := (target_ts / 60) * 60 in
    match truthy (_cache_by_minute bf !! key) with
    | Some hit => (Ok hit, bf)
    | None =>
        let fallback : M Z :=
          do* ans := _binary_search w3 target_ts in
          do* _u := cache_store key ans in
          ret ans in
        match truthy hint_block with
        | Some hint =>
            (let cur := Z.max 1 hint in
             do* ts := _get_block w3 cur in
             do* r := scan_loop (Z.to_nat local_step_limit) w3 target_ts cur ts in
             let '(cur, ts) := r in
             if target_ts <? ts then
               let ans := Z.max 1 (cur - 1) in
               do* _u := cache_store key ans in
               ret ans
             else fallback) bf
        | None => fallback bf
        end
    end.

(** ** Precision *)

(** [getcontext().prec = 60]: the precision of the decimal context of the
    thread that loads the script. *)
Definition PREC : Z := 60.

(** A decimal context belongs to one thread, and a thread that sets none
    computes with a copy of [decimal.DefaultContext], whose precision is 28.
    [run_incremental] submits [process_row] to the threads of a
    [ThreadPoolExecutor], which set none; [get_ratios_at_block] and
    [extract_eth_wbtc_ratios] are called from [process_row] only. *)
Definition WORKER_PREC : Z := 28.

(** ** Ratios *)

(** The functions that compute with [Decimal] take the precision [prec] of
    the context of the thread that calls them. *)

(** [Q96 = Decimal(2) ** 96], computed once, when the script is loaded. *)
Definition Q96 : Q := Dec.pow PREC (inject_Z 2) 96.

Definition price_from_sqrtPriceX96 (prec : Z) (sqrtPriceX96 : Z) : result Q :=
  let sp := inject_Z sqrtPriceX96 in
  Dec.div prec (Dec.mul prec sp sp) (Dec.mul prec Q96 Q96).

Definition read_v3_sqrtPriceX96_raw (w3 : Web3) (block_tag : Z) : result Z :=
  let* r := w3_call_slot0 w3 block_tag in
  match r with
  | None => Raise RuntimeError
  | Some bytes =>
      if (length bytes <? 32)%nat then Raise RuntimeError
      else
        let sqrt := int_from_bytes (firstn 32 bytes) in
        if sqrt =? 0 then Raise RuntimeError else Ok sqrt
  end.

(** The pool metadata resolved by [detect_pool_type_and_meta]. *)
Record Meta : Type := {
  t0 : string; t1 : string;
  d0 : Z; s0 : string;
  d1 : Z; s1 : string
}.

(** The two ratios computed by [get_ratios_at_block], as
    [(eth_per_wbtc, wbtc_per_eth)]. *)
Definition ratios_at_block (prec : Z) (w3 : Web3) (pool_type : string) (meta : Meta)
    (block_tag : Z) : result (Q * Q) :=
  if String.eqb pool_type "v3" then
    let* sqrtPriceX96 := read_v3_sqrtPriceX96_raw w3 block_tag in
    let* price1_per_0_raw := price_from_sqrtPriceX96 prec sqrtPriceX96 in
    let adj := Dec.pow prec (inject_Z 10) (d0 meta - d1 meta) in
    let eth_per_wbtc := Dec.mul prec price1_per_0_raw adj in
    let* wbtc_per_eth := Dec.div prec 1 eth_per_wbtc in
    Ok (eth_per_wbtc, wbtc_per_eth)
  else
    let* reserves := w3_getReserves w3 block_tag in
    let '(r0, r1, _) := reserves in
    let* q := Dec.div prec (inject_Z r1) (inject_Z r0) in
    let eth_per_wbtc := Dec.mul prec q (Dec.pow prec (inject_Z 10) (d0 meta - d1 meta)) in
    let* wbtc_per_eth := Dec.div prec 1 eth_per_wbtc in
    Ok (eth_per_wbtc, wbtc_per_eth).

(** The returned dictionary [{"ratios": {s0/s1: ..., s1/s0: ...}}]. *)
Definition get_ratios_at_block (prec : Z) (w3 : Web3) (pool_type : string) (meta : Meta)
    (block_tag : Z) : result (list (string * Q)) :=
  let* r := ratios_at_block prec w3 pool_type meta block_tag in
  let '(eth_per_wbtc, wbtc_per_eth) := r in
  Ok (dict_set (dict_set [] (s0 meta ++ "/" ++ s1 meta) wbtc_per_eth)
               (s1 meta ++ "/" ++ s0 meta) eth_per_wbtc).

(** ** CSV workflow *)

Definition INPUT_FIELDS : list string :=
  ["tx_hash"; "tx_timestamp"; "block_time"; "type";
   "from_address"; "to_address";
   "amount_sent"; "amount_received"; "total_gas_eth"; "nft_transfere"].

Definition OUTPUT_FIELDS : list string :=
  (INPUT_FIELDS ++ ["weth_per_wbtc"; "wbtc_per_weth"])%list.

(** [{k: r.get(k, "") for k in OUTPUT_FIELDS}], the rows that
    [run_incremental] merges and writes. *)
Definition clean_row (r : list (string * string)) : list (string * A01.pyval) :=
  map (fun k => (k, A01.VStr (dict_get_default r k ""))) OUTPUT_FIELDS.

(** [write_all_atomic]: the header and one record per row. *)
Definition write_all_atomic (rows : list (list (string * A01.pyval)))
    : result (list (list string)) :=
  let* lines := A01.write_rows OUTPUT_FIELDS rows in
  Ok (OUTPUT_FIELDS :: lines).

(** ** Processing core *)

(** The loop of [extract_eth_wbtc_ratios] over [ratios.items()], with the
    two results found so far; unpacking [up.split("/")] into two names
    raises unless there are exactly two parts. *)
Fixpoint extract_loop (items : list (string * Q)) (weth_per_wbtc wbtc_per_weth : option Q)
    : result (option Q * option Q) :=
  match items with
  | [] => Ok (weth_per_wbtc, wbtc_per_weth)
  | (pair_key, val) :: rest =>
      let up := upper pair_key in
      if (contains "ETH" up || contains "WETH" up) && contains "WBTC" up then
        match split_char "/" up with
        | [lhs; rhs] =>
            let weth_per_wbtc :=
              if (contains "ETH" lhs || contains "WETH" lhs) && contains "WBTC" rhs
              then Some val else weth_per_wbtc in
            let wbtc_per_weth :=
              if contains "WBTC" lhs && (contains "ETH" rhs || contains "WETH" rhs)
              then Some val else wbtc_per_weth in
            extract_loop rest weth_per_wbtc wbtc_per_weth
        | _ => Raise ValueError
        end
      else extract_loop rest weth_per_wbtc wbtc_per_weth
  end.

Definition extract_eth_wbtc_ratios (prec : Z) (ratios : list (string * Q)) : result (Q * Q) :=
  let* found := extract_loop ratios None None in
  let '(weth_per_wbtc, wbtc_per_weth) := found in
  let* weth_per_wbtc :=
    match weth_per_wbtc, wbtc_per_weth with
    | None, Some x => let* v := Dec.div prec 1 x in Ok (Some v)
    | _, _ => Ok weth_per_wbtc
    end in
  let* wbtc_per_weth :=
    match wbtc_per_weth, weth_per_wbtc with
    | None, Some x => let* v := Dec.div prec 1 x in Ok (Some v)
    | _, _ => Ok wbtc_per_weth
    end in
  match weth_per_wbtc, wbtc_per_weth with
  | Some a, Some b => Ok (a, b)
  | _, _ => Raise RuntimeError
  end.

(** ** Runner *)

(** [existing_hashes]: the lower-cased hashes of the rows that have one. *)
Definition existing_hashes (existing_rows : list (list (string * string))) : gset string :=
  list_to_set
    (map (fun r => lower (str_or (dict_get r "tx_hash") ""))
       (List.filter (fun r => negb (String.eqb (str_or (dict_get r "tx_hash") "") ""))
          existing_rows)).

(** The first loop of [run_incremental] over [raw_rows]: it counts the rows
    that are [already] priced and collects in [todo_rows] the first row of
    every other hash, remembering the hashes in [seen_this_batch]. *)
Fixpoint todo_loop (done_hashes : gset string) (raw_rows : list (list (string * string)))
    (already : Z) (seen_this_batch : gset string) (todo_rows : list (list (string * string)))
    : Z * list (list (string * string)) :=
  match raw_rows with
  | [] => (already, todo_rows)
  | r :: rest =>
      let h := lower (str_or (dict_get r "tx_hash") "") in
      if String.eqb h "" then todo_loop done_hashes rest already seen_this_batch todo_rows
      else if bool_decide (h ∈ done_hashes)
      then todo_loop done_hashes rest (already + 1) seen_this_batch todo_rows
      else if bool_decide (h ∈ seen_this_batch)
      then todo_loop done_hashes rest already seen_this_batch todo_rows
      else todo_loop done_hashes rest already ({[h]} ∪ seen_this_batch) (todo_rows ++ [r])%list
  end.

(** ** Sorting by transaction time *)

(** [parse_tx_time_to_utc], up to the unix time of the result: [dtparse]
    stands for [dateutil]'s parser with the script's time zones and its
    fallback, and gives [None] when the parser raises; a value that is not
    text makes it raise. *)
Definition parse_tx_time_to_utc (dtparse : string -> option Z) (s : A01.pyval) : option Z :=
  match s with
  | A01.VStr s => if String.eqb s "" then None else dtparse s
  | A01.VInt _ => None
  end.

Definition parse_tx_time_for_sort (dtparse : string -> option Z) (s : A01.pyval) : Z :=
  match parse_tx_time_to_utc dtparse s with
  | Some t => t
  | None => 0
  end.

(** [r["_sort_ts"]], which the sort reads back after the loop before it
    has stored an integer there. *)
Definition sort_ts_of (r : list (string * A01.pyval)) : Z :=
  match dict_get r "_sort_ts" with
  | Some (A01.VInt n) => n
  | _ => 0
  end.

(** The three steps with which [run_incremental] orders the rows it
    writes: store [_sort_ts], sort on it from latest to oldest, drop it. *)
Definition sort_latest_first (dtparse : string -> option Z)
    (rows : list (list (string * A01.pyval))) : list (list (string * A01.pyval)) :=
  let rows :=
    map (fun r =>
           dict_set r "_sort_ts"
             (A01.VInt (parse_tx_time_for_sort dtparse
                          (dict_get_default r "tx_timestamp" (A01.VStr "")))))
        rows in
  let rows := sort_reverse Z.ltb sort_ts_of rows in
  map (fun r => dict_pop r "_sort_ts") rows.

End A02.

(* ===================================================================== *)
(** * Sample collaborators and inputs                                     *)
(* ===================================================================== *)

(** Concrete collaborators on which the definitions above are run. *)

Module Samples.

(** ** An ABI decoder for [(uint256[], uint256[])] *)

(** The head holds the two offsets of the arrays; an array is its length
    followed by its elements, all as 32-byte big-endian words.  Reading
    outside the payload fails. *)
Definition word_at (bs : list Byte.byte) (off : Z) : option Z :=
  if (off <? 0) || (Z.of_nat (length bs) <? off + 32) then None
  else Some (int_from_bytes (firstn 32 (skipn (Z.to_nat off) bs))).

Fixpoint read_words (n : nat) (bs : list Byte.byte) (off : Z) : option (list Z) :=
  match n with
  | O => Some []
  | S n' =>
      match word_at bs off, read_words n' bs (off + 32) with
      | Some x, Some xs => Some (x :: xs)
      | _, _ => None
      end
  end.

Definition read_array (bs : list Byte.byte) (off : Z) : option (list Z) :=
  match word_at bs off with
  | Some len =>
      if Z.of_nat (length bs) <? off + 32 + 32 * len then None
      else read_words (Z.to_nat len) bs (off + 32)
  | None => None
  end.

Definition abi_decode_arrays (bs : list Byte.byte) : option (list Z * list Z) :=
  match word_at bs 0, word_at bs 32 with
  | Some o1, Some o2 =>
      match read_array bs o1, read_array bs o2 with
      | Some ids, Some values => Some (ids, values)
      | _, _ => None
      end
  | _, _ => None
  end.

(** ** A world without network answers *)

(** No receipt, block, trace or metadata is found, balances are absent and
    the explorer reports no internal transfer; addresses keep their lower
    case and times are shown as their number. *)
Definition quiet_world : A01.World :=
  {| A01.w_get_tx_receipt := fun _ => Ok None;
     A01.w_get_block_by_hash := fun _ => Ok None;
     A01.w_get_block_by_number := fun _ => Ok None;
     A01.w_eth_getBalance := fun _ _ => Ok None;
     A01.w_txlistinternal := fun _ => Ok {| A01.int_status := Some "0"; A01.int_result := [] |};
     A01.w_trace_transaction := fun _ _ => None;
     A01.w_fetch_tokentx_metadata := fun _ => Ok [];
     A01.w_symbol_lookup := fun _ => "UNKNOWN";
     A01.w_decimals_lookup := fun _ _ => 18;
     A01.w_token_name := fun _ => None;
     A01.w_abi_decode_arrays := abi_decode_arrays;
     A01.w_eip55 := fun a => a;
     A01.w_strftime := fun ts => Ok (str_of_int ts) |}.

(** The quiet world in which every transaction has the receipt [rcpt]. *)
Definition world_with_receipt (rcpt : A01.Receipt) : A01.World :=
  {| A01.w_get_tx_receipt := fun _ => Ok (Some rcpt);
     A01.w_get_block_by_hash := A01.w_get_block_by_hash quiet_world;
     A01.w_get_block_by_number := A01.w_get_block_by_number quiet_world;
     A01.w_eth_getBalance := A01.w_eth_getBalance quiet_world;
     A01.w_txlistinternal := A01.w_txlistinternal quiet_world;
     A01.w_trace_transaction := A01.w_trace_transaction quiet_world;
     A01.w_fetch_tokentx_metadata := A01.w_fetch_tokentx_metadata quiet_world;
     A01.w_symbol_lookup := A01.w_symbol_lookup quiet_world;
     A01.w_decimals_lookup := A01.w_decimals_lookup quiet_world;
     A01.w_token_name := A01.w_token_name quiet_world;
     A01.w_abi_decode_arrays := A01.w_abi_decode_arrays quiet_world;
     A01.w_eip55 := A01.w_eip55 quiet_world;
     A01.w_strftime := A01.w_strftime quiet_world |}.

(** ** Addresses, topics and payloads *)

Definition wallet : string := "0x42fd11266e2b05e7a86576774049f6faab6582e9".
Definition other : string := "0x6131b5fae19ea4f9d964eac0408e4408b66337b5".
Definition token : string := "0xa04a9f0a961f8fcc4a94bcf53e676b236cbb2f58".

Definition zeros24 : string := "000000000000000000000000".

(** An address as an indexed topic: left-padded to 32 bytes. *)
Definition topic_of (addr : string) : string := "0x" ++ zeros24 ++ drop 2 addr.

(** A 32-byte word in hexadecimal, without prefix. *)
Definition word (n : Z) : string :=
  let digits := drop 2 (hex n) in
  repeat_char "0" (64 - String.length digits) ++ digits.

(** The ABI encoding of two arrays of two elements each. *)
Definition batch_data (i1 i2 v1 v2 : Z) : string :=
  "0x" ++ word 64 ++ word 160
       ++ word 2 ++ word i1 ++ word i2
       ++ word 2 ++ word v1 ++ word v2.

(** Two ids and a single value: arrays of different lengths. *)
Definition batch_data_mismatch (i1 i2 v1 : Z) : string :=
  "0x" ++ word 64 ++ word 160
       ++ word 2 ++ word i1 ++ word i2
       ++ word 1 ++ word v1.

Definition batch_log (operator frm to data : string) : A01.LogEntry :=
  {| A01.lg_address := Some token;
     A01.lg_topics := [A01.TOPIC_TRANSFER_BATCH; topic_of operator; topic_of frm; topic_of to];
     A01.lg_data := Some data |}.

Definition receipt_of (status : string) (logs : list A01.LogEntry) : A01.Receipt :=
  {| A01.rc_status := Some status;
     A01.rc_logs := logs;
     A01.rc_gasUsed := Some "0x5208";
     A01.rc_effectiveGasPrice := Some "0x3b9aca00" |}.

(** A row of the raw ledger: [value] wei sent from [frm] to [to]. *)
Definition row_of (frm to value : string) : A01.RawTx :=
  {| A01.r_hash := Some "0xfaa5d0088a7151b70f7f9771f6415b85f259aed478df9059a5d71d498500a6b8";
     A01.r_tx_hash := None;
     A01.r_from := Some frm;
     A01.r_to := Some to;
     A01.r_value := Some value;
     A01.r_blockNumber := Some "1000";
     A01.r_blockHash := None;
     A01.r_timeStamp := Some "1755631388";
     A01.r_gasPrice := Some "1000000000" |}.

(** ** Malformed logs *)

(** An ERC-721 transfer to the wallet whose token-id topic is not
    hexadecimal. *)
Definition malformed_erc721_log : A01.LogEntry :=
  {| A01.lg_address := Some token;
     A01.lg_topics := [A01.TOPIC_TRANSFER; topic_of other; topic_of wallet; "0xzz"];
     A01.lg_data := Some "0x" |}.

(** An ERC-1155 single transfer whose 64-byte payload is not hexadecimal. *)
Definition malformed_single_log : A01.LogEntry :=
  {| A01.lg_address := Some token;
     A01.lg_topics := [A01.TOPIC_TRANSFER_SINGLE; topic_of other; topic_of other; topic_of wallet];
     A01.lg_data := Some ("0x" ++ repeat_char "z" 128) |}.

(** A wrapped-native deposit whose amount is not hexadecimal. *)
Definition malformed_deposit_log : A01.LogEntry :=
  {| A01.lg_address := Some token;
     A01.lg_topics := [A01.TOPIC_WETH_DEPOSIT; topic_of wallet];
     A01.lg_data := Some "0xzz" |}.

(** The same payloads on the guarded paths: an ERC-20 transfer and an
    ERC-1155 batch transfer. *)
Definition malformed_erc20_log : A01.LogEntry :=
  {| A01.lg_address := Some token;
     A01.lg_topics := [A01.TOPIC_TRANSFER; topic_of other; topic_of wallet];
     A01.lg_data := Some "0xzz" |}.

Definition malformed_batch_log : A01.LogEntry :=
  batch_log other other wallet "0xzz".

(** The accumulator before the first log. *)
Definition empty_acc : A01.Acc :=
  {| A01.acc_erc20_eth := []; A01.acc_nft_moves := []; A01.acc_eth_log_delta := 0 |}.

(** An ERC-20 transfer of [amount_hex] units of [token]. *)
Definition erc20_log (frm to amount_hex : string) : A01.LogEntry :=
  {| A01.lg_address := Some token;
     A01.lg_topics := [A01.TOPIC_TRANSFER; topic_of frm; topic_of to];
     A01.lg_data := Some amount_hex |}.

(** The wallet pays 2 native units and receives 46.78194 units of [token];
    a second transfer of the token moves nothing to or from the wallet. *)
Definition swap_receipt : A01.Receipt :=
  receipt_of "0x1"
    [erc20_log other wallet ("0x" ++ word 46781940000000000000);
     erc20_log other other ("0x" ++ word 5)].

Definition swap_row : A01.RawTx := row_of wallet other "2000000000000000000".

(** A reverted transaction whose receipt carries logs, one of them
    malformed. *)
Definition failed_receipt : A01.Receipt :=
  receipt_of "0x0" [malformed_erc721_log; erc20_log other wallet ("0x" ++ word 5)].

(** A reverted transaction whose receipt has no effective gas price, as
    nodes answered before the fee market: the price of the row is used. *)
Definition failed_receipt_without_price : A01.Receipt :=
  {| A01.rc_status := Some "0x0";
     A01.rc_logs := [malformed_erc721_log];
     A01.rc_gasUsed := Some "0x5208";
     A01.rc_effectiveGasPrice := None |}.

(** A reverted transaction whose receipt gives its gas as text that is not
    hexadecimal. *)
Definition failed_receipt_bad_gas : A01.Receipt :=
  {| A01.rc_status := Some "0x0";
     A01.rc_logs := [];
     A01.rc_gasUsed := Some "0xzz";
     A01.rc_effectiveGasPrice := Some "0x3b9aca00" |}.

(** ** Chains *)

(** A chain given by the timestamps of its blocks, without a pool. *)
Definition chain_of (blocks : list Z) : A02.Web3 :=
  {| A02.w3_blocks := blocks;
     A02.w3_call_slot0 := fun _ => Raise RuntimeError;
     A02.w3_getReserves := fun _ => Raise RuntimeError |}.

Fixpoint nondecreasing (l : list Z) : bool :=
  match l with
  | [] => true
  | x :: rest => forallb (Z.leb x) rest && nondecreasing rest
  end.

(** Blocks 1, 2 and 3 fall in the same minute. *)
Definition minute_chain : A02.Web3 := chain_of [0; 60; 70; 80].

(** A block every hundred seconds. *)
Definition sparse_chain : A02.Web3 := chain_of [0; 100; 200; 300; 400; 500].

(** ** A pool *)

(** The answer of [slot0()]: the square-root price in the first word. *)
Definition slot0_answer (sqrtPriceX96 : Z) : option (list Byte.byte) :=
  A01.bytes_fromhex (word sqrtPriceX96 ++ word 0).

(** A concentrated-liquidity pool whose slot holds [sqrtPriceX96] at every
    block. *)
Definition pool_chain (sqrtPriceX96 : Z) : A02.Web3 :=
  {| A02.w3_blocks := [0; 60; 70; 80];
     A02.w3_call_slot0 := fun _ => Ok (slot0_answer sqrtPriceX96);
     A02.w3_getReserves := fun _ => Raise RuntimeError |}.

Definition pool_meta : A02.Meta :=
  {| A02.t0 := other; A02.t1 := token;
     A02.d0 := 18; A02.s0 := "WETH";
     A02.d1 := 6; A02.s1 := "USDC" |}.

(** A square-root price: 3.5 * 2^96 / 10^6, rounded down. *)
Definition sample_sqrt_price : Z := 277298568799925181577403.

(** ** Rows, transfers and ledgers for the decoder *)

(** A row of the raw ledger that carries its hash under [tx_hash] only. *)
Definition row_without_hash : A01.RawTx :=
  {| A01.r_hash := None;
     A01.r_tx_hash := Some "0xfaa5d0088a7151b70f7f9771f6415b85f259aed478df9059a5d71d498500a6b8";
     A01.r_from := Some wallet;
     A01.r_to := Some other;
     A01.r_value := Some "2000000000000000000";
     A01.r_blockNumber := Some "1000";
     A01.r_blockHash := None;
     A01.r_timeStamp := Some "1755631388";
     A01.r_gasPrice := Some "1000000000" |}.

(** An internal transfer to the wallet whose value is not a decimal
    number, and a call trace to the wallet whose value is not hexadecimal. *)
Definition internal_to_wallet (value : string) : A01.InternalTx :=
  {| A01.itx_from := Some other; A01.itx_to := Some wallet; A01.itx_value := Some value |}.

Definition trace_to_wallet (value : string) : A01.Trace :=
  {| A01.tr_type := Some "call";
     A01.tr_value := Some value;
     A01.tr_from := Some other;
     A01.tr_to := Some wallet |}.

(** A log that carries the swap signature of a concentrated-liquidity
    pool and nothing else. *)
Definition swap_event_log : A01.LogEntry :=
  {| A01.lg_address := Some token;
     A01.lg_topics := [A01.TOPIC_SWAP_V3];
     A01.lg_data := Some "0x" |}.

(** A decoded ledger with one row, as [csv.DictReader] yields it. *)
Definition decoded_file : list (list (string * string)) :=
  [[("tx_hash", "0x00000000000000000000000000000000000000000000000000000000000000aa");
    ("tx_timestamp", "2025-08-01 10:00:00");
    ("block_time", "1754042400");
    ("type", "unknown")]].

(** ** Rows of the price ledger *)

(** A stand-in for the date parser: the text is a number of seconds. *)
Definition seconds_parser (s : string) : option Z :=
  match int10 s with
  | Ok n => Some n
  | Raise _ => None
  end.

Definition priced_row (h t : string) : list (string * A01.pyval) :=
  [("tx_hash", A01.VStr h); ("tx_timestamp", A01.VStr t)].

(** Four rows: two of the same time, and one whose time does not parse. *)
Definition priced_rows : list (list (string * A01.pyval)) :=
  [priced_row "0xa" "100"; priced_row "0xb" "300"; priced_row "0xc" "";
   priced_row "0xd" "300"].

(** ** A constant-product pool *)

(** A pool whose reserves are [r0] and [r1] at every block. *)
Definition v2_chain (r0 r1 : Z) : A02.Web3 :=
  {| A02.w3_blocks := [0; 60; 70; 80];
     A02.w3_call_slot0 := fun _ => Raise RuntimeError;
     A02.w3_getReserves := fun _ => Ok (r0, r1, 1755631388) |}.

Definition wbtc_weth_meta : A02.Meta :=
  {| A02.t0 := token; A02.t1 := other;
     A02.d0 := 8; A02.s0 := "WBTC";
     A02.d1 := 18; A02.s1 := "WETH" |}.

End Samples.

(* ===================================================================== *)
(** * The vocabulary of the specification                                 *)
(* ===================================================================== *)

Module Spec.

(** The column order of the output ledger row, in the words of the
    specification's external-interface section. *)
Definition ledger_columns : list string :=
  ["tx_hash"; "tx_timestamp"; "block_time"; "type";
   "from_address"; "to_address";
   "amount_sent"; "amount_received"; "total_gas_eth"; "nft_transfer"].

(** The columns that the specification adds to a priced row. *)
Definition priced_columns : list string :=
  (ledger_columns ++ ["ratio_asset0_per_asset1"; "ratio_asset1_per_asset0"])%list.

(** The record of the ledger for the row dictionary [r]: the values under
    the ten column names, in order, with the defaults of [main] for a
    missing entry and the normalised [block_time]. *)
Definition ledger_record (r : list (string * A01.pyval)) : list string :=
  let field k dflt := A01.csv_field (Py.dict_get_default r k (A01.VStr dflt)) in
  [field "tx_hash" ""; field "tx_timestamp" "";
   Py.str_of_int (A01.block_time_of r);
   field "type" "unknown"; field "from_address" ""; field "to_address" "";
   field "amount_sent" ""; field "amount_received" "";
   field "total_gas_eth" (A01.fmt_amount 0 18 5 8); field "nft_transfere" ""].

(** [s] begins with the character [c]. *)
Definition begins_with (c : ascii) (s : string) : Prop :=
  exists rest, s = String c rest.

(** The event signatures that [classify_from_topics] looks for. *)
Definition AMM_TOPICS : list string :=
  [A01.TOPIC_SWAP_V3; A01.TOPIC_SWAP_V2;
   A01.TOPIC_MINT_V3; A01.TOPIC_INC_LIQ_V3; A01.TOPIC_MINT_V2;
   A01.TOPIC_BURN_V3; A01.TOPIC_DEC_LIQ_V3; A01.TOPIC_BURN_V2].

(** No log of the receipt starts with a known AMM-event signature. *)
Definition no_amm_topic (logs : list A01.LogEntry) : Prop :=
  forall lg t0 rest, In lg logs -> A01.lg_topics lg = t0 :: rest -> ~ In t0 AMM_TOPICS.

Definition has_negative (deltas : list (string * Z)) : Prop :=
  exists k v, In (k, v) deltas /\ v < 0.

Definition has_positive (deltas : list (string * Z)) : Prop :=
  exists k v, In (k, v) deltas /\ 0 < v.

(** The quantity of an NFT move. *)
Definition qty_of (m : A01.NftMove) : Z := snd m.

Definition nonzero_qty (m : A01.NftMove) : Prop := qty_of m <> 0.

(** The accumulator [a] with its list of NFT moves replaced. *)
Definition with_moves (a : A01.Acc) (moves : list A01.NftMove) : A01.Acc :=
  {| A01.acc_erc20_eth := A01.acc_erc20_eth a;
     A01.acc_nft_moves := moves;
     A01.acc_eth_log_delta := A01.acc_eth_log_delta a |}.

(** The emitting contract of a log, and the sender and the recipient of an
    ERC-1155 transfer (topics 2 and 3), as the decoder reads them. *)
Definition contract (lg : A01.LogEntry) : string :=
  Py.lower (Py.str_or (A01.lg_address lg) "").

Definition sender (lg : A01.LogEntry) : string :=
  A01.address_from_topic (A01.topic (A01.lg_topics lg) 2).

Definition recipient (lg : A01.LogEntry) : string :=
  A01.address_from_topic (A01.topic (A01.lg_topics lg) 3).

(** [lg] is an ERC-1155 batch transfer with its four topics whose payload
    is hexadecimal and ABI-decodes to [ids] and [values]. *)
Definition batch_log_decodes (w : A01.World) (lg : A01.LogEntry) (ids values : list Z) : Prop :=
  exists t1 t2 t3 more data payload,
    A01.lg_topics lg = A01.TOPIC_TRANSFER_BATCH :: t1 :: t2 :: t3 :: more
    /\ A01.lg_data lg = Some data
    /\ A01.is_hex_data (Some data) = true
    /\ data <> "0x"
    /\ A01.bytes_fromhex (Py.drop 2 data) = Some payload
    /\ A01.w_abi_decode_arrays w payload = Some (ids, values).

(** [lg] is an ERC-1155 single transfer with its four topics whose payload
    holds the token id and the value as two hexadecimal words. *)
Definition single_log_decodes (lg : A01.LogEntry) (token_id qty : Z) : Prop :=
  exists t1 t2 t3 more,
    A01.lg_topics lg = A01.TOPIC_TRANSFER_SINGLE :: t1 :: t2 :: t3 :: more
    /\ (128 <= String.length (Py.drop 2 (Py.str_or (A01.lg_data lg) "0x")))%nat
    /\ Py.int16 (Py.slice 0 64 (Py.drop 2 (Py.str_or (A01.lg_data lg) "0x"))) = Py.Ok token_id
    /\ Py.int16 (Py.slice 64 128 (Py.drop 2 (Py.str_or (A01.lg_data lg) "0x"))) = Py.Ok qty.

(** [lg] is a [Transfer] with a fourth topic: an ERC-721 transfer. *)
Definition erc721_log (lg : A01.LogEntry) : Prop :=
  exists t1 t2 t3 more,
    A01.lg_topics lg = A01.TOPIC_TRANSFER :: t1 :: t2 :: t3 :: more.

(** The moves that one pair of a batch contributes. *)
Definition pair_moves (wallet frm to addr : string) (p : Z * Z) : list A01.NftMove :=
  if snd p <=? 0 then [] else A01.append_moves wallet frm to addr (fst p) (snd p) [].

(** The explorer reports no internal transfer for the row's hash. *)
Definition no_internal_transfers (w : A01.World) (row : A01.RawTx) : Prop :=
  forall h i,
    A01.r_hash row = Some h -> A01.w_txlistinternal w h = Py.Ok i -> A01.int_result i = [].

(** The receipt has no log, and the row sends [amount] > 0 base units of
    the native asset to the wallet from another address, with no internal
    transfer. *)
Definition receives_native (w : A01.World) (row : A01.RawTx) (rcpt : A01.Receipt)
    (wallet : string) (amount : Z) : Prop :=
  let wl := Py.strip (Py.lower wallet) in
  A01.nonempty wl = true
  /\ A01.rc_logs rcpt = []
  /\ Py.int10 (Py.str_or (A01.r_value row) "0") = Py.Ok amount
  /\ 0 < amount
  /\ Py.lower (Py.str_or (A01.r_to row) "") = wl
  /\ Py.lower (Py.str_or (A01.r_from row) "") <> wl
  /\ no_internal_transfers w row.

(** [s] is the display of the delta [kv] for some symbol and number of
    decimals. *)
Definition formats (kv : string * Z) (s : string) : Prop :=
  exists decimals symbol, s = A01.format_token_display_signed (snd kv) decimals symbol.

(** The hash under which a row is decoded. *)
Definition hash_of (row : A01.RawTx) : string :=
  Py.str_or (A01.r_hash row) (Py.str_or (A01.r_tx_hash row) "").

(** ** The block-time resolver *)

(** Block timestamps never decrease along the chain. *)
Definition sorted_chain (w3 : A02.Web3) : Prop :=
  forall i j ti tj,
    i <= j ->
    A02.get_block_timestamp w3 i = Py.Ok ti ->
    A02.get_block_timestamp w3 j = Py.Ok tj ->
    ti <= tj.

(** Block [n] exists and its timestamp is at most [target]. *)
Definition at_or_before (w3 : A02.Web3) (target n : Z) : Prop :=
  exists t, A02.get_block_timestamp w3 n = Py.Ok t /\ t <= target.

(** [n] is the largest block number whose timestamp is at most [target]. *)
Definition largest_at_or_before (w3 : A02.Web3) (target n : Z) : Prop :=
  at_or_before w3 target n
  /\ forall m, at_or_before w3 target m -> m <= n.

(** The boundary form: block [n] is at or before [target], and the next
    block, when there is one, is after it. *)
Definition boundary (w3 : A02.Web3) (target n : Z) : Prop :=
  at_or_before w3 target n
  /\ forall t', A02.get_block_timestamp w3 (n + 1) = Py.Ok t' -> target < t'.

(** The key of the minute bucket of a timestamp. *)
Definition bucket (target_ts : Z) : Z := (target_ts / 60) * 60.

(** The memo of the chain head is unset, or holds the head and its time. *)
Definition head_memo_ok (w3 : A02.Web3) (bf : A02.BlockFinder) : Prop :=
  (A02._latest_num bf = None)
  \/ (A02._latest_num bf = Some (A02.block_number w3)
      /\ exists t, A02.get_block_timestamp w3 (A02.block_number w3) = Py.Ok t
                   /\ A02._latest_ts bf = Some t).

(** The hint, when one is given, is a block at or before the target. *)
Definition hint_at_or_before (w3 : A02.Web3) (target : Z) (hint : option Z) : Prop :=
  match A02.truthy hint with
  | Some h => at_or_before w3 target (Z.max 1 h)
  | None => True
  end.

(** Two states of the finder that differ in the count of calls only. *)
Definition same_memo (bf bf' : A02.BlockFinder) : Prop :=
  A02._cache_by_minute bf' = A02._cache_by_minute bf
  /\ A02._latest_num bf' = A02._latest_num bf
  /\ A02._latest_ts bf' = A02._latest_ts bf.

(** Two states of the finder with the same minute cache. *)
Definition same_cache (bf bf' : A02.BlockFinder) : Prop :=
  A02._cache_by_minute bf' = A02._cache_by_minute bf.

(** Every cached block is at least 1 and is the boundary block of some
    timestamp of its minute bucket. *)
Definition cache_sound (w3 : A02.Web3) (bf : A02.BlockFinder) : Prop :=
  forall key n,
    A02._cache_by_minute bf !! key = Some n ->
    1 <= n /\ exists s, bucket s = key /\ boundary w3 s n.

(** The entries of the first cache are entries of the second. *)
Definition cache_extends (bf bf' : A02.BlockFinder) : Prop :=
  forall key n,
    A02._cache_by_minute bf !! key = Some n -> A02._cache_by_minute bf' !! key = Some n.

(** A sequence of resolutions on one finder, each with its timestamp and
    its hint and with the default step limit; the answers, in order. *)
Fixpoint resolve_all (w3 : A02.Web3) (calls : list (Z * option Z)) : A02.M (list Z) :=
  match calls with
  | [] => A02.ret []
  | (ts, hint) :: rest =>
      A02.bindM (A02.find_before w3 ts hint 64)
        (fun n => A02.bindM (resolve_all w3 rest) (fun ns => A02.ret (n :: ns)))
  end.

(** A sequence of resolutions in which a call may pass, as its hint, the
    block that an earlier call of the sequence returned: [pick] is the
    position of that call, and [earlier] holds the answers so far. *)
Fixpoint resolve_hinted (w3 : A02.Web3) (calls : list (Z * option nat)) (earlier : list Z)
    : A02.M (list Z) :=
  match calls with
  | [] => A02.ret []
  | (ts, pick) :: rest =>
      let hint :=
        match pick with
        | Some j => nth_error earlier j
        | None => None
        end in
      A02.bindM (A02.find_before w3 ts hint 64)
        (fun n => A02.bindM (resolve_hinted w3 rest (earlier ++ [n]))
                    (fun ns => A02.ret (n :: ns)))
  end.

(** Every hint is picked from a call with a timestamp that is not later:
    [before] holds the timestamps of the calls made so far. *)
Definition hints_from_no_later (before : list Z) (calls : list (Z * option nat)) : Prop :=
  forall (i j : nat) (ts tj : Z),
    nth_error calls i = Some (ts, Some j) ->
    nth_error (before ++ map fst calls) j = Some tj ->
    (j < length before + i)%nat ->
    tj <= ts.

(** ** The price oracle *)

(** The ratio of a concentrated-liquidity pool with decimals (18, 6), in
    the words of the specification: [(X / 2^96)^2 * 10^12], as an exact
    rational. *)
Definition v3_ratio (X : Z) : Q :=
  ((inject_Z X / inject_Z (2 ^ 96)) ^ 2 * inject_Z (10 ^ 12))%Q.

(** Half a unit in the last of the 28 digits that the threads of the pool
    keep: the relative error of one rounding. *)
Definition u28 : Q := ((1 # 2) * Dec.pow10 (1 - A02.WORKER_PREC))%Q.

(** An entry of [amount_sent]: the display of a strictly negative delta,
    which begins with the minus sign; and an entry of [amount_received]. *)
Definition sent_entry (kv : string * Z) (s : string) : Prop :=
  snd kv < 0 /\ formats kv s /\ begins_with "-" s.

Definition recv_entry (kv : string * Z) (s : string) : Prop :=
  0 < snd kv /\ formats kv s /\ begins_with "+" s.

(** ** Exceptions of the delta computation *)

(** The kinds of log whose branch converts text without a guard: an ERC-721
    transfer (a [Transfer] with a fourth topic), an ERC-1155 single
    transfer with its four topics, and a wrapped-native withdrawal or
    deposit with its two topics. *)
Definition unguarded_log (lg : A01.LogEntry) : Prop :=
  exists t0 rest,
    A01.lg_topics lg = t0 :: rest
    /\ ((t0 = A01.TOPIC_TRANSFER /\ (3 <= length rest)%nat)
        \/ (t0 = A01.TOPIC_TRANSFER_SINGLE /\ (3 <= length rest)%nat)
        \/ ((t0 = A01.TOPIC_WETH_WITHDRAWAL \/ t0 = A01.TOPIC_WETH_DEPOSIT)
            /\ (1 <= length rest)%nat)).

(** ** Flows of a receipt *)

(** What one log moves of the token [addr] to (+) or from (-) the wallet:
    the amount of an ERC-20 [Transfer] (three topics) of that contract
    whose data is a positive hexadecimal number, counted once for the
    recipient and once for the sender; nothing for any other log. *)
Definition erc20_flow (wallet addr : string) (lg : A01.LogEntry) : Z :=
  match A01.lg_topics lg with
  | [t0; t1; t2] =>
      if String.eqb t0 A01.TOPIC_TRANSFER
         && String.eqb (contract lg) addr
         && A01.is_hex_data (A01.lg_data lg)
         && negb (String.eqb (Py.str_or (A01.lg_data lg) "") "0x")
      then match Py.int16 (Py.str_or (A01.lg_data lg) "") with
           | Py.Ok amt =>
               if A01.nonempty wallet && (0 <? amt)
               then (if String.eqb (A01.address_from_topic t2) wallet then amt else 0)
                    - (if String.eqb (A01.address_from_topic t1) wallet then amt else 0)
               else 0
           | Py.Raise _ => 0
           end
      else 0
  | _ => 0
  end.

Definition net_erc20_flow (wallet addr : string) (logs : list A01.LogEntry) : Z :=
  fold_right (fun lg acc => erc20_flow wallet addr lg + acc) 0 logs.

(** What one log moves of the native asset: a wrapped-native [Withdrawal]
    by the wallet credits its positive amount, a [Deposit] by the wallet
    debits it; nothing for any other log. *)
Definition native_flow (wallet : string) (lg : A01.LogEntry) : Z :=
  match A01.lg_topics lg with
  | t0 :: t1 :: _ =>
      if String.eqb t0 A01.TOPIC_WETH_WITHDRAWAL || String.eqb t0 A01.TOPIC_WETH_DEPOSIT then
        match A01.h2i (A01.lg_data lg) with
        | Py.Ok amt =>
            if A01.nonempty wallet && String.eqb (A01.address_from_topic t1) wallet && (0 <? amt)
            then (if String.eqb t0 A01.TOPIC_WETH_WITHDRAWAL then amt else - amt)
            else 0
        | Py.Raise _ => 0
        end
      else 0
  | _ => 0
  end.

Definition net_native_flow (wallet : string) (logs : list A01.LogEntry) : Z :=
  fold_right (fun lg acc => native_flow wallet lg + acc) 0 logs.

(** What the value of the transaction itself moves: a positive [value]
    counts for the wallet as recipient and against it as sender; a value
    that is not a decimal number counts as zero. *)
Definition outer_value_flow (wallet : string) (row : A01.RawTx) : Z :=
  let outer_val := Py.try_except (Py.int10 (Py.str_or (A01.r_value row) "0")) 0 in
  if A01.nonempty wallet && (0 <? outer_val) then
    (if String.eqb (Py.lower (Py.str_or (A01.r_to row) "")) wallet then outer_val else 0)
    - (if String.eqb (Py.lower (Py.str_or (A01.r_from row) "")) wallet then outer_val else 0)
  else 0.

(** Some log of the receipt has one of the signatures [ts] as its first
    topic. *)
Definition emits (logs : list A01.LogEntry) (ts : list string) : Prop :=
  exists lg t0 rest, In lg logs /\ A01.lg_topics lg = t0 :: rest /\ In t0 ts.

(** ** The shape of an amount *)

Definition is_digit (c : ascii) : bool := (48 <=? Py.code c) && (Py.code c <=? 57).

(** Decimal digits, a point, and at least [min_dp] decimal digits: no
    sign, no exponent, and a digit before the point. *)
Definition amount_text (min_dp : nat) (s : string) : Prop :=
  exists whole frac,
    s = whole ++ "." ++ frac
    /\ whole <> ""
    /\ Py.all_chars is_digit whole = true
    /\ Py.all_chars is_digit frac = true
    /\ (min_dp <= String.length frac)%nat.

(** ** The number that an amount shows *)

(** The number written by a sequence of decimal digits, most significant
    first, after the digits that gave [acc]. *)
Fixpoint digits_value (s : string) (acc : Z) : Z :=
  match s with
  | EmptyString => acc
  | String c r => digits_value r (acc * 10 + (Py.code c - 48))
  end.

(** The same for the digit sequences of the standard library, which
    [str_of_int] prints. *)
Fixpoint uint_value (d : Decimal.uint) (acc : Z) : Z :=
  match d with
  | Decimal.Nil => acc
  | Decimal.D0 l => uint_value l (acc * 10)
  | Decimal.D1 l => uint_value l (acc * 10 + 1)
  | Decimal.D2 l => uint_value l (acc * 10 + 2)
  | Decimal.D3 l => uint_value l (acc * 10 + 3)
  | Decimal.D4 l => uint_value l (acc * 10 + 4)
  | Decimal.D5 l => uint_value l (acc * 10 + 5)
  | Decimal.D6 l => uint_value l (acc * 10 + 6)
  | Decimal.D7 l => uint_value l (acc * 10 + 7)
  | Decimal.D8 l => uint_value l (acc * 10 + 8)
  | Decimal.D9 l => uint_value l (acc * 10 + 9)
  end.

(** The rational number that a reader of the ledger takes from a field: an
    optional minus sign, digits, and optionally a point and more digits.
    Any other text shows no number. *)
Definition decimal_value (s : string) : option Q :=
  let '(neg, body) :=
    match s with
    | String "-" r => (true, r)
    | _ => (false, s)
    end in
  let '(whole, _, frac) := A01.partition_dot body in
  if A01.nonempty whole && Py.all_chars is_digit whole && Py.all_chars is_digit frac
  then
    let v := (inject_Z (digits_value whole 0)
              + inject_Z (digits_value frac 0)
                / inject_Z (10 ^ Z.of_nat (String.length frac)))%Q in
    Some (if neg then (- v)%Q else v)
  else None.

(** ** Prices for any decimals *)

(** The price of token0 in token1 that the square-root price [X] of a
    concentrated-liquidity pool stands for, and the one that the reserves
    of a constant-product pool stand for, as exact rationals; [k] is the
    difference of the decimals of the two tokens. *)
Definition v3_price (X k : Z) : Q :=
  ((inject_Z X / inject_Z (2 ^ 96)) ^ 2 * Dec.pow10 k)%Q.

Definition v2_price (r0 r1 k : Z) : Q :=
  (inject_Z r1 / inject_Z r0 * Dec.pow10 k)%Q.

(** A symbol that names the native asset and not the wrapped bitcoin, and
    one that names the wrapped bitcoin and not the native asset; neither
    holds a slash. *)
Definition eth_like (s : string) : Prop :=
  (Py.contains "ETH" (Py.upper s) || Py.contains "WETH" (Py.upper s)) = true
  /\ Py.contains "WBTC" (Py.upper s) = false
  /\ Py.contains "/" s = false.

Definition wbtc_like (s : string) : Prop :=
  Py.contains "WBTC" (Py.upper s) = true
  /\ (Py.contains "ETH" (Py.upper s) || Py.contains "WETH" (Py.upper s)) = false
  /\ Py.contains "/" s = false.

(** ** Rows of the price ledger *)

(** The hash under which the price runner knows a row. *)
Definition row_hash (r : list (string * string)) : string :=
  Py.lower (Py.str_or (Py.dict_get r "tx_hash") "").

(** The time by which the price runner orders a row. *)
Definition tx_time (dtparse : string -> option Z) (r : list (string * A01.pyval)) : Z :=
  A02.parse_tx_time_for_sort dtparse (Py.dict_get_default r "tx_timestamp" (A01.VStr "")).

(** ** The order of the logs *)

(** Two dictionaries that hold the same value under every key, whatever
    the order of their entries. *)
Definition same_entries (d d' : list (string * Z)) : Prop :=
  forall k : string, Py.dict_get d k = Py.dict_get d' k.

(** The dictionary after a sequence of [d[k] = d.get(k, 0) + x]. *)
Definition add_flows (d : list (string * Z)) (flows : list (string * Z)) : list (string * Z) :=
  fold_left (fun d kx => A01.add_delta d (fst kx) (snd kx)) flows d.

(** Two states of the log loop that differ by the order of their entries
    and of their moves only. *)
Definition same_acc (a a' : A01.Acc) : Prop :=
  same_entries (A01.acc_erc20_eth a) (A01.acc_erc20_eth a')
  /\ Permutation (A01.acc_nft_moves a) (A01.acc_nft_moves a')
  /\ A01.acc_eth_log_delta a = A01.acc_eth_log_delta a'.

(** Both computations raise, or both return and their values are related. *)
Definition same_outcome {A : Type} (R : A -> A -> Prop) (r r' : result A) : Prop :=
  match r, r' with
  | Ok a, Ok a' => R a a'
  | Raise _, Raise _ => True
  | _, _ => False
  end.

(** The receipt with another list of logs. *)
Definition with_logs (rcpt : A01.Receipt) (logs : list A01.LogEntry) : A01.Receipt :=
  {| A01.rc_status := A01.rc_status rcpt;
     A01.rc_logs := logs;
     A01.rc_gasUsed := A01.rc_gasUsed rcpt;
     A01.rc_effectiveGasPrice := A01.rc_effectiveGasPrice rcpt |}.

(** The world in which the node answers with the receipt [rcpt]. *)
Definition with_receipt (w : A01.World) (rcpt : A01.Receipt) : A01.World :=
  {| A01.w_get_tx_receipt := fun _ => Ok (Some rcpt);
     A01.w_get_block_by_hash := A01.w_get_block_by_hash w;
     A01.w_get_block_by_number := A01.w_get_block_by_number w;
     A01.w_eth_getBalance := A01.w_eth_getBalance w;
     A01.w_txlistinternal := A01.w_txlistinternal w;
     A01.w_trace_transaction := A01.w_trace_transaction w;
     A01.w_fetch_tokentx_metadata := A01.w_fetch_tokentx_metadata w;
     A01.w_symbol_lookup := A01.w_symbol_lookup w;
     A01.w_decimals_lookup := A01.w_decimals_lookup w;
     A01.w_token_name := A01.w_token_name w;
     A01.w_abi_decode_arrays := A01.w_abi_decode_arrays w;
     A01.w_eip55 := A01.w_eip55 w;
     A01.w_strftime := A01.w_strftime w |}.

(** Both decodings skip the transaction, or both return a row and the two
    rows have the same type. *)
Definition same_type (r r' : option A01.OutRow) : Prop :=
  match r, r' with
  | Some r, Some r' => A01.type r = A01.type r'
  | None, None => True
  | _, _ => False
  end.
End Spec.

(* ===================================================================== *)
(** * Properties                                                          *)
(* ===================================================================== *)

Import A01 A02.

(** Case analysis on the tests, binds and matches of a hypothesis. *)
Ltac split_step H :=
  repeat match type of H with
    | context [if ?c then _ else _] => destruct c eqn:?
    | context [Py.bind ?m _] => destruct m eqn:?; cbn [Py.bind] in H
    | context [match ?x with Some _ => _ | None => _ end] => destruct x eqn:?
    | context [let '(_, _) := ?x in _] => destruct x eqn:?
    end.


(** ** The ledger columns *)

(** C3, as the specification words it, fails: the last column of the
    ledger is spelled [nft_transfere] by both scripts, and the priced
    output names its two ratio columns after the pair of assets. *)
Lemma ledger_columns_differ_from_spec :
  A01.cols <> Spec.ledger_columns /\ A02.OUTPUT_FIELDS <> Spec.priced_columns.
Proof. split; intro H; discriminate H. Qed.

Lemma dict_get_set_same {V : Type} (d : list (string * V)) (k : string) (v : V) :
  dict_get (dict_set d k v) k = Some v.
Proof.
  induction d as [|[k' v'] d IH]; cbn [dict_set dict_get].
  - now rewrite String.eqb_refl.
  - destruct (String.eqb k' k) eqn:E; cbn [dict_get]; rewrite E; [reflexivity|exact IH].
Qed.

Lemma dict_get_set_other {V : Type} (d : list (string * V)) (k k' : string) (v : V) :
  k <> k' -> dict_get (dict_set d k v) k' = dict_get d k'.
Proof.
  intros Hne. induction d as [|[k0 v0] d IH]; cbn [dict_set dict_get].
  - apply String.eqb_neq in Hne. now rewrite Hne.
  - destruct (String.eqb_spec k0 k) as [->|Hk]; cbn [dict_get].
    + apply String.eqb_neq in Hne. now rewrite Hne.
    + destruct (String.eqb k0 k'); [reflexivity|exact IH].
Qed.

(** What [main] writes for a row whose [block_time] it has normalised. *)
Lemma main_rowdict_normalised (r : list (string * pyval)) :
  (let* rowdict := main_rowdict (normalise_block_time r) in
   DictWriter_writerow cols rowdict)
  = Ok (Spec.ledger_record r).
Proof.
  unfold main_rowdict, normalise_block_time, dict_get_default.
  rewrite dict_get_set_same.
  rewrite !dict_get_set_other by discriminate.
  assert (Hbt : int_of_val (val_or (Some (VInt (block_time_of r))) (VInt 0))
                = Ok (block_time_of r)).
  { cbn [val_or]. destruct (Z.eqb_spec (block_time_of r) 0) as [->|_]; reflexivity. }
  rewrite Hbt. reflexivity.
Qed.

Lemma write_main_rows_normalised (rows : list (list (string * pyval))) :
  write_main_rows (map normalise_block_time rows) = Ok (map Spec.ledger_record rows).
Proof.
  induction rows as [|r rows IH]; [reflexivity|].
  cbn [map write_main_rows].
  pose proof (main_rowdict_normalised r) as Hr.
  destruct (main_rowdict (normalise_block_time r)) as [d|e]; [|discriminate Hr].
  cbn [Py.bind] in Hr |- *. rewrite Hr, IH. reflexivity.
Qed.

Lemma ledger_record_decoded (r : OutRow) :
  Spec.ledger_record (row_dict r)
  = [tx_hash r; tx_timestamp r; str_of_int (block_time r); type r; from_address r;
     to_address r; amount_sent r; amount_received r; total_gas_eth r; nft_transfere r].
Proof. reflexivity. Qed.

Lemma writerow_clean_row (r : list (string * string)) :
  DictWriter_writerow OUTPUT_FIELDS (clean_row r)
  = Ok (map (fun k => dict_get_default r k "") OUTPUT_FIELDS).
Proof. reflexivity. Qed.

Lemma write_rows_clean (rows : list (list (string * string))) :
  write_rows OUTPUT_FIELDS (map clean_row rows)
  = Ok (map (fun r => map (fun k => dict_get_default r k "") OUTPUT_FIELDS) rows).
Proof.
  induction rows as [|r rows IH]; [reflexivity|].
  cbn [map write_rows]. rewrite writerow_clean_row, IH. reflexivity.
Qed.

(** C3 (amended).  The decoded ledger is written with the header
    [tx_hash, tx_timestamp, block_time, type, from_address, to_address,
    amount_sent, amount_received, total_gas_eth, nft_transfere], and every
    record holds the values of its row under these names, in exactly that
    order (for a decoded row: its ten fields in that order); the priced
    ledger has the same ten columns followed by [weth_per_wbtc] and
    [wbtc_per_weth], and every record holds the row's values in that
    order. *)
Theorem ledger_rows_have_stable_columns :
  A01.cols = ["tx_hash"; "tx_timestamp"; "block_time"; "type"; "from_address";
              "to_address"; "amount_sent"; "amount_received"; "total_gas_eth";
              "nft_transfere"]
  /\ A02.OUTPUT_FIELDS = (A01.cols ++ ["weth_per_wbtc"; "wbtc_per_weth"])%list
  /\ (forall rows : list (list (string * pyval)),
        write_ledger (map normalise_block_time rows)
        = Ok (A01.cols :: map Spec.ledger_record rows))
  /\ (forall r : OutRow,
        Spec.ledger_record (row_dict r)
        = [tx_hash r; tx_timestamp r; str_of_int (block_time r); type r; from_address r;
           to_address r; amount_sent r; amount_received r; total_gas_eth r;
           nft_transfere r])
  /\ (forall rows : list (list (string * string)),
        write_all_atomic (map clean_row rows)
        = Ok (A02.OUTPUT_FIELDS ::
              map (fun r => map (fun k => dict_get_default r k "") A02.OUTPUT_FIELDS) rows)).
Proof.
  split; [reflexivity|]. split; [reflexivity|]. split; [|split].
  - intros rows. unfold write_ledger. rewrite write_main_rows_normalised. reflexivity.
  - apply ledger_record_decoded.
  - intros rows. unfold write_all_atomic. rewrite write_rows_clean. reflexivity.
Qed.

(** ** Malformed logs *)

Lemma log_loop_raise (w : World) (wallet : string) (a : Acc) (lg : LogEntry)
    (rest : list LogEntry) (e : exn) :
  log_step w wallet a lg = Raise e ->
  log_loop w wallet a (lg :: rest) = Raise e.
Proof. intros H. cbn [log_loop]. rewrite H. reflexivity. Qed.

Lemma compute_wallet_deltas_raise (w : World) (row : RawTx) (rcpt : Receipt) (wallet : string)
    (meta : list (string * TokenMeta)) (lg : LogEntry) (rest : list LogEntry) (e : exn) :
  rc_logs rcpt = lg :: rest ->
  (forall a, log_step w (strip (lower wallet)) a lg = Raise e) ->
  compute_wallet_deltas w row rcpt wallet meta = Raise e.
Proof.
  intros Hlogs Hstep. unfold compute_wallet_deltas. rewrite Hlogs.
  erewrite log_loop_raise by apply Hstep. reflexivity.
Qed.

(** C1, at the failing inputs.  Whatever the wallet, the row and the
    collaborators are, a receipt that starts with an ERC-721 transfer whose
    token-id topic is not hexadecimal, with an ERC-1155 single transfer
    whose payload is not hexadecimal, or with a wrapped-native deposit whose
    amount is not hexadecimal makes [compute_wallet_deltas] raise
    [ValueError]: the log is not skipped. *)
Theorem malformed_log_raises (w : World) (row : RawTx) (wallet : string)
    (meta : list (string * TokenMeta)) (status gasUsed price : option string)
    (rest : list LogEntry) :
  let rcpt lg := {| rc_status := status; rc_logs := lg :: rest;
                    rc_gasUsed := gasUsed; rc_effectiveGasPrice := price |} in
  compute_wallet_deltas w row (rcpt Samples.malformed_erc721_log) wallet meta = Raise ValueError
  /\ compute_wallet_deltas w row (rcpt Samples.malformed_single_log) wallet meta = Raise ValueError
  /\ compute_wallet_deltas w row (rcpt Samples.malformed_deposit_log) wallet meta = Raise ValueError.
Proof.
  intros rcpt. repeat split.
  all: eapply compute_wallet_deltas_raise; [reflexivity|]; intros a; reflexivity.
Qed.

(** The same payloads on the two guarded paths are skipped: the ERC-20
    branch tests [is_hex_data] before it converts, and the batch branch
    decodes inside [try]. *)
Lemma guarded_paths_skip_malformed (w : World) (wallet : string) (a : Acc) :
  log_step w wallet a Samples.malformed_erc20_log = Ok a
  /\ log_step w wallet a Samples.malformed_batch_log = Ok a.
Proof. split; reflexivity. Qed.

Lemma is_hex_data_str_or (s d : string) :
  is_hex_data (Some s) = true -> str_or (Some s) d = s.
Proof. destruct s; [discriminate|reflexivity]. Qed.

Lemma hexdigit_facts (c : ascii) :
  is_hexdigit c = true ->
  is_space c = false /\ Ascii.eqb c "_" = false /\ Ascii.eqb c "-" = false
  /\ Ascii.eqb c "+" = false
  /\ exists d, digit_val c = Some d /\ (d <? 16) = true.
Proof.
  destruct c as [b0 b1 b2 b3 b4 b5 b6 b7].
  destruct b0, b1, b2, b3, b4, b5, b6, b7; vm_compute; intros H; try discriminate H;
    repeat split; eexists; split; reflexivity.
Qed.

Lemma digits_acc_hex (s : string) :
  all_chars is_hexdigit s = true ->
  forall acc, exists v, digits_acc 16 s acc false = Some v.
Proof.
  induction s as [|c s IH]; intros Hall acc; [now exists acc|].
  cbn [all_chars] in Hall. apply andb_prop in Hall. destruct Hall as [Hc Hs].
  destruct (hexdigit_facts c Hc) as (_ & Hus & _ & _ & d & Hd & Hlt).
  cbn [digits_acc]. rewrite Hus, Hd, Hlt. apply IH, Hs.
Qed.

Lemma rstrip_chars_noop (p : ascii -> bool) (s : string) :
  all_chars (fun c => negb (p c)) s = true -> rstrip_chars p s = s.
Proof.
  induction s as [|c s IH]; intros Hall; [reflexivity|].
  cbn [all_chars] in Hall. apply andb_prop in Hall. destruct Hall as [Hc Hs].
  cbn [rstrip_chars]. rewrite (IH Hs). destruct s; [|reflexivity].
  apply negb_true_iff in Hc. now rewrite Hc.
Qed.

Lemma all_chars_impl (p q : ascii -> bool) (s : string) :
  (forall c, p c = true -> q c = true) -> all_chars p s = true -> all_chars q s = true.
Proof.
  intros Hpq. induction s as [|c s IH]; [reflexivity|]. cbn [all_chars]. intros H.
  apply andb_prop in H. destruct H as [Hc Hs]. now rewrite (Hpq c Hc), (IH Hs).
Qed.

(** A payload that [is_hex_data] accepts and that is not the bare prefix
    converts: the guard of the ERC-20 branch makes its [int(data, 16)]
    safe. *)
Lemma is_hex_data_int16 (s : string) :
  is_hex_data (Some s) = true -> s <> "0x" -> exists v, int16 s = Ok v.
Proof.
  intros Hhex Hne. unfold is_hex_data in Hhex.
  destruct (startswith s "0x") eqn:Hpre; [|discriminate Hhex]. cbn [negb] in Hhex.
  unfold startswith in Hpre.
  destruct s as [|a [|b payload]]; cbn [String.prefix] in Hpre; try discriminate Hpre.
  - destruct (Ascii.ascii_dec "0" a); discriminate Hpre.
  - destruct (Ascii.ascii_dec "0" a) as [<-|Ha]; [|discriminate Hpre].
    destruct (Ascii.ascii_dec "x" b) as [<-|Hb]; [|discriminate Hpre].
    cbn [drop] in Hhex.
    destruct payload as [|c rest]; [now contradiction Hne|].
    cbn [String.length Nat.eqb] in Hhex.
    destruct (negb _); [discriminate Hhex|].
    assert (Hns : all_chars (fun c => negb (is_space c)) (String c rest) = true).
    { eapply all_chars_impl; [|exact Hhex]. intros x Hx.
      destruct (hexdigit_facts x Hx) as (Hsp & _). now rewrite Hsp. }
    unfold int16, int_of_str, strip. cbn [lstrip_chars].
    change (is_space "0") with false. cbv iota.
    rewrite (rstrip_chars_noop is_space (String "0" (String "x" (String c rest))))
      by (cbn [all_chars] in Hns |- *; rewrite Hns; reflexivity).
    cbv beta iota. change (16 =? 16) with true. 
    change (startswith (String "0" (String "x" (String c rest))) "0x") with true.
    cbn [andb orb drop].
    cbn [all_chars] in Hhex. pose proof Hhex as Hall. apply andb_prop in Hhex.
    destruct Hhex as [Hc _].
    destruct (hexdigit_facts c Hc) as (_ & Hus & _).
    assert (Hr : match String c rest with
                 | String "_" r => r
                 | r => r
                 end = String c rest).
    { destruct c as [b0 b1 b2 b3 b4 b5 b6 b7].
      destruct b0, b1, b2, b3, b4, b5, b6, b7; try reflexivity. discriminate Hus. }
    rewrite Hr. unfold parse_digits. rewrite Hus.
    destruct (digits_acc_hex (String c rest) Hall 0) as [v Hv]. rewrite Hv.
    now exists v.
Qed.

(** The ERC-20 branch and the batch branch return for every payload. *)
Lemma log_step_erc20_returns (w : World) (wallet : string) (a : Acc) (lg : LogEntry)
    (t1 t2 : string) :
  lg_topics lg = [TOPIC_TRANSFER; t1; t2] -> returns (log_step w wallet a lg).
Proof.
  intros Ht. unfold log_step, returns. rewrite Ht.
  change (String.eqb TOPIC_TRANSFER TOPIC_TRANSFER) with true.
  cbn [andb length Nat.leb].
  destruct (lg_data lg) as [s|]; [|eexists; reflexivity].
  destruct (is_hex_data (Some s)) eqn:Hhex; [|eexists; reflexivity].
  rewrite (is_hex_data_str_or s "" Hhex).
  destruct (String.eqb_spec s "0x") as [|Hne]; [eexists; reflexivity|].
  cbn [andb negb]. destruct (is_hex_data_int16 s Hhex Hne) as [amt ->]. cbn [Py.bind].
  destruct (nonempty wallet && (0 <? amt)); eexists; reflexivity.
Qed.

Lemma log_step_batch_returns (w : World) (wallet : string) (a : Acc) (lg : LogEntry)
    (rest : list string) :
  lg_topics lg = TOPIC_TRANSFER_BATCH :: rest -> returns (log_step w wallet a lg).
Proof.
  intros Ht. unfold log_step, returns. rewrite Ht.
  change (String.eqb TOPIC_TRANSFER_BATCH TOPIC_TRANSFER) with false.
  change (String.eqb TOPIC_TRANSFER_BATCH TOPIC_TRANSFER_SINGLE) with false.
  change (String.eqb TOPIC_TRANSFER_BATCH TOPIC_TRANSFER_BATCH) with true.
  change (String.eqb TOPIC_TRANSFER_BATCH TOPIC_WETH_WITHDRAWAL) with false.
  change (String.eqb TOPIC_TRANSFER_BATCH TOPIC_WETH_DEPOSIT) with false.
  cbn [andb].
  repeat match goal with
    | |- context [if ?c then _ else _] => destruct c
    | |- context [match ?x with Some _ => _ | None => _ end] => destruct x
    | |- context [let '(_, _) := ?x in _] => destruct x
    end; eexists; reflexivity.
Qed.

(** ** NFT moves *)

Lemma append_moves_app (wallet frm to addr : string) (token_id q : Z) (moves : list NftMove) :
  append_moves wallet frm to addr token_id q moves
  = (moves ++ append_moves wallet frm to addr token_id q [])%list.
Proof.
  unfold append_moves.
  destruct (String.eqb frm wallet), (String.eqb to wallet); cbn [app];
    rewrite ?app_nil_r, <- ?app_assoc; reflexivity.
Qed.

Lemma batch_loop_flat_map (wallet frm to addr : string) (pairs : list (Z * Z))
    (moves : list NftMove) :
  batch_loop wallet frm to addr pairs moves
  = (moves ++ flat_map (Spec.pair_moves wallet frm to addr) pairs)%list.
Proof.
  revert moves. induction pairs as [|[token_id qty] pairs IH]; intros moves.
  - cbn. now rewrite app_nil_r.
  - cbn [batch_loop flat_map]. unfold Spec.pair_moves at 1. cbn [fst snd].
    destruct (qty <=? 0).
    + apply IH.
    + rewrite IH, (append_moves_app _ _ _ _ _ _ moves), <- app_assoc. reflexivity.
Qed.

Lemma eqb_neq_false (s t : string) : s <> t -> String.eqb s t = false.
Proof. intros H. now apply String.eqb_neq. Qed.

(** What the batch branch of the log loop does with a payload that
    decodes. *)
Lemma log_step_batch (w : World) (wallet : string) (a : Acc) (lg : LogEntry)
    (ids values : list Z) :
  Spec.batch_log_decodes w lg ids values ->
  log_step w wallet a lg
  = Ok (if nonempty wallet && (length ids =? length values)%nat
        then Spec.with_moves a
               (acc_nft_moves a
                ++ flat_map (Spec.pair_moves wallet (Spec.sender lg) (Spec.recipient lg)
                               (Spec.contract lg))
                     (combine ids values))%list
        else a).
Proof.
  intros (t1 & t2 & t3 & more & data & payload & Ht & Hd & Hhex & Hne & Hb & Habi).
  unfold log_step, Spec.sender, Spec.recipient, Spec.contract.
  rewrite Ht, Hd.
  change (String.eqb TOPIC_TRANSFER_BATCH TOPIC_TRANSFER) with false.
  change (String.eqb TOPIC_TRANSFER_BATCH TOPIC_TRANSFER_SINGLE) with false.
  change (String.eqb TOPIC_TRANSFER_BATCH TOPIC_TRANSFER_BATCH) with true.
  cbn [andb length Nat.leb].
  rewrite (is_hex_data_str_or data "0x" Hhex), Hhex, (eqb_neq_false _ _ Hne).
  cbn [andb negb]. rewrite Hb, Habi.
  destruct (nonempty wallet && (length ids =? length values)%nat); [|reflexivity].
  rewrite batch_loop_flat_map. reflexivity.
Qed.

(** C4 (amended).  For an ERC-1155 batch-transfer log whose payload
    decodes to [ids = [i1; i2]] and [values = [v1; v2]] with both values
    positive: when the wallet is the sender and not the recipient, the log
    adds exactly the two moves [(contract, i1, -v1)] and
    [(contract, i2, -v2)]; when it is the recipient and not the sender,
    exactly [(contract, i1, +v1)] and [(contract, i2, +v2)].  A batch log
    whose decoded arrays differ in length adds nothing and does not raise. *)
Theorem batch_log_two_pairs (w : World) (wallet : string) (a : Acc) (lg : LogEntry)
    (ids values : list Z) :
  Spec.batch_log_decodes w lg ids values ->
  (forall i1 i2 v1 v2,
      nonempty wallet = true ->
      ids = [i1; i2] -> values = [v1; v2] -> 0 < v1 -> 0 < v2 ->
      (Spec.sender lg = wallet -> Spec.recipient lg <> wallet ->
       log_step w wallet a lg
       = Ok (Spec.with_moves a
               (acc_nft_moves a
                ++ [(Spec.contract lg, i1, - v1); (Spec.contract lg, i2, - v2)])%list))
      /\ (Spec.recipient lg = wallet -> Spec.sender lg <> wallet ->
          log_step w wallet a lg
          = Ok (Spec.with_moves a
                  (acc_nft_moves a
                   ++ [(Spec.contract lg, i1, v1); (Spec.contract lg, i2, v2)])%list)))
  /\ (length ids <> length values -> log_step w wallet a lg = Ok a).
Proof.
  intros Hdec. rewrite (log_step_batch w wallet a lg ids values Hdec). split.
  - intros i1 i2 v1 v2 Hw -> -> H1 H2. rewrite Hw. cbn [length Nat.eqb andb combine flat_map].
    unfold Spec.pair_moves, append_moves. cbn [fst snd].
    replace (v1 <=? 0) with false by (symmetry; apply Z.leb_gt; lia).
    replace (v2 <=? 0) with false by (symmetry; apply Z.leb_gt; lia).
    split; intros Heq Hne.
    + rewrite Heq, String.eqb_refl, (eqb_neq_false _ _ Hne). reflexivity.
    + rewrite Heq, String.eqb_refl, (eqb_neq_false _ _ Hne). reflexivity.
  - intros Hlen. apply Nat.eqb_neq in Hlen. rewrite Hlen, andb_false_r. reflexivity.
Qed.

Lemma sample_batch_decodes (frm to : string) (i1 i2 v1 v2 : Z) :
  is_hex_data (Some (Samples.batch_data i1 i2 v1 v2)) = true ->
  forall payload ids values,
  bytes_fromhex (drop 2 (Samples.batch_data i1 i2 v1 v2)) = Some payload ->
  Samples.abi_decode_arrays payload = Some (ids, values) ->
  Spec.batch_log_decodes Samples.quiet_world
    (Samples.batch_log Samples.other frm to (Samples.batch_data i1 i2 v1 v2)) ids values.
Proof.
  intros Hhex payload ids values Hb Habi.
  exists (Samples.topic_of Samples.other), (Samples.topic_of frm), (Samples.topic_of to), [],
    (Samples.batch_data i1 i2 v1 v2), payload.
  repeat split; try assumption.
  intros Heq. rewrite Heq in Hb. cbn in Hb. injection Hb as <-. discriminate Habi.
Qed.

Lemma batch_log_two_pairs_witness :
  log_step Samples.quiet_world Samples.wallet Samples.empty_acc
    (Samples.batch_log Samples.other Samples.wallet Samples.other (Samples.batch_data 7 9 3 4))
  = Ok (Spec.with_moves Samples.empty_acc
          [(Samples.token, 7, -3); (Samples.token, 9, -4)])
  /\ log_step Samples.quiet_world Samples.wallet Samples.empty_acc
       (Samples.batch_log Samples.other Samples.other Samples.wallet (Samples.batch_data 7 9 3 4))
     = Ok (Spec.with_moves Samples.empty_acc
             [(Samples.token, 7, 3); (Samples.token, 9, 4)])
  /\ log_step Samples.quiet_world Samples.wallet Samples.empty_acc
       (Samples.batch_log Samples.other Samples.wallet Samples.other
          (Samples.batch_data_mismatch 7 9 3))
     = Ok Samples.empty_acc.
Proof.
  split; [|split].
  - refine (proj1 (proj1 (batch_log_two_pairs Samples.quiet_world Samples.wallet
                            Samples.empty_acc _ [7; 9] [3; 4] _)
                     7 9 3 4 _ _ _ _ _) _ _);
      try reflexivity; try lia; try discriminate.
    eapply sample_batch_decodes; vm_compute; reflexivity.
  - refine (proj2 (proj1 (batch_log_two_pairs Samples.quiet_world Samples.wallet
                            Samples.empty_acc _ [7; 9] [3; 4] _)
                     7 9 3 4 _ _ _ _ _) _ _);
      try reflexivity; try lia; try discriminate.
    eapply sample_batch_decodes; vm_compute; reflexivity.
  - refine (proj2 (batch_log_two_pairs Samples.quiet_world Samples.wallet
                     Samples.empty_acc _ [7; 9] [3] _) _).
    + exists (Samples.topic_of Samples.other), (Samples.topic_of Samples.wallet),
        (Samples.topic_of Samples.other), [], (Samples.batch_data_mismatch 7 9 3).
      eexists. repeat split; try (vm_compute; reflexivity). discriminate.
    + discriminate.
Defined.

(** C4, as stated, fails when a value of the batch is zero: with
    [ids = [7; 9]] and [values = [0; 4]] sent by the wallet, the log adds the
    single move [(token, 9, -4)]. *)
Lemma batch_zero_value_single_move :
  let lg := Samples.batch_log Samples.other Samples.wallet Samples.other
              (Samples.batch_data 7 9 0 4) in
  Spec.batch_log_decodes Samples.quiet_world lg [7; 9] [0; 4]
  /\ Spec.sender lg = Samples.wallet
  /\ log_step Samples.quiet_world Samples.wallet Samples.empty_acc lg
     = Ok (Spec.with_moves Samples.empty_acc [(Samples.token, 9, -4)])
  /\ ~ (exists m1 m2,
          log_step Samples.quiet_world Samples.wallet Samples.empty_acc lg
          = Ok (Spec.with_moves Samples.empty_acc [m1; m2])).
Proof.
  intros lg. split; [|split; [|split]].
  - eapply sample_batch_decodes; vm_compute; reflexivity.
  - vm_compute. reflexivity.
  - vm_compute. reflexivity.
  - intros (m1 & m2 & H). vm_compute in H. discriminate H.
Qed.

(** ** Every recorded move has a quantity *)

Lemma append_moves_nonzero (wallet frm to addr : string) (token_id q : Z)
    (moves : list NftMove) :
  q <> 0 -> Forall Spec.nonzero_qty moves ->
  Forall Spec.nonzero_qty (append_moves wallet frm to addr token_id q moves).
Proof.
  intros Hq Hm. unfold append_moves.
  destruct (String.eqb frm wallet), (String.eqb to wallet);
    repeat (apply Forall_app; split); try assumption;
    repeat constructor; unfold Spec.nonzero_qty, Spec.qty_of; cbn; lia.
Qed.

Lemma batch_loop_nonzero (wallet frm to addr : string) (pairs : list (Z * Z))
    (moves : list NftMove) :
  Forall Spec.nonzero_qty moves ->
  Forall Spec.nonzero_qty (batch_loop wallet frm to addr pairs moves).
Proof.
  revert moves. induction pairs as [|[token_id qty] pairs IH]; intros moves Hm; [exact Hm|].
  cbn [batch_loop]. destruct (qty <=? 0) eqn:Hq.
  - apply IH, Hm.
  - apply IH, append_moves_nonzero; [|exact Hm]. apply Z.leb_gt in Hq. lia.
Qed.

Lemma log_step_nonzero (w : World) (wallet : string) (a a' : Acc) (lg : LogEntry) :
  Forall Spec.nonzero_qty (acc_nft_moves a) ->
  log_step w wallet a lg = Ok a' ->
  Forall Spec.nonzero_qty (acc_nft_moves a').
Proof.
  intros Hnz H. unfold log_step in H.
  destruct (lg_topics lg) as [|t0 ts] eqn:Ht; [injection H as <-; exact Hnz|].
  split_step H; try discriminate H; injection H as <-; cbn [acc_nft_moves]; try exact Hnz.
  - apply append_moves_nonzero; [lia|exact Hnz].
  - apply append_moves_nonzero; [|exact Hnz].
    match goal with Hc : (_ && (0 <? _)) = true |- _ =>
      apply andb_prop in Hc; destruct Hc as [_ Hc]; apply Z.ltb_lt in Hc; lia end.
  - apply batch_loop_nonzero, Hnz.
Qed.

Lemma log_loop_nonzero (w : World) (wallet : string) (logs : list LogEntry) (a a' : Acc) :
  Forall Spec.nonzero_qty (acc_nft_moves a) ->
  log_loop w wallet a logs = Ok a' ->
  Forall Spec.nonzero_qty (acc_nft_moves a').
Proof.
  revert a. induction logs as [|lg logs IH]; intros a Hnz H.
  - injection H as <-. exact Hnz.
  - cbn [log_loop] in H. destruct (log_step w wallet a lg) as [a1|e] eqn:Hs; [|discriminate H].
    cbn [Py.bind] in H. eapply IH; [|exact H]. eapply log_step_nonzero; eassumption.
Qed.

(** The moves returned by [compute_wallet_deltas] are those of the log
    loop. *)
Lemma compute_wallet_deltas_nonzero (w : World) (row : RawTx) (rcpt : Receipt) (wallet : string)
    (meta : list (string * TokenMeta)) (d : list (string * Z)) (moves : list NftMove) :
  compute_wallet_deltas w row rcpt wallet meta = Ok (d, moves) ->
  Forall Spec.nonzero_qty moves.
Proof.
  intros H. unfold compute_wallet_deltas in H.
  match type of H with context [log_loop ?w ?wl ?a0 ?logs] =>
    destruct (log_loop w wl a0 logs) as [a|e] eqn:Hl; [|discriminate H] end.
  cbn [Py.bind] in H.
  assert (Hm : Forall Spec.nonzero_qty (acc_nft_moves a)).
  { eapply log_loop_nonzero; [|exact Hl]. constructor. }
  match type of H with (Py.bind ?m _) = _ => destruct m; [|discriminate H] end.
  cbn [Py.bind] in H. injection H as _ <-. exact Hm.
Qed.

Lemma log_step_erc721 (w : World) (wallet : string) (a a' : Acc) (lg : LogEntry) :
  Spec.erc721_log lg ->
  log_step w wallet a lg = Ok a' ->
  exists new,
    acc_nft_moves a' = (acc_nft_moves a ++ new)%list
    /\ Forall (fun m => Spec.qty_of m = 1 \/ Spec.qty_of m = -1) new.
Proof.
  intros (t1 & t2 & t3 & more & Ht) H. unfold log_step in H. rewrite Ht in H.
  change (String.eqb TOPIC_TRANSFER TOPIC_TRANSFER) with true in H.
  cbn [andb length Nat.leb] in H.
  destruct (h2i (Some (topic (TOPIC_TRANSFER :: t1 :: t2 :: t3 :: more) 3))) as [token_id|e];
    [|discriminate H].
  cbn [Py.bind] in H. destruct (nonempty wallet); injection H as <-.
  - cbn [acc_nft_moves]. rewrite append_moves_app. eexists. split; [reflexivity|].
    unfold append_moves.
    destruct (String.eqb _ wallet), (String.eqb _ wallet); cbn [app];
      repeat match goal with
        | |- Forall _ (_ :: _) =>
            constructor; [unfold Spec.qty_of; cbn [snd]; solve [now left | now right]|]
        | |- Forall _ [] => constructor
        end.
  - exists []. rewrite app_nil_r. split; [reflexivity|constructor].
Qed.

Lemma log_step_single (w : World) (wallet : string) (a : Acc) (lg : LogEntry)
    (token_id qty : Z) :
  Spec.single_log_decodes lg token_id qty ->
  log_step w wallet a lg
  = Ok (if nonempty wallet && (0 <? qty)
        then Spec.with_moves a
               (acc_nft_moves a
                ++ append_moves wallet (Spec.sender lg) (Spec.recipient lg) (Spec.contract lg)
                     token_id qty [])%list
        else a).
Proof.
  intros (t1 & t2 & t3 & more & Ht & Hlen & Hid & Hqty).
  unfold log_step, Spec.sender, Spec.recipient, Spec.contract. rewrite Ht.
  change (String.eqb TOPIC_TRANSFER_SINGLE TOPIC_TRANSFER) with false.
  change (String.eqb TOPIC_TRANSFER_SINGLE TOPIC_TRANSFER_SINGLE) with true.
  cbn [andb length].
  change (4 <=? S (S (S (S (length more)))))%nat with true. cbn [andb].
  apply Nat.leb_le in Hlen. rewrite Hlen, Hid, Hqty. cbn [Py.bind].
  destruct (nonempty wallet && (0 <? qty)); [|reflexivity].
  rewrite append_moves_app. reflexivity.
Qed.

Lemma pair_moves_nonzero (wallet frm to addr : string) (pairs : list (Z * Z)) :
  Forall Spec.nonzero_qty (flat_map (Spec.pair_moves wallet frm to addr) pairs).
Proof.
  induction pairs as [|[token_id qty] pairs IH]; [constructor|].
  cbn [flat_map]. apply Forall_app. split; [|exact IH].
  unfold Spec.pair_moves. cbn [fst snd]. destruct (qty <=? 0) eqn:Hq; [constructor|].
  apply append_moves_nonzero; [|constructor]. apply Z.leb_gt in Hq. lia.
Qed.

Lemma pair_moves_uninvolved (wallet frm to addr : string) (pairs : list (Z * Z)) :
  frm <> wallet -> to <> wallet ->
  flat_map (Spec.pair_moves wallet frm to addr) pairs = [].
Proof.
  intros Hf Ht. induction pairs as [|[token_id qty] pairs IH]; [reflexivity|].
  cbn [flat_map]. rewrite IH, app_nil_r. unfold Spec.pair_moves, append_moves.
  rewrite (eqb_neq_false _ _ Hf), (eqb_neq_false _ _ Ht). now destruct (_ <=? _).
Qed.

Lemma pair_moves_length (wallet frm to addr : string) (p : Z * Z) :
  ~ (frm = wallet /\ to = wallet) ->
  (length (Spec.pair_moves wallet frm to addr p) <= 1)%nat
  /\ (snd p <= 0 -> Spec.pair_moves wallet frm to addr p = []).
Proof.
  intros Hnot. unfold Spec.pair_moves, append_moves. split.
  - destruct (snd p <=? 0); [cbn; lia|].
    destruct (String.eqb_spec frm wallet), (String.eqb_spec to wallet); cbn; try lia.
    exfalso. auto.
  - intros Hle. apply Z.leb_le in Hle. now rewrite Hle.
Qed.

Lemma flat_map_length_lt {A B : Type} (f : A -> list B) (l : list A) (x : A) :
  (forall y, (length (f y) <= 1)%nat) -> In x l -> f x = [] ->
  (length (flat_map f l) < length l)%nat.
Proof.
  intros Hle Hin Hx.
  assert (Hall : forall l', (length (flat_map f l') <= length l')%nat).
  { induction l' as [|y l' IH]; [cbn; lia|].
    cbn [flat_map]. rewrite length_app. specialize (Hle y). cbn [length]. lia. }
  induction l as [|y l IH]; [destruct Hin|].
  cbn [flat_map]. rewrite length_app. cbn [length]. destruct Hin as [->|Hin].
  - rewrite Hx. cbn [length]. specialize (Hall l). lia.
  - specialize (IH Hin). specialize (Hle y). lia.
Qed.

Lemma in_combine_r_exists {A B : Type} (l : list A) (l' : list B) (y : B) :
  length l = length l' -> In y l' -> exists x, In (x, y) (combine l l').
Proof.
  revert l'. induction l as [|x l IH]; intros [|y' l'] Hlen Hin; try discriminate Hlen.
  - destruct Hin.
  - injection Hlen as Hlen. destruct Hin as [->|Hin].
    + exists x. now left.
    + destruct (IH l' Hlen Hin) as [x' Hx']. exists x'. now right.
Qed.

Lemma with_moves_same (a : Acc) : Spec.with_moves a (acc_nft_moves a) = a.
Proof. now destruct a. Qed.

(** C9 (amended).  Every move that the delta computation returns has a
    quantity different from zero.  An ERC-721 transfer adds moves of
    quantity +1 or -1 only.  An ERC-1155 single transfer whose value is zero,
    or whose sender and recipient are not the wallet, adds no move.  An
    ERC-1155 batch adds one move per direction that involves the wallet for
    each pair with a positive value, and none for the other pairs: no move
    at all when neither address is the wallet, and fewer moves than pairs
    when some value is not positive, unless the wallet is both the sender
    and the recipient. *)
Theorem nft_moves_have_nonzero_quantity :
  (forall w row rcpt wallet meta d moves,
      compute_wallet_deltas w row rcpt wallet meta = Ok (d, moves) ->
      Forall Spec.nonzero_qty moves)
  /\ (forall w wallet a a' lg,
        Spec.erc721_log lg -> log_step w wallet a lg = Ok a' ->
        exists new,
          acc_nft_moves a' = (acc_nft_moves a ++ new)%list
          /\ Forall (fun m => Spec.qty_of m = 1 \/ Spec.qty_of m = -1) new)
  /\ (forall w wallet a lg token_id qty,
        Spec.single_log_decodes lg token_id qty ->
        qty = 0 \/ (Spec.sender lg <> wallet /\ Spec.recipient lg <> wallet) ->
        log_step w wallet a lg = Ok a)
  /\ (forall w wallet a lg ids values,
        Spec.batch_log_decodes w lg ids values ->
        exists new,
          log_step w wallet a lg = Ok (Spec.with_moves a (acc_nft_moves a ++ new)%list)
          /\ new = (if nonempty wallet && (length ids =? length values)%nat
                    then flat_map (Spec.pair_moves wallet (Spec.sender lg) (Spec.recipient lg)
                                     (Spec.contract lg)) (combine ids values)
                    else [])
          /\ Forall Spec.nonzero_qty new
          /\ (Spec.sender lg <> wallet /\ Spec.recipient lg <> wallet -> new = [])
          /\ (length ids = length values ->
              (exists v, In v values /\ v <= 0) ->
              ~ (Spec.sender lg = wallet /\ Spec.recipient lg = wallet) ->
              (length new < length ids)%nat)).
Proof.
  split; [|split; [|split]].
  - intros. eapply compute_wallet_deltas_nonzero; eassumption.
  - intros. eapply log_step_erc721; eassumption.
  - intros w wallet a lg token_id qty Hdec Hcase.
    rewrite (log_step_single w wallet a lg token_id qty Hdec).
    destruct (nonempty wallet && (0 <? qty)) eqn:Hc; [|reflexivity].
    apply andb_prop in Hc. destruct Hc as [_ Hq]. apply Z.ltb_lt in Hq.
    destruct Hcase as [->|[Hs Hr]]; [lia|].
    unfold append_moves. rewrite (eqb_neq_false _ _ Hs), (eqb_neq_false _ _ Hr).
    rewrite app_nil_r. now rewrite with_moves_same.
  - intros w wallet a lg ids values Hdec.
    rewrite (log_step_batch w wallet a lg ids values Hdec).
    eexists. split; [|split; [reflexivity|]].
    + destruct (nonempty wallet && (length ids =? length values)%nat); [reflexivity|].
      now rewrite app_nil_r, with_moves_same.
    + destruct (nonempty wallet && (length ids =? length values)%nat) eqn:Hc.
      * split; [apply pair_moves_nonzero|]. split.
        -- intros [Hs Hr]. now apply pair_moves_uninvolved.
        -- intros Hlen (v & Hin & Hv) Hnot.
           destruct (in_combine_r_exists ids values v Hlen Hin) as [i Hi].
           replace (length ids) with (length (combine ids values))
             by (rewrite length_combine; lia).
           apply (flat_map_length_lt _ _ (i, v)); [|exact Hi|].
           ++ intros y. now apply pair_moves_length.
           ++ now apply pair_moves_length.
      * split; [constructor|]. split; [reflexivity|].
        intros Hlen (v & Hin & _) _. destruct ids; [|cbn; lia].
        destruct values; [destruct Hin|discriminate Hlen].
Qed.

Lemma nft_moves_have_nonzero_quantity_witness :
  Forall Spec.nonzero_qty [(Samples.token, 9, -4)]
  /\ (exists new,
        log_step Samples.quiet_world Samples.wallet Samples.empty_acc
          (Samples.batch_log Samples.other Samples.wallet Samples.other
             (Samples.batch_data 7 9 0 4))
        = Ok (Spec.with_moves Samples.empty_acc new)
        /\ (length new < 2)%nat).
Proof.
  split.
  - apply (proj1 nft_moves_have_nonzero_quantity Samples.quiet_world
             (Samples.row_of Samples.wallet Samples.other "0")
             (Samples.receipt_of "0x1"
                [Samples.batch_log Samples.other Samples.wallet Samples.other
                   (Samples.batch_data 7 9 0 4)])
             Samples.wallet [] [("eth", 21000000000000)]).
    vm_compute. reflexivity.
  - destruct (proj2 (proj2 (proj2 nft_moves_have_nonzero_quantity))
                Samples.quiet_world Samples.wallet Samples.empty_acc
                (Samples.batch_log Samples.other Samples.wallet Samples.other
                   (Samples.batch_data 7 9 0 4)) [7; 9] [0; 4])
      as (new & Hstep & _ & _ & _ & Hlt).
    + eapply sample_batch_decodes; vm_compute; reflexivity.
    + exists new. split; [exact Hstep|]. apply Hlt.
      * reflexivity.
      * exists 0. split; [now left|lia].
      * intros [_ Hr]. vm_compute in Hr. discriminate Hr.
Defined.

(** C9, as stated, fails on a batch that the wallet sends to itself: with
    [ids = [7; 9]] and [values = [0; 4]] the pair of value zero is dropped,
    the other pair is recorded once per direction, and the log yields as many
    moves as it has pairs. *)
Lemma batch_self_transfer_as_many_moves_as_pairs :
  let lg := Samples.batch_log Samples.other Samples.wallet Samples.wallet
              (Samples.batch_data 7 9 0 4) in
  let moves : list NftMove := [(Samples.token, 9, -4); (Samples.token, 9, 4)] in
  let pairs : list (Z * Z) := combine [7; 9] [0; 4] in
  Spec.batch_log_decodes Samples.quiet_world lg [7; 9] [0; 4]
  /\ log_step Samples.quiet_world Samples.wallet Samples.empty_acc lg
     = Ok (Spec.with_moves Samples.empty_acc moves)
  /\ ~ (length moves < length pairs)%nat.
Proof.
  intros lg moves pairs. split; [|split].
  - eapply sample_batch_decodes; vm_compute; reflexivity.
  - vm_compute. reflexivity.
  - cbn. lia.
Qed.

(** ** Classification *)

Lemma in_first_topics (logs : list LogEntry) (t0 : string) :
  In t0 (first_topics logs) ->
  exists lg rest, In lg logs /\ lg_topics lg = t0 :: rest.
Proof.
  unfold first_topics. rewrite in_flat_map. intros (lg & Hin & Ht).
  destruct (lg_topics lg) as [|t rest] eqn:E; [destruct Ht|].
  destruct Ht as [->|[]]. now exists lg, rest.
Qed.

Lemma no_amm_topic_existsb (logs : list LogEntry) (t : string) :
  Spec.no_amm_topic logs -> In t Spec.AMM_TOPICS ->
  existsb (String.eqb t) (first_topics logs) = false.
Proof.
  intros Hno Hin. destruct (existsb _ _) eqn:E; [|reflexivity].
  apply existsb_exists in E. destruct E as (t0 & Ht0 & Heq).
  apply String.eqb_eq in Heq. subst t0.
  destruct (in_first_topics logs t Ht0) as (lg & rest & Hlg & Htop).
  exfalso. exact (Hno lg t rest Hlg Htop Hin).
Qed.

Lemma classify_from_topics_none (logs : list LogEntry) :
  Spec.no_amm_topic logs -> classify_from_topics logs = None.
Proof.
  intros Hno. unfold classify_from_topics, any_in. cbn [existsb].
  rewrite !(no_amm_topic_existsb logs _ Hno) by (cbn; tauto).
  reflexivity.
Qed.

Lemma filter_length_pos {A : Type} (f : A -> bool) (l : list A) :
  (1 <= length (List.filter f l))%nat <-> exists x, In x l /\ f x = true.
Proof.
  split.
  - intros H. destruct (List.filter f l) as [|x r] eqn:E; [cbn in H; lia|].
    exists x. apply filter_In. rewrite E. now left.
  - intros (x & Hin & Hf).
    assert (Hx : In x (List.filter f l)) by (apply filter_In; auto).
    destruct (List.filter f l); [destruct Hx|cbn; lia].
Qed.

Lemma outs_has_negative (deltas : list (string * Z)) :
  (1 <= length (List.filter (fun kv => (snd kv <? 0)%Z) deltas))%nat <-> Spec.has_negative deltas.
Proof.
  rewrite filter_length_pos. unfold Spec.has_negative. split.
  - intros ([k v] & Hin & Hv). exists k, v. split; [exact Hin|]. now apply Z.ltb_lt in Hv.
  - intros (k & v & Hin & Hv). exists (k, v). split; [exact Hin|]. now apply Z.ltb_lt.
Qed.

Lemma ins_has_positive (deltas : list (string * Z)) :
  (1 <= length (List.filter (fun kv => (0 <? snd kv)%Z) deltas))%nat <-> Spec.has_positive deltas.
Proof.
  rewrite filter_length_pos. unfold Spec.has_positive. split.
  - intros ([k v] & Hin & Hv). exists k, v. split; [exact Hin|]. now apply Z.ltb_lt in Hv.
  - intros (k & v & Hin & Hv). exists (k, v). split; [exact Hin|]. now apply Z.ltb_lt.
Qed.

Lemma classify_from_balances_spec (deltas : list (string * Z)) :
  (Spec.has_negative deltas -> Spec.has_positive deltas ->
   classify_from_balances deltas = "swap")
  /\ (Spec.has_negative deltas -> ~ Spec.has_positive deltas ->
      classify_from_balances deltas = "add_liquidity")
  /\ (~ Spec.has_negative deltas -> Spec.has_positive deltas ->
      classify_from_balances deltas = "remove_liquidity")
  /\ (~ Spec.has_negative deltas -> ~ Spec.has_positive deltas ->
      classify_from_balances deltas = "unknown").
Proof.
  unfold classify_from_balances.
  rewrite <- outs_has_negative, <- ins_has_positive.
  set (outs := length (List.filter (fun kv => snd kv <? 0) deltas)).
  set (ins := length (List.filter (fun kv => 0 <? snd kv) deltas)).
  destruct (Nat.leb_spec 1 outs), (Nat.leb_spec 1 ins), (Nat.eqb_spec ins 0),
    (Nat.eqb_spec outs 0); cbn [andb]; repeat split; intros; try reflexivity; lia.
Qed.

Lemma scenario_native_receipt (w : World) (row : RawTx) (rcpt : Receipt) (wallet : string)
    (meta : list (string * TokenMeta)) (amount : Z) :
  Spec.receives_native w row rcpt wallet amount ->
  compute_wallet_deltas w row rcpt wallet meta = Ok ([("eth", amount)], []).
Proof.
  intros (Hw & Hlogs & Hval & Hpos & Hto & Hfrom & Hint).
  unfold compute_wallet_deltas. rewrite Hlogs, Hval, Hw, Hto. cbn [try_except andb log_loop Py.bind].
  rewrite String.eqb_refl, (eqb_neq_false _ _ Hfrom).
  replace (0 <? amount) with true by (symmetry; now apply Z.ltb_lt).
  cbn [acc_eth_log_delta acc_erc20_eth acc_nft_moves].
  assert (Hi : match r_hash row with
               | Some h =>
                   match w_txlistinternal w h with
                   | Ok internals =>
                       if match int_status internals with
                          | Some s => String.eqb s "1"
                          | None => false
                          end
                       then internals_loop (strip (lower wallet)) (int_result internals)
                              (0 + amount)
                       else 0 + amount
                   | Raise _ => 0 + amount
                   end
               | None => 0 + amount
               end = amount).
  { destruct (r_hash row) as [h|] eqn:Hh; [|lia].
    destruct (w_txlistinternal w h) as [i|e] eqn:Hi; [|lia].
    rewrite (Hint h i Hh Hi). cbn [internals_loop].
    destruct (int_status i) as [s|]; [destruct (String.eqb s "1")|]; lia. }
  rewrite Hi.
  replace (amount =? 0) with false by (symmetry; apply Z.eqb_neq; lia).
  reflexivity.
Qed.

(** C7.  When no log starts with a known AMM-event signature, the type of
    the transaction is the one that the signs of the deltas give: swap with
    a negative and a positive delta, add_liquidity with negative deltas
    only, remove_liquidity with positive deltas only, unknown otherwise.
    A transaction without logs that pays [amount] > 0 native base units
    to the wallet yields the single delta [eth: +amount] and is classified
    remove_liquidity; in particular for 1.5 * 10^18. *)
Theorem classification_by_sign_pattern (logs : list LogEntry) (deltas : list (string * Z)) :
  Spec.no_amm_topic logs ->
  action_type_of logs deltas = classify_from_balances deltas
  /\ (Spec.has_negative deltas -> Spec.has_positive deltas ->
      action_type_of logs deltas = "swap")
  /\ (Spec.has_negative deltas -> ~ Spec.has_positive deltas ->
      action_type_of logs deltas = "add_liquidity")
  /\ (~ Spec.has_negative deltas -> Spec.has_positive deltas ->
      action_type_of logs deltas = "remove_liquidity")
  /\ (~ Spec.has_negative deltas -> ~ Spec.has_positive deltas ->
      action_type_of logs deltas = "unknown")
  /\ (forall w row rcpt wallet meta amount,
        Spec.receives_native w row rcpt wallet amount ->
        compute_wallet_deltas w row rcpt wallet meta = Ok ([("eth", amount)], [])
        /\ action_type_of (rc_logs rcpt) [("eth", amount)] = "remove_liquidity").
Proof.
  intros Hno.
  assert (Hact : forall lg d, Spec.no_amm_topic lg ->
                 action_type_of lg d = classify_from_balances d).
  { intros lg d H. unfold action_type_of. now rewrite (classify_from_topics_none lg H). }
  rewrite (Hact logs deltas Hno).
  destruct (classify_from_balances_spec deltas) as (H1 & H2 & H3 & H4).
  repeat split; try assumption.
  - eapply scenario_native_receipt; eassumption.
  - destruct H as (_ & Hlogs & _ & Hpos & _). rewrite Hlogs, Hact.
    + apply (classify_from_balances_spec [("eth", amount)]).
      * intros (k & v & [Hin|[]] & Hv). injection Hin as _ <-. lia.
      * exists "eth", amount. split; [now left|exact Hpos].
    + intros lg t0 rest [].
Qed.

Lemma classification_by_sign_pattern_witness :
  action_type_of [] [("eth", 1500000000000000000)] = "remove_liquidity"
  /\ action_type_of [] [("eth", -5); (Samples.token, 7)] = "swap"
  /\ action_type_of [] [("eth", -5)] = "add_liquidity"
  /\ action_type_of [] [("eth", 0)] = "unknown"
  /\ compute_wallet_deltas Samples.quiet_world
       (Samples.row_of Samples.other Samples.wallet "1500000000000000000")
       (Samples.receipt_of "0x1" []) Samples.wallet []
     = Ok ([("eth", 1500000000000000000)], []).
Proof.
  assert (Hno : Spec.no_amm_topic []) by (intros lg t0 rest []).
  assert (Hneg : forall v, v < 0 -> Spec.has_negative [("eth", v)])
    by (intros v Hv; exists "eth", v; split; [now left|exact Hv]).
  assert (Hnneg : forall v, 0 <= v -> ~ Spec.has_negative [("eth", v)]).
  { intros v Hv (k & x & [Hin|[]] & Hx). injection Hin as _ <-. lia. }
  assert (Hnpos : forall v, v <= 0 -> ~ Spec.has_positive [("eth", v)]).
  { intros v Hv (k & x & [Hin|[]] & Hx). injection Hin as _ <-. lia. }
  split; [|split; [|split; [|split]]].
  - destruct (classification_by_sign_pattern [] [("eth", 1500000000000000000)] Hno)
      as (_ & _ & _ & Hrem & _).
    apply Hrem.
    + apply Hnneg. lia.
    + exists "eth", 1500000000000000000. split; [now left|lia].
  - destruct (classification_by_sign_pattern [] [("eth", -5); (Samples.token, 7)] Hno)
      as (_ & Hswap & _).
    apply Hswap.
    + exists "eth", (-5). split; [now left|lia].
    + exists Samples.token, 7. split; [right; now left|lia].
  - destruct (classification_by_sign_pattern [] [("eth", -5)] Hno) as (_ & _ & Hadd & _).
    apply Hadd; [apply Hneg; lia|apply Hnpos; lia].
  - destruct (classification_by_sign_pattern [] [("eth", 0)] Hno) as (_ & _ & _ & _ & Hunk & _).
    apply Hunk; [apply Hnneg; lia|apply Hnpos; lia].
  - destruct (classification_by_sign_pattern [] [] Hno) as (_ & _ & _ & _ & _ & Hscen).
    apply (Hscen Samples.quiet_world
             (Samples.row_of Samples.other Samples.wallet "1500000000000000000")
             (Samples.receipt_of "0x1" []) Samples.wallet [] 1500000000000000000).
    unfold Spec.receives_native.
    split; [vm_compute; reflexivity|].
    split; [reflexivity|].
    split; [vm_compute; reflexivity|].
    split; [lia|].
    split; [vm_compute; reflexivity|].
    split; [vm_compute; discriminate|].
    intros h i _ Hi. injection Hi as <-. reflexivity.
Defined.

(** ** The sent and received fields *)

Lemma format_token_display_signed_sign (delta decimals : Z) (symbol : string) :
  (delta < 0 -> Spec.begins_with "-" (format_token_display_signed delta decimals symbol))
  /\ (0 <= delta -> Spec.begins_with "+" (format_token_display_signed delta decimals symbol)).
Proof.
  unfold format_token_display_signed, Spec.begins_with. split; intros H.
  - replace (delta <? 0) with true by (symmetry; now apply Z.ltb_lt). cbn [String.append].
    eexists. reflexivity.
  - replace (delta <? 0) with false by (symmetry; apply Z.ltb_ge; lia). cbn [String.append].
    eexists. reflexivity.
Qed.

Lemma ft_loop_entries (w : World) (meta : list (string * TokenMeta))
    (items : list (string * Z)) (sent recv sent' recv' : list string) :
  ft_loop w meta items sent recv = Ok (sent', recv') ->
  exists s_new r_new,
    sent' = (sent ++ s_new)%list /\ recv' = (recv ++ r_new)%list
    /\ Forall2 Spec.sent_entry (List.filter (fun kv => snd kv <? 0) items) s_new
    /\ Forall2 Spec.recv_entry (List.filter (fun kv => 0 <? snd kv) items) r_new.
Proof.
  revert sent recv. induction items as [|[key delta] items IH]; intros sent recv H.
  - injection H as <- <-. exists [], []. rewrite !app_nil_r. repeat split; constructor.
  - cbn [ft_loop] in H. cbn [List.filter snd].
    destruct (Z.eqb_spec delta 0) as [->|Hnz].
    + cbn. apply IH, H.
    + match type of H with (Py.bind ?m _) = _ => destruct m as [s|e] eqn:Hs; [|discriminate H] end.
      cbn [Py.bind] in H.
      assert (Hf : Spec.formats (key, delta) s).
      { destruct (String.eqb key "eth").
        - injection Hs as <-. now exists 18, "ETH".
        - destruct (to_checksum_address w key) as [c|e]; [|discriminate Hs].
          cbn [Py.bind] in Hs. injection Hs as <-. eexists _, _. reflexivity. }
      destruct (Z.ltb_spec delta 0) as [Hneg|Hpos].
      * replace (0 <? delta) with false by (symmetry; apply Z.ltb_ge; lia).
        destruct (IH _ _ H) as (s_new & r_new & -> & -> & Hs' & Hr').
        exists (s :: s_new), r_new. rewrite <- app_assoc. repeat split; try assumption.
        constructor; [|exact Hs']. repeat split; try assumption.
        destruct Hf as (dec & sym & ->). now apply format_token_display_signed_sign.
      * replace (0 <? delta) with true by (symmetry; apply Z.ltb_lt; lia).
        destruct (IH _ _ H) as (s_new & r_new & -> & -> & Hs' & Hr').
        exists s_new, (s :: r_new). rewrite <- app_assoc. repeat split; try assumption.
        constructor; [|exact Hr']. repeat split; try assumption; [cbn; lia|].
        destruct Hf as (dec & sym & ->). apply format_token_display_signed_sign. cbn. lia.
Qed.

Lemma build_ft_strings_entries (w : World) (deltas : list (string * Z))
    (meta : list (string * TokenMeta)) (sent recv : string) :
  build_ft_strings w deltas meta = Ok (sent, recv) ->
  exists sent_items recv_items,
    sent = join "; " sent_items /\ recv = join "; " recv_items
    /\ Forall2 Spec.sent_entry (List.filter (fun kv => snd kv <? 0) deltas) sent_items
    /\ Forall2 Spec.recv_entry (List.filter (fun kv => 0 <? snd kv) deltas) recv_items.
Proof.
  unfold build_ft_strings. intros H.
  destruct (ft_loop w meta deltas [] []) as [[s r]|e] eqn:Hl; [|discriminate H].
  cbn [Py.bind fst snd] in H. injection H as <- <-.
  destruct (ft_loop_entries _ _ _ _ _ _ _ Hl) as (s_new & r_new & -> & -> & Hs & Hr).
  now exists s_new, r_new.
Qed.

Tactic Notation "bind_step" hyp(H) "as" simple_intropattern(x) ident(E) :=
  match type of H with
  | (Py.bind ?m _) = _ => destruct m as [x|] eqn:E; [|discriminate H]; cbn [Py.bind] in H
  end.

(** C10.  In every row that [decode_one_from_row] returns, [amount_sent]
    is the "; "-join of one entry per strictly negative delta, in order, each
    beginning with "-", and [amount_received] is the "; "-join of one entry
    per strictly positive delta, each beginning with "+"; a delta of zero
    has no entry in either field.  The deltas are those of
    [compute_wallet_deltas], and there are none for a failed transaction. *)
Theorem sent_and_received_entries (w : World) (WALLET_ADDRESS : string) (row : RawTx)
    (already_known : gset string) (r : OutRow) :
  decode_one_from_row w WALLET_ADDRESS row already_known = Ok (Some r) ->
  exists deltas sent_items recv_items,
    amount_sent r = join "; " sent_items
    /\ amount_received r = join "; " recv_items
    /\ Forall2 Spec.sent_entry (List.filter (fun kv => snd kv <? 0) deltas) sent_items
    /\ Forall2 Spec.recv_entry (List.filter (fun kv => 0 <? snd kv) deltas) recv_items
    /\ ((_failed r = true /\ deltas = [])
        \/ (_failed r = false
            /\ exists rcpt meta moves,
                 w_get_tx_receipt w (Spec.hash_of row) = Ok (Some rcpt)
                 /\ compute_wallet_deltas w row rcpt WALLET_ADDRESS meta = Ok (deltas, moves))).
Proof.
  unfold decode_one_from_row. fold (Spec.hash_of row). intros H.
  destruct (_ || _); [discriminate H|].
  bind_step H as o Hrc. destruct o as [rcpt|]; [|discriminate H].
  bind_step H as ts_unix Hts. bind_step H as ts_iso Hiso.
  bind_step H as gas_used Hg. bind_step H as eff_price Hp.
  destruct (String.eqb _ "0x0").
  - injection H as <-. exists [], [], []. cbn [amount_sent amount_received _failed List.filter].
    split; [reflexivity|]. split; [reflexivity|]. split; [constructor|]. split; [constructor|].
    left. split; reflexivity.
  - bind_step H as meta Hmeta. bind_step H as deltas Hd. destruct deltas as [erc20_eth nft_moves].
    bind_step H as ft Hft. bind_step H as nft_field Hnft. injection H as <-.
    cbn [amount_sent amount_received _failed].
    destruct ft as [sent recv].
    destruct (build_ft_strings_entries _ _ _ _ _ Hft) as (si & ri & -> & -> & Hs & Hr).
    exists erc20_eth, si, ri. repeat split; try assumption.
    right. split; [reflexivity|]. now exists rcpt, meta, nft_moves.
Qed.

Lemma sent_and_received_entries_witness :
  let r := {| tx_hash := Spec.hash_of Samples.swap_row;
              tx_timestamp := "1755631388";
              block_time := 1755631388;
              type := "swap";
              from_address := Samples.wallet;
              to_address := Samples.other;
              amount_sent := "-2.00 ETH";
              amount_received := "+46.78194 UNKNOWN";
              total_gas_eth := "0.000021";
              nft_transfere := "";
              _failed := false |} in
  decode_one_from_row (Samples.world_with_receipt Samples.swap_receipt) Samples.wallet
    Samples.swap_row ∅ = Ok (Some r)
  /\ exists deltas sent_items recv_items,
       amount_sent r = join "; " sent_items
       /\ amount_received r = join "; " recv_items
       /\ Forall2 Spec.sent_entry (List.filter (fun kv => snd kv <? 0) deltas) sent_items
       /\ Forall2 Spec.recv_entry (List.filter (fun kv => 0 <? snd kv) deltas) recv_items.
Proof.
  intros r.
  assert (H : decode_one_from_row (Samples.world_with_receipt Samples.swap_receipt)
                Samples.wallet Samples.swap_row ∅ = Ok (Some r))
    by (vm_compute; reflexivity).
  split; [exact H|].
  destruct (sent_and_received_entries _ _ _ _ _ H) as (d & si & ri & H1 & H2 & H3 & H4 & _).
  exists d, si, ri. exact (conj H1 (conj H2 (conj H3 H4))).
Defined.

(** ** The block-time resolver *)

Lemma get_block_in_range (w3 : Web3) (n : Z) :
  0 <= n <= block_number w3 -> exists t, get_block_timestamp w3 n = Ok t.
Proof.
  intros H. unfold get_block_timestamp, block_number in *.
  replace (n <? 0) with false by (symmetry; apply Z.ltb_ge; lia).
  destruct (nth_error (w3_blocks w3) (Z.to_nat n)) eqn:E; [eexists; reflexivity|].
  apply nth_error_None in E. lia.
Qed.

Lemma get_block_range (w3 : Web3) (n t : Z) :
  get_block_timestamp w3 n = Ok t -> 0 <= n <= block_number w3.
Proof.
  unfold get_block_timestamp, block_number. destruct (Z.ltb_spec n 0) as [Hn|Hn]; [discriminate|].
  intros Hget. destruct (nth_error (w3_blocks w3) (Z.to_nat n)) eqn:E; [|discriminate Hget].
  assert (Hlt : (Z.to_nat n < length (w3_blocks w3))%nat)
    by (apply nth_error_Some; rewrite E; discriminate).
  lia.
Qed.

Lemma same_memo_refl (bf : BlockFinder) : Spec.same_memo bf bf.
Proof. now repeat split. Qed.

Lemma same_memo_trans (bf1 bf2 bf3 : BlockFinder) :
  Spec.same_memo bf1 bf2 -> Spec.same_memo bf2 bf3 -> Spec.same_memo bf1 bf3.
Proof.
  intros (A1 & B1 & C1) (A2 & B2 & C2). repeat split; congruence.
Qed.

Lemma get_block_run (w3 : Web3) (n t : Z) (bf : BlockFinder) :
  get_block_timestamp w3 n = Ok t ->
  exists bf', _get_block w3 n bf = (Ok t, bf') /\ Spec.same_memo bf bf'.
Proof.
  intros H. unfold _get_block. rewrite H. eexists. split; [reflexivity|]. now repeat split.
Qed.

Lemma bindM_ok {A B : Type} (m : M A) (k : A -> M B) (bf bf' : BlockFinder) (a : A) :
  m bf = (Ok a, bf') -> bindM m k bf = k a bf'.
Proof. intros H. unfold bindM. now rewrite H. Qed.

Lemma boundary_largest (w3 : Web3) (target n : Z) :
  Spec.sorted_chain w3 -> Spec.boundary w3 target n -> Spec.largest_at_or_before w3 target n.
Proof.
  intros Hsorted [Hn Hnext]. split; [exact Hn|].
  intros m (tm & Hm & Htm). destruct (Z.le_gt_cases m n) as [|Hgt]; [assumption|exfalso].
  destruct Hn as (t & Hget & _).
  apply get_block_range in Hget. pose proof (get_block_range _ _ _ Hm) as Hr.
  destruct (get_block_in_range w3 (n + 1)) as [t' Ht']; [lia|].
  specialize (Hnext t' Ht').
  assert (t' <= tm) by (apply (Hsorted (n + 1) m t' tm); [lia|assumption|assumption]).
  lia.
Qed.

(** What the search returns when its interval is empty. *)
Lemma bs_exit (w3 : Web3) (target low high : Z) :
  1 <= low -> high <= block_number w3 -> low = high + 1 ->
  (low = 1 \/ Spec.at_or_before w3 target (low - 1)) ->
  (exists t, get_block_timestamp w3 (Z.min (high + 1) (block_number w3)) = Ok t /\ target < t) ->
  Spec.at_or_before w3 target 1 ->
  Spec.boundary w3 target (Z.max 1 high).
Proof.
  intros Hlow Hhigh Heq Hinv_low (t & Ht & Hgt) (t1 & H1 & Hle1).
  pose proof (get_block_range _ _ _ H1) as Hr1.
  destruct (Z.le_gt_cases high 0) as [Hh0|Hh1].
  - exfalso. replace (Z.min (high + 1) (block_number w3)) with 1 in Ht by lia.
    rewrite H1 in Ht. injection Ht as <-. lia.
  - destruct Hinv_low as [->|(tl & Hl & Hle)]; [lia|].
    replace (low - 1) with high in Hl by lia.
    destruct (Z.le_gt_cases (block_number w3) high) as [Hge|Hlt].
    + exfalso. replace (Z.min (high + 1) (block_number w3)) with high in Ht by lia.
      rewrite Hl in Ht. injection Ht as <-. lia.
    + replace (Z.min (high + 1) (block_number w3)) with (high + 1) in Ht by lia.
      replace (Z.max 1 high) with high by lia. split.
      * exists tl. now split.
      * intros t' Ht'. rewrite Ht in Ht'. injection Ht' as <-. exact Hgt.
Qed.

Lemma bs_loop_boundary (w3 : Web3) (target : Z) (fuel : nat) :
  Spec.at_or_before w3 target 1 ->
  forall (low high : Z) (bf : BlockFinder),
    1 <= low -> high <= block_number w3 -> low <= high + 1 ->
    (Z.to_nat (high - low + 1) <= fuel)%nat ->
    (low = 1 \/ Spec.at_or_before w3 target (low - 1)) ->
    (exists t, get_block_timestamp w3 (Z.min (high + 1) (block_number w3)) = Ok t
               /\ target < t) ->
    exists n bf',
      bs_loop fuel w3 target (block_number w3) low high bf = (Ok n, bf')
      /\ Spec.same_memo bf bf'
      /\ Spec.boundary w3 target n.
Proof.
  intros H1. induction fuel as [|fuel IH]; intros low high bf Hlow Hhigh Hlh Hfuel Hil Hih.
  - cbn [bs_loop]. replace (low <=? high) with false by (symmetry; apply Z.leb_gt; lia).
    exists (Z.max 1 high), bf. split; [reflexivity|]. split; [apply same_memo_refl|].
    apply (bs_exit w3 target low high); try assumption. lia.
  - cbn [bs_loop]. destruct (Z.leb_spec low high) as [Hle|Hgt].
    + set (mid := (low + high) / 2).
      assert (Hmid : low <= mid <= high).
      { unfold mid. split; [apply Z.div_le_lower_bound|apply Z.div_le_upper_bound]; lia. }
      destruct (get_block_in_range w3 mid) as [ts Hts]; [lia|].
      destruct (get_block_run w3 mid ts bf Hts) as (bf1 & Hrun1 & Hsame1).
      rewrite (bindM_ok _ _ _ _ _ Hrun1).
      destruct (Z.ltb_spec target ts) as [Hlt|Hge].
      * destruct (IH low (mid - 1) bf1) as (n & bf' & Hrun & Hsame & Hb); try lia.
        -- exact Hil.
        -- exists ts. replace (Z.min (mid - 1 + 1) (block_number w3)) with mid by lia.
           now split.
        -- exists n, bf'. split; [exact Hrun|]. split; [|exact Hb].
           eapply same_memo_trans; eassumption.
      * destruct (get_block_in_range w3 (Z.min (mid + 1) (block_number w3)))
          as [nts Hnts]; [lia|].
        destruct (get_block_run w3 _ nts bf1 Hnts) as (bf2 & Hrun2 & Hsame2).
        rewrite (bindM_ok _ _ _ _ _ Hrun2).
        assert (Hsame : Spec.same_memo bf bf2) by (eapply same_memo_trans; eassumption).
        destruct (Z.ltb_spec target nts) as [Hlt2|Hge2].
        -- exists mid, bf2. split; [reflexivity|]. split; [exact Hsame|].
           assert (Hm : mid < block_number w3).
           { destruct (Z.eq_dec mid (block_number w3)) as [E|E]; [|lia].
             exfalso. replace (Z.min (mid + 1) (block_number w3)) with mid in Hnts by lia.
             rewrite Hts in Hnts. injection Hnts as <-. lia. }
           replace (Z.min (mid + 1) (block_number w3)) with (mid + 1) in Hnts by lia.
           split; [exists ts; now split|].
           intros t' Ht'. rewrite Hnts in Ht'. injection Ht' as <-. exact Hlt2.
        -- destruct (IH (mid + 1) high bf2) as (n & bf' & Hrun & Hsame' & Hb); try lia.
           ++ right. replace (mid + 1 - 1) with mid by lia. exists ts. now split.
           ++ exact Hih.
           ++ exists n, bf'. split; [exact Hrun|]. split; [|exact Hb].
              eapply same_memo_trans; eassumption.
    + exists (Z.max 1 high), bf. split; [reflexivity|]. split; [apply same_memo_refl|].
      apply (bs_exit w3 target low high); try assumption. lia.
Qed.

Lemma head_memo_same (w3 : Web3) (bf bf' : BlockFinder) :
  Spec.same_memo bf bf' -> Spec.head_memo_ok w3 bf -> Spec.head_memo_ok w3 bf'.
Proof.
  intros (_ & Hn & Ht) [H|(H & t & Hg & Hts)].
  - left. congruence.
  - right. split; [congruence|]. exists t. split; [exact Hg|congruence].
Qed.

Lemma ensure_latest_run (w3 : Web3) (bf : BlockFinder) :
  Spec.head_memo_ok w3 bf -> 0 <= block_number w3 ->
  exists t bf',
    _ensure_latest w3 bf = (Ok (block_number w3, t), bf')
    /\ get_block_timestamp w3 (block_number w3) = Ok t
    /\ Spec.same_cache bf bf'
    /\ Spec.head_memo_ok w3 bf'.
Proof.
  intros Hmemo Hhead. unfold _ensure_latest.
  destruct Hmemo as [Hnone|(Hnum & t & Hget & Hts)].
  - rewrite Hnone. destruct (get_block_in_range w3 (block_number w3)) as [t Hget]; [lia|].
    unfold bindM at 1. cbn [set_latest_num].
    match goal with |- context [bindM (_get_block ?w ?n) ?k ?b] =>
      destruct (get_block_run w n t b Hget) as (bf1 & Hrun & Hsame);
      rewrite (bindM_ok _ k b bf1 t Hrun) end.
    unfold bindM, set_latest_ts, ret. exists t. eexists. split; [reflexivity|].
    split; [exact Hget|]. destruct Hsame as (Hc & Hn & _). cbn in Hc, Hn. split.
    + exact Hc.
    + right. cbn. split; [exact Hn|]. now exists t.
  - rewrite Hnum, Hts. exists t, bf. repeat split; try assumption; try reflexivity.
    right. split; [exact Hnum|]. now exists t.
Qed.

Lemma binary_search_boundary (w3 : Web3) (target : Z) (bf : BlockFinder) :
  Spec.head_memo_ok w3 bf ->
  Spec.at_or_before w3 target 1 ->
  exists n bf',
    _binary_search w3 target bf = (Ok n, bf')
    /\ Spec.same_cache bf bf'
    /\ Spec.head_memo_ok w3 bf'
    /\ Spec.boundary w3 target n.
Proof.
  intros Hmemo H1.
  assert (Hhead : 1 <= block_number w3).
  { destruct H1 as (t1 & Hg & _). apply get_block_range in Hg. lia. }
  destruct (ensure_latest_run w3 bf Hmemo) as (t & bf1 & Hrun & Hget & Hc1 & Hm1); [lia|].
  unfold _binary_search. rewrite (bindM_ok _ _ _ _ _ Hrun).
  destruct (Z.leb_spec t target) as [Hle|Hgt].
  - exists (block_number w3), bf1. split; [reflexivity|]. split; [exact Hc1|].
    split; [exact Hm1|]. split; [exists t; now split|].
    intros t' Ht'. apply get_block_range in Ht'. lia.
  - assert (Hil : 1 = 1 \/ Spec.at_or_before w3 target (1 - 1)) by now left.
    assert (Hih : exists t0,
               get_block_timestamp w3 (Z.min (block_number w3 + 1) (block_number w3)) = Ok t0
               /\ target < t0).
    { exists t. replace (Z.min (block_number w3 + 1) (block_number w3))
        with (block_number w3) by lia. now split. }
    destruct (bs_loop_boundary w3 target (Z.to_nat (block_number w3)) H1
                1 (block_number w3) bf1 ltac:(lia) ltac:(lia) ltac:(lia) ltac:(lia) Hil Hih)
      as (n & bf' & Hloop & Hsame & Hb).
    exists n, bf'. split; [exact Hloop|]. split.
    + unfold Spec.same_cache in *. destruct Hsame as (Hc & _). congruence.
    + split; [eapply head_memo_same; eassumption|exact Hb].
Qed.

Lemma scan_loop_stop (w3 : Web3) (target cur ts : Z) (n : nat) (bf : BlockFinder) :
  target < ts -> scan_loop n w3 target cur ts bf = (Ok (cur, ts), bf).
Proof.
  intros H. destruct n; [reflexivity|]. cbn [scan_loop].
  replace (ts <=? target) with false by (symmetry; apply Z.leb_gt; lia). reflexivity.
Qed.

Lemma scan_loop_spec (w3 : Web3) (target : Z) (n : nat) :
  forall (cur ts : Z) (bf : BlockFinder),
    1 <= cur -> get_block_timestamp w3 cur = Ok ts -> ts <= target ->
    exists cur' ts' bf',
      scan_loop n w3 target cur ts bf = (Ok (cur', ts'), bf')
      /\ Spec.same_memo bf bf'
      /\ 1 <= cur'
      /\ (target < ts' ->
          Spec.at_or_before w3 target (cur' - 1)
          /\ 1 <= cur' - 1
          /\ get_block_timestamp w3 (cur' - 1 + 1) = Ok ts').
Proof.
  induction n as [|n IH]; intros cur ts bf Hcur Hget Hle.
  - exists cur, ts, bf. split; [reflexivity|]. split; [apply same_memo_refl|].
    split; [exact Hcur|]. intros Hgt. lia.
  - cbn [scan_loop]. replace (ts <=? target) with true by (symmetry; apply Z.leb_le; lia).
    cbn [andb]. destruct (Z.ltb_spec cur (block_number w3)) as [Hlt|Hge].
    + pose proof (get_block_range _ _ _ Hget) as Hr.
      destruct (get_block_in_range w3 (cur + 1)) as [ts1 Hts1]; [lia|].
      destruct (get_block_run w3 (cur + 1) ts1 bf Hts1) as (bf1 & Hrun1 & Hsame1).
      rewrite (bindM_ok _ _ _ _ _ Hrun1).
      destruct (Z.le_gt_cases ts1 target) as [Hle1|Hgt1].
      * destruct (IH (cur + 1) ts1 bf1) as (cur' & ts' & bf' & Hrun & Hsame & Hc & Hpost);
          try assumption; try lia.
        exists cur', ts', bf'. split; [exact Hrun|]. split; [|split; assumption].
        eapply same_memo_trans; eassumption.
      * rewrite (scan_loop_stop w3 target (cur + 1) ts1 n bf1 Hgt1).
        exists (cur + 1), ts1, bf1. split; [reflexivity|]. split; [exact Hsame1|].
        split; [lia|]. intros _. replace (cur + 1 - 1) with cur by lia.
        split; [exists ts; now split|]. split; [lia|exact Hts1].
    + exists cur, ts, bf. split; [reflexivity|]. split; [apply same_memo_refl|].
      split; [exact Hcur|]. intros Hgt. lia.
Qed.

(** C2 (amended).  On a chain whose timestamps never decrease and whose
    block 1 is at or before the target, a call of [find_before] that finds
    the minute bucket of the target in the cache returns the cached block,
    which was resolved for a timestamp of the same minute; a call that
    misses the cache, with no hint or with a hint block that is at or before
    the target, returns the largest block number whose timestamp is at most
    the target (the next block, if any, is after the target) and records it
    under the minute bucket. *)
Theorem find_before_resolves (w3 : Web3) (bf : BlockFinder) (target_ts : Z)
    (hint_block : option Z) (local_step_limit : Z) :
  Spec.sorted_chain w3 ->
  Spec.head_memo_ok w3 bf ->
  Spec.at_or_before w3 target_ts 1 ->
  Spec.hint_at_or_before w3 target_ts hint_block ->
  match truthy (_cache_by_minute bf !! Spec.bucket target_ts) with
  | Some hit => find_before w3 target_ts hint_block local_step_limit bf = (Ok hit, bf)
  | None =>
      exists n bf',
        find_before w3 target_ts hint_block local_step_limit bf = (Ok n, bf')
        /\ Spec.largest_at_or_before w3 target_ts n
        /\ Spec.boundary w3 target_ts n
        /\ _cache_by_minute bf' = <[Spec.bucket target_ts := n]> (_cache_by_minute bf)
        /\ Spec.head_memo_ok w3 bf'
  end.
Proof.
  intros Hsorted Hmemo H1 Hhint. unfold find_before. fold (Spec.bucket target_ts).
  destruct (truthy (_cache_by_minute bf !! Spec.bucket target_ts)) as [hit|] eqn:Hc;
    [reflexivity|].
  assert (Hfallback : forall bf1, Spec.same_memo bf bf1 ->
    exists n bf',
      (bindM (_binary_search w3 target_ts)
         (fun ans => bindM (cache_store (Spec.bucket target_ts) ans) (fun _ => ret ans))) bf1
      = (Ok n, bf')
      /\ Spec.largest_at_or_before w3 target_ts n
      /\ Spec.boundary w3 target_ts n
      /\ _cache_by_minute bf' = <[Spec.bucket target_ts := n]> (_cache_by_minute bf)
      /\ Spec.head_memo_ok w3 bf').
  { intros bf1 Hsame.
    destruct (binary_search_boundary w3 target_ts bf1) as (n & bf2 & Hrun & Hsc & Hm2 & Hb);
      [eapply head_memo_same; eassumption|exact H1|].
    rewrite (bindM_ok _ _ _ _ _ Hrun). unfold bindM, cache_store, ret.
    exists n. eexists. split; [reflexivity|]. split; [now apply boundary_largest|].
    split; [exact Hb|]. cbn [_cache_by_minute]. split.
    - unfold Spec.same_cache in Hsc. destruct Hsame as (Hc1 & _). congruence.
    - destruct Hm2 as [Hn|(Hn & t & Hg & Ht)]; [now left|right].
      cbn. split; [exact Hn|]. now exists t. }
  unfold Spec.hint_at_or_before in Hhint.
  destruct (truthy hint_block) as [hint|]; [|apply Hfallback, same_memo_refl].
  destruct Hhint as (th & Hth & Hle).
  destruct (get_block_run w3 _ th bf Hth) as (bf1 & Hrun1 & Hsame1).
  rewrite (bindM_ok _ _ _ _ _ Hrun1).
  destruct (scan_loop_spec w3 target_ts (Z.to_nat local_step_limit) (Z.max 1 hint) th bf1)
    as (cur & ts & bf2 & Hrun2 & Hsame2 & Hcur & Hpost); try assumption; try lia.
  rewrite (bindM_ok _ _ _ _ _ Hrun2).
  assert (Hsame : Spec.same_memo bf bf2) by (eapply same_memo_trans; eassumption).
  destruct (Z.ltb_spec target_ts ts) as [Hgt|Hge]; [|apply Hfallback, Hsame].
  destruct (Hpost Hgt) as (Hprev & Hp1 & Hnext).
  replace (Z.max 1 (cur - 1)) with (cur - 1) by lia.
  unfold bindM, cache_store, ret. exists (cur - 1). eexists. split; [reflexivity|].
  assert (Hb : Spec.boundary w3 target_ts (cur - 1)).
  { split; [exact Hprev|]. intros t' Ht'. rewrite Hnext in Ht'. injection Ht' as <-. exact Hgt. }
  split; [now apply boundary_largest|]. split; [exact Hb|]. cbn [_cache_by_minute]. split.
  - destruct Hsame as (Hc2 & _). congruence.
  - destruct (head_memo_same w3 bf bf2 Hsame Hmemo) as [Hn|(Hn & t & Hg & Ht)]; [now left|right].
    cbn. split; [exact Hn|]. now exists t.
Qed.

Lemma nondecreasing_nth (l : list Z) :
  Samples.nondecreasing l = true ->
  forall (i j : nat) (ti tj : Z),
    (i <= j)%nat -> nth_error l i = Some ti -> nth_error l j = Some tj -> ti <= tj.
Proof.
  induction l as [|x l IH]; intros Hnd i j ti tj Hij Hi Hj.
  - destruct i; discriminate Hi.
  - cbn [Samples.nondecreasing] in Hnd. apply andb_prop in Hnd. destruct Hnd as [Hall Hnd].
    destruct i as [|i], j as [|j]; cbn [nth_error] in Hi, Hj.
    + injection Hi as <-. injection Hj as <-. lia.
    + injection Hi as <-. apply nth_error_In in Hj.
      rewrite forallb_forall in Hall. specialize (Hall tj Hj). now apply Z.leb_le in Hall.
    + lia.
    + apply (IH Hnd i j); [lia|assumption|assumption].
Qed.

Lemma chain_of_sorted (blocks : list Z) :
  Samples.nondecreasing blocks = true -> Spec.sorted_chain (Samples.chain_of blocks).
Proof.
  intros Hnd i j ti tj Hij Hi Hj. unfold get_block_timestamp in Hi, Hj. cbn in Hi, Hj.
  destruct (Z.ltb_spec i 0); [discriminate Hi|]. destruct (Z.ltb_spec j 0); [discriminate Hj|].
  destruct (nth_error blocks (Z.to_nat i)) as [a|] eqn:Ei; [|discriminate Hi].
  destruct (nth_error blocks (Z.to_nat j)) as [b|] eqn:Ej; [|discriminate Hj].
  injection Hi as <-. injection Hj as <-.
  apply (nondecreasing_nth blocks Hnd (Z.to_nat i) (Z.to_nat j)); [lia|assumption|assumption].
Qed.

Lemma find_before_resolves_witness :
  exists n bf',
    find_before Samples.minute_chain 85 None 64 BlockFinder_init = (Ok n, bf')
    /\ Spec.largest_at_or_before Samples.minute_chain 85 n
    /\ Spec.boundary Samples.minute_chain 85 n
    /\ _cache_by_minute bf' = <[Spec.bucket 85 := n]> ∅
    /\ Spec.head_memo_ok Samples.minute_chain bf'.
Proof.
  assert (Hsorted : Spec.sorted_chain Samples.minute_chain)
    by (apply chain_of_sorted; reflexivity).
  assert (Hmemo : Spec.head_memo_ok Samples.minute_chain BlockFinder_init) by now left.
  assert (H1 : Spec.at_or_before Samples.minute_chain 85 1)
    by (exists 60; split; [reflexivity|lia]).
  assert (Hhint : Spec.hint_at_or_before Samples.minute_chain 85 None) by exact I.
  pose proof (find_before_resolves Samples.minute_chain BlockFinder_init 85 None 64
                Hsorted Hmemo H1 Hhint) as H.
  cbn [BlockFinder_init _cache_by_minute] in H. rewrite lookup_empty in H. exact H.
Defined.

(** C2, as stated, fails on a cache hit.  On the chain whose blocks 1, 2
    and 3 have the timestamps 60, 70 and 80, resolving 60 stores block 1
    under the minute bucket 60; resolving 85 afterwards finds that entry and
    returns block 1, although block 3 is at or before 85. *)
Lemma cache_hit_is_not_the_boundary :
  let w3 := Samples.minute_chain in
  let first := find_before w3 60 None 64 BlockFinder_init in
  Spec.sorted_chain w3
  /\ fst first = Ok 1
  /\ find_before w3 85 None 64 (snd first) = (Ok 1, snd first)
  /\ Spec.at_or_before w3 85 3
  /\ ~ Spec.largest_at_or_before w3 85 1
  /\ ~ Spec.boundary w3 85 1.
Proof.
  intros w3 first.
  assert (H3 : Spec.at_or_before w3 85 3) by (exists 80; split; [reflexivity|lia]).
  split; [apply chain_of_sorted; reflexivity|].
  split; [vm_compute; reflexivity|].
  split; [vm_compute; reflexivity|].
  split; [exact H3|]. split.
  - intros [_ Hmax]. specialize (Hmax 3 H3). lia.
  - intros [_ Hnext]. specialize (Hnext 70 eq_refl). lia.
Qed.

(** ** Monotonicity *)

(** C6, as the specification words it, fails.  On the chain with a block
    every hundred seconds, 450 resolves to block 4.  Resolving 150 with that
    block, returned by an earlier resolution, as the hint returns block 3:
    the scan starts at a block that is already after the target and steps
    back by one without reading the block it returns.  Resolving 250 then
    returns block 2 by binary search.  So 150 < 250 but the block returned
    for 150 is greater than the block returned for 250. *)
Theorem late_hint_breaks_monotonicity :
  let w3 := Samples.sparse_chain in
  let run1 := find_before w3 450 None 64 BlockFinder_init in
  let run2 := find_before w3 150 (Some 4) 64 (snd run1) in
  let run3 := find_before w3 250 None 64 (snd run2) in
  Spec.sorted_chain w3
  /\ fst run1 = Ok 4
  /\ fst run2 = Ok 3
  /\ fst run3 = Ok 2
  /\ Spec.largest_at_or_before w3 150 1.
Proof.
  intros w3 run1 run2 run3.
  assert (Hsorted : Spec.sorted_chain w3) by (apply chain_of_sorted; reflexivity).
  split; [exact Hsorted|].
  split; [vm_compute; reflexivity|].
  split; [vm_compute; reflexivity|].
  split; [vm_compute; reflexivity|].
  apply boundary_largest; [exact Hsorted|]. split.
  - exists 100. split; [reflexivity|lia].
  - intros t' Ht'. vm_compute in Ht'. injection Ht' as <-. lia.
Qed.

Lemma bucket_mono (t1 t2 : Z) : t1 <= t2 -> Spec.bucket t1 <= Spec.bucket t2.
Proof.
  intros H. unfold Spec.bucket. apply Z.mul_le_mono_nonneg_r; [lia|].
  apply Z.div_le_mono; lia.
Qed.

Lemma largest_mono (w3 : Web3) (s1 s2 n1 n2 : Z) :
  Spec.largest_at_or_before w3 s1 n1 -> Spec.largest_at_or_before w3 s2 n2 ->
  s1 <= s2 -> n1 <= n2.
Proof.
  intros [(t & Hg & Ht) _] [_ Hmax] Hle. apply Hmax. exists t. split; [exact Hg|lia].
Qed.

Lemma boundary_at_least_1 (w3 : Web3) (s n : Z) :
  Spec.sorted_chain w3 -> Spec.at_or_before w3 s 1 -> Spec.boundary w3 s n -> 1 <= n.
Proof.
  intros Hsorted H1 Hb. apply (boundary_largest w3 s n Hsorted) in Hb.
  destruct Hb as [_ Hmax]. now apply Hmax.
Qed.

Lemma truthy_some (x : option Z) (v : Z) : truthy x = Some v -> x = Some v.
Proof.
  destruct x as [y|]; [|discriminate]. cbn. destruct (y =? 0); [discriminate|congruence].
Qed.

Lemma truthy_none_sound (x : option Z) (v : Z) : truthy x = None -> x = Some v -> v = 0.
Proof.
  intros Ht ->. cbn in Ht. destruct (Z.eqb_spec v 0); [assumption|discriminate].
Qed.

(** One resolution, by cases on the cache: a hit returns the cached block;
    a miss returns the boundary block and records it. *)
Lemma find_before_boundary_or_hit (w3 : Web3) (bf : BlockFinder) (target_ts : Z)
    (hint_block : option Z) (local_step_limit : Z) :
  Spec.sorted_chain w3 ->
  Spec.head_memo_ok w3 bf ->
  Spec.at_or_before w3 target_ts 1 ->
  Spec.hint_at_or_before w3 target_ts hint_block ->
  match truthy (_cache_by_minute bf !! Spec.bucket target_ts) with
  | Some hit => find_before w3 target_ts hint_block local_step_limit bf = (Ok hit, bf)
  | None =>
      exists n bf',
        find_before w3 target_ts hint_block local_step_limit bf = (Ok n, bf')
        /\ Spec.largest_at_or_before w3 target_ts n
        /\ Spec.boundary w3 target_ts n
        /\ _cache_by_minute bf' = <[Spec.bucket target_ts := n]> (_cache_by_minute bf)
        /\ Spec.head_memo_ok w3 bf'
  end.
Proof.
  intros Hsorted Hmemo H1 Hhint. unfold find_before. fold (Spec.bucket target_ts).
  destruct (truthy (_cache_by_minute bf !! Spec.bucket target_ts)) as [hit|] eqn:Hc;
    [reflexivity|].
  assert (Hfallback : forall bf1, Spec.same_memo bf bf1 ->
    exists n bf',
      (bindM (_binary_search w3 target_ts)
         (fun ans => bindM (cache_store (Spec.bucket target_ts) ans) (fun _ => ret ans))) bf1
      = (Ok n, bf')
      /\ Spec.largest_at_or_before w3 target_ts n
      /\ Spec.boundary w3 target_ts n
      /\ _cache_by_minute bf' = <[Spec.bucket target_ts := n]> (_cache_by_minute bf)
      /\ Spec.head_memo_ok w3 bf').
  { intros bf1 Hsame.
    destruct (binary_search_boundary w3 target_ts bf1) as (n & bf2 & Hrun & Hsc & Hm2 & Hb);
      [eapply head_memo_same; eassumption|exact H1|].
    rewrite (bindM_ok _ _ _ _ _ Hrun). unfold bindM, cache_store, ret.
    exists n. eexists. split; [reflexivity|]. split; [now apply boundary_largest|].
    split; [exact Hb|]. cbn [_cache_by_minute]. split.
    - unfold Spec.same_cache in Hsc. destruct Hsame as (Hc1 & _). congruence.
    - destruct Hm2 as [Hn|(Hn & t & Hg & Ht)]; [now left|right].
      cbn. split; [exact Hn|]. now exists t. }
  unfold Spec.hint_at_or_before in Hhint.
  destruct (truthy hint_block) as [hint|]; [|apply Hfallback, same_memo_refl].
  destruct Hhint as (th & Hth & Hle).
  destruct (get_block_run w3 _ th bf Hth) as (bf1 & Hrun1 & Hsame1).
  rewrite (bindM_ok _ _ _ _ _ Hrun1).
  destruct (scan_loop_spec w3 target_ts (Z.to_nat local_step_limit) (Z.max 1 hint) th bf1)
    as (cur & ts & bf2 & Hrun2 & Hsame2 & Hcur & Hpost); try assumption; try lia.
  rewrite (bindM_ok _ _ _ _ _ Hrun2).
  assert (Hsame : Spec.same_memo bf bf2) by (eapply same_memo_trans; eassumption).
  destruct (Z.ltb_spec target_ts ts) as [Hgt|Hge]; [|apply Hfallback, Hsame].
  destruct (Hpost Hgt) as (Hprev & Hp1 & Hnext).
  replace (Z.max 1 (cur - 1)) with (cur - 1) by lia.
  unfold bindM, cache_store, ret. exists (cur - 1). eexists. split; [reflexivity|].
  assert (Hb : Spec.boundary w3 target_ts (cur - 1)).
  { split; [exact Hprev|]. intros t' Ht'. rewrite Hnext in Ht'. injection Ht' as <-. exact Hgt. }
  split; [now apply boundary_largest|]. split; [exact Hb|]. cbn [_cache_by_minute]. split.
  - destruct Hsame as (Hc2 & _). congruence.
  - destruct (head_memo_same w3 bf bf2 Hsame Hmemo) as [Hn|(Hn & t & Hg & Ht)]; [now left|right].
    cbn. split; [exact Hn|]. now exists t.
Qed.

(** One resolution from a sound cache: the answer is stored under the
    bucket of the timestamp, and the cache stays sound and only grows. *)
Lemma find_before_sound (w3 : Web3) (bf : BlockFinder) (ts : Z) (hint : option Z)
    (limit : Z) :
  Spec.sorted_chain w3 -> Spec.head_memo_ok w3 bf -> Spec.cache_sound w3 bf ->
  Spec.at_or_before w3 ts 1 -> Spec.hint_at_or_before w3 ts hint ->
  exists n bf',
    find_before w3 ts hint limit bf = (Ok n, bf')
    /\ _cache_by_minute bf' !! Spec.bucket ts = Some n
    /\ Spec.cache_extends bf bf'
    /\ Spec.cache_sound w3 bf'
    /\ Spec.head_memo_ok w3 bf'.
Proof.
  intros Hsorted Hmemo Hsound H1 Hhint.
  pose proof (find_before_boundary_or_hit w3 bf ts hint limit Hsorted Hmemo H1 Hhint) as H.
  destruct (truthy (_cache_by_minute bf !! Spec.bucket ts)) as [hit|] eqn:Hc.
  - exists hit, bf. split; [exact H|]. split; [now apply truthy_some|].
    split; [intros k v Hk; exact Hk|]. now split.
  - destruct H as (n & bf' & Hrun & _ & Hb & Hcache & Hmemo').
    assert (Hfree : _cache_by_minute bf !! Spec.bucket ts = None).
    { destruct (_cache_by_minute bf !! Spec.bucket ts) as [v|] eqn:Hv; [|reflexivity].
      pose proof (truthy_none_sound _ v Hc eq_refl) as Hz.
      destruct (Hsound _ _ Hv) as [Hv1 _]. lia. }
    exists n, bf'. split; [exact Hrun|]. rewrite Hcache. split; [apply lookup_insert_eq|].
    split; [|split; [|exact Hmemo']].
    + intros k v Hk. destruct (Z.eq_dec (Spec.bucket ts) k) as [<-|Hne].
      * rewrite Hfree in Hk. discriminate Hk.
      * rewrite Hcache, lookup_insert_ne by exact Hne. exact Hk.
    + intros k v Hk. rewrite Hcache in Hk.
      destruct (Z.eq_dec (Spec.bucket ts) k) as [<-|Hne].
      * rewrite lookup_insert_eq in Hk. injection Hk as <-.
        split; [eapply boundary_at_least_1; eassumption|]. now exists ts.
      * rewrite lookup_insert_ne in Hk by exact Hne. now apply Hsound.
Qed.

Lemma resolve_all_sound (w3 : Web3) (calls : list (Z * option Z)) :
  Spec.sorted_chain w3 ->
  (forall ts hint, In (ts, hint) calls ->
     Spec.at_or_before w3 ts 1 /\ Spec.hint_at_or_before w3 ts hint) ->
  forall bf, Spec.head_memo_ok w3 bf -> Spec.cache_sound w3 bf ->
  exists answers bf',
    Spec.resolve_all w3 calls bf = (Ok answers, bf')
    /\ Spec.cache_extends bf bf'
    /\ Spec.cache_sound w3 bf'
    /\ Forall2 (fun c n => _cache_by_minute bf' !! Spec.bucket (fst c) = Some n) calls answers.
Proof.
  intros Hsorted. induction calls as [|[ts hint] calls IH]; intros Hok bf Hmemo Hsound.
  - exists [], bf. split; [reflexivity|]. split; [intros k v Hk; exact Hk|].
    split; [exact Hsound|constructor].
  - destruct (Hok ts hint (or_introl eq_refl)) as [H1 Hhint].
    destruct (find_before_sound w3 bf ts hint 64 Hsorted Hmemo Hsound H1 Hhint)
      as (n & bf1 & Hrun & Hn & Hext1 & Hsound1 & Hmemo1).
    destruct (IH (fun t h Hin => Hok t h (or_intror Hin)) bf1 Hmemo1 Hsound1)
      as (ns & bf' & Hrest & Hext & Hsound' & Hall).
    exists (n :: ns), bf'. cbn [Spec.resolve_all].
    rewrite (bindM_ok _ _ _ _ _ Hrun), (bindM_ok _ _ _ _ _ Hrest).
    split; [reflexivity|]. split; [intros k v Hk; apply Hext, Hext1, Hk|].
    split; [exact Hsound'|]. constructor; [apply Hext, Hn|exact Hall].
Qed.

(** X16.  Monotonicity without late hints.  On a chain whose timestamps never
    decrease, any sequence of resolutions on a fresh finder, in any order of
    the timestamps, each with no hint or with a hint block that is at or
    before its target, returns without raising, and the answers are
    monotone: a smaller timestamp never gets a greater block.  Cache hits
    are included; only a hint that is already after its target breaks this. *)
Theorem resolver_monotone_with_sound_hints (w3 : Web3) (calls : list (Z * option Z)) :
  Spec.sorted_chain w3 ->
  (forall ts hint, In (ts, hint) calls ->
     Spec.at_or_before w3 ts 1 /\ Spec.hint_at_or_before w3 ts hint) ->
  exists answers bf',
    Spec.resolve_all w3 calls BlockFinder_init = (Ok answers, bf')
    /\ length answers = length calls
    /\ forall (i j : nat) c1 c2 n1 n2,
         nth_error calls i = Some c1 -> nth_error answers i = Some n1 ->
         nth_error calls j = Some c2 -> nth_error answers j = Some n2 ->
         fst c1 < fst c2 -> n1 <= n2.
Proof.
  intros Hsorted Hok.
  destruct (resolve_all_sound w3 calls Hsorted Hok BlockFinder_init)
    as (answers & bf' & Hrun & _ & Hsound & Hall).
  { now left. }
  { intros k v Hk. cbn in Hk. rewrite lookup_empty in Hk. discriminate Hk. }
  exists answers, bf'. split; [exact Hrun|].
  split; [symmetry; eapply Forall2_length; exact Hall|].
  intros i j c1 c2 n1 n2 Hc1 Hn1 Hc2 Hn2 Hlt.
  assert (Hlook : forall (k : nat) c n, nth_error calls k = Some c -> nth_error answers k = Some n ->
            _cache_by_minute bf' !! Spec.bucket (fst c) = Some n).
  { clear -Hall. induction Hall as [|c0 n0 cs ns H0 _ IH]; intros k c n Hc Hn.
    - destruct k; discriminate Hc.
    - destruct k as [|k]; cbn [nth_error] in Hc, Hn.
      + injection Hc as <-. injection Hn as <-. exact H0.
      + eapply IH; eassumption. }
  pose proof (Hlook i c1 n1 Hc1 Hn1) as He1. pose proof (Hlook j c2 n2 Hc2 Hn2) as He2.
  destruct (Hsound _ _ He1) as (_ & s1 & Hs1 & Hb1).
  destruct (Hsound _ _ He2) as (_ & s2 & Hs2 & Hb2).
  destruct (Z.eq_dec (Spec.bucket (fst c1)) (Spec.bucket (fst c2))) as [Heq|Hne].
  - rewrite Heq, He2 in He1. injection He1 as ->. lia.
  - pose proof (bucket_mono (fst c1) (fst c2) ltac:(lia)) as Hbk.
    assert (Hs : s1 <= s2).
    { destruct (Z.le_gt_cases s1 s2) as [|Hgt]; [assumption|exfalso].
      pose proof (bucket_mono s2 s1 ltac:(lia)). lia. }
    eapply (largest_mono w3 s1 s2); [apply boundary_largest| apply boundary_largest|];
      eassumption.
Qed.

Lemma resolver_monotone_with_sound_hints_witness :
  exists answers bf',
    Spec.resolve_all Samples.sparse_chain [(250, None); (120, Some 1); (480, Some 2)]
      BlockFinder_init = (Ok answers, bf')
    /\ length answers = 3%nat
    /\ forall (i j : nat) c1 c2 n1 n2,
         nth_error [(250, None); (120, Some 1); (480, Some 2)] i = Some c1 ->
         nth_error answers i = Some n1 ->
         nth_error [(250, None); (120, Some 1); (480, Some 2)] j = Some c2 ->
         nth_error answers j = Some n2 ->
         fst c1 < fst c2 -> n1 <= n2.
Proof.
  apply (resolver_monotone_with_sound_hints Samples.sparse_chain
           [(250, None); (120, Some 1); (480, Some 2)]).
  - apply chain_of_sorted. reflexivity.
  - intros ts hint [H|[H|[H|[]]]]; injection H as <- <-;
      (split; [exists 100; split; [reflexivity|lia]|]).
    + exact I.
    + exists 100. split; [reflexivity|lia].
    + exists 200. split; [reflexivity|lia].
Defined.

(** ** Hints from earlier resolutions *)

(** A cache hit is returned whatever the hint. *)
Lemma find_before_hit (w3 : Web3) (bf : BlockFinder) (ts : Z) (hint : option Z) (limit hit : Z) :
  truthy (_cache_by_minute bf !! Spec.bucket ts) = Some hit ->
  find_before w3 ts hint limit bf = (Ok hit, bf).
Proof. intros H. unfold find_before. fold (Spec.bucket ts). now rewrite H. Qed.

(** One resolution from a sound cache, with a hint that is at or before the
    timestamp whenever the cache does not answer. *)
Lemma find_before_sound_on_miss (w3 : Web3) (bf : BlockFinder) (ts : Z) (hint : option Z)
    (limit : Z) :
  Spec.sorted_chain w3 -> Spec.head_memo_ok w3 bf -> Spec.cache_sound w3 bf ->
  Spec.at_or_before w3 ts 1 ->
  (truthy (_cache_by_minute bf !! Spec.bucket ts) = None -> Spec.hint_at_or_before w3 ts hint) ->
  exists n bf',
    find_before w3 ts hint limit bf = (Ok n, bf')
    /\ _cache_by_minute bf' !! Spec.bucket ts = Some n
    /\ Spec.cache_extends bf bf'
    /\ Spec.cache_sound w3 bf'
    /\ Spec.head_memo_ok w3 bf'.
Proof.
  intros Hsorted Hmemo Hsound H1 Hhint.
  destruct (truthy (_cache_by_minute bf !! Spec.bucket ts)) as [hit|] eqn:Hc.
  - rewrite (find_before_hit w3 bf ts hint limit hit Hc).
    rewrite <- (find_before_hit w3 bf ts None limit hit Hc).
    apply find_before_sound; try assumption. exact I.
  - apply find_before_sound; try assumption. now apply Hhint.
Qed.

(** Answers that a sound cache holds under the buckets of their timestamps
    are monotone. *)
Lemma cached_answers_monotone (w3 : Web3) (bf : BlockFinder) (tss answers : list Z) :
  Spec.sorted_chain w3 -> Spec.cache_sound w3 bf ->
  Forall2 (fun t n => _cache_by_minute bf !! Spec.bucket t = Some n) tss answers ->
  forall (i j : nat) (t1 t2 n1 n2 : Z),
    nth_error tss i = Some t1 -> nth_error answers i = Some n1 ->
    nth_error tss j = Some t2 -> nth_error answers j = Some n2 ->
    t1 < t2 -> n1 <= n2.
Proof.
  intros Hsorted Hsound Hall i j t1 t2 n1 n2 Hc1 Hn1 Hc2 Hn2 Hlt.
  assert (Hlook : forall (k : nat) t n, nth_error tss k = Some t -> nth_error answers k = Some n ->
            _cache_by_minute bf !! Spec.bucket t = Some n).
  { clear -Hall. induction Hall as [|c0 n0 cs ns H0 _ IH]; intros k c n Hc Hn.
    - destruct k; discriminate Hc.
    - destruct k as [|k]; cbn [nth_error] in Hc, Hn.
      + injection Hc as <-. injection Hn as <-. exact H0.
      + eapply IH; eassumption. }
  pose proof (Hlook i t1 n1 Hc1 Hn1) as He1. pose proof (Hlook j t2 n2 Hc2 Hn2) as He2.
  destruct (Hsound _ _ He1) as (_ & s1 & Hs1 & Hb1).
  destruct (Hsound _ _ He2) as (_ & s2 & Hs2 & Hb2).
  destruct (Z.eq_dec (Spec.bucket t1) (Spec.bucket t2)) as [Heq|Hne].
  - rewrite Heq, He2 in He1. injection He1 as ->. lia.
  - pose proof (bucket_mono t1 t2 ltac:(lia)) as Hbk.
    assert (Hs : s1 <= s2).
    { destruct (Z.le_gt_cases s1 s2) as [|Hgt]; [assumption|exfalso].
      pose proof (bucket_mono s2 s1 ltac:(lia)). lia. }
    eapply (largest_mono w3 s1 s2); [apply boundary_largest| apply boundary_largest|];
      eassumption.
Qed.

(** A sequence of resolutions with hints from earlier calls that are not
    later keeps the cache sound, and leaves every answer in the cache. *)
Lemma resolve_hinted_sound (w3 : Web3) (calls : list (Z * option nat)) :
  Spec.sorted_chain w3 ->
  forall (done : list (Z * Z)) (bf : BlockFinder),
    (forall ts pick, In (ts, pick) calls -> Spec.at_or_before w3 ts 1) ->
    Spec.hints_from_no_later (map fst done) calls ->
    Spec.head_memo_ok w3 bf -> Spec.cache_sound w3 bf ->
    Forall (fun d => _cache_by_minute bf !! Spec.bucket (fst d) = Some (snd d)) done ->
    exists answers bf',
      Spec.resolve_hinted w3 calls (map snd done) bf = (Ok answers, bf')
      /\ Spec.cache_extends bf bf'
      /\ Spec.cache_sound w3 bf'
      /\ Forall2 (fun t n => _cache_by_minute bf' !! Spec.bucket t = Some n)
           (map fst calls) answers.
Proof.
  intros Hsorted. induction calls as [|[ts pick] calls IH];
    intros done bf H1 Hpick Hmemo Hsound Hdone.
  - exists [], bf. split; [reflexivity|]. split; [intros k v Hk; exact Hk|].
    split; [exact Hsound|constructor].
  - cbn [Spec.resolve_hinted].
    set (hint := match pick with Some j => nth_error (map snd done) j | None => None end).
    assert (Hhint : truthy (_cache_by_minute bf !! Spec.bucket ts) = None ->
                    Spec.hint_at_or_before w3 ts hint).
    { intros Hmiss. unfold Spec.hint_at_or_before, hint.
      destruct pick as [j|]; [|exact I].
      destruct (nth_error (map snd done) j) as [h|] eqn:Hj; [|exact I].
      destruct (truthy (Some h)) as [h'|] eqn:Hh; [|exact I].
      apply truthy_some in Hh. injection Hh as <-.
      rewrite nth_error_map in Hj. destruct (nth_error done j) as [[tj nj]|] eqn:Hd;
        [|discriminate Hj]. cbn in Hj. injection Hj as ->.
      assert (Hjlt : (j < length done)%nat) by (apply nth_error_Some; congruence).
      assert (Htj : tj <= ts).
      { apply (Hpick 0%nat j ts tj); [reflexivity| |rewrite length_map; lia].
        rewrite nth_error_app1 by (rewrite length_map; lia).
        rewrite nth_error_map, Hd. reflexivity. }
      pose proof (proj1 (List.Forall_forall _ _) Hdone (tj, h) (nth_error_In _ _ Hd)) as Hc.
      cbn [fst snd] in Hc.
      destruct (Hsound _ _ Hc) as (Hh1 & s & Hs & Hb).
      replace (Z.max 1 h) with h by lia.
      destruct (Z.le_gt_cases s ts) as [Hle|Hgt].
      - destruct Hb as [(t & Hg & Ht) _]. exists t. split; [exact Hg|lia].
      - exfalso.
        pose proof (bucket_mono tj ts Htj). pose proof (bucket_mono ts s ltac:(lia)).
        assert (Heq : Spec.bucket ts = Spec.bucket tj) by lia.
        rewrite Heq, Hc in Hmiss. cbn in Hmiss.
        destruct (Z.eqb_spec h 0); [lia|discriminate Hmiss]. }
    destruct (find_before_sound_on_miss w3 bf ts hint 64 Hsorted Hmemo Hsound
                (H1 ts pick (or_introl eq_refl)) Hhint)
      as (n & bf1 & Hrun & Hn & Hext1 & Hsound1 & Hmemo1).
    destruct (IH (done ++ [(ts, n)])%list bf1) as (ns & bf' & Hrest & Hext & Hsound' & Hall).
    + intros t p Hin. apply (H1 t p). now right.
    + intros i j t tj Hi Hj Hlt. rewrite map_app in Hj, Hlt. rewrite List.length_app in Hlt.
      cbn [map length fst] in Hj, Hlt.
      apply (Hpick (S i) j t tj); [exact Hi| |lia].
      cbn [map fst]. rewrite <- app_assoc in Hj. exact Hj.
    + exact Hmemo1.
    + exact Hsound1.
    + apply Forall_app. split.
      * eapply List.Forall_impl; [|exact Hdone]. intros d Hd. now apply Hext1.
      * constructor; [exact Hn|constructor].
    + rewrite map_app in Hrest. cbn [map snd] in Hrest.
      exists (n :: ns), bf'.
      rewrite (bindM_ok _ _ _ _ _ Hrun), (bindM_ok _ _ _ _ _ Hrest).
      split; [reflexivity|]. split; [intros k v Hk; apply Hext, Hext1, Hk|].
      split; [exact Hsound'|]. cbn [map fst]. constructor; [apply Hext, Hn|exact Hall].
Qed.

(** C6 (amended).  On a chain whose block timestamps never decrease, every
    sequence of resolutions on a fresh finder, for timestamps at or after
    block 1 and in any order, in which each call passes no hint or the
    block that an earlier call of the sequence returned for a timestamp
    that is not later than its own, returns without raising, and the
    answers are monotone: for timestamps t1 < t2 the block returned for t1
    is at most the block returned for t2.  Calls that hit the minute cache
    are included. *)
Theorem resolver_monotone_with_earlier_hints (w3 : Web3) (calls : list (Z * option nat)) :
  Spec.sorted_chain w3 ->
  (forall ts pick, In (ts, pick) calls -> Spec.at_or_before w3 ts 1) ->
  Spec.hints_from_no_later [] calls ->
  exists answers bf',
    Spec.resolve_hinted w3 calls [] BlockFinder_init = (Ok answers, bf')
    /\ length answers = length calls
    /\ forall (i j : nat) c1 c2 n1 n2,
         nth_error calls i = Some c1 -> nth_error answers i = Some n1 ->
         nth_error calls j = Some c2 -> nth_error answers j = Some n2 ->
         fst c1 < fst c2 -> n1 <= n2.
Proof.
  intros Hsorted H1 Hpick.
  destruct (resolve_hinted_sound w3 calls Hsorted [] BlockFinder_init H1 Hpick)
    as (answers & bf' & Hrun & _ & Hsound & Hall).
  { now left. }
  { intros k v Hk. cbn in Hk. rewrite lookup_empty in Hk. discriminate Hk. }
  { constructor. }
  exists answers, bf'. split; [exact Hrun|].
  split; [apply Forall2_length in Hall; rewrite length_map in Hall; now symmetry|].
  intros i j c1 c2 n1 n2 Hc1 Hn1 Hc2 Hn2 Hlt.
  apply (cached_answers_monotone w3 bf' (map fst calls) answers Hsorted Hsound Hall
           i j (fst c1) (fst c2) n1 n2); try assumption.
  - now rewrite nth_error_map, Hc1.
  - now rewrite nth_error_map, Hc2.
Qed.

Lemma resolver_monotone_with_earlier_hints_witness :
  exists answers bf',
    Spec.resolve_hinted Samples.sparse_chain
      [(150, None); (450, Some 0%nat); (250, Some 0%nat); (460, Some 1%nat)] []
      BlockFinder_init = (Ok answers, bf')
    /\ length answers = 4%nat
    /\ forall (i j : nat) c1 c2 n1 n2,
         nth_error [(150, None); (450, Some 0%nat); (250, Some 0%nat); (460, Some 1%nat)] i
         = Some c1 ->
         nth_error answers i = Some n1 ->
         nth_error [(150, None); (450, Some 0%nat); (250, Some 0%nat); (460, Some 1%nat)] j
         = Some c2 ->
         nth_error answers j = Some n2 ->
         fst c1 < fst c2 -> n1 <= n2.
Proof.
  apply (resolver_monotone_with_earlier_hints Samples.sparse_chain
           [(150, None); (450, Some 0%nat); (250, Some 0%nat); (460, Some 1%nat)]).
  - apply chain_of_sorted. reflexivity.
  - intros ts pick [H|[H|[H|[H|[]]]]]; injection H as <- <-;
      (exists 100; split; [reflexivity|lia]).
  - intros i j ts tj Hi Hj Hlt. cbn [length Nat.add app map fst] in Hj, Hlt.
    destruct i as [|[|[|[|i]]]]; cbn [nth_error] in Hi; try discriminate Hi;
      try (destruct i; discriminate Hi);
      injection Hi as <- <-; cbn [nth_error] in Hj; injection Hj as <-; lia.
Defined.

(** ** Decimal arithmetic and the price oracle *)

Section Oracle.

#[local] Open Scope Q_scope.

Lemma round_half_even_error (x : Q) :
  Qabs (inject_Z (Dec.round_half_even x) - x) <= 1 # 2.
Proof.
  destruct x as [n d]. unfold Dec.round_half_even. cbn [Qnum Qden].
  pose proof (Z.div_mod n (Zpos d) ltac:(lia)) as Hdm.
  pose proof (Z.mod_pos_bound n (Zpos d) ltac:(lia)) as Hr.
  set (q := (n / Zpos d)%Z) in *. set (r := (n mod Zpos d)%Z) in *.
  apply Qabs_Qle_condition.
  destruct (Z.ltb_spec (2 * r) (Zpos d)); [|destruct (Z.ltb_spec (Zpos d) (2 * r)); [|destruct (Z.even q)]];
    split; unfold Qle, Qminus, Qplus, Qopp, inject_Z; cbn [Qnum Qden]; nia.
Qed.

Lemma ndigits_aux_spec (fuel : nat) : forall n : Z,
  (0 < n)%Z -> (n < 10 ^ Z.of_nat fuel)%Z ->
  (1 <= Dec.ndigits_aux fuel n)%Z
  /\ (10 ^ (Dec.ndigits_aux fuel n - 1) <= n < 10 ^ Dec.ndigits_aux fuel n)%Z.
Proof.
  induction fuel as [|fuel IH]; intros n Hpos Hlt.
  - cbn in Hlt. lia.
  - cbn [Dec.ndigits_aux]. destruct (Z.ltb_spec n 10) as [H10|H10].
    + cbn. lia.
    + assert (Hq : (0 < n / 10)%Z) by (apply Z.div_str_pos; lia).
      assert (Hqlt : (n / 10 < 10 ^ Z.of_nat fuel)%Z).
      { apply Z.div_lt_upper_bound; [lia|]. rewrite Nat2Z.inj_succ, Z.pow_succ_r in Hlt; lia. }
      destruct (IH (n / 10)%Z Hq Hqlt) as (Hk & Hlo & Hhi).
      set (k := Dec.ndigits_aux fuel (n / 10)) in *.
      replace (1 + k - 1)%Z with (Z.succ (k - 1)) by lia.
      replace (1 + k)%Z with (Z.succ k) by lia.
      rewrite !Z.pow_succ_r by lia.
      pose proof (Z.div_mod n 10 ltac:(lia)). pose proof (Z.mod_pos_bound n 10 ltac:(lia)).
      lia.
Qed.

Lemma ndigits_spec (n : Z) :
  (0 < n)%Z ->
  (1 <= Dec.ndigits n)%Z /\ (10 ^ (Dec.ndigits n - 1) <= n < 10 ^ Dec.ndigits n)%Z.
Proof.
  intros Hpos. unfold Dec.ndigits. apply ndigits_aux_spec; [exact Hpos|].
  pose proof (Z.log2_spec n Hpos) as [_ Hlt]. pose proof (Z.log2_nonneg n) as Hnn.
  rewrite Nat2Z.inj_succ, Z2Nat.id by lia.
  eapply Z.lt_le_trans; [exact Hlt|]. apply Z.pow_le_mono_l. lia.
Qed.

Lemma pow10_pos (e : Z) : 0 < Dec.pow10 e.
Proof. unfold Dec.pow10. apply Qpower_0_lt. reflexivity. Qed.

Lemma pow10_add (a b : Z) : Dec.pow10 (a + b) == Dec.pow10 a * Dec.pow10 b.
Proof. unfold Dec.pow10. apply Qpower_plus. discriminate. Qed.

Lemma pow10_Z (k : Z) : (0 <= k)%Z -> Dec.pow10 k == inject_Z (10 ^ k).
Proof. intros H. unfold Dec.pow10. symmetry. now apply Zpower_Qpower. Qed.

Lemma pow10_opp (k : Z) : Dec.pow10 (- k) == / Dec.pow10 k.
Proof. unfold Dec.pow10. apply Qpower_opp. Qed.

Lemma Qabs_num_pos (x : Q) : ~ x == 0 -> (0 < Qnum (Qabs x))%Z.
Proof.
  destruct x as [n d]. unfold Qeq. cbn. intros H. lia.
Qed.

Lemma magnitude_lower (x : Q) : ~ x == 0 -> Dec.pow10 (Dec.magnitude x) <= Qabs x.
Proof.
  intros Hx. unfold Dec.magnitude.
  set (a := Qabs x). set (kn := Dec.ndigits (Qnum a)). set (kd := Dec.ndigits (Zpos (Qden a))).
  destruct (Qle_bool (Dec.pow10 (kn - kd)) a) eqn:E; [now apply Qle_bool_iff|].
  destruct (ndigits_spec (Qnum a) (Qabs_num_pos x Hx)) as (Hkn & Hnlo & _).
  destruct (ndigits_spec (Zpos (Qden a)) ltac:(lia)) as (Hkd & _ & Hdhi).
  fold kn in Hkn, Hnlo. fold kd in Hkd, Hdhi.
  replace (kn - kd - 1)%Z with ((kn - 1) + - kd)%Z by lia.
  rewrite pow10_add, pow10_opp, !pow10_Z by lia.
  change (inject_Z (10 ^ (kn - 1)) / inject_Z (10 ^ kd) <= a).
  apply Qle_shift_div_r.
  - change 0 with (inject_Z 0). rewrite <- Zlt_Qlt. lia.
  - destruct a as [n d]. cbn [Qnum Qden] in *. unfold Qle, Qmult, inject_Z. cbn [Qnum Qden].
    nia.
Qed.

(** The relative error of rounding to [prec] significant digits is at most
    half a unit of the last digit kept. *)
Lemma round_sig_error (prec : Z) (x : Q) :
  Qabs (Dec.round_sig prec x - x) <= Qabs x * ((1 # 2) * Dec.pow10 (1 - prec)).
Proof.
  unfold Dec.round_sig. destruct (Qeq_bool x 0) eqn:E0.
  - apply Qeq_bool_iff in E0. rewrite E0. cbn. discriminate.
  - apply Qeq_bool_neq in E0. rewrite Qred_correct.
    set (e := (Dec.magnitude x - prec + 1)%Z).
    set (c := Dec.round_half_even (Qabs x / Dec.pow10 e)).
    pose proof (round_half_even_error (Qabs x / Dec.pow10 e)) as Herr. fold c in Herr.
    pose proof (pow10_pos e) as He.
    pose proof (magnitude_lower x E0) as Hm.
    assert (Hpe : Dec.pow10 e == Dec.pow10 (Dec.magnitude x) * Dec.pow10 (1 - prec)).
    { unfold e. rewrite <- pow10_add. now replace (Dec.magnitude x - prec + 1)%Z
        with (Dec.magnitude x + (1 - prec))%Z by lia. }
    pose proof (pow10_pos (1 - prec)) as Hp.
    assert (Hscaled : Qabs (inject_Z c * Dec.pow10 e - Qabs x) <= (1 # 2) * Dec.pow10 e).
    { assert (Heq : inject_Z c * Dec.pow10 e - Qabs x
                    == (inject_Z c - Qabs x / Dec.pow10 e) * Dec.pow10 e)
        by (field; intros Hz; rewrite Hz in He; discriminate He).
      rewrite Heq, Qabs_Qmult, (Qabs_pos (Dec.pow10 e)) by (apply Qlt_le_weak, He).
      apply Qmult_le_compat_r; [exact Herr|apply Qlt_le_weak, He]. }
    assert (Hbound : (1 # 2) * Dec.pow10 e <= Qabs x * ((1 # 2) * Dec.pow10 (1 - prec))).
    { rewrite Hpe. nra. }
    eapply Qle_trans; [|exact Hbound]. eapply Qle_trans; [|exact Hscaled].
    destruct (Qle_bool 0 x) eqn:Es.
    + apply Qle_bool_iff in Es. rewrite (Qabs_pos x Es).
      assert (Heq : 1 * inject_Z c * Dec.pow10 e - x == inject_Z c * Dec.pow10 e - x) by ring.
      rewrite Heq. apply Qle_refl.
    + assert (Hneg : x <= 0).
      { destruct (Qlt_le_dec 0 x) as [H|H]; [|exact H].
        apply Qlt_le_weak, Qle_bool_iff in H. congruence. }
      rewrite (Qabs_neg x Hneg).
      assert (Heq : -1 * inject_Z c * Dec.pow10 e - x
                    == - (inject_Z c * Dec.pow10 e - - x)) by ring.
      rewrite Heq, Qabs_opp. apply Qle_refl.
Qed.

Lemma u28_facts :
  0 <= Spec.u28 /\ Spec.u28 <= 1 /\ 0 < 1 - Spec.u28
  /\ (1 + Spec.u28) * (1 + Spec.u28) * (1 + Spec.u28) * (1 + Spec.u28) / (1 - Spec.u28)
     <= 1 + (3 # 10 ^ 27)
  /\ 1 - (3 # 10 ^ 27)
     <= (1 - Spec.u28) * (1 - Spec.u28) * (1 - Spec.u28) * (1 - Spec.u28) / (1 + Spec.u28)
  /\ (1 + Spec.u28) * (1 + Spec.u28) * (1 + Spec.u28) <= 1 + (3 # 10 ^ 27)
  /\ 1 - (3 # 10 ^ 27) <= (1 - Spec.u28) * (1 - Spec.u28) * (1 - Spec.u28)
  /\ Spec.u28 <= 5 # 10 ^ 28.
Proof. repeat split; vm_compute; discriminate. Qed.

Lemma rel_interval (u x y lo hi : Q) :
  0 <= u -> u <= 1 -> 0 <= lo -> lo <= x -> x <= hi ->
  Qabs (y - x) <= Qabs x * u ->
  0 <= lo * (1 - u) /\ lo * (1 - u) <= y /\ y <= hi * (1 + u).
Proof.
  intros Hu0 Hu1 Hlo Hlx Hxh H.
  rewrite (Qabs_pos x) in H by lra. apply Qabs_Qle_condition in H. destruct H as [Ha Hb].
  repeat split; nra.
Qed.

Lemma interval_scale (k lo x hi : Q) :
  0 < k -> 0 <= lo -> lo <= x -> x <= hi ->
  0 <= lo * k /\ lo * k <= x * k /\ x * k <= hi * k.
Proof. intros Hk Hlo Hlx Hxh. repeat split; nra. Qed.

Lemma interval_mul (lo1 x1 hi1 lo2 x2 hi2 : Q) :
  0 <= lo1 -> lo1 <= x1 -> x1 <= hi1 -> 0 <= lo2 -> lo2 <= x2 -> x2 <= hi2 ->
  0 <= lo1 * lo2 /\ lo1 * lo2 <= x1 * x2 /\ x1 * x2 <= hi1 * hi2.
Proof. intros. repeat split; nra. Qed.

Lemma interval_inv (lo x hi : Q) :
  0 < lo -> lo <= x -> x <= hi -> 0 <= / hi /\ / hi <= / x /\ / x <= / lo.
Proof.
  intros Hlo Hlx Hxh.
  assert (Hx : 0 < x) by lra. assert (Hh : 0 < hi) by lra.
  pose proof (Qinv_lt_0_compat _ Hlo) as Hil. pose proof (Qinv_lt_0_compat _ Hx) as Hix.
  pose proof (Qinv_lt_0_compat _ Hh) as Hih.
  split; [lra|]. split.
  - apply Qle_shift_inv_l; [exact Hx|].
    assert (H : / hi * x <= / hi * hi) by (apply Qmult_le_l; assumption).
    rewrite (Qmult_comm (/ hi) hi), Qmult_inv_r in H by lra. exact H.
  - apply Qle_shift_inv_l; [exact Hlo|].
    assert (H : / x * lo <= / x * x) by (apply Qmult_le_l; assumption).
    rewrite (Qmult_comm (/ x) x), Qmult_inv_r in H by lra. exact H.
Qed.

Lemma pos_not_zero (x : Q) : 0 < x -> Qeq_bool x 0 = false.
Proof.
  intros H. destruct (Qeq_bool x 0) eqn:E; [|reflexivity].
  apply Qeq_bool_iff in E. rewrite E in H. discriminate H.
Qed.

Lemma Q96_exact : Q96 = inject_Z (2 ^ 96).
Proof. vm_compute. reflexivity. Qed.

Lemma int_from_bytes_nonneg (bs : list Byte.byte) : (0 <= int_from_bytes bs)%Z.
Proof.
  unfold int_from_bytes.
  assert (H : forall acc, (0 <= acc)%Z ->
            (0 <= fold_left (fun a b => a * 256 + Z.of_N (Byte.to_N b)) bs acc)%Z).
  { induction bs as [|b bs IH]; intros acc Hacc; [exact Hacc|].
    cbn [fold_left]. apply IH. lia. }
  apply H. lia.
Qed.

Lemma read_v3_positive (w3 : Web3) (block_tag X : Z) :
  read_v3_sqrtPriceX96_raw w3 block_tag = Ok X -> (0 < X)%Z.
Proof.
  unfold read_v3_sqrtPriceX96_raw. intros H.
  destruct (w3_call_slot0 w3 block_tag) as [[bytes|]|e]; cbn [Py.bind] in H; try discriminate H.
  destruct (Nat.ltb _ 32); [discriminate H|].
  destruct (Z.eqb_spec (int_from_bytes (firstn 32 bytes)) 0) as [|Hne]; [discriminate H|].
  injection H as <-. pose proof (int_from_bytes_nonneg (firstn 32 bytes)). lia.
Qed.

(** C8, at the failing input.  The ratios are computed by the threads of
    the pool, whose decimal contexts keep 28 digits.  For the pool with
    decimals (18, 6) whose slot holds the square-root price
    277298568799925181577403, the oracle returns the ratio
    12.24999999999999999999992701, which has 28 digits and is further than
    10^-27 from [(X / 2^96)^2 * 10^12], and the product of the two returned
    ratios is further than 10^-30 from 1.  With the sixty digits that the
    script asks for, the same computation gives two ratios whose product is
    within 10^-30 of 1. *)
Theorem worker_precision_misses_tolerance :
  let w3 := Samples.pool_chain Samples.sample_sqrt_price in
  exists ratio recip ratio60 recip60 : Q,
    ratios_at_block WORKER_PREC w3 "v3" Samples.pool_meta 2 = Ok (ratio, recip)
    /\ ratio == 1224999999999999999999992701 # 10 ^ 26
    /\ 1 # 10 ^ 27 < Qabs (ratio - Spec.v3_ratio Samples.sample_sqrt_price)
    /\ 1 # 10 ^ 30 < Qabs (ratio * recip - 1)
    /\ ratios_at_block PREC w3 "v3" Samples.pool_meta 2 = Ok (ratio60, recip60)
    /\ Qabs (ratio60 * recip60 - 1) <= 1 # 10 ^ 30.
Proof.
  intros w3.
  destruct (ratios_at_block WORKER_PREC w3 "v3" Samples.pool_meta 2) as [[ratio recip]|e] eqn:E28;
    [|vm_compute in E28; discriminate E28].
  destruct (ratios_at_block PREC w3 "v3" Samples.pool_meta 2) as [[ratio60 recip60]|e] eqn:E60;
    [|vm_compute in E60; discriminate E60].
  exists ratio, recip, ratio60, recip60.
  vm_compute in E28. injection E28 as <- <-. vm_compute in E60. injection E60 as <- <-.
  split; [reflexivity|]. repeat split; vm_compute; reflexivity || discriminate.
Qed.

End Oracle.

(* ===================================================================== *)
(** * Further properties of the decoder                                   *)
(* ===================================================================== *)

(** ** Which exceptions the delta computation raises *)

Lemma int16_raise (s : string) (e : exn) : int16 s = Raise e -> e = ValueError.
Proof. unfold int16. destruct (int_of_str 16 s); cbn; congruence. Qed.

Lemma h2i_raise (x : option string) (e : exn) : h2i x = Raise e -> e = ValueError.
Proof.
  unfold h2i. destruct x as [s|]; [|discriminate].
  destruct (_ || _); [discriminate|]. apply int16_raise.
Qed.

Lemma log_step_raise_inv (w : World) (wallet : string) (a : Acc) (lg : LogEntry) (e : exn) :
  log_step w wallet a lg = Raise e -> e = ValueError /\ Spec.unguarded_log lg.
Proof.
  unfold log_step, Spec.unguarded_log. destruct (lg_topics lg) as [|t0 rest] eqn:Ht; [discriminate|].
  cbn [length].
  destruct (String.eqb_spec t0 TOPIC_TRANSFER) as [->|H1]; cbn [andb].
  { destruct (3 <=? S (length rest))%nat eqn:L3.
    - destruct (4 <=? S (length rest))%nat eqn:L4.
      + intros H. split.
        * destruct (h2i _) eqn:E in H; cbn [Py.bind] in H; [|injection H as <-; eapply h2i_raise, E].
          destruct (nonempty wallet); discriminate H.
        * exists TOPIC_TRANSFER, rest. split; [reflexivity|]. left. split; [reflexivity|].
          apply Nat.leb_le in L4. lia.
      + intros H. exfalso.
        destruct (lg_data lg) as [s|]; [|discriminate H].
        destruct (is_hex_data (Some s)) eqn:Hhex; [|discriminate H].
        rewrite (is_hex_data_str_or s "" Hhex) in H.
        destruct (String.eqb_spec s "0x") as [|Hne]; [discriminate H|].
        cbn [andb negb] in H. destruct (is_hex_data_int16 s Hhex Hne) as [amt Hamt].
        rewrite Hamt in H. cbn [Py.bind] in H.
        destruct (nonempty wallet && (0 <? amt)); discriminate H.
    - change (String.eqb TOPIC_TRANSFER TOPIC_TRANSFER_SINGLE) with false.
      change (String.eqb TOPIC_TRANSFER TOPIC_TRANSFER_BATCH) with false.
      change (String.eqb TOPIC_TRANSFER TOPIC_WETH_WITHDRAWAL) with false.
      change (String.eqb TOPIC_TRANSFER TOPIC_WETH_DEPOSIT) with false.
      cbn [andb]. discriminate. }
  destruct (String.eqb_spec t0 TOPIC_TRANSFER_SINGLE) as [->|H2]; cbn [andb].
  { destruct (4 <=? S (length rest))%nat eqn:L4.
    - intros H. split.
      + destruct (128 <=? _)%nat; [|discriminate H].
        destruct (int16 _) eqn:E1 in H; cbn [Py.bind] in H;
          [|injection H as <-; eapply int16_raise, E1].
        destruct (int16 _) eqn:E2 in H; cbn [Py.bind] in H;
          [|injection H as <-; eapply int16_raise, E2].
        destruct (nonempty wallet && _); discriminate H.
      + exists TOPIC_TRANSFER_SINGLE, rest. split; [reflexivity|]. right; left.
        split; [reflexivity|]. apply Nat.leb_le in L4. lia.
    - change (String.eqb TOPIC_TRANSFER_SINGLE TOPIC_TRANSFER_BATCH) with false.
      change (String.eqb TOPIC_TRANSFER_SINGLE TOPIC_WETH_WITHDRAWAL) with false.
      change (String.eqb TOPIC_TRANSFER_SINGLE TOPIC_WETH_DEPOSIT) with false.
      cbn [andb]. discriminate. }
  destruct (String.eqb_spec t0 TOPIC_TRANSFER_BATCH) as [->|H3]; cbn [andb].
  { destruct (4 <=? S (length rest))%nat eqn:L4.
    - intros H. exfalso.
      repeat match type of H with
        | context [if ?c then _ else _] => destruct c
        | context [match ?x with Some _ => _ | None => _ end] => destruct x
        | context [let '(_, _) := ?x in _] => destruct x
        end; discriminate H.
    - change (String.eqb TOPIC_TRANSFER_BATCH TOPIC_WETH_WITHDRAWAL) with false.
      change (String.eqb TOPIC_TRANSFER_BATCH TOPIC_WETH_DEPOSIT) with false.
      cbn [andb]. discriminate. }
  destruct (String.eqb_spec t0 TOPIC_WETH_WITHDRAWAL) as [->|H4]; cbn [andb].
  { destruct (2 <=? S (length rest))%nat eqn:L2.
    - intros H. split.
      + destruct (h2i _) eqn:E in H; cbn [Py.bind] in H; [|injection H as <-; eapply h2i_raise, E].
        destruct (_ && _); discriminate H.
      + exists TOPIC_WETH_WITHDRAWAL, rest. split; [reflexivity|]. right; right.
        split; [now left|]. apply Nat.leb_le in L2. lia.
    - change (String.eqb TOPIC_WETH_WITHDRAWAL TOPIC_WETH_DEPOSIT) with false.
      cbn [andb]. discriminate. }
  destruct (String.eqb_spec t0 TOPIC_WETH_DEPOSIT) as [->|H5]; cbn [andb].
  { destruct (2 <=? S (length rest))%nat eqn:L2; [|discriminate].
    intros H. split.
    + destruct (h2i _) eqn:E in H; cbn [Py.bind] in H; [|injection H as <-; eapply h2i_raise, E].
      destruct (_ && _); discriminate H.
    + exists TOPIC_WETH_DEPOSIT, rest. split; [reflexivity|]. right; right.
      split; [now right|]. apply Nat.leb_le in L2. lia. }
  discriminate.
Qed.

Lemma log_loop_raise_inv (w : World) (wallet : string) (logs : list LogEntry) (e : exn) :
  forall a, log_loop w wallet a logs = Raise e ->
  e = ValueError /\ exists lg, In lg logs /\ Spec.unguarded_log lg.
Proof.
  induction logs as [|lg logs IH]; intros a H; [discriminate H|].
  cbn [log_loop] in H. destruct (log_step w wallet a lg) as [a'|e'] eqn:E; cbn [Py.bind] in H.
  - destruct (IH a' H) as (He & lg' & Hin & Hu). split; [exact He|].
    exists lg'. split; [now right|exact Hu].
  - injection H as <-. destruct (log_step_raise_inv _ _ _ _ _ E) as [He Hu].
    split; [exact He|]. exists lg. split; [now left|exact Hu].
Qed.

(** X1.  The delta computation raises in two situations only: a receipt
    that holds a log of an unguarded kind, whose text failed to convert
    ([ValueError]), and a row without [hash] for which the value, the logs
    and the internal transfers gave no native delta, where the trace
    fallback reads [row_tx["hash"]] ([KeyError]). *)
Theorem compute_wallet_deltas_raises_only (w : World) (row : RawTx) (rcpt : Receipt)
    (wallet : string) (meta : list (string * TokenMeta)) (e : exn) :
  compute_wallet_deltas w row rcpt wallet meta = Raise e ->
  (e = ValueError /\ exists lg, In lg (rc_logs rcpt) /\ Spec.unguarded_log lg)
  \/ (e = KeyError /\ r_hash row = None).
Proof.
  unfold compute_wallet_deltas. intros H.
  destruct (log_loop _ _ _ _) as [a|e'] eqn:E in H; cbn [Py.bind] in H.
  - right.
    match type of H with
    | context [negb (dict_mem ?d "eth")] => destruct (negb (dict_mem d "eth"))
    end; cbn [Py.bind] in H; [|discriminate H].
    destruct (r_hash row) as [h|]; cbn [of_option Py.bind] in H.
    + destruct (trace_eth_delta w h _) as [traced|]; [destruct (negb (traced =? 0))|];
        cbn [Py.bind] in H; discriminate H.
    + injection H as <-. now split.
  - left. injection H as <-. eapply log_loop_raise_inv, E.
Qed.

Lemma compute_wallet_deltas_raises_only_witness :
  (ValueError = ValueError
   /\ exists lg, In lg (rc_logs Samples.failed_receipt) /\ Spec.unguarded_log lg)
  \/ (ValueError = KeyError /\ r_hash Samples.swap_row = None).
Proof.
  apply (compute_wallet_deltas_raises_only Samples.quiet_world Samples.swap_row
           Samples.failed_receipt Samples.wallet [] ValueError).
  reflexivity.
Defined.

(** ** What the deltas are *)

Lemma dict_mem_set_same {V : Type} (d : list (string * V)) (k : string) (v : V) :
  dict_mem (dict_set d k v) k = true.
Proof. unfold dict_mem. now rewrite dict_get_set_same. Qed.

Lemma dict_get_default_set {V : Type} (d : list (string * V)) (k k' : string) (v dflt : V) :
  dict_get_default (dict_set d k v) k' dflt
  = if String.eqb k k' then v else dict_get_default d k' dflt.
Proof.
  unfold dict_get_default. destruct (String.eqb_spec k k') as [->|Hne].
  - now rewrite dict_get_set_same.
  - now rewrite dict_get_set_other.
Qed.

Lemma erc20_flow_other_topic (wallet addr : string) (lg : LogEntry) (t0 : string)
    (rest : list string) :
  lg_topics lg = t0 :: rest -> t0 <> TOPIC_TRANSFER -> Spec.erc20_flow wallet addr lg = 0.
Proof.
  intros Ht Hne. unfold Spec.erc20_flow. rewrite Ht.
  destruct rest as [|t1 [|t2 [|t3 more]]]; try reflexivity.
  now rewrite (eqb_neq_false _ _ Hne).
Qed.

Lemma log_step_erc20_eth (w : World) (wallet : string) (a a' : Acc) (lg : LogEntry) :
  log_step w wallet a lg = Ok a' ->
  forall addr,
    dict_get_default (acc_erc20_eth a') addr 0
    = dict_get_default (acc_erc20_eth a) addr 0 + Spec.erc20_flow wallet addr lg.
Proof.
  intros H addr. unfold log_step in H.
  destruct (lg_topics lg) as [|t0 rest] eqn:Ht.
  { injection H as <-. unfold Spec.erc20_flow. rewrite Ht. lia. }
  cbn [length] in H.
  destruct (String.eqb_spec t0 TOPIC_TRANSFER) as [->|H1]; cbn [andb] in H.
  { destruct (3 <=? S (length rest))%nat eqn:L3.
    - destruct (4 <=? S (length rest))%nat eqn:L4.
      + assert (Hflow : Spec.erc20_flow wallet addr lg = 0).
        { unfold Spec.erc20_flow. rewrite Ht.
          destruct rest as [|t1 [|t2 [|t3 more]]]; try reflexivity; discriminate L4. }
        rewrite Hflow.
        destruct (h2i _) in H; cbn [Py.bind] in H; [|discriminate H].
        destruct (nonempty wallet); injection H as <-; cbn [acc_erc20_eth]; lia.
      + destruct rest as [|t1 [|t2 [|t3 more]]]; try discriminate L3; try discriminate L4.
        unfold Spec.erc20_flow. rewrite Ht. unfold topic in H. cbn [nth] in H.
        change (String.eqb TOPIC_TRANSFER TOPIC_TRANSFER) with true. cbn [andb].
        unfold Spec.contract.
        set (c := lower (str_or (lg_address lg) "")) in *.
        destruct (is_hex_data (lg_data lg)) eqn:Hhex; cbn [andb negb] in H;
          [|rewrite andb_false_r; cbn [andb]; injection H as <-; lia].
        destruct (String.eqb (str_or (lg_data lg) "") "0x") eqn:H0x; cbn [andb negb] in H;
          [rewrite !andb_false_r; injection H as <-; lia|].
        cbn [negb]. rewrite !andb_true_r.
        destruct (int16 (str_or (lg_data lg) "")) as [amt|e] eqn:Eamt; cbn [Py.bind] in H;
          [|discriminate H].
        destruct (nonempty wallet && (0 <? amt)) eqn:Hgo;
          [|injection H as <-; destruct (String.eqb c addr); lia].
        injection H as <-. cbn [acc_erc20_eth].
        destruct (String.eqb (address_from_topic t1) wallet),
                 (String.eqb (address_from_topic t2) wallet);
          rewrite ?dict_get_default_set, ?String.eqb_refl;
          destruct (String.eqb_spec c addr) as [<-|_]; lia.
    - injection H as <-. unfold Spec.erc20_flow. rewrite Ht.
      destruct rest as [|t1 [|t2 [|t3 more]]]; try discriminate L3; lia. }
  rewrite (erc20_flow_other_topic wallet addr lg t0 rest Ht H1).
  assert (Hsame : acc_erc20_eth a' = acc_erc20_eth a); [|rewrite Hsame; lia].
  repeat match type of H with
    | context [if ?c then _ else _] => destruct c
    | context [Py.bind ?m _] => destruct m; cbn [Py.bind] in H
    | context [match ?x with Some _ => _ | None => _ end] => destruct x
    | context [let '(_, _) := ?x in _] => destruct x
    end; try discriminate H; injection H as <-; reflexivity.
Qed.

Lemma log_loop_erc20_eth (w : World) (wallet : string) (logs : list LogEntry) :
  forall a a',
    log_loop w wallet a logs = Ok a' ->
    forall addr,
      dict_get_default (acc_erc20_eth a') addr 0
      = dict_get_default (acc_erc20_eth a) addr 0 + Spec.net_erc20_flow wallet addr logs.
Proof.
  induction logs as [|lg logs IH]; intros a a' H addr.
  - injection H as <-. cbn. lia.
  - cbn [log_loop] in H. destruct (log_step w wallet a lg) as [a1|e] eqn:E; cbn [Py.bind] in H;
      [|discriminate H].
    rewrite (IH a1 a' H addr), (log_step_erc20_eth _ _ _ _ _ E addr). cbn [Spec.net_erc20_flow fold_right].
    fold (Spec.net_erc20_flow wallet addr logs). lia.
Qed.

(** After the log loop only the entry of the native asset is written. *)
Lemma compute_wallet_deltas_shape (w : World) (row : RawTx) (rcpt : Receipt) (wallet : string)
    (meta : list (string * TokenMeta)) (d : list (string * Z)) (moves : list NftMove) :
  compute_wallet_deltas w row rcpt wallet meta = Ok (d, moves) ->
  exists a,
    log_loop w (strip (lower wallet))
      {| acc_erc20_eth := []; acc_nft_moves := [];
         acc_eth_log_delta :=
           let outer_val := try_except (int10 (str_or (r_value row) "0")) 0 in
           if nonempty (strip (lower wallet)) && (0 <? outer_val) then
             let e := if String.eqb (lower (str_or (r_from row) "")) (strip (lower wallet))
                      then 0 - outer_val else 0 in
             if String.eqb (lower (str_or (r_to row) "")) (strip (lower wallet))
             then e + outer_val else e
           else 0 |}
      (rc_logs rcpt) = Ok a
    /\ moves = acc_nft_moves a
    /\ forall addr, addr <> "eth" -> dict_get d addr = dict_get (acc_erc20_eth a) addr.
Proof.
  intros H. unfold compute_wallet_deltas in H.
  destruct (log_loop _ _ _ _) as [a|e] eqn:E in H; cbn [Py.bind] in H; [|discriminate H].
  exists a. split; [exact E|]. clear E.
  assert (Hset : forall (d0 : list (string * Z)) v addr, addr <> "eth" ->
            dict_get (dict_set d0 "eth" v) addr = dict_get d0 addr).
  { intros d0 v addr Hne. apply dict_get_set_other. congruence. }
  match type of H with
  | context [dict_mem ?d0 "eth"] => set (d1 := d0) in H
  end.
  assert (H1 : forall addr, addr <> "eth" -> dict_get d1 addr = dict_get (acc_erc20_eth a) addr).
  { intros addr Hne. subst d1. unfold add_delta.
    match goal with |- context [if ?c then _ else _] => destruct c end;
      [apply Hset, Hne|reflexivity]. }
  clearbody d1.
  destruct (negb (dict_mem d1 "eth")).
  - destruct (r_hash row) as [h|]; cbn [of_option Py.bind] in H; [|discriminate H].
    destruct (trace_eth_delta w h _) as [traced|]; [destruct (negb (traced =? 0))|];
      cbn [Py.bind] in H;
      match type of H with
      | context [dict_mem ?d0 "eth"] => destruct (negb (dict_mem d0 "eth"))
      end;
      try destruct (balance_delta _ _ _ _) as [v|]; try destruct (negb (v =? 0));
      injection H as <- <-; (split; [reflexivity|]); intros addr Hne;
      rewrite ?Hset by exact Hne; apply H1, Hne.
  - cbn [Py.bind] in H.
    destruct (negb (dict_mem d1 "eth"));
      try destruct (balance_delta _ _ _ _) as [v|]; try destruct (negb (v =? 0));
      injection H as <- <-; (split; [reflexivity|]); intros addr Hne;
      rewrite ?Hset by exact Hne; apply H1, Hne.
Qed.

(** X2.  Token deltas are net flows.  When the delta computation
    returns, the delta of every key other than ["eth"] is the sum, over the
    ERC-20 transfer logs of that contract, of the amounts that the wallet
    received minus the amounts that it sent (0 when there is no entry):
    internal transfers, traces and balances never touch a token. *)
Theorem token_deltas_are_net_flows (w : World) (row : RawTx) (rcpt : Receipt) (wallet : string)
    (meta : list (string * TokenMeta)) (d : list (string * Z)) (moves : list NftMove) :
  compute_wallet_deltas w row rcpt wallet meta = Ok (d, moves) ->
  forall addr, addr <> "eth" ->
    dict_get_default d addr 0 = Spec.net_erc20_flow (strip (lower wallet)) addr (rc_logs rcpt).
Proof.
  intros H addr Hne.
  destruct (compute_wallet_deltas_shape _ _ _ _ _ _ _ H) as (a & Hloop & _ & Hd).
  unfold dict_get_default at 1. rewrite (Hd addr Hne).
  apply (log_loop_erc20_eth _ _ _ _ _ Hloop addr).
Qed.

Lemma token_deltas_are_net_flows_witness :
  exists d moves,
    compute_wallet_deltas Samples.quiet_world Samples.swap_row Samples.swap_receipt
      Samples.wallet [] = Ok (d, moves)
    /\ dict_get_default d Samples.token 0
       = Spec.net_erc20_flow (strip (lower Samples.wallet)) Samples.token
           (rc_logs Samples.swap_receipt)
    /\ dict_get_default d Samples.token 0 = 46781940000000000000.
Proof.
  eexists _, _. split; [vm_compute; reflexivity|]. split; [|vm_compute; reflexivity].
  apply (token_deltas_are_net_flows Samples.quiet_world Samples.swap_row Samples.swap_receipt
           Samples.wallet [] _ []); [vm_compute; reflexivity|discriminate].
Defined.

Lemma log_step_empty_wallet (w : World) (a a' : Acc) (lg : LogEntry) :
  log_step w "" a lg = Ok a' -> a' = a.
Proof.
  unfold log_step. change (nonempty "") with false. cbn [andb]. intros H.
  repeat match type of H with
    | context [if ?c then _ else _] => destruct c
    | context [Py.bind ?m _] => destruct m; cbn [Py.bind] in H
    | context [match ?x with [] => _ | _ :: _ => _ end] => destruct x
    | context [match ?x with Some _ => _ | None => _ end] => destruct x
    | context [let '(_, _) := ?x in _] => destruct x
    end; try discriminate H; injection H as <-; reflexivity.
Qed.

Lemma log_loop_empty_wallet (w : World) (logs : list LogEntry) :
  forall a a', log_loop w "" a logs = Ok a' -> a' = a.
Proof.
  induction logs as [|lg logs IH]; intros a a' H; [now injection H as <-|].
  cbn [log_loop] in H. destruct (log_step w "" a lg) as [a1|e] eqn:E; cbn [Py.bind] in H;
    [|discriminate H].
  apply log_step_empty_wallet in E. subst a1. apply IH, H.
Qed.

(** X3.  With a wallet address that is empty once lower-cased and
    stripped, the delta computation, when it returns, reports no NFT move
    and no token delta. *)
Theorem empty_wallet_decodes_nothing (w : World) (row : RawTx) (rcpt : Receipt)
    (wallet : string) (meta : list (string * TokenMeta))
    (d : list (string * Z)) (moves : list NftMove) :
  strip (lower wallet) = "" ->
  compute_wallet_deltas w row rcpt wallet meta = Ok (d, moves) ->
  moves = [] /\ forall addr, addr <> "eth" -> dict_get d addr = None.
Proof.
  intros Hw H.
  destruct (compute_wallet_deltas_shape _ _ _ _ _ _ _ H) as (a & Hloop & Hm & Hd).
  rewrite Hw in Hloop. apply log_loop_empty_wallet in Hloop. subst a moves.
  split; [reflexivity|]. intros addr Hne. rewrite (Hd addr Hne). reflexivity.
Qed.

Lemma empty_wallet_decodes_nothing_witness :
  compute_wallet_deltas Samples.quiet_world Samples.swap_row Samples.swap_receipt "  " []
  = Ok ([], [])
  /\ forall addr, addr <> "eth" -> dict_get (@nil (string * Z)) addr = None.
Proof.
  assert (H : compute_wallet_deltas Samples.quiet_world Samples.swap_row Samples.swap_receipt
                "  " [] = Ok ([], [])) by (vm_compute; reflexivity).
  split; [exact H|].
  exact (proj2 (empty_wallet_decodes_nothing Samples.quiet_world Samples.swap_row
                  Samples.swap_receipt "  " [] [] [] eq_refl H)).
Defined.

Lemma native_flow_other_topic (wallet : string) (lg : LogEntry) (t0 : string)
    (rest : list string) :
  lg_topics lg = t0 :: rest -> t0 <> TOPIC_WETH_WITHDRAWAL -> t0 <> TOPIC_WETH_DEPOSIT ->
  Spec.native_flow wallet lg = 0.
Proof.
  intros Ht H1 H2. unfold Spec.native_flow. rewrite Ht. destruct rest as [|t1 more]; [reflexivity|].
  now rewrite (eqb_neq_false _ _ H1), (eqb_neq_false _ _ H2).
Qed.

Lemma log_step_eth_log_delta (w : World) (wallet : string) (a a' : Acc) (lg : LogEntry) :
  log_step w wallet a lg = Ok a' ->
  acc_eth_log_delta a' = acc_eth_log_delta a + Spec.native_flow wallet lg.
Proof.
  intros H. unfold log_step in H.
  destruct (lg_topics lg) as [|t0 rest] eqn:Ht.
  { injection H as <-. unfold Spec.native_flow. rewrite Ht. lia. }
  cbn [length] in H.
  assert (Hsame : forall b : Acc, acc_eth_log_delta b = acc_eth_log_delta a ->
            Spec.native_flow wallet lg = 0 -> acc_eth_log_delta b = acc_eth_log_delta a
                                                              + Spec.native_flow wallet lg)
    by (intros b Hb Hz; lia).
  destruct (String.eqb_spec t0 TOPIC_TRANSFER) as [->|H1]; cbn [andb] in H.
  { assert (Hz : Spec.native_flow wallet lg = 0)
      by (apply (native_flow_other_topic _ _ _ _ Ht); discriminate).
    apply Hsame; [|exact Hz].
    destruct (3 <=? S (length rest))%nat.
    - repeat match type of H with
        | context [if ?c then _ else _] => destruct c
        | context [Py.bind ?m _] => destruct m; cbn [Py.bind] in H
        end; try discriminate H; injection H as <-; reflexivity.
    - change (String.eqb TOPIC_TRANSFER TOPIC_TRANSFER_SINGLE) with false in H.
      change (String.eqb TOPIC_TRANSFER TOPIC_TRANSFER_BATCH) with false in H.
      change (String.eqb TOPIC_TRANSFER TOPIC_WETH_WITHDRAWAL) with false in H.
      change (String.eqb TOPIC_TRANSFER TOPIC_WETH_DEPOSIT) with false in H.
      cbn [andb] in H. now injection H as <-. }
  destruct (String.eqb_spec t0 TOPIC_TRANSFER_SINGLE) as [->|H2]; cbn [andb] in H.
  { assert (Hz : Spec.native_flow wallet lg = 0)
      by (apply (native_flow_other_topic _ _ _ _ Ht); discriminate).
    apply Hsame; [|exact Hz].
    destruct (4 <=? S (length rest))%nat.
    - repeat match type of H with
        | context [if ?c then _ else _] => destruct c
        | context [Py.bind ?m _] => destruct m; cbn [Py.bind] in H
        end; try discriminate H; injection H as <-; reflexivity.
    - change (String.eqb TOPIC_TRANSFER_SINGLE TOPIC_TRANSFER_BATCH) with false in H.
      change (String.eqb TOPIC_TRANSFER_SINGLE TOPIC_WETH_WITHDRAWAL) with false in H.
      change (String.eqb TOPIC_TRANSFER_SINGLE TOPIC_WETH_DEPOSIT) with false in H.
      cbn [andb] in H. now injection H as <-. }
  destruct (String.eqb_spec t0 TOPIC_TRANSFER_BATCH) as [->|H3]; cbn [andb] in H.
  { assert (Hz : Spec.native_flow wallet lg = 0)
      by (apply (native_flow_other_topic _ _ _ _ Ht); discriminate).
    apply Hsame; [|exact Hz].
    destruct (4 <=? S (length rest))%nat.
    - repeat match type of H with
        | context [if ?c then _ else _] => destruct c
        | context [match ?x with Some _ => _ | None => _ end] => destruct x
        | context [let '(_, _) := ?x in _] => destruct x
        end; try discriminate H; injection H as <-; reflexivity.
    - change (String.eqb TOPIC_TRANSFER_BATCH TOPIC_WETH_WITHDRAWAL) with false in H.
      change (String.eqb TOPIC_TRANSFER_BATCH TOPIC_WETH_DEPOSIT) with false in H.
      cbn [andb] in H. now injection H as <-. }
  unfold Spec.native_flow. rewrite Ht.
  destruct (String.eqb_spec t0 TOPIC_WETH_WITHDRAWAL) as [->|H4]; cbn [andb orb] in H |- *.
  { destruct rest as [|t1 more]; cbn [length Nat.leb] in H.
    - change (String.eqb TOPIC_WETH_WITHDRAWAL TOPIC_WETH_DEPOSIT) with false in H.
      cbn [andb] in H. injection H as <-. lia.
    - unfold topic in H. cbn [nth] in H.
      destruct (h2i (lg_data lg)) as [amt|e]; cbn [Py.bind] in H; [|discriminate H].
      destruct (_ && _); injection H as <-; cbn [acc_eth_log_delta]; lia. }
  destruct (String.eqb_spec t0 TOPIC_WETH_DEPOSIT) as [->|H5]; cbn [andb orb] in H |- *.
  { destruct rest as [|t1 more]; cbn [length Nat.leb] in H.
    - injection H as <-. lia.
    - unfold topic in H. cbn [nth] in H.
      change (String.eqb TOPIC_WETH_DEPOSIT TOPIC_WETH_WITHDRAWAL) with false.
      destruct (h2i (lg_data lg)) as [amt|e]; cbn [Py.bind] in H; [|discriminate H].
      destruct (_ && _); injection H as <-; cbn [acc_eth_log_delta]; lia. }
  injection H as <-. destruct rest; lia.
Qed.

Lemma log_loop_eth_log_delta (w : World) (wallet : string) (logs : list LogEntry) :
  forall a a',
    log_loop w wallet a logs = Ok a' ->
    acc_eth_log_delta a' = acc_eth_log_delta a + Spec.net_native_flow wallet logs.
Proof.
  induction logs as [|lg logs IH]; intros a a' H.
  - injection H as <-. cbn. lia.
  - cbn [log_loop] in H. destruct (log_step w wallet a lg) as [a1|e] eqn:E; cbn [Py.bind] in H;
      [|discriminate H].
    rewrite (IH a1 a' H), (log_step_eth_log_delta _ _ _ _ _ E).
    cbn [Spec.net_native_flow fold_right]. fold (Spec.net_native_flow wallet logs). lia.
Qed.

Lemma net_erc20_flow_other (wallet addr : string) (logs : list LogEntry) :
  (forall lg, In lg logs -> Spec.contract lg <> addr) -> Spec.net_erc20_flow wallet addr logs = 0.
Proof.
  induction logs as [|lg logs IH]; intros H; [reflexivity|].
  cbn [Spec.net_erc20_flow fold_right]. fold (Spec.net_erc20_flow wallet addr logs).
  rewrite IH by (intros lg' Hin; apply H; now right).
  assert (Hz : Spec.erc20_flow wallet addr lg = 0); [|lia].
  unfold Spec.erc20_flow. destruct (lg_topics lg) as [|t0 [|t1 [|t2 [|t3 more]]]]; try reflexivity.
  rewrite (eqb_neq_false _ _ (H lg ltac:(now left))), andb_false_r. reflexivity.
Qed.

(** X4.  The native delta.  When the explorer reports no internal
    transfer and no log comes from a contract whose address reads ["eth"],
    and the value of the transaction (received minus sent) plus the
    wrapped-native withdrawals minus the deposits of the wallet is not
    zero, then this sum is the delta of ["eth"]: the trace and balance
    fallbacks are not consulted. *)
Theorem native_delta_comes_from_value_and_logs (w : World) (row : RawTx) (rcpt : Receipt)
    (wallet : string) (meta : list (string * TokenMeta))
    (d : list (string * Z)) (moves : list NftMove) :
  compute_wallet_deltas w row rcpt wallet meta = Ok (d, moves) ->
  Spec.no_internal_transfers w row ->
  (forall lg, In lg (rc_logs rcpt) -> Spec.contract lg <> "eth") ->
  Spec.outer_value_flow (strip (lower wallet)) row
  + Spec.net_native_flow (strip (lower wallet)) (rc_logs rcpt) <> 0 ->
  dict_get d "eth"
  = Some (Spec.outer_value_flow (strip (lower wallet)) row
          + Spec.net_native_flow (strip (lower wallet)) (rc_logs rcpt)).
Proof.
  intros H Hint Hnoeth Hne. unfold compute_wallet_deltas in H.
  destruct (log_loop _ _ _ _) as [a|e] eqn:E in H; cbn [Py.bind] in H; [|discriminate H].
  pose proof (log_loop_eth_log_delta _ _ _ _ _ E) as Hdelta. cbn [acc_eth_log_delta] in Hdelta.
  pose proof (log_loop_erc20_eth _ _ _ _ _ E "eth") as Htok. cbn [acc_erc20_eth] in Htok.
  rewrite (net_erc20_flow_other _ _ _ Hnoeth) in Htok.
  change (dict_get_default [] "eth" 0) with 0 in Htok.
  set (wl := strip (lower wallet)) in *.
  assert (Houter : acc_eth_log_delta a = Spec.outer_value_flow wl row + Spec.net_native_flow wl (rc_logs rcpt)).
  { rewrite Hdelta. f_equal. unfold Spec.outer_value_flow.
    destruct (nonempty wl && _); [|reflexivity].
    destruct (String.eqb (lower (str_or (r_from row) "")) wl),
             (String.eqb (lower (str_or (r_to row) "")) wl); lia. }
  clear Hdelta E.
  assert (Hi : match r_hash row with
               | Some h =>
                   match w_txlistinternal w h with
                   | Ok internals =>
                       if match int_status internals with
                          | Some s => String.eqb s "1"
                          | None => false
                          end
                       then internals_loop wl (int_result internals) (acc_eth_log_delta a)
                       else acc_eth_log_delta a
                   | Raise _ => acc_eth_log_delta a
                   end
               | None => acc_eth_log_delta a
               end = acc_eth_log_delta a).
  { destruct (r_hash row) as [h|] eqn:Hh; [|reflexivity].
    destruct (w_txlistinternal w h) as [i|e] eqn:Hi; [|reflexivity].
    rewrite (Hint h i Hh Hi). cbn [internals_loop].
    destruct (int_status i) as [s|]; [destruct (String.eqb s "1")|]; reflexivity. }
  rewrite Hi in H. rewrite <- Houter in Hne |- *.
  rewrite (proj2 (Z.eqb_neq _ _) Hne) in H. cbn [negb] in H.
  unfold add_delta in H. rewrite dict_mem_set_same in H. cbn [negb Py.bind] in H.
  rewrite dict_mem_set_same in H. cbn [negb] in H. injection H as <- _.
  rewrite dict_get_set_same. f_equal. lia.
Qed.

Lemma native_delta_comes_from_value_and_logs_witness :
  exists d moves,
    compute_wallet_deltas Samples.quiet_world Samples.swap_row Samples.swap_receipt
      Samples.wallet [] = Ok (d, moves)
    /\ dict_get d "eth" = Some (-2000000000000000000).
Proof.
  eexists _, _. split; [vm_compute; reflexivity|].
  change (-2000000000000000000)
    with (Spec.outer_value_flow (strip (lower Samples.wallet)) Samples.swap_row
          + Spec.net_native_flow (strip (lower Samples.wallet)) (rc_logs Samples.swap_receipt)).
  apply (native_delta_comes_from_value_and_logs Samples.quiet_world Samples.swap_row
           Samples.swap_receipt Samples.wallet [] _ []).
  - vm_compute; reflexivity.
  - intros h i _ Hi. injection Hi as <-. reflexivity.
  - intros lg [<-|[<-|[]]]; vm_compute; discriminate.
  - vm_compute; discriminate.
Defined.

(** ** Rows of the decoder *)

(** X5.  For a raw row without [hash], the delta computation returns
    only when the value and the logs have given a native delta: its result
    has an ["eth"] entry. *)
Theorem rows_without_hash_need_native_delta (w : World) (row : RawTx) (rcpt : Receipt)
    (wallet : string) (meta : list (string * TokenMeta))
    (d : list (string * Z)) (moves : list NftMove) :
  r_hash row = None ->
  compute_wallet_deltas w row rcpt wallet meta = Ok (d, moves) ->
  dict_mem d "eth" = true.
Proof.
  intros Hh H. unfold compute_wallet_deltas in H. rewrite Hh in H.
  destruct (log_loop _ _ _ _) as [a|e] in H; cbn [Py.bind] in H; [|discriminate H].
  destruct (acc_eth_log_delta a =? 0) eqn:Hz; cbn [negb] in H.
  - destruct (dict_mem (acc_erc20_eth a) "eth") eqn:Hmem; cbn [negb of_option Py.bind] in H;
      [|discriminate H].
    rewrite Hmem in H. cbn [negb] in H. injection H as <- _. exact Hmem.
  - unfold add_delta in H. rewrite dict_mem_set_same in H. cbn [negb Py.bind] in H.
    rewrite dict_mem_set_same in H. cbn [negb] in H. injection H as <- _.
    apply dict_mem_set_same.
Qed.

Lemma rows_without_hash_need_native_delta_witness :
  exists d moves,
    compute_wallet_deltas Samples.quiet_world Samples.row_without_hash Samples.swap_receipt
      Samples.wallet [] = Ok (d, moves)
    /\ dict_mem d "eth" = true.
Proof.
  eexists _, _. split; [vm_compute; reflexivity|].
  apply (rows_without_hash_need_native_delta Samples.quiet_world Samples.row_without_hash
           Samples.swap_receipt Samples.wallet [] _ []); [reflexivity|vm_compute; reflexivity].
Defined.

(** X6.  Every row that [decode_one_from_row] returns carries the hash
    of the raw row ([hash], else [tx_hash]), which is not empty and was not
    known before; its type is one of failed, swap, add_liquidity,
    remove_liquidity and unknown; it is flagged as failed exactly when its
    type is failed; and a row whose block time is 0 has an empty
    timestamp. *)
Theorem decoded_row_invariants (w : World) (WALLET_ADDRESS : string) (row : RawTx)
    (already_known : gset string) (r : OutRow) :
  decode_one_from_row w WALLET_ADDRESS row already_known = Ok (Some r) ->
  tx_hash r = Spec.hash_of row
  /\ tx_hash r <> ""
  /\ (tx_hash r ∉ already_known)
  /\ In (type r) ["failed"; "swap"; "add_liquidity"; "remove_liquidity"; "unknown"]
  /\ (_failed r = true <-> type r = "failed")
  /\ (block_time r = 0 -> tx_timestamp r = "").
Proof.
  unfold decode_one_from_row. fold (Spec.hash_of row). intros H.
  destruct (String.eqb_spec (Spec.hash_of row) "") as [|Hne]; [discriminate H|].
  destruct (bool_decide_reflect (Spec.hash_of row ∈ already_known)) as [|Hnew];
    [discriminate H|].
  cbn [orb] in H.
  bind_step H as o Hrc. destruct o as [rcpt|]; [|discriminate H].
  bind_step H as ts_unix Hts. bind_step H as ts_iso Hiso.
  bind_step H as gas_used Hg. bind_step H as eff_price Hp.
  assert (Hiso' : ts_unix = 0 -> ts_iso = "").
  { intros ->. cbn in Hiso. now injection Hiso as <-. }
  destruct (String.eqb _ "0x0").
  - injection H as <-. cbn [tx_hash type _failed block_time tx_timestamp].
    repeat split; try assumption. now left.
  - bind_step H as meta Hmeta. bind_step H as deltas Hd. destruct deltas as [erc20_eth nft_moves].
    bind_step H as ft Hft. bind_step H as nft_field Hnft. injection H as <-.
    cbn [tx_hash type _failed block_time tx_timestamp].
    assert (Hty : In (action_type_of (rc_logs rcpt) erc20_eth)
                    ["swap"; "add_liquidity"; "remove_liquidity"; "unknown"]).
    { unfold action_type_of, classify_from_topics, classify_from_balances.
      repeat match goal with |- context [if ?c then _ else _] => destruct c end;
        cbn; tauto. }
    repeat split; try assumption.
    + cbn in Hty |- *. tauto.
    + discriminate.
    + intros Hf. exfalso. rewrite Hf in Hty. cbn in Hty.
      repeat destruct Hty as [Hty|Hty]; try discriminate Hty. exact Hty.
Qed.

Lemma decoded_row_invariants_witness :
  exists r,
    decode_one_from_row (Samples.world_with_receipt Samples.swap_receipt) Samples.wallet
      Samples.swap_row ∅ = Ok (Some r)
    /\ tx_hash r = Spec.hash_of Samples.swap_row
    /\ tx_hash r <> ""
    /\ (tx_hash r ∉ (∅ : gset string))
    /\ In (type r) ["failed"; "swap"; "add_liquidity"; "remove_liquidity"; "unknown"]
    /\ (_failed r = true <-> type r = "failed")
    /\ (block_time r = 0 -> tx_timestamp r = "").
Proof.
  eexists. split; [vm_compute; reflexivity|].
  apply (decoded_row_invariants (Samples.world_with_receipt Samples.swap_receipt)
           Samples.wallet Samples.swap_row ∅).
  vm_compute; reflexivity.
Defined.

(** ** Classification and the native fallbacks *)

Lemma first_topics_in (logs : list LogEntry) (lg : LogEntry) (t0 : string) (rest : list string) :
  In lg logs -> lg_topics lg = t0 :: rest -> In t0 (first_topics logs).
Proof.
  intros Hin Ht. unfold first_topics. apply in_flat_map. exists lg. split; [exact Hin|].
  rewrite Ht. now left.
Qed.

Lemma any_in_emits (ts : list string) (logs : list LogEntry) :
  any_in ts (first_topics logs) = true <-> Spec.emits logs ts.
Proof.
  unfold any_in, Spec.emits. rewrite existsb_exists. split.
  - intros (t & Ht & Hex). apply existsb_exists in Hex. destruct Hex as (t0 & Hin & Heq).
    apply String.eqb_eq in Heq. subst t0.
    destruct (in_first_topics logs t Hin) as (lg & rest & Hlg & Htop).
    now exists lg, t, rest.
  - intros (lg & t0 & rest & Hlg & Htop & Hin). exists t0. split; [exact Hin|].
    apply existsb_exists. exists t0. split; [|apply String.eqb_refl].
    eapply first_topics_in; eassumption.
Qed.

Lemma any_in_false (ts : list string) (logs : list LogEntry) :
  ~ Spec.emits logs ts -> any_in ts (first_topics logs) = false.
Proof.
  intros H. destruct (any_in ts (first_topics logs)) eqn:E; [|reflexivity].
  exfalso. apply H, any_in_emits, E.
Qed.

(** X7.  Events decide the type before balances do.  Whatever the
    deltas, a receipt with a swap event is a swap; without one, a receipt
    with a mint or increase-liquidity event is add_liquidity; without
    either, a receipt with a burn or decrease-liquidity event is
    remove_liquidity. *)
Theorem events_override_balances (logs : list LogEntry) (deltas : list (string * Z)) :
  (Spec.emits logs [TOPIC_SWAP_V3; TOPIC_SWAP_V2] -> action_type_of logs deltas = "swap")
  /\ (~ Spec.emits logs [TOPIC_SWAP_V3; TOPIC_SWAP_V2] ->
      Spec.emits logs [TOPIC_MINT_V3; TOPIC_INC_LIQ_V3; TOPIC_MINT_V2] ->
      action_type_of logs deltas = "add_liquidity")
  /\ (~ Spec.emits logs [TOPIC_SWAP_V3; TOPIC_SWAP_V2] ->
      ~ Spec.emits logs [TOPIC_MINT_V3; TOPIC_INC_LIQ_V3; TOPIC_MINT_V2] ->
      Spec.emits logs [TOPIC_BURN_V3; TOPIC_DEC_LIQ_V3; TOPIC_BURN_V2] ->
      action_type_of logs deltas = "remove_liquidity").
Proof.
  unfold action_type_of, classify_from_topics. repeat split.
  - intros H. apply any_in_emits in H. now rewrite H.
  - intros H1 H2. apply any_in_false in H1. apply any_in_emits in H2. now rewrite H1, H2.
  - intros H1 H2 H3. apply any_in_false in H1. apply any_in_false in H2.
    apply any_in_emits in H3. now rewrite H1, H2, H3.
Qed.

Lemma events_override_balances_witness :
  action_type_of [Samples.swap_event_log] [("eth", 5)] = "swap".
Proof.
  apply (proj1 (events_override_balances [Samples.swap_event_log] [("eth", 5)])).
  exists Samples.swap_event_log, TOPIC_SWAP_V3, []. split; [now left|]. split; [reflexivity|].
  now left.
Defined.

Lemma emits_perm (logs logs' : list LogEntry) (ts : list string) :
  Permutation logs logs' -> Spec.emits logs ts -> Spec.emits logs' ts.
Proof.
  intros Hp (lg & t0 & rest & Hin & Ht & Hts). exists lg, t0, rest.
  split; [|now split]. eapply Permutation_in; eassumption.
Qed.

Lemma any_in_perm (logs logs' : list LogEntry) (ts : list string) :
  Permutation logs logs' -> any_in ts (first_topics logs) = any_in ts (first_topics logs').
Proof.
  intros Hp. destruct (any_in ts (first_topics logs)) eqn:E.
  - symmetry. apply any_in_emits. apply (emits_perm logs logs' ts Hp). now apply any_in_emits.
  - symmetry. apply any_in_false. intros H. apply (emits_perm logs' logs ts) in H;
      [|now symmetry]. apply any_in_emits in H. congruence.
Qed.

Lemma internals_loop_stops (wallet : string) (bad : InternalTx) (pre post : list InternalTx) :
  forall e,
    int10 (str_or (itx_value bad) "0") = Raise e ->
    forall delta,
      internals_loop wallet (pre ++ bad :: post) delta = internals_loop wallet pre delta.
Proof.
  intros e Hbad. induction pre as [|itx pre IH]; intros delta.
  - cbn [app internals_loop]. now rewrite Hbad.
  - cbn [app internals_loop].
    destruct (int10 (str_or (itx_value itx) "0")) as [val|]; [|reflexivity].
    destruct (_ || _); apply IH.
Qed.

Lemma trace_loop_skips (wl : string) (bad : Trace) (pre post : list Trace) :
  forall e,
    int16 (str_or (tr_value bad) "0x0") = Raise e ->
    forall delta,
      trace_loop wl (pre ++ bad :: post) delta = trace_loop wl (pre ++ post) delta.
Proof.
  intros e Hbad. induction pre as [|tr pre IH]; intros delta.
  - cbn [app trace_loop]. rewrite Hbad. cbn [try_except Z.eqb].
    now destruct (negb _).
  - cbn [app trace_loop]. destruct (negb _); [apply IH|].
    destruct (_ =? 0); apply IH.
Qed.

(** X9.  A value that is not a number ends the loop over the internal
    transfers, which keeps what it added before and ignores the transfers
    after it (the exception is caught around the loop); the loop over the
    call traces skips such a trace and goes on (the exception is caught
    inside the loop). *)
Theorem malformed_value_aborts_internals_but_not_traces (wallet : string)
    (bad : InternalTx) (pre post : list InternalTx)
    (bad_tr : Trace) (pre_tr post_tr : list Trace) (delta : Z) (e e' : exn) :
  int10 (str_or (itx_value bad) "0") = Raise e ->
  int16 (str_or (tr_value bad_tr) "0x0") = Raise e' ->
  internals_loop wallet (pre ++ bad :: post) delta = internals_loop wallet pre delta
  /\ trace_loop wallet (pre_tr ++ bad_tr :: post_tr) delta
     = trace_loop wallet (pre_tr ++ post_tr) delta.
Proof.
  intros H1 H2. split; [now apply (internals_loop_stops _ _ _ _ e)|
                        now apply (trace_loop_skips _ _ _ _ e')].
Qed.

Lemma malformed_value_aborts_internals_but_not_traces_witness :
  internals_loop Samples.wallet
    ([Samples.internal_to_wallet "5"] ++ Samples.internal_to_wallet "1e18"
       :: [Samples.internal_to_wallet "7"]) 0
  = internals_loop Samples.wallet [Samples.internal_to_wallet "5"] 0
  /\ trace_loop Samples.wallet
       ([Samples.trace_to_wallet "0x5"] ++ Samples.trace_to_wallet "0xzz"
          :: [Samples.trace_to_wallet "0x7"]) 0
     = trace_loop Samples.wallet
         ([Samples.trace_to_wallet "0x5"] ++ [Samples.trace_to_wallet "0x7"]) 0.
Proof.
  apply (malformed_value_aborts_internals_but_not_traces Samples.wallet
           (Samples.internal_to_wallet "1e18") [Samples.internal_to_wallet "5"]
           [Samples.internal_to_wallet "7"]
           (Samples.trace_to_wallet "0xzz") [Samples.trace_to_wallet "0x5"]
           [Samples.trace_to_wallet "0x7"] 0 ValueError ValueError);
    vm_compute; reflexivity.
Defined.

(** ** Symbols and addresses *)

Lemma append_cons (c : ascii) (a b : string) : String c a ++ b = String c (a ++ b).
Proof. reflexivity. Qed.

Lemma append_nil (b : string) : "" ++ b = b.
Proof. reflexivity. Qed.

Lemma rstrip_chars_cons (p : ascii -> bool) (c : ascii) (s : string) :
  rstrip_chars p (String c s)
  = match rstrip_chars p s with
    | EmptyString => if p c then EmptyString else String c EmptyString
    | r => String c r
    end.
Proof. reflexivity. Qed.

Lemma rstrip_chars_idem (p : ascii -> bool) (s : string) :
  rstrip_chars p (rstrip_chars p s) = rstrip_chars p s.
Proof.
  induction s as [|c s IH]; [reflexivity|]. rewrite rstrip_chars_cons.
  destruct (rstrip_chars p s) as [|c' s'] eqn:E.
  - destruct (p c) eqn:Hc; [reflexivity|]. cbn [rstrip_chars]. now rewrite Hc.
  - rewrite rstrip_chars_cons, IH. reflexivity.
Qed.

Lemma rstrip_chars_head (p : ascii -> bool) (c : ascii) (s : string) :
  p c = false -> exists r, rstrip_chars p (String c s) = String c r.
Proof.
  intros Hc. cbn [rstrip_chars]. destruct (rstrip_chars p s); [rewrite Hc|]; eexists; reflexivity.
Qed.

Lemma lstrip_chars_head (p : ascii -> bool) (s : string) :
  lstrip_chars p s = "" \/ exists c r, lstrip_chars p s = String c r /\ p c = false.
Proof.
  induction s as [|c s IH]; [now left|]. cbn [lstrip_chars].
  destruct (p c) eqn:Hc; [exact IH|]. right. now exists c, s.
Qed.

Lemma strip_idem (s : string) : strip (strip s) = strip s.
Proof.
  unfold strip. destruct (lstrip_chars_head is_space s) as [E|(c & r & E & Hc)]; rewrite E.
  - reflexivity.
  - destruct (rstrip_chars_head is_space c r Hc) as [r' E']. rewrite E'.
    cbn [lstrip_chars]. rewrite Hc, <- E'. apply rstrip_chars_idem.
Qed.

(** X10.  [normalize_symbol] is idempotent and never returns the empty
    text. *)
Theorem normalize_symbol_is_canonical (sym : string) :
  normalize_symbol (normalize_symbol sym) = normalize_symbol sym
  /\ normalize_symbol sym <> "".
Proof.
  assert (H : normalize_symbol sym = "UNKNOWN" \/ normalize_symbol sym = "WBTC"
              \/ (normalize_symbol sym = strip sym /\ strip sym <> ""
                  /\ dict_get SYMBOL_ALIASES (lower (strip sym)) = None)).
  { unfold normalize_symbol.
    destruct (String.eqb_spec (strip sym) "") as [He|Hne]; [now left|].
    cbn [SYMBOL_ALIASES dict_get].
    destruct (String.eqb "wrapped btc" (lower (strip sym))); [right; now left|].
    destruct (String.eqb "wbtc.e" (lower (strip sym))); [right; now left|].
    right; right. now repeat split. }
  destruct H as [->|[->|(-> & Hne & Hnone)]].
  - split; [reflexivity|discriminate].
  - split; [reflexivity|discriminate].
  - split; [|exact Hne].
    unfold normalize_symbol. rewrite strip_idem, (eqb_neq_false _ _ Hne), Hnone. reflexivity.
Qed.

Lemma lower_char_idem (c : ascii) : lower_char (lower_char c) = lower_char c.
Proof.
  destruct c as [b0 b1 b2 b3 b4 b5 b6 b7].
  destruct b0, b1, b2, b3, b4, b5, b6, b7; reflexivity.
Qed.

Lemma lower_idem (s : string) : lower (lower s) = lower s.
Proof.
  induction s as [|c s IH]; [reflexivity|]. cbn [lower]. now rewrite lower_char_idem, IH.
Qed.

Lemma lower_length (s : string) : String.length (lower s) = String.length s.
Proof. induction s as [|c s IH]; [reflexivity|]. cbn [lower String.length]. now rewrite IH. Qed.

Lemma drop_app_length (a b : string) : drop (String.length a) (a ++ b) = b.
Proof. induction a as [|c a IH]; [reflexivity|]. exact IH. Qed.

Lemma length_app (a b : string) :
  String.length (a ++ b) = (String.length a + String.length b)%nat.
Proof.
  induction a as [|c a IH]; [reflexivity|]. rewrite append_cons. cbn [String.length].
  now rewrite IH.
Qed.

Lemma startswith_0x (t : string) : startswith ("0x" ++ t) "0x" = true.
Proof. destruct t; reflexivity. Qed.

Lemma address_from_topic_unfold (topic_hex : string) :
  address_from_topic topic_hex
  = if (String.length (last_n 40 topic_hex) =? 40)%nat
       && all_chars is_hexdigit (last_n 40 topic_hex)
    then "0x" ++ lower (last_n 40 topic_hex)
    else "".
Proof.
  unfold address_from_topic, to_normalized_address. rewrite startswith_0x. cbn [orb].
  change (drop 2 ("0x" ++ last_n 40 topic_hex)) with (last_n 40 topic_hex).
  destruct (_ && _); [|reflexivity]. cbn [Py.bind try_except].
  change (lower ("0x" ++ lower (last_n 40 topic_hex)))
    with ("0x" ++ lower (lower (last_n 40 topic_hex))).
  now rewrite lower_idem.
Qed.

(** X11.  The address read from a topic is either empty, or 42
    characters long, beginning with [0x] and in lower case; a topic that
    ends with 40 hexadecimal digits gives [0x] followed by these digits in
    lower case, whatever precedes them. *)
Theorem address_from_topic_is_canonical (topic_hex : string) :
  (address_from_topic topic_hex = ""
   \/ (String.length (address_from_topic topic_hex) = 42%nat
       /\ startswith (address_from_topic topic_hex) "0x" = true
       /\ lower (address_from_topic topic_hex) = address_from_topic topic_hex))
  /\ (forall padding body,
        topic_hex = padding ++ body ->
        String.length body = 40%nat ->
        all_chars is_hexdigit body = true ->
        address_from_topic topic_hex = "0x" ++ lower body).
Proof.
  rewrite !address_from_topic_unfold. split.
  - set (body := last_n 40 topic_hex).
    destruct (Nat.eqb_spec (String.length body) 40) as [Hlen|Hlen]; [|now left].
    destruct (all_chars is_hexdigit body); [|now left]. right. cbn [andb]. split; [|split].
    + change (String.length ("0x" ++ lower body)) with (S (S (String.length (lower body)))).
      now rewrite lower_length, Hlen.
    + apply startswith_0x.
    + change (lower ("0x" ++ lower body)) with ("0x" ++ lower (lower body)).
      now rewrite lower_idem.
  - intros padding body -> Hlen Hhex.
    assert (Hlast : last_n 40 (padding ++ body) = body).
    { unfold last_n. rewrite length_app, Hlen.
      replace (String.length padding + 40 - 40)%nat with (String.length padding) by lia.
      apply drop_app_length. }
    rewrite Hlast, Hlen, Hhex. reflexivity.
Qed.

Lemma address_from_topic_is_canonical_witness :
  address_from_topic (Samples.topic_of Samples.wallet) = Samples.wallet.
Proof.
  apply (proj2 (address_from_topic_is_canonical (Samples.topic_of Samples.wallet))
           ("0x" ++ Samples.zeros24) (drop 2 Samples.wallet)); reflexivity.
Defined.

(** ** Block tags *)

Lemma hex_char_facts (d : Z) :
  0 <= d < 16 ->
  Ascii.eqb (hex_char d) "_" = false
  /\ digit_val (hex_char d) = Some d
  /\ is_space (hex_char d) = false.
Proof.
  intros H.
  assert (Hd : d = 0 \/ d = 1 \/ d = 2 \/ d = 3 \/ d = 4 \/ d = 5 \/ d = 6 \/ d = 7
               \/ d = 8 \/ d = 9 \/ d = 10 \/ d = 11 \/ d = 12 \/ d = 13 \/ d = 14 \/ d = 15)
    by lia.
  repeat (destruct Hd as [->|Hd]; [repeat split; reflexivity|]). subst d. repeat split; reflexivity.
Qed.

Lemma hex_digits_parse (fuel : nat) :
  forall n : Z,
    0 <= n < 16 ^ Z.of_nat fuel ->
    exists k, 0 <= k /\
      forall acc a,
        digits_acc 16 (hex_digits fuel n acc) a false = digits_acc 16 acc (a * 16 ^ k + n) false.
Proof.
  induction fuel as [|fuel IH]; intros n Hn.
  - exists 0. split; [lia|]. intros acc a. cbn [hex_digits].
    replace (a * 16 ^ 0 + n) with a by (change (16 ^ Z.of_nat 0) with 1 in Hn; lia).
    reflexivity.
  - assert (Hmod : 0 <= n mod 16 < 16) by (apply Z.mod_pos_bound; lia).
    destruct (hex_char_facts (n mod 16) Hmod) as (Hus & Hdv & _).
    assert (Hstep : forall acc a,
              digits_acc 16 (String (hex_char (n mod 16)) acc) a false
              = digits_acc 16 acc (a * 16 + n mod 16) false).
    { intros acc a. cbn [digits_acc]. rewrite Hus, Hdv.
      replace (n mod 16 <? 16) with true by (symmetry; apply Z.ltb_lt; lia). reflexivity. }
    cbn [hex_digits]. destruct (Z.ltb_spec n 16) as [Hlt|Hge].
    + exists 1. split; [lia|]. intros acc a. rewrite Hstep.
      rewrite Z.mod_small by lia. f_equal; lia.
    + assert (Hq : 0 <= n / 16 < 16 ^ Z.of_nat fuel).
      { split; [apply Z.div_pos; lia|]. apply Z.div_lt_upper_bound; [lia|].
        rewrite Nat2Z.inj_succ, Z.pow_succ_r in Hn; lia. }
      destruct (IH (n / 16) Hq) as (k & Hk & Hparse).
      exists (k + 1). split; [lia|]. intros acc a. rewrite Hparse, Hstep.
      replace (a * 16 ^ (k + 1) + n) with ((a * 16 ^ k + n / 16) * 16 + n mod 16); [reflexivity|].
      rewrite Z.pow_add_r, Z.pow_1_r by lia.
      pose proof (Z.div_mod n 16 ltac:(lia)). lia.
Qed.

Lemma hex_digits_all (p : ascii -> bool) (fuel : nat) :
  (forall d, 0 <= d < 16 -> p (hex_char d) = true) ->
  forall n acc, all_chars p acc = true -> all_chars p (hex_digits fuel n acc) = true.
Proof.
  intros Hp. induction fuel as [|fuel IH]; intros n acc Hacc; [exact Hacc|].
  cbn [hex_digits].
  assert (Hc : all_chars p (String (hex_char (n mod 16)) acc) = true).
  { cbn [all_chars]. rewrite Hacc, Hp; [reflexivity|apply Z.mod_pos_bound; lia]. }
  destruct (n <? 16); [exact Hc|]. now apply IH.
Qed.

Lemma hex_digits_nonempty (fuel : nat) (n : Z) (acc : string) :
  exists c r, hex_digits (S fuel) n acc = String c r.
Proof.
  revert n acc. induction fuel as [|fuel IH]; intros n acc.
  - cbn [hex_digits]. destruct (n <? 16); eexists; eexists; reflexivity.
  - change (hex_digits (S (S fuel)) n acc)
      with (let acc' := String (hex_char (n mod 16)) acc in
            if n <? 16 then acc' else hex_digits (S fuel) (n / 16) acc').
    cbv zeta. destruct (n <? 16); [eexists; eexists; reflexivity|apply IH].
Qed.

Lemma int16_hex (n : Z) : 0 <= n -> int16 (hex n) = Ok n /\ hex n <> "" /\ hex n <> "0x".
Proof.
  intros Hn. unfold hex. replace (n <? 0) with false by (symmetry; apply Z.ltb_ge; lia).
  rewrite Z.abs_eq by lia.
  set (fuel := Z.to_nat (Z.log2 n)).
  destruct (hex_digits_nonempty fuel n "") as (c & r & Hd).
  assert (Hnosp : all_chars (fun c => negb (is_space c)) (hex_digits (S fuel) n "") = true).
  { apply hex_digits_all; [|reflexivity]. intros d Hd'.
    destruct (hex_char_facts d Hd') as (_ & _ & Hsp). now rewrite Hsp. }
  assert (Hnous : all_chars (fun c => negb (Ascii.eqb c "_")) (hex_digits (S fuel) n "") = true).
  { apply hex_digits_all; [|reflexivity]. intros d Hd'.
    destruct (hex_char_facts d Hd') as (Hus & _). now rewrite Hus. }
  assert (Hrange : 0 <= n < 16 ^ Z.of_nat (S fuel)).
  { split; [lia|]. unfold fuel. pose proof (Z.log2_nonneg n).
    rewrite Nat2Z.inj_succ, Z2Nat.id by lia.
    destruct (Z.eq_dec n 0) as [->|Hnz]; [cbn; lia|].
    pose proof (Z.log2_spec n ltac:(lia)) as [_ Hlt].
    eapply Z.lt_le_trans; [exact Hlt|]. apply Z.pow_le_mono_l. lia. }
  destruct (hex_digits_parse (S fuel) n Hrange) as (k & Hk & Hparse).
  pose proof (Hparse "" 0) as Hp0. rewrite Hd in *. change ("0x" ++ String c r) with (String "0" (String "x" (String c r))).
  split; [|split; discriminate].
  unfold int16, int_of_str, strip. cbn [lstrip_chars]. change (is_space "0") with false.
  cbv iota.
  rewrite (rstrip_chars_noop is_space (String "0" (String "x" (String c r))))
    by (cbn [all_chars] in Hnosp |- *; rewrite Hnosp; reflexivity).
  cbv beta iota. change (16 =? 16) with true.
  change (startswith (String "0" (String "x" (String c r))) "0x") with true.
  cbn [andb orb drop].
  cbn [all_chars] in Hnous. apply andb_prop in Hnous. destruct Hnous as [Hc _].
  apply negb_true_iff in Hc.
  assert (Hr : match String c r with
               | String "_" r0 => r0
               | r0 => r0
               end = String c r).
  { destruct c as [b0 b1 b2 b3 b4 b5 b6 b7].
    destruct b0, b1, b2, b3, b4, b5, b6, b7; try reflexivity. discriminate Hc. }
  rewrite Hr. unfold parse_digits. rewrite Hc, Hp0. reflexivity.
Qed.

(** X12.  [h2i] reads back a block tag: [h2i(hex_tag(n))] is
    [max(n, 0)] for every integer [n]. *)
Theorem block_tags_read_back (n : Z) : h2i (Some (hex_tag n)) = Ok (Z.max n 0).
Proof.
  unfold hex_tag, h2i.
  destruct (int16_hex (Z.max n 0) ltac:(lia)) as (Hint & Hne1 & Hne2).
  now rewrite (eqb_neq_false _ _ Hne1), (eqb_neq_false _ _ Hne2).
Qed.

(** ** The shape of an amount *)

Lemma string_of_uint_digits (d : Decimal.uint) :
  all_chars Spec.is_digit (NilZero.string_of_uint d) = true
  /\ NilZero.string_of_uint d <> "".
Proof.
  assert (H : all_chars Spec.is_digit (NilEmpty.string_of_uint d) = true)
    by (induction d; cbn [NilEmpty.string_of_uint all_chars]; try rewrite IHd; reflexivity).
  unfold NilZero.string_of_uint. destruct d; (split; [first [exact H|reflexivity]|discriminate]).
Qed.

Lemma str_of_int_digits (n : Z) :
  0 <= n -> all_chars Spec.is_digit (str_of_int n) = true /\ str_of_int n <> "".
Proof.
  intros Hn. unfold str_of_int. destruct n as [|p|p]; [| |lia]; apply string_of_uint_digits.
Qed.

Lemma all_chars_app (p : ascii -> bool) (a b : string) :
  all_chars p (a ++ b) = all_chars p a && all_chars p b.
Proof.
  induction a as [|c a IH]; [reflexivity|]. rewrite append_cons. cbn [all_chars].
  now rewrite IH, andb_assoc.
Qed.

Lemma all_chars_repeat (p : ascii -> bool) (c : ascii) (n : nat) :
  p c = true -> all_chars p (repeat_char c n) = true.
Proof. intros H. induction n as [|n IH]; [reflexivity|]. cbn. now rewrite H, IH. Qed.

Lemma all_chars_take (p : ascii -> bool) (n : nat) (s : string) :
  all_chars p s = true -> all_chars p (take n s) = true.
Proof.
  revert s. induction n as [|n IH]; intros s H; [reflexivity|].
  destruct s as [|c s]; [reflexivity|]. cbn [all_chars take] in H |- *.
  apply andb_prop in H. destruct H as [Hc Hs]. now rewrite Hc, (IH s Hs).
Qed.

Lemma all_chars_rstrip (p q : ascii -> bool) (s : string) :
  all_chars p s = true -> all_chars p (rstrip_chars q s) = true.
Proof.
  induction s as [|c s IH]; intros H; [reflexivity|]. cbn [all_chars] in H.
  apply andb_prop in H. destruct H as [Hc Hs]. rewrite rstrip_chars_cons.
  specialize (IH Hs). destruct (rstrip_chars q s).
  - destruct (q c); [reflexivity|]. cbn [all_chars]. now rewrite Hc.
  - cbn [all_chars] in IH |- *. now rewrite Hc, IH.
Qed.

Lemma length_take (n : nat) (s : string) :
  (n <= String.length s)%nat -> String.length (take n s) = n.
Proof.
  revert s. induction n as [|n IH]; intros s H; [reflexivity|].
  destruct s as [|c s]; [cbn in H; lia|]. cbn [take String.length] in H |- *.
  rewrite IH; lia.
Qed.

Lemma length_repeat_char (c : ascii) (n : nat) : String.length (repeat_char c n) = n.
Proof. induction n as [|n IH]; [reflexivity|]. cbn. now rewrite IH. Qed.

Lemma partition_dot_app (a b : string) :
  all_chars (fun c => negb (Ascii.eqb c ".")) a = true ->
  partition_dot (a ++ "." ++ b) = (a, ".", b).
Proof.
  induction a as [|c a IH]; intros H; [reflexivity|]. cbn [all_chars] in H.
  apply andb_prop in H. destruct H as [Hc Ha]. apply negb_true_iff in Hc.
  rewrite append_cons. cbn [partition_dot]. now rewrite Hc, (IH Ha).
Qed.

Lemma digit_not_dot (s : string) :
  all_chars Spec.is_digit s = true -> all_chars (fun c => negb (Ascii.eqb c ".")) s = true.
Proof.
  apply all_chars_impl. intros c Hc. destruct c as [b0 b1 b2 b3 b4 b5 b6 b7].
  destruct b0, b1, b2, b3, b4, b5, b6, b7; try reflexivity; discriminate Hc.
Qed.

Lemma round_half_even_nonneg (x : Q) : (0 <= x)%Q -> 0 <= Dec.round_half_even x.
Proof.
  intros Hx. unfold Dec.round_half_even.
  assert (Hn : 0 <= Qnum x) by (destruct x as [n d]; unfold Qle in Hx; cbn in *; lia).
  pose proof (Z.div_pos (Qnum x) (Zpos (Qden x)) Hn ltac:(lia)).
  repeat match goal with |- context [if ?c then _ else _] => destruct c end; lia.
Qed.

(** The text of [f"{x:.{places}f}"] for a value that is not negative. *)
Lemma to_fixed_shape (places : nat) (x : Q) :
  (0 <= x)%Q -> (1 <= places)%nat ->
  exists whole frac,
    Dec.to_fixed places x = whole ++ "." ++ frac
    /\ whole <> "" /\ all_chars Spec.is_digit whole = true /\ all_chars Spec.is_digit frac = true
    /\ (places <= String.length frac)%nat.
Proof.
  intros Hx Hp. unfold Dec.to_fixed.
  set (scale := 10 ^ Z.of_nat places).
  assert (Hscale : 0 < scale) by (apply Z.pow_pos_nonneg; lia).
  set (m := Dec.round_half_even (Qabs x * inject_Z scale)).
  assert (Hm : 0 <= m).
  { apply round_half_even_nonneg. apply Qmult_le_0_compat; [apply Qabs_nonneg|].
    change 0%Q with (inject_Z 0). rewrite <- Zle_Qle. lia. }
  destruct (str_of_int_digits (m / scale) (Z.div_pos _ _ Hm Hscale)) as [Hw Hwne].
  destruct (str_of_int_digits (m mod scale)) as [Hf Hfne];
    [apply Z.mod_pos_bound; lia|].
  replace (Qle_bool 0 x) with true by (symmetry; now apply Qle_bool_iff).
  destruct places as [|p]; [lia|].
  exists (str_of_int (m / scale)),
         (repeat_char "0" (S p - String.length (str_of_int (m mod scale)))
          ++ str_of_int (m mod scale)).
  split; [reflexivity|]. split; [exact Hwne|]. split; [exact Hw|]. split.
  - rewrite all_chars_app, Hf, all_chars_repeat; reflexivity.
  - rewrite length_app, length_repeat_char. lia.
Qed.

Lemma round_sig_nonneg (prec : Z) (x : Q) : (0 <= x)%Q -> (0 <= Dec.round_sig prec x)%Q.
Proof.
  intros Hx. unfold Dec.round_sig. destruct (Qeq_bool x 0); [apply Qle_refl|].
  replace (Qle_bool 0 x) with true by (symmetry; now apply Qle_bool_iff).
  rewrite Qred_correct.
  apply Qmult_le_0_compat; [apply Qmult_le_0_compat; [discriminate|]|].
  - change 0%Q with (inject_Z 0). rewrite <- Zle_Qle.
    apply round_half_even_nonneg. apply Qle_shift_div_l; [apply pow10_pos|].
    rewrite Qmult_0_l. apply Qabs_nonneg.
  - apply Qlt_le_weak, pow10_pos.
Qed.

(** X13.  For an amount that is not negative, and at least one minimal
    and one maximal decimal place, [fmt_amount] returns digits, a point and
    at least [min_dp] digits: never a sign, an exponent or a bare
    integer. *)
Theorem amounts_keep_their_decimals (value_wei decimals : Z) (min_dp max_dp : nat) :
  0 <= value_wei -> (1 <= min_dp)%nat -> (1 <= max_dp)%nat ->
  Spec.amount_text min_dp (fmt_amount value_wei decimals min_dp max_dp).
Proof.
  intros Hv Hmin Hmax. unfold fmt_amount, Spec.amount_text.
  destruct (Z.eqb_spec value_wei 0) as [->|Hne].
  { apply to_fixed_shape; [apply Qle_refl|exact Hmin]. }
  set (q := Dec.div_pow10 50 (inject_Z value_wei) decimals).
  assert (Hq : (0 <= q)%Q).
  { unfold q, Dec.div_pow10. apply round_sig_nonneg. unfold Qdiv.
    apply Qmult_le_0_compat.
    - change 0%Q with (inject_Z 0). rewrite <- Zle_Qle. lia.
    - apply Qinv_le_0_compat. unfold Dec.pow. apply round_sig_nonneg.
      apply Qlt_le_weak, (pow10_pos decimals). }
  destruct (to_fixed_shape max_dp q Hq Hmax) as (whole & frac & -> & Hwne & Hw & Hf & Hlen).
  rewrite (partition_dot_app whole frac (digit_not_dot whole Hw)).
  set (trimmed := rstrip_chars (Ascii.eqb "0") frac).
  assert (Ht : all_chars Spec.is_digit trimmed = true) by now apply all_chars_rstrip.
  exists whole.
  destruct (Nat.ltb_spec (String.length trimmed) min_dp) as [Hshort|Hlong].
  - exists (take min_dp (trimmed ++ repeat_char "0" min_dp)).
    assert (Hl : String.length (take min_dp (trimmed ++ repeat_char "0" min_dp)) = min_dp).
    { apply length_take. rewrite length_app, length_repeat_char. lia. }
    destruct (take min_dp (trimmed ++ repeat_char "0" min_dp)) as [|c r] eqn:E;
      [cbn in Hl; lia|].
    rewrite <- E in *. replace (String.eqb (take min_dp (trimmed ++ repeat_char "0" min_dp)) "")
      with false by (rewrite E; reflexivity).
    split; [reflexivity|]. split; [exact Hwne|]. split; [exact Hw|]. split; [|lia].
    apply all_chars_take. rewrite all_chars_app, Ht, all_chars_repeat; reflexivity.
  - exists trimmed. destruct trimmed as [|c r] eqn:E; [cbn in Hlong; lia|]. rewrite <- E in *.
    replace (String.eqb trimmed "") with false by (rewrite E; reflexivity).
    split; [reflexivity|]. split; [exact Hwne|]. split; [exact Hw|]. split; [exact Ht|exact Hlong].
Qed.

Lemma amounts_keep_their_decimals_witness :
  Spec.amount_text 2 (fmt_amount 1500000000000000000 18 2 6)
  /\ fmt_amount 1500000000000000000 18 2 6 = "1.50".
Proof.
  split; [|vm_compute; reflexivity].
  apply (amounts_keep_their_decimals 1500000000000000000 18 2 6); lia.
Defined.

(** ** Failed transactions *)

Lemma digits_value_uint (d : Decimal.uint) :
  forall acc, Spec.digits_value (NilEmpty.string_of_uint d) acc = Spec.uint_value d acc.
Proof.
  induction d; intros acc; cbn [NilEmpty.string_of_uint Spec.digits_value Spec.uint_value];
    [reflexivity|
     rewrite IHd; f_equal;
     match goal with
     | |- context [Py.code ?c] =>
         let v := eval vm_compute in (Py.code c) in change (Py.code c) with v
     end; lia..].
Qed.

Lemma of_uint_acc_value (d : Decimal.uint) :
  forall acc, Zpos (Pos.of_uint_acc d acc) = Spec.uint_value d (Zpos acc).
Proof.
  induction d; intros acc; cbn [Pos.of_uint_acc Spec.uint_value];
    [reflexivity|rewrite IHd; f_equal; lia..].
Qed.

Lemma of_uint_value (d : Decimal.uint) : Z.of_N (Pos.of_uint d) = Spec.uint_value d 0.
Proof.
  induction d; cbn [Pos.of_uint Spec.uint_value];
    [reflexivity|exact IHd|cbn [Z.of_N]; rewrite of_uint_acc_value; reflexivity..].
Qed.

Lemma uint_value_acc (d : Decimal.uint) :
  forall acc, Spec.uint_value d acc
              = acc * 10 ^ Z.of_nat (Decimal.nb_digits d) + Spec.uint_value d 0.
Proof.
  induction d; intros acc; cbn [Spec.uint_value Decimal.nb_digits];
    [cbn; lia|rewrite IHd, (IHd (0 * 10 + _)) || rewrite IHd, (IHd (0 * 10));
              rewrite Nat2Z.inj_succ, Z.pow_succ_r by lia; lia..].
Qed.

Lemma uint_value_nonneg (d : Decimal.uint) : forall acc, 0 <= acc -> 0 <= Spec.uint_value d acc.
Proof.
  induction d; intros acc H; cbn [Spec.uint_value]; [exact H|apply IHd; lia..].
Qed.

Lemma length_string_of_uint (d : Decimal.uint) :
  String.length (NilEmpty.string_of_uint d) = Decimal.nb_digits d.
Proof. induction d; cbn [NilEmpty.string_of_uint String.length Decimal.nb_digits]; congruence. Qed.

Lemma to_uint_unorm (p : positive) : Decimal.unorm (Pos.to_uint p) = Pos.to_uint p.
Proof.
  pose proof (DecimalPos.Unsigned.to_of (Pos.to_uint p)) as H.
  rewrite DecimalPos.Unsigned.of_to in H. cbn [N.to_uint] in H. now symmetry.
Qed.

(** The digits of a positive number begin with a digit that is not zero. *)
Lemma to_uint_lower (p : positive) :
  10 ^ (Z.of_nat (Decimal.nb_digits (Pos.to_uint p)) - 1) <= Zpos p.
Proof.
  pose proof (to_uint_unorm p) as Hn. pose proof (DecimalPos.Unsigned.to_uint_nonzero p) as Hz.
  pose proof (DecimalPos.Unsigned.of_to p) as Hv.
  apply (f_equal Z.of_N) in Hv. rewrite of_uint_value in Hv. cbn [Z.of_N] in Hv.
  rewrite <- Hv. clear Hv.
  destruct (Pos.to_uint p) as [|l|l|l|l|l|l|l|l|l|l] eqn:E;
    cbn [Spec.uint_value Decimal.nb_digits];
    try (rewrite uint_value_acc; pose proof (uint_value_nonneg l 0 ltac:(lia));
         replace (Z.of_nat (S (Decimal.nb_digits l)) - 1) with (Z.of_nat (Decimal.nb_digits l))
           by lia;
         pose proof (Z.pow_pos_nonneg 10 (Z.of_nat (Decimal.nb_digits l)) ltac:(lia) ltac:(lia));
         nia).
  - cbn. lia.
  - exfalso. unfold Decimal.unorm in Hn. cbn [Decimal.nzhead] in Hn.
    pose proof (DecimalFacts.nb_digits_nzhead l) as Hl.
    destruct (Decimal.nzhead l) eqn:El;
      [apply Hz; exact (eq_sym Hn)|
       apply (f_equal Decimal.nb_digits) in Hn; cbn [Decimal.nb_digits] in Hn, Hl; lia..].
Qed.

Lemma str_of_int_value (n : Z) : 0 <= n -> Spec.digits_value (str_of_int n) 0 = n.
Proof.
  intros Hn. unfold str_of_int. destruct n as [|p|p]; [reflexivity| |lia].
  cbn [Z.to_int NilZero.string_of_int]. unfold NilZero.string_of_uint.
  pose proof (DecimalPos.Unsigned.to_uint_nonnil p) as Hnil.
  destruct (Pos.to_uint p) eqn:E; [contradiction| rewrite <- E..];
    rewrite digits_value_uint, <- of_uint_value, DecimalPos.Unsigned.of_to; reflexivity.
Qed.

Lemma str_of_int_length (n : Z) (k : nat) :
  0 <= n < 10 ^ Z.of_nat k -> (1 <= k)%nat -> (String.length (str_of_int n) <= k)%nat.
Proof.
  intros [Hn Hlt] Hk. unfold str_of_int. destruct n as [|p|p]; [cbn; lia| |lia].
  cbn [Z.to_int NilZero.string_of_int]. unfold NilZero.string_of_uint.
  pose proof (DecimalPos.Unsigned.to_uint_nonnil p) as Hnil.
  pose proof (to_uint_lower p) as Hlow.
  assert (Hlen : (Decimal.nb_digits (Pos.to_uint p) <= k)%nat).
  { destruct (Nat.le_gt_cases (Decimal.nb_digits (Pos.to_uint p)) k) as [H|H]; [exact H|].
    exfalso.
    assert (10 ^ Z.of_nat k <= 10 ^ (Z.of_nat (Decimal.nb_digits (Pos.to_uint p)) - 1))
      by (apply Z.pow_le_mono_r; lia).
    lia. }
  destruct (Pos.to_uint p) eqn:E; [contradiction| rewrite <- E in *..];
    now rewrite length_string_of_uint.
Qed.

Lemma digits_value_app (a b : string) :
  forall acc, Spec.digits_value (a ++ b) acc = Spec.digits_value b (Spec.digits_value a acc).
Proof.
  induction a as [|c a IH]; intros acc; [reflexivity|].
  rewrite append_cons. cbn [Spec.digits_value]. apply IH.
Qed.

Lemma digits_value_zeros (k : nat) :
  forall acc, Spec.digits_value (repeat_char "0" k) acc = acc * 10 ^ Z.of_nat k.
Proof.
  induction k as [|k IH]; intros acc; [cbn; lia|].
  cbn [repeat_char Spec.digits_value]. rewrite IH.
  change (Py.code "0") with 48. rewrite Nat2Z.inj_succ, Z.pow_succ_r by lia. lia.
Qed.

Lemma rstrip_zeros (s : string) :
  exists k, s = rstrip_chars (Ascii.eqb "0") s ++ repeat_char "0" k.
Proof.
  induction s as [|c s [k IH]]; [now exists 0%nat|]. rewrite rstrip_chars_cons.
  destruct (rstrip_chars (Ascii.eqb "0") s) as [|c' r] eqn:E.
  - destruct (Ascii.eqb_spec "0" c) as [<-|Hc].
    + exists (S k). rewrite append_nil in IH |- *. cbn [repeat_char]. now rewrite <- IH.
    + exists k. rewrite append_cons, append_nil. rewrite append_nil in IH. now rewrite <- IH.
  - exists k. rewrite append_cons. now rewrite <- IH.
Qed.

Lemma take_zeros (m j : nat) : take m (repeat_char "0" (m + j)) = repeat_char "0" m.
Proof.
  induction m as [|m IHm]; [destruct j; reflexivity|].
  cbn [Nat.add repeat_char take]. now rewrite IHm.
Qed.

Lemma take_app_zeros_gen (t : string) :
  forall m j : nat,
    (String.length t <= m)%nat ->
    take m (t ++ repeat_char "0" (m + j)) = t ++ repeat_char "0" (m - String.length t).
Proof.
  induction t as [|c t IHt]; intros m j Hm.
  - rewrite !append_nil. cbn [String.length]. rewrite Nat.sub_0_r. apply take_zeros.
  - cbn [String.length] in Hm. destruct m as [|m]; [lia|].
    rewrite !append_cons. cbn [take String.length Nat.sub]. f_equal.
    replace (S m + j)%nat with (m + S j)%nat by lia. apply IHt. lia.
Qed.

Lemma take_app_zeros (n : nat) (s : string) :
  (String.length s <= n)%nat ->
  take n (s ++ repeat_char "0" n) = s ++ repeat_char "0" (n - String.length s).
Proof.
  intros H. replace n with (n + 0)%nat at 2 by lia. now apply take_app_zeros_gen.
Qed.

Lemma frac_app_zeros (s : string) (k : nat) :
  (inject_Z (Spec.digits_value (s ++ repeat_char "0" k) 0)
   / inject_Z (10 ^ Z.of_nat (String.length (s ++ repeat_char "0" k)))
   == inject_Z (Spec.digits_value s 0) / inject_Z (10 ^ Z.of_nat (String.length s)))%Q.
Proof.
  rewrite digits_value_app, digits_value_zeros, length_app, length_repeat_char.
  rewrite Nat2Z.inj_add, Z.pow_add_r by lia. rewrite !inject_Z_mult.
  assert (H1 : ~ (inject_Z (10 ^ Z.of_nat (String.length s)) == 0)%Q).
  { change 0%Q with (inject_Z 0). rewrite inject_Z_injective.
    pose proof (Z.pow_pos_nonneg 10 (Z.of_nat (String.length s)) ltac:(lia) ltac:(lia)). lia. }
  assert (H2 : ~ (inject_Z (10 ^ Z.of_nat k) == 0)%Q).
  { change 0%Q with (inject_Z 0). rewrite inject_Z_injective.
    pose proof (Z.pow_pos_nonneg 10 (Z.of_nat k) ltac:(lia) ltac:(lia)). lia. }
  field. split; assumption.
Qed.

Lemma append_empty_r (s : string) : s ++ "" = s.
Proof. induction s as [|c s IH]; [reflexivity|]. rewrite append_cons. now f_equal. Qed.

(** The parts of [f"{x:.{places}f}"]. *)
Lemma to_fixed_parts (places : nat) (x : Q) :
  (1 <= places)%nat ->
  exists whole frac,
    Dec.to_fixed places x = (if Qle_bool 0 x then "" else "-") ++ whole ++ "." ++ frac
    /\ whole <> "" /\ all_chars Spec.is_digit whole = true
    /\ all_chars Spec.is_digit frac = true
    /\ String.length frac = places
    /\ Spec.digits_value whole 0
       = Dec.round_half_even (Qabs x * inject_Z (10 ^ Z.of_nat places)) / 10 ^ Z.of_nat places
    /\ Spec.digits_value frac 0
       = Dec.round_half_even (Qabs x * inject_Z (10 ^ Z.of_nat places))
         mod 10 ^ Z.of_nat places.
Proof.
  intros Hp. unfold Dec.to_fixed.
  set (scale := 10 ^ Z.of_nat places).
  assert (Hscale : 0 < scale) by (apply Z.pow_pos_nonneg; lia).
  set (m := Dec.round_half_even (Qabs x * inject_Z scale)).
  assert (Hm : 0 <= m).
  { apply round_half_even_nonneg. apply Qmult_le_0_compat; [apply Qabs_nonneg|].
    change 0%Q with (inject_Z 0). rewrite <- Zle_Qle. lia. }
  pose proof (Z.mod_pos_bound m scale Hscale) as Hmod.
  destruct (str_of_int_digits (m / scale) (Z.div_pos _ _ Hm Hscale)) as [Hw Hwne].
  destruct (str_of_int_digits (m mod scale)) as [Hf Hfne]; [lia|].
  pose proof (str_of_int_length (m mod scale) places Hmod Hp) as Hlen.
  destruct places as [|p]; [lia|].
  exists (str_of_int (m / scale)),
         (repeat_char "0" (S p - String.length (str_of_int (m mod scale)))
          ++ str_of_int (m mod scale)).
  split; [reflexivity|]. split; [exact Hwne|]. split; [exact Hw|]. split.
  - rewrite all_chars_app, Hf, all_chars_repeat; reflexivity.
  - split; [rewrite length_app, length_repeat_char; lia|]. split.
    + apply str_of_int_value. now apply Z.div_pos.
    + rewrite digits_value_app, digits_value_zeros. cbn [Z.mul]. apply str_of_int_value. lia.
Qed.

Lemma digit_not_minus (c : ascii) (w : string) (body : string) :
  Spec.is_digit c = true ->
  match String c w with
  | String "-" r => (true, r)
  | _ => (false, String c w)
  end = (false, String c w).
Proof.
  intros Hc. destruct c as [b0 b1 b2 b3 b4 b5 b6 b7].
  destruct b0, b1, b2, b3, b4, b5, b6, b7; try reflexivity; discriminate Hc.
Qed.

Lemma decimal_value_parts (neg : bool) (whole frac : string) :
  whole <> "" -> all_chars Spec.is_digit whole = true -> all_chars Spec.is_digit frac = true ->
  Spec.decimal_value ((if neg then "-" else "") ++ whole ++ "." ++ frac)
  = Some (let v := (inject_Z (Spec.digits_value whole 0)
                    + inject_Z (Spec.digits_value frac 0)
                      / inject_Z (10 ^ Z.of_nat (String.length frac)))%Q in
          if neg then (- v)%Q else v).
Proof.
  intros Hne Hw Hf. unfold Spec.decimal_value.
  assert (Hbody : A01.partition_dot (whole ++ "." ++ frac) = (whole, ".", frac))
    by (apply partition_dot_app, digit_not_dot, Hw).
  assert (Hnon : A01.nonempty whole = true) by (destruct whole; [contradiction|reflexivity]).
  destruct neg.
  - rewrite append_cons, append_nil. rewrite Hbody, Hnon, Hw, Hf. reflexivity.
  - rewrite append_nil. destruct whole as [|c w]; [contradiction|].
    rewrite append_cons.
    assert (Hc : Spec.is_digit c = true)
      by (cbn [all_chars] in Hw; now apply andb_prop in Hw).
    rewrite (digit_not_minus c _ "" Hc). rewrite <- append_cons.
    rewrite Hbody, Hnon, Hw, Hf. reflexivity.
Qed.

(** The number that [fmt_amount] shows: the amount in units, rounded
    half-even to [max_dp] decimal places. *)
Lemma fmt_amount_value (value_wei decimals : Z) (min_dp max_dp : nat) :
  (1 <= min_dp)%nat -> (1 <= max_dp)%nat -> value_wei <> 0 ->
  exists v,
    Spec.decimal_value (fmt_amount value_wei decimals min_dp max_dp) = Some v
    /\ (Qabs (v - Dec.div_pow10 50 (inject_Z value_wei) decimals)
        <= (1 # 2) / inject_Z (10 ^ Z.of_nat max_dp))%Q.
Proof.
  intros Hmin Hmax Hne. unfold fmt_amount. rewrite (proj2 (Z.eqb_neq _ _) Hne).
  set (q := Dec.div_pow10 50 (inject_Z value_wei) decimals).
  destruct (to_fixed_parts max_dp q Hmax)
    as (whole & frac & -> & Hwne & Hw & Hf & Hlen & Hvw & Hvf).
  set (sign := if Qle_bool 0 q then "" else "-").
  assert (Hsw : all_chars (fun c => negb (Ascii.eqb c ".")) (sign ++ whole) = true).
  { rewrite all_chars_app, (digit_not_dot whole Hw). unfold sign.
    destruct (Qle_bool 0 q); reflexivity. }
  assert (Hassoc : sign ++ whole ++ "." ++ frac = (sign ++ whole) ++ "." ++ frac).
  { unfold sign. destruct (Qle_bool 0 q); [now rewrite !append_nil|reflexivity]. }
  rewrite Hassoc, (partition_dot_app _ frac Hsw).
  destruct (rstrip_zeros frac) as [k Hk].
  set (trimmed := rstrip_chars (Ascii.eqb "0") frac) in *.
  assert (Ht : all_chars Spec.is_digit trimmed = true) by now apply all_chars_rstrip.
  set (frac' := if (String.length trimmed <? min_dp)%nat
                then take min_dp (trimmed ++ repeat_char "0" min_dp) else trimmed).
  assert (Hfrac' : exists j, frac' = trimmed ++ repeat_char "0" j /\ frac' <> "").
  { unfold frac'. destruct (Nat.ltb_spec (String.length trimmed) min_dp) as [Hs|Hl].
    - exists (min_dp - String.length trimmed)%nat.
      split; [apply take_app_zeros; lia|].
      rewrite take_app_zeros by lia. intros Hz. apply (f_equal String.length) in Hz.
      rewrite length_app, length_repeat_char in Hz. cbn in Hz. lia.
    - exists 0%nat. split; [cbn [repeat_char]; now rewrite append_empty_r|].
      intros Hz. rewrite Hz in Hl. cbn in Hl. lia. }
  destruct Hfrac' as (j & Hj & Hnz).
  replace (String.eqb frac' "") with false
    by (symmetry; apply eqb_neq_false; exact Hnz).
  assert (Hf' : all_chars Spec.is_digit frac' = true)
    by (rewrite Hj, all_chars_app, Ht, all_chars_repeat; reflexivity).
  assert (Hfinal : (sign ++ whole) ++ "." ++ frac'
                   = (if negb (Qle_bool 0 q) then "-" else "") ++ whole ++ "." ++ frac').
  { unfold sign. destruct (Qle_bool 0 q); [now rewrite !append_nil|reflexivity]. }
  rewrite Hfinal, (decimal_value_parts _ whole frac' Hwne Hw Hf').
  eexists. split; [reflexivity|]. cbv zeta.
  set (scale := 10 ^ Z.of_nat max_dp) in *.
  assert (Hscale : 0 < scale) by (apply Z.pow_pos_nonneg; lia).
  set (m := Dec.round_half_even (Qabs q * inject_Z scale)) in *.
  assert (HfracQ : (inject_Z (Spec.digits_value frac' 0)
                    / inject_Z (10 ^ Z.of_nat (String.length frac'))
                    == inject_Z (m mod scale) / inject_Z scale)%Q).
  { rewrite Hj, frac_app_zeros, <- (frac_app_zeros trimmed k), <- Hk, Hvf, Hlen. reflexivity. }
  rewrite Hvw.
  assert (Hsum : (inject_Z (m / scale) + inject_Z (m mod scale) / inject_Z scale
                  == inject_Z m / inject_Z scale)%Q).
  { assert (Hs0 : ~ (inject_Z scale == 0)%Q)
      by (change 0%Q with (inject_Z 0); rewrite inject_Z_injective; lia).
    rewrite (Z.div_mod m scale) at 3 by lia. rewrite inject_Z_plus, inject_Z_mult.
    field. exact Hs0. }
  pose proof (round_half_even_error (Qabs q * inject_Z scale)) as Herr. fold m in Herr.
  assert (HsQ : (0 < inject_Z scale)%Q)
    by (change 0%Q with (inject_Z 0); rewrite <- Zlt_Qlt; lia).
  assert (Habs : (Qabs (inject_Z m / inject_Z scale - Qabs q) <= (1 # 2) / inject_Z scale)%Q).
  { assert (Heq : (inject_Z m / inject_Z scale - Qabs q
                   == (inject_Z m - Qabs q * inject_Z scale) / inject_Z scale)%Q)
      by (field; intros Hz; rewrite Hz in HsQ; discriminate HsQ).
    rewrite Heq. unfold Qdiv. rewrite Qabs_Qmult.
    rewrite (Qabs_pos (/ inject_Z scale))
      by (apply Qlt_le_weak, Qinv_lt_0_compat, HsQ).
    apply Qmult_le_compat_r; [exact Herr|apply Qlt_le_weak, Qinv_lt_0_compat, HsQ]. }
  destruct (Qle_bool 0 q) eqn:Es; cbn [negb].
  - apply Qle_bool_iff in Es. rewrite (Qabs_pos q Es) in Habs. now rewrite HfracQ, Hsum.
  - assert (Hneg : (q <= 0)%Q).
    { destruct (Qlt_le_dec 0 q) as [H|H]; [|exact H].
      apply Qlt_le_weak, Qle_bool_iff in H. congruence. }
    rewrite (Qabs_neg q Hneg) in Habs. rewrite HfracQ, Hsum.
    assert (Heq : (- (inject_Z m / inject_Z scale) - q
                   == - (inject_Z m / inject_Z scale - - q))%Q) by ring.
    now rewrite Heq, Qabs_opp.
Qed.

Lemma pow_50_18 : Dec.pow 50 (inject_Z 10) 18 = inject_Z (10 ^ 18).
Proof. vm_compute. reflexivity. Qed.

(** The number that [wei_str_eth] shows is the amount in ether, up to half
    a unit of its eighth decimal and the rounding of the fifty-digit
    division. *)
Lemma wei_str_eth_value (wei : Z) :
  exists v,
    Spec.decimal_value (wei_str_eth wei) = Some v
    /\ (Qabs (v - inject_Z wei / inject_Z (10 ^ 18))
        <= (1 # 2 * 10 ^ 8) + Qabs (inject_Z wei / inject_Z (10 ^ 18)) * (1 # 10 ^ 49))%Q.
Proof.
  destruct (Z.eq_dec wei 0) as [->|Hne].
  { eexists. split; [vm_compute; reflexivity|]. vm_compute. discriminate. }
  unfold wei_str_eth.
  destruct (fmt_amount_value wei 18 5 8 ltac:(lia) ltac:(lia) Hne) as (v & Hv & Hclose).
  exists v. split; [exact Hv|].
  unfold Dec.div_pow10 in Hclose. rewrite pow_50_18 in Hclose.
  set (x := (inject_Z wei / inject_Z (10 ^ 18))%Q) in *.
  pose proof (round_sig_error 50 x) as Herr.
  set (q := Dec.round_sig 50 x) in *.
  assert (Hu : ((1 # 2) * Dec.pow10 (1 - 50) <= 1 # 10 ^ 49)%Q) by (vm_compute; discriminate).
  assert (Hs : ((1 # 2) / inject_Z (10 ^ Z.of_nat 8) == 1 # 2 * 10 ^ 8)%Q) by reflexivity.
  rewrite Hs in Hclose.
  assert (Hx : (0 <= Qabs x)%Q) by apply Qabs_nonneg.
  assert (Herr' : (Qabs (q - x) <= Qabs x * (1 # 10 ^ 49))%Q).
  { eapply Qle_trans; [exact Herr|]. nra. }
  assert (Heq : (v - x == (v - q) + (q - x))%Q) by ring.
  rewrite Heq. eapply Qle_trans; [apply Qabs_triangle|]. now apply Qplus_le_compat.
Qed.

(** C5 (amended).  When the receipt of a transaction that is being decoded
    has the status [0x0], its timestamp resolves, and the receipt's
    [gasUsed] and [effectiveGasPrice] (and the row's [gasPrice], which is
    used when the effective price is zero or missing) are well-formed
    numbers, [decode_one_from_row] returns one row of type "failed" whose
    sent, received and NFT fields are empty and whose gas field shows
    gasUsed times the price, in ether, to within half a unit of the eighth
    decimal and the rounding of the fifty-digit division.  The row does not
    depend on the logs of the receipt, which are not read: no log, however
    malformed, can make the decoding raise. *)
Theorem failed_transaction_row (w : World) (WALLET_ADDRESS : string) (row : RawTx)
    (already_known : gset string) (rcpt : Receipt)
    (ts_unix gas_used eff_price row_price : Z) (ts_iso : string) :
  Spec.hash_of row <> "" ->
  Spec.hash_of row ∉ already_known ->
  w_get_tx_receipt w (Spec.hash_of row) = Ok (Some rcpt) ->
  lower (str_or (rc_status rcpt) "") = "0x0" ->
  resolve_ts_unix w row = Ok ts_unix ->
  (if negb (ts_unix =? 0) then w_strftime w ts_unix else Ok "") = Ok ts_iso ->
  h2i (rc_gasUsed rcpt) = Ok gas_used ->
  h2i (rc_effectiveGasPrice rcpt) = Ok eff_price ->
  (eff_price = 0 -> int10 (str_or (r_gasPrice row) "0") = Ok row_price) ->
  let price := if eff_price =? 0 then row_price else eff_price in
  let cost := (inject_Z (gas_used * price) / inject_Z (10 ^ 18))%Q in
  exists (gas_text : string) (shown : Q),
    decode_one_from_row w WALLET_ADDRESS row already_known
    = Ok (Some {| tx_hash := Spec.hash_of row;
                  tx_timestamp := ts_iso;
                  block_time := ts_unix;
                  type := "failed";
                  from_address := decode_address w (r_from row);
                  to_address := decode_address w (r_to row);
                  amount_sent := "";
                  amount_received := "";
                  total_gas_eth := gas_text;
                  nft_transfere := "";
                  _failed := true |})
    /\ Spec.decimal_value gas_text = Some shown
    /\ (Qabs (shown - cost) <= (1 # 2 * 10 ^ 8) + Qabs cost * (1 # 10 ^ 49))%Q.
Proof.
  intros Hne Hnew Hrc Hst Hts Hiso Hg Hp Hrow price cost.
  destruct (wei_str_eth_value (gas_used * price)) as (shown & Hshown & Hclose).
  exists (wei_str_eth (gas_used * price)), shown.
  split; [|split; [exact Hshown|exact Hclose]].
  unfold decode_one_from_row. fold (Spec.hash_of row).
  rewrite (eqb_neq_false _ _ Hne), (bool_decide_eq_false_2 _ Hnew). cbn [orb].
  rewrite Hrc. cbn [Py.bind]. rewrite Hst, Hts. cbn [Py.bind]. rewrite Hiso, Hg.
  cbn [Py.bind].
  assert (Heff : effective_price row rcpt = Ok price).
  { unfold effective_price, price. rewrite Hp. cbn [Py.bind].
    destruct (Z.eqb_spec eff_price 0) as [Hz|_]; [now apply Hrow|reflexivity]. }
  rewrite Heff. cbn [Py.bind]. change (String.eqb "0x0" "0x0") with true. cbv iota.
  do 3 f_equal.
  destruct (Z.eqb_spec gas_used 0) as [->|Hg0]; [reflexivity|].
  destruct (Z.eqb_spec price 0) as [->|Hp0]; [now rewrite Z.mul_0_r|reflexivity].
Qed.

Lemma failed_transaction_row_witness :
  exists shown : Q,
    decode_one_from_row (Samples.world_with_receipt Samples.failed_receipt_without_price)
      Samples.wallet (Samples.row_of Samples.wallet Samples.other "0") ∅
    = Ok (Some {| tx_hash := Spec.hash_of (Samples.row_of Samples.wallet Samples.other "0");
                  tx_timestamp := "1755631388";
                  block_time := 1755631388;
                  type := "failed";
                  from_address := Samples.wallet;
                  to_address := Samples.other;
                  amount_sent := "";
                  amount_received := "";
                  total_gas_eth := "0.000021";
                  nft_transfere := "";
                  _failed := true |})
    /\ Spec.decimal_value "0.000021" = Some shown
    /\ (Qabs (shown - inject_Z (21000 * 1000000000) / inject_Z (10 ^ 18))
        <= (1 # 2 * 10 ^ 8)
           + Qabs (inject_Z (21000 * 1000000000) / inject_Z (10 ^ 18)) * (1 # 10 ^ 49))%Q.
Proof.
  destruct (failed_transaction_row
              (Samples.world_with_receipt Samples.failed_receipt_without_price)
              Samples.wallet (Samples.row_of Samples.wallet Samples.other "0") ∅
              Samples.failed_receipt_without_price 1755631388 21000 0 1000000000
              "1755631388")
    as (gas_text & shown & Hrun & Hshown & Hclose).
  - vm_compute. discriminate.
  - apply not_elem_of_empty.
  - reflexivity.
  - vm_compute. reflexivity.
  - vm_compute. reflexivity.
  - vm_compute. reflexivity.
  - vm_compute. reflexivity.
  - vm_compute. reflexivity.
  - intros _. vm_compute. reflexivity.
  - assert (Hrun' : decode_one_from_row
                      (Samples.world_with_receipt Samples.failed_receipt_without_price)
                      Samples.wallet (Samples.row_of Samples.wallet Samples.other "0") ∅
                    = Ok (Some {| tx_hash := Spec.hash_of
                                               (Samples.row_of Samples.wallet Samples.other "0");
                                  tx_timestamp := "1755631388";
                                  block_time := 1755631388;
                                  type := "failed";
                                  from_address := Samples.wallet;
                                  to_address := Samples.other;
                                  amount_sent := "";
                                  amount_received := "";
                                  total_gas_eth := "0.000021";
                                  nft_transfere := "";
                                  _failed := true |}))
      by (vm_compute; reflexivity).
    rewrite Hrun' in Hrun. injection Hrun as Htext. rewrite <- Htext in Hshown.
    exists shown. exact (conj Hrun' (conj Hshown Hclose)).
Defined.

(** C5, as the specification words it, fails: a receipt of status [0x0]
    whose [gasUsed] is not a hexadecimal number makes the decoding raise,
    before the status is looked at. *)
Lemma failed_receipt_with_malformed_gas_raises :
  lower (str_or (rc_status Samples.failed_receipt_bad_gas) "") = "0x0"
  /\ decode_one_from_row (Samples.world_with_receipt Samples.failed_receipt_bad_gas)
       Samples.wallet (Samples.row_of Samples.wallet Samples.other "0") ∅
     = Raise ValueError.
Proof. split; vm_compute; reflexivity. Qed.

(** ** The loop of main *)

Lemma decoded_row_hash (w : World) (WALLET_ADDRESS : string) (row : RawTx)
    (already_known : gset string) (r : OutRow) :
  decode_one_from_row w WALLET_ADDRESS row already_known = Ok (Some r) ->
  tx_hash r = Spec.hash_of row /\ (tx_hash r ∉ already_known).
Proof.
  unfold decode_one_from_row. fold (Spec.hash_of row). intros H.
  destruct (String.eqb_spec (Spec.hash_of row) "") as [|Hne]; [discriminate H|].
  destruct (bool_decide_reflect (Spec.hash_of row ∈ already_known)) as [|Hnew];
    [discriminate H|].
  cbn [orb] in H.
  bind_step H as o Hrc. destruct o as [rcpt|]; [|discriminate H].
  bind_step H as ts_unix Hts. bind_step H as ts_iso Hiso.
  bind_step H as gas_used Hg. bind_step H as eff_price Hp.
  destruct (String.eqb _ "0x0").
  - injection H as <-. now split.
  - bind_step H as meta Hmeta. bind_step H as deltas Hd. destruct deltas as [erc20_eth nft_moves].
    bind_step H as ft Hft. bind_step H as nft_field Hnft. injection H as <-. now split.
Qed.

Lemma decode_loop_spec (w : World) (WALLET_ADDRESS : string) (pending : list RawTx) :
  forall (already : gset string) (new_rows : list OutRow) (succ_cnt fail_cnt : Z),
    (forall r, In r new_rows -> tx_hash r ∈ already) ->
    NoDup (map tx_hash new_rows) ->
    exists more,
      let '(already', new_rows', succ', fail') :=
        decode_loop w WALLET_ADDRESS pending already new_rows succ_cnt fail_cnt in
      new_rows' = (new_rows ++ more)%list
      /\ NoDup (map tx_hash new_rows')
      /\ (forall r, In r more ->
            (tx_hash r ∉ already) /\ exists row, In row pending /\ tx_hash r = Spec.hash_of row)
      /\ (forall h, h ∈ already' <-> (h ∈ already) \/ In h (map tx_hash more))
      /\ succ' = succ_cnt + Z.of_nat (length (List.filter (fun r => negb (_failed r)) more))
      /\ fail' = fail_cnt + Z.of_nat (length (List.filter _failed more)).
Proof.
  induction pending as [|row rest IH]; intros already new_rows succ_cnt fail_cnt Hknown Hnd.
  - exists []. cbn. rewrite app_nil_r.
    split; [reflexivity|]. split; [exact Hnd|]. split; [intros ? []|].
    split; [intros h; tauto|]. split; lia.
  - cbn [decode_loop]. fold (Spec.hash_of row).
    assert (Hskip : exists more,
              let '(already', new_rows', succ', fail') :=
                decode_loop w WALLET_ADDRESS rest already new_rows succ_cnt fail_cnt in
              new_rows' = (new_rows ++ more)%list
              /\ NoDup (map tx_hash new_rows')
              /\ (forall r, In r more ->
                    (tx_hash r ∉ already)
                    /\ exists row', In row' (row :: rest) /\ tx_hash r = Spec.hash_of row')
              /\ (forall h, h ∈ already' <-> (h ∈ already) \/ In h (map tx_hash more))
              /\ succ' = succ_cnt
                         + Z.of_nat (length (List.filter (fun r => negb (_failed r)) more))
              /\ fail' = fail_cnt + Z.of_nat (length (List.filter _failed more))).
    { destruct (IH already new_rows succ_cnt fail_cnt Hknown Hnd) as [more Hm].
      exists more.
      destruct (decode_loop w WALLET_ADDRESS rest already new_rows succ_cnt fail_cnt)
        as [[[a' n'] s'] f'].
      destruct Hm as (H1 & H2 & H3 & H4 & H5 & H6).
      split; [exact H1|]. split; [exact H2|]. split; [|split; [exact H4|now split]].
      intros r Hr. destruct (H3 r Hr) as (Ha & row' & Hin & Heq).
      split; [exact Ha|]. exists row'. split; [now right|exact Heq]. }
    destruct (decode_one_from_row w WALLET_ADDRESS row already) as [[decoded|]|e] eqn:Hdec;
      [|exact Hskip|exact Hskip].
    clear Hskip.
    destruct (decoded_row_hash _ _ _ _ _ Hdec) as [Hhash Hnew].
    assert (Hknown' : forall r, In r (new_rows ++ [decoded]) ->
                        tx_hash r ∈ {[Spec.hash_of row]} ∪ already).
    { intros r Hr. apply in_app_or in Hr. destruct Hr as [Hr|[<-|[]]].
      - apply elem_of_union_r. now apply Hknown.
      - apply elem_of_union_l, elem_of_singleton. exact Hhash. }
    assert (Hnd' : NoDup (map tx_hash (new_rows ++ [decoded]))).
    { rewrite map_app. cbn [map]. apply NoDup_app. split; [exact Hnd|]. split.
      - intros h Hin Hh. apply list_elem_of_singleton in Hh. subst h.
        apply list_elem_of_In, in_map_iff in Hin. destruct Hin as (r & Hr & Hin).
        apply Hnew. rewrite <- Hr. now apply Hknown.
      - apply NoDup_singleton. }
    assert (Hstep : forall s f,
              exists more,
                let '(already', new_rows', succ', fail') :=
                  decode_loop w WALLET_ADDRESS rest ({[Spec.hash_of row]} ∪ already)
                    (new_rows ++ [decoded]) s f in
                new_rows' = (new_rows ++ decoded :: more)%list
                /\ NoDup (map tx_hash new_rows')
                /\ (forall r, In r (decoded :: more) ->
                      (tx_hash r ∉ already)
                      /\ exists row', In row' (row :: rest) /\ tx_hash r = Spec.hash_of row')
                /\ (forall h, h ∈ already' <-> (h ∈ already) \/ In h (map tx_hash (decoded :: more)))
                /\ succ' = s + Z.of_nat (length (List.filter (fun r => negb (_failed r)) more))
                /\ fail' = f + Z.of_nat (length (List.filter _failed more))).
    { intros s f. destruct (IH _ _ s f Hknown' Hnd') as [more Hm]. exists more.
      destruct (decode_loop w WALLET_ADDRESS rest _ _ s f) as [[[a' n'] s'] f'].
      destruct Hm as (H1 & H2 & H3 & H4 & H5 & H6).
      split; [now rewrite H1, <- app_assoc|]. split; [exact H2|]. split; [|split; [|now split]].
      - intros r [<-|Hr].
        + split; [exact Hnew|]. exists row. split; [now left|exact Hhash].
        + destruct (H3 r Hr) as (Ha & row' & Hin & Heq). split.
          * intros Hc. apply Ha. now apply elem_of_union_r.
          * exists row'. split; [now right|exact Heq].
      - intros h. rewrite H4, elem_of_union, elem_of_singleton. cbn [map In].
        rewrite Hhash. intuition. }
    destruct (_failed decoded) eqn:Hf.
    + destruct (Hstep succ_cnt (fail_cnt + 1)) as [more Hm]. exists (decoded :: more).
      destruct (decode_loop w WALLET_ADDRESS rest _ _ succ_cnt (fail_cnt + 1))
        as [[[a' n'] s'] f'].
      destruct Hm as (H1 & H2 & H3 & H4 & H5 & H6).
      cbn [List.filter]. rewrite Hf. cbn [negb length].
      split; [exact H1|]. split; [exact H2|]. split; [exact H3|]. split; [exact H4|].
      split; [exact H5|]. lia.
    + destruct (Hstep (succ_cnt + 1) fail_cnt) as [more Hm]. exists (decoded :: more).
      destruct (decode_loop w WALLET_ADDRESS rest _ _ (succ_cnt + 1) fail_cnt)
        as [[[a' n'] s'] f'].
      destruct Hm as (H1 & H2 & H3 & H4 & H5 & H6).
      cbn [List.filter]. rewrite Hf. cbn [negb length].
      split; [exact H1|]. split; [exact H2|]. split; [exact H3|]. split; [exact H4|].
      split; [lia|exact H6].
Qed.

(** X14.  The decoding loop of [main] never gives two rows the same
    hash, nor a row a hash that was already known; every new row stems from
    a pending row; afterwards the known hashes are the former ones and
    those of the new rows; and the two counters count the new rows that are
    not failed and those that are. *)
Theorem no_transaction_is_decoded_twice (w : World) (WALLET_ADDRESS : string)
    (pending : list RawTx) (already : gset string) :
  let '(already', new_rows, succ_cnt, fail_cnt) :=
    decode_loop w WALLET_ADDRESS pending already [] 0 0 in
  NoDup (map tx_hash new_rows)
  /\ (forall r, In r new_rows ->
        (tx_hash r ∉ already) /\ exists row, In row pending /\ tx_hash r = Spec.hash_of row)
  /\ (forall h, h ∈ already' <-> (h ∈ already) \/ In h (map tx_hash new_rows))
  /\ succ_cnt = Z.of_nat (length (List.filter (fun r => negb (_failed r)) new_rows))
  /\ fail_cnt = Z.of_nat (length (List.filter _failed new_rows)).
Proof.
  destruct (decode_loop_spec w WALLET_ADDRESS pending already [] 0 0) as [more Hm].
  - intros r [].
  - constructor.
  - destruct (decode_loop w WALLET_ADDRESS pending already [] 0 0) as [[[a' n'] s'] f'].
    destruct Hm as (H1 & H2 & H3 & H4 & H5 & H6). cbn [app] in H1. subst n'.
    split; [exact H2|]. split; [exact H3|]. split; [exact H4|]. split; lia.
Qed.

(** ** The rows of the ledger *)

Lemma dict_set_fresh {V : Type} (d : list (string * V)) (k : string) (v : V) :
  ~ In k (map fst d) -> dict_set d k v = (d ++ [(k, v)])%list.
Proof.
  induction d as [|[k' v'] d IH]; intros H; [reflexivity|]. cbn [dict_set map fst In] in *.
  destruct (String.eqb_spec k' k) as [->|Hne]; [exfalso; apply H; now left|].
  cbn [app]. f_equal. apply IH. intros Hin. apply H. now right.
Qed.

Lemma dict_set_keys {V : Type} (d : list (string * V)) (k : string) (v : V) :
  In k (map fst d) -> map fst (dict_set d k v) = map fst d.
Proof.
  induction d as [|[k' v'] d IH]; intros H; [destruct H|]. cbn [dict_set map fst In] in *.
  destruct (String.eqb_spec k' k) as [->|Hne]; [reflexivity|].
  cbn [map fst]. f_equal. apply IH. destruct H as [H|H]; [contradiction|exact H].
Qed.

Lemma dict_set_in {V : Type} (d : list (string * V)) (k k' : string) (v v' : V) :
  In (k', v') (dict_set d k v) -> (k' = k /\ v' = v) \/ In (k', v') d.
Proof.
  induction d as [|[k0 v0] d IH]; cbn [dict_set In].
  - intros [H|[]]. injection H as <- <-. now left.
  - destruct (String.eqb_spec k0 k) as [->|Hne]; cbn [In].
    + intros [H|H]; [injection H as <- <-; now left|right; now right].
    + intros [H|H]; [right; now left|]. destruct (IH H) as [H'|H']; [now left|right; now right].
Qed.

Lemma dict_get_map {V W : Type} (f : V -> W) (d : list (string * V)) (k : string) :
  dict_get (map (fun kv => (fst kv, f (snd kv))) d) k = option_map f (dict_get d k).
Proof.
  induction d as [|[k' v'] d IH]; [reflexivity|]. cbn [map dict_get fst snd].
  destruct (String.eqb k' k); [reflexivity|exact IH].
Qed.

Lemma load_existing_spec (rows : list (list (string * string))) :
  forall (existing : list (string * list (string * pyval))) (already : gset string),
    NoDup (map fst existing) ->
    (forall k row, In (k, row) existing -> dict_get row "tx_hash" = Some (VStr k)) ->
    (forall h, h ∈ already <-> In h (map fst existing)) ->
    ~ In "" (map fst existing) ->
    let '(existing', already') := load_existing rows existing already in
    NoDup (map fst existing')
    /\ (forall k row, In (k, row) existing' -> dict_get row "tx_hash" = Some (VStr k))
    /\ (forall h, h ∈ already' <-> In h (map fst existing'))
    /\ ~ In "" (map fst existing').
Proof.
  induction rows as [|row rows IH]; intros existing already Hnd Hrow Hkeys Hne.
  - cbn [load_existing]. split; [|split; [|split]]; assumption.
  - cbn [load_existing].
    destruct (dict_get row "tx_hash") as [[|c s]|] eqn:Hh; try (now apply IH).
    set (txh := String c s) in *.
    match goal with |- context [dict_set existing txh ?r] => set (row' := r) end.
    assert (Hrow' : dict_get row' "tx_hash" = Some (VStr txh)).
    { unfold row'. rewrite dict_get_set_other by discriminate.
      now rewrite dict_get_map, Hh. }
    apply IH.
    + destruct (in_dec string_dec txh (map fst existing)) as [Hin|Hnin].
      * now rewrite dict_set_keys.
      * rewrite dict_set_fresh, map_app by exact Hnin. apply NoDup_app.
        split; [exact Hnd|]. split; [|apply NoDup_singleton].
        intros k Hk Hk'. apply list_elem_of_singleton in Hk'. subst k.
        apply Hnin. now apply list_elem_of_In.
    + intros k r Hin. apply dict_set_in in Hin. destruct Hin as [[-> ->]|Hin];
        [exact Hrow'|now apply Hrow].
    + intros h. rewrite elem_of_union, elem_of_singleton, Hkeys.
      destruct (in_dec string_dec txh (map fst existing)) as [Hin|Hnin].
      * rewrite dict_set_keys by exact Hin. split; [intros [->|H]; assumption|now right].
      * rewrite dict_set_fresh, map_app, in_app_iff by exact Hnin. cbn [map fst In].
        intuition.
    + destruct (in_dec string_dec txh (map fst existing)) as [Hin|Hnin].
      * now rewrite dict_set_keys.
      * rewrite dict_set_fresh, map_app, in_app_iff by exact Hnin. cbn [map fst In].
        intros [H|[H|[]]]; [now apply Hne|discriminate H].
Qed.

Lemma merge_rows_fresh (new_rows : list OutRow) :
  forall existing : list (string * list (string * pyval)),
    NoDup (map tx_hash new_rows) ->
    (forall r, In r new_rows -> ~ In (tx_hash r) (map fst existing)) ->
    merge_rows existing new_rows
    = (existing ++ map (fun r => (tx_hash r, row_dict r)) new_rows)%list.
Proof.
  induction new_rows as [|r new_rows IH]; intros existing Hnd Hfresh.
  - cbn. now rewrite app_nil_r.
  - cbn [merge_rows fold_left map]. fold (merge_rows (dict_set existing (tx_hash r) (row_dict r))
                                            new_rows).
    rewrite dict_set_fresh by (apply Hfresh; now left).
    cbn [map] in Hnd. apply NoDup_cons in Hnd. destruct Hnd as [Hr Hnd].
    rewrite IH.
    + now rewrite <- app_assoc.
    + exact Hnd.
    + intros r' Hin. rewrite map_app, in_app_iff. cbn [map fst In].
      intros [H|[H|[]]]; [revert H; apply Hfresh; now right|].
      apply Hr. rewrite H. apply list_elem_of_In. now apply in_map.
Qed.

(** X15.  When [main] has something to decode, the rows that it then
    normalises, sorts and writes are the rows of the existing decoded file
    (as loaded, keyed by hash) followed by the newly decoded rows; no two
    of them have the same hash, each has a hash that is not empty, and
    every new row stems from a row of the raw file. *)
Theorem main_appends_new_rows (w : World) (WALLET_ADDRESS : string)
    (decoded_file : list (list (string * string))) (raw_file : list RawTx)
    (out_rows : list (list (string * pyval))) :
  main_out_rows w WALLET_ADDRESS decoded_file raw_file = Some out_rows ->
  exists new_rows,
    out_rows = (map snd (fst (load_existing decoded_file [] ∅)) ++ map row_dict new_rows)%list
    /\ NoDup (map (fun r => dict_get r "tx_hash") out_rows)
    /\ (forall r, In r out_rows ->
          exists h, dict_get r "tx_hash" = Some (VStr h) /\ h <> "")
    /\ (forall r, In r new_rows -> exists row, In row raw_file /\ tx_hash r = Spec.hash_of row).
Proof.
  unfold main_out_rows. intros H.
  pose proof (load_existing_spec decoded_file [] ∅) as Hload.
  destruct (load_existing decoded_file [] ∅) as [existing already].
  destruct Hload as (Hnd & Hrow & Hkeys & Hnoempty).
  { constructor. } { intros k row []. }
  { intros h. cbn. split; [intros Hh; now apply not_elem_of_empty in Hh|intros []]. }
  { intros []. }
  set (pending := pending_rows raw_file already) in *.
  pose proof (decode_loop_spec w WALLET_ADDRESS pending already [] 0 0) as Hdec.
  destruct pending as [|p0 prest] eqn:Hpend; [discriminate H|].
  rewrite <- Hpend in *. clear Hpend p0 prest.
  destruct Hdec as [more Hm]; [intros r []|constructor|].
  destruct (decode_loop w WALLET_ADDRESS pending already [] 0 0) as [[[a' new_rows] s'] f'].
  destruct Hm as (H1 & H2 & H3 & _). cbn [app] in H1. subst more.
  injection H as <-. exists new_rows. cbn [fst].
  assert (Hfresh : forall r, In r new_rows -> ~ In (tx_hash r) (map fst existing)).
  { intros r Hr Hin. destruct (H3 r Hr) as [Hna _]. apply Hna, Hkeys, Hin. }
  rewrite (merge_rows_fresh new_rows existing H2 Hfresh), map_app, map_map. cbn [snd].
  assert (Hne : forall r, In r new_rows -> tx_hash r <> "").
  { intros r Hr. destruct (H3 r Hr) as (_ & row & Hin & Heq).
    unfold pending, pending_rows in Hin. apply filter_In in Hin. destruct Hin as [_ Hf].
    fold (Spec.hash_of row) in Hf. apply andb_prop in Hf. destruct Hf as [Hf _].
    rewrite Heq. intros Hz. rewrite Hz in Hf. discriminate Hf. }
  split; [reflexivity|]. split; [|split].
  - rewrite map_app, !map_map. cbn [row_dict dict_get].
    change (String.eqb "tx_hash" "tx_hash") with true. cbv iota.
    assert (Hex : map (fun x => dict_get x.2 "tx_hash") existing
                  = map (fun kv => Some (VStr kv.1)) existing).
    { apply map_ext_in. intros [k row] Hin. cbn [fst snd]. now apply Hrow. }
    rewrite Hex. rewrite <- (map_map fst (fun k => Some (VStr k)) existing).
    rewrite <- (map_map tx_hash (fun k => Some (VStr k)) new_rows), <- map_app.
    apply NoDup_fmap_2; [intros x y Hxy; now injection Hxy|].
    apply NoDup_app. split; [exact Hnd|]. split; [|exact H2].
    intros k Hk Hk'. apply list_elem_of_In in Hk, Hk'. apply in_map_iff in Hk'.
    destruct Hk' as (r & <- & Hr). exact (Hfresh r Hr Hk).
  - intros r Hr. apply in_app_or in Hr. destruct Hr as [Hr|Hr]; apply in_map_iff in Hr.
    + destruct Hr as ([k row] & <- & Hin). exists k. split; [now apply Hrow|].
      intros ->. apply Hnoempty, in_map_iff. now exists ("", row).
    + destruct Hr as (r0 & <- & Hin). exists (tx_hash r0). split; [reflexivity|now apply Hne].
  - intros r Hr. destruct (H3 r Hr) as (_ & row & Hin & Heq). exists row.
    split; [|exact Heq]. unfold pending, pending_rows in Hin. now apply filter_In in Hin.
Qed.

Lemma main_appends_new_rows_witness :
  exists out_rows new_rows,
    main_out_rows (Samples.world_with_receipt Samples.swap_receipt) Samples.wallet
      Samples.decoded_file [Samples.swap_row; Samples.row_without_hash] = Some out_rows
    /\ out_rows = (map snd (fst (load_existing Samples.decoded_file [] ∅))
                   ++ map row_dict new_rows)%list
    /\ NoDup (map (fun r => dict_get r "tx_hash") out_rows)
    /\ (forall r, In r out_rows -> exists h, dict_get r "tx_hash" = Some (VStr h) /\ h <> "")
    /\ (forall r, In r new_rows ->
          exists row, In row [Samples.swap_row; Samples.row_without_hash]
                      /\ tx_hash r = Spec.hash_of row).
Proof.
  eexists. 
  assert (H : main_out_rows (Samples.world_with_receipt Samples.swap_receipt) Samples.wallet
                Samples.decoded_file [Samples.swap_row; Samples.row_without_hash]
              = Some (map snd (fst (load_existing Samples.decoded_file [] ∅))
                      ++ [row_dict
                            {| tx_hash := Spec.hash_of Samples.swap_row;
                               tx_timestamp := "1755631388";
                               block_time := 1755631388;
                               type := "swap";
                               from_address := Samples.wallet;
                               to_address := Samples.other;
                               amount_sent := "-2.00 ETH";
                               amount_received := "+46.78194 UNKNOWN";
                               total_gas_eth := "0.000021";
                               nft_transfere := "";
                               _failed := false |}])%list)
    by (vm_compute; reflexivity).
  destruct (main_appends_new_rows _ _ _ _ _ H) as (new_rows & H1 & H2 & H3 & H4).
  exists new_rows. exact (conj H (conj H1 (conj H2 (conj H3 H4)))).
Defined.

(** ** The order of the logs *)

Lemma add_delta_get (d : list (string * Z)) (k k' : string) (x : Z) :
  dict_get (add_delta d k x) k'
  = if String.eqb k k' then Some (dict_get_default d k 0 + x) else dict_get d k'.
Proof.
  unfold add_delta. destruct (String.eqb_spec k k') as [->|Hne].
  - apply dict_get_set_same.
  - now apply dict_get_set_other.
Qed.

Lemma same_entries_default (d d' : list (string * Z)) (k : string) :
  Spec.same_entries d d' -> dict_get_default d k 0 = dict_get_default d' k 0.
Proof. intros H. unfold dict_get_default. now rewrite (H k). Qed.

Lemma same_entries_mem (d d' : list (string * Z)) (k : string) :
  Spec.same_entries d d' -> dict_mem d k = dict_mem d' k.
Proof. intros H. unfold dict_mem. now rewrite (H k). Qed.

Lemma same_entries_refl (d : list (string * Z)) : Spec.same_entries d d.
Proof. intros k. reflexivity. Qed.

Lemma same_entries_sym (d d' : list (string * Z)) :
  Spec.same_entries d d' -> Spec.same_entries d' d.
Proof. intros H k. symmetry. apply H. Qed.

Lemma same_entries_trans (d1 d2 d3 : list (string * Z)) :
  Spec.same_entries d1 d2 -> Spec.same_entries d2 d3 -> Spec.same_entries d1 d3.
Proof. intros H1 H2 k. now rewrite (H1 k). Qed.

Lemma dict_set_same_entries (d d' : list (string * Z)) (k : string) (v : Z) :
  Spec.same_entries d d' -> Spec.same_entries (dict_set d k v) (dict_set d' k v).
Proof.
  intros H q. destruct (String.eqb_spec k q) as [->|Hne].
  - now rewrite !dict_get_set_same.
  - rewrite !dict_get_set_other by exact Hne. apply H.
Qed.

Lemma add_delta_same_entries (d d' : list (string * Z)) (k : string) (x : Z) :
  Spec.same_entries d d' -> Spec.same_entries (add_delta d k x) (add_delta d' k x).
Proof.
  intros H. unfold add_delta. rewrite (same_entries_default d d' k H).
  now apply dict_set_same_entries.
Qed.

Lemma add_delta_default (d : list (string * Z)) (k k' : string) (x : Z) :
  dict_get_default (add_delta d k x) k' 0
  = if String.eqb k k' then dict_get_default d k 0 + x else dict_get_default d k' 0.
Proof.
  unfold dict_get_default at 1. rewrite add_delta_get.
  now destruct (String.eqb k k').
Qed.

Lemma add_delta_comm (d : list (string * Z)) (k k' : string) (x x' : Z) :
  Spec.same_entries (add_delta (add_delta d k x) k' x') (add_delta (add_delta d k' x') k x).
Proof.
  intros q. rewrite !add_delta_get, !add_delta_default.
  destruct (String.eqb_spec k k') as [->|Hkk'].
  - rewrite String.eqb_refl. destruct (String.eqb k' q); [f_equal; lia|reflexivity].
  - assert (Hk'k : String.eqb k' k = false) by (apply String.eqb_neq; congruence).
    rewrite Hk'k.
    destruct (String.eqb_spec k' q) as [->|Hk'q].
    + apply String.eqb_neq in Hkk'. now rewrite Hkk'.
    + reflexivity.
Qed.

Lemma add_flows_same_entries (flows : list (string * Z)) (d d' : list (string * Z)) :
  Spec.same_entries d d' -> Spec.same_entries (Spec.add_flows d flows) (Spec.add_flows d' flows).
Proof.
  revert d d'. induction flows as [|[k x] flows IH]; intros d d' H; [exact H|].
  cbn [Spec.add_flows fold_left fst snd]. apply IH. now apply add_delta_same_entries.
Qed.

Lemma add_flows_delta (flows : list (string * Z)) (d : list (string * Z)) (k : string) (x : Z) :
  Spec.same_entries (Spec.add_flows (add_delta d k x) flows)
                     (add_delta (Spec.add_flows d flows) k x).
Proof.
  revert d. induction flows as [|[k' x'] flows IH]; intros d; [apply same_entries_refl|].
  cbn [Spec.add_flows fold_left fst snd].
  eapply same_entries_trans; [|apply IH].
  apply add_flows_same_entries, add_delta_comm.
Qed.

Lemma add_flows_comm (f g : list (string * Z)) (d : list (string * Z)) :
  Spec.same_entries (Spec.add_flows (Spec.add_flows d f) g)
                     (Spec.add_flows (Spec.add_flows d g) f).
Proof.
  revert d. induction f as [|[k x] f IH]; intros d; [apply same_entries_refl|].
  cbn [Spec.add_flows fold_left fst snd].
  eapply same_entries_trans; [apply IH|].
  apply add_flows_same_entries, add_flows_delta.
Qed.

Ltac effect_none :=
  right; exists [], [], 0; intros [d m e];
  cbn [acc_erc20_eth acc_nft_moves acc_eth_log_delta Spec.add_flows fold_left];
  rewrite ?app_nil_r, ?Z.add_0_r; reflexivity.

Ltac effect_raise e := left; exists e; intros a; reflexivity.

Ltac effect_moves ms :=
  right; exists [], ms, 0; intros [d m e];
  cbn [acc_erc20_eth acc_nft_moves acc_eth_log_delta Spec.add_flows fold_left];
  rewrite ?Z.add_0_r; f_equal; f_equal.

Lemma log_step_effect (w : World) (wallet : string) (lg : LogEntry) :
  (exists e, forall a, log_step w wallet a lg = Raise e)
  \/ (exists (flows : list (string * Z)) (moves : list NftMove) (de : Z),
        forall a, log_step w wallet a lg
                  = Ok {| acc_erc20_eth := Spec.add_flows (acc_erc20_eth a) flows;
                          acc_nft_moves := (acc_nft_moves a ++ moves)%list;
                          acc_eth_log_delta := acc_eth_log_delta a + de |}).
Proof.
  unfold log_step. destruct (lg_topics lg) as [|t0 rest]; [effect_none|].
  set (t := t0 :: rest). set (addr := lower (str_or (lg_address lg) "")).
  destruct (String.eqb t0 TOPIC_TRANSFER && (3 <=? length t)%nat).
  { destruct (4 <=? length t)%nat.
    - destruct (h2i (Some (topic t 3))) as [token_id|e]; cbn [bind]; [|effect_raise e].
      destruct (nonempty wallet); [|effect_none].
      effect_moves (append_moves wallet (address_from_topic (topic t 1))
                      (address_from_topic (topic t 2)) addr token_id 1 []).
      apply append_moves_app.
    - destruct (is_hex_data (lg_data lg) && negb (String.eqb (str_or (lg_data lg) "") "0x"));
        [|effect_none].
      destruct (int16 (str_or (lg_data lg) "")) as [amt|e]; cbn [bind]; [|effect_raise e].
      destruct (nonempty wallet && (0 <? amt)); [|effect_none].
      right.
      exists ((if String.eqb (address_from_topic (topic t 1)) wallet then [(addr, - amt)] else [])
              ++ (if String.eqb (address_from_topic (topic t 2)) wallet then [(addr, amt)] else []))%list,
             [], 0.
      intros [d m e]. cbn [acc_erc20_eth acc_nft_moves acc_eth_log_delta].
      rewrite app_nil_r, Z.add_0_r. f_equal. f_equal.
      unfold Spec.add_flows.
      destruct (String.eqb (address_from_topic (topic t 1)) wallet),
               (String.eqb (address_from_topic (topic t 2)) wallet);
        cbn [app fold_left fst snd]; unfold add_delta; rewrite ?Z.add_opp_r; reflexivity. }
  destruct (String.eqb t0 TOPIC_TRANSFER_SINGLE && (4 <=? length t)%nat).
  { destruct (128 <=? String.length (drop 2 (str_or (lg_data lg) "0x")))%nat; [|effect_none].
    destruct (int16 (slice 0 64 (drop 2 (str_or (lg_data lg) "0x")))) as [token_id|e];
      cbn [bind]; [|effect_raise e].
    destruct (int16 (slice 64 128 (drop 2 (str_or (lg_data lg) "0x")))) as [qty|e];
      cbn [bind]; [|effect_raise e].
    destruct (nonempty wallet && (0 <? qty)); [|effect_none].
    effect_moves (append_moves wallet (address_from_topic (topic t 2))
                    (address_from_topic (topic t 3)) addr token_id qty []).
    apply append_moves_app. }
  destruct (String.eqb t0 TOPIC_TRANSFER_BATCH && (4 <=? length t)%nat).
  { destruct (is_hex_data (Some (str_or (lg_data lg) "0x"))
              && negb (String.eqb (str_or (lg_data lg) "0x") "0x")); [|effect_none].
    destruct (match bytes_fromhex (drop 2 (str_or (lg_data lg) "0x")) with
              | Some payload =>
                  match w_abi_decode_arrays w payload with
                  | Some r => r
                  | None => ([], [])
                  end
              | None => ([], [])
              end) as [ids values].
    destruct (nonempty wallet && (length ids =? length values)%nat); [|effect_none].
    effect_moves (flat_map (Spec.pair_moves wallet (address_from_topic (topic t 2))
                              (address_from_topic (topic t 3)) addr) (combine ids values)).
    apply batch_loop_flat_map. }
  destruct (String.eqb t0 TOPIC_WETH_WITHDRAWAL && (2 <=? length t)%nat).
  { destruct (h2i (lg_data lg)) as [amt|e]; cbn [bind]; [|effect_raise e].
    destruct (nonempty wallet && String.eqb (address_from_topic (topic t 1)) wallet && (0 <? amt));
      [|effect_none].
    right. exists [], [], amt. intros [d m e].
    cbn [acc_erc20_eth acc_nft_moves acc_eth_log_delta Spec.add_flows fold_left].
    now rewrite app_nil_r. }
  destruct (String.eqb t0 TOPIC_WETH_DEPOSIT && (2 <=? length t)%nat); [|effect_none].
  destruct (h2i (lg_data lg)) as [amt|e]; cbn [bind]; [|effect_raise e].
  destruct (nonempty wallet && String.eqb (address_from_topic (topic t 1)) wallet && (0 <? amt));
    [|effect_none].
  right. exists [], [], (- amt). intros [d m e].
  cbn [acc_erc20_eth acc_nft_moves acc_eth_log_delta Spec.add_flows fold_left].
  now rewrite app_nil_r, Z.add_opp_r.
Qed.

Lemma same_acc_refl (a : Acc) : Spec.same_acc a a.
Proof. split; [apply same_entries_refl|]. split; reflexivity. Qed.

Lemma same_acc_trans (a1 a2 a3 : Acc) :
  Spec.same_acc a1 a2 -> Spec.same_acc a2 a3 -> Spec.same_acc a1 a3.
Proof.
  intros (H1 & H2 & H3) (K1 & K2 & K3). split; [eapply same_entries_trans; eassumption|].
  split; [etransitivity; eassumption|congruence].
Qed.

Lemma same_outcome_trans {A : Type} (R : A -> A -> Prop) (r1 r2 r3 : result A) :
  (forall x y z, R x y -> R y z -> R x z) ->
  Spec.same_outcome R r1 r2 -> Spec.same_outcome R r2 r3 -> Spec.same_outcome R r1 r3.
Proof.
  intros HR. destruct r1, r2, r3; cbn; try tauto. apply HR.
Qed.

Lemma same_outcome_bind {A B : Type} (R : A -> A -> Prop) (S : B -> B -> Prop)
    (r r' : result A) (f f' : A -> result B) :
  Spec.same_outcome R r r' ->
  (forall a a', R a a' -> Spec.same_outcome S (f a) (f' a')) ->
  Spec.same_outcome S (bind r f) (bind r' f').
Proof.
  intros Hr Hf. destruct r, r'; cbn in *; try tauto. now apply Hf.
Qed.

Lemma log_step_same (w : World) (wallet : string) (lg : LogEntry) (a a' : Acc) :
  Spec.same_acc a a' ->
  Spec.same_outcome Spec.same_acc (log_step w wallet a lg) (log_step w wallet a' lg).
Proof.
  intros (H1 & H2 & H3).
  destruct (log_step_effect w wallet lg) as [[e He]|(flows & moves & de & He)];
    rewrite !He; [exact I|].
  cbn [Spec.same_outcome]. split; cbn [acc_erc20_eth acc_nft_moves acc_eth_log_delta].
  - now apply add_flows_same_entries.
  - split; [now apply Permutation_app_tail|congruence].
Qed.

Lemma log_loop_same (w : World) (wallet : string) (logs : list LogEntry) (a a' : Acc) :
  Spec.same_acc a a' ->
  Spec.same_outcome Spec.same_acc (log_loop w wallet a logs) (log_loop w wallet a' logs).
Proof.
  revert a a'. induction logs as [|lg logs IH]; intros a a' H; [exact H|].
  cbn [log_loop]. eapply same_outcome_bind; [now apply log_step_same|exact IH].
Qed.

Lemma log_step_swap (w : World) (wallet : string) (x y : LogEntry) (a a' : Acc) :
  Spec.same_acc a a' ->
  Spec.same_outcome Spec.same_acc
    (let* a1 := log_step w wallet a y in log_step w wallet a1 x)
    (let* a1 := log_step w wallet a' x in log_step w wallet a1 y).
Proof.
  intros (H1 & H2 & H3).
  destruct (log_step_effect w wallet x) as [[ex Hx]|(fx & mx & dx & Hx)],
           (log_step_effect w wallet y) as [[ey Hy]|(fy & my & dy & Hy)];
    rewrite ?Hx, ?Hy; cbn [bind]; rewrite ?Hx, ?Hy; cbn [bind Spec.same_outcome];
    try exact I.
  split; cbn [acc_erc20_eth acc_nft_moves acc_eth_log_delta].
  - eapply same_entries_trans; [apply add_flows_comm|].
    now apply add_flows_same_entries, add_flows_same_entries.
  - split; [|lia].
    rewrite <- !app_assoc. apply Permutation_app; [exact H2|apply Permutation_app_comm].
Qed.

Lemma log_loop_perm (w : World) (wallet : string) (logs logs' : list LogEntry) :
  Permutation logs logs' ->
  forall a a', Spec.same_acc a a' ->
    Spec.same_outcome Spec.same_acc (log_loop w wallet a logs) (log_loop w wallet a' logs').
Proof.
  induction 1 as [|x l l' Hp IH|x y l|l1 l2 l3 Hp1 IH1 Hp2 IH2]; intros a a' Ha.
  - exact Ha.
  - cbn [log_loop]. eapply same_outcome_bind; [now apply log_step_same|exact IH].
  - cbn [log_loop].
    pose proof (log_step_swap w wallet x y a a' Ha) as Hs.
    destruct (log_step w wallet a y) as [a1|e1]; cbn [bind] in *.
    + destruct (log_step w wallet a' x) as [a1'|e1']; cbn [bind] in *.
      * eapply same_outcome_bind; [exact Hs|]. intros b b' Hb. now apply log_loop_same.
      * now destruct (log_step w wallet a1 x).
    + destruct (log_step w wallet a' x) as [a1'|e1']; cbn [bind] in *; [|exact I].
      now destruct (log_step w wallet a1' y).
  - eapply same_outcome_trans; [exact same_acc_trans|apply IH1, same_acc_refl|now apply IH2].
Qed.

Lemma balance_delta_with_logs (w : World) (row : RawTx) (rcpt : Receipt)
    (logs' : list LogEntry) (wallet : string) :
  balance_delta w row (Spec.with_logs rcpt logs') wallet = balance_delta w row rcpt wallet.
Proof. reflexivity. Qed.

Lemma compute_wallet_deltas_perm (w : World) (row : RawTx) (rcpt : Receipt)
    (logs' : list LogEntry) (wallet : string) (meta : list (string * TokenMeta)) :
  Permutation (rc_logs rcpt) logs' ->
  Spec.same_outcome
    (fun p p' => Spec.same_entries (fst p) (fst p') /\ Permutation (snd p) (snd p'))
    (compute_wallet_deltas w row rcpt wallet meta)
    (compute_wallet_deltas w row (Spec.with_logs rcpt logs') wallet meta).
Proof.
  intros Hp. unfold compute_wallet_deltas. rewrite balance_delta_with_logs.
  cbn [Spec.with_logs rc_logs].
  eapply same_outcome_bind; [apply (log_loop_perm _ _ _ _ Hp), same_acc_refl|].
  intros a a' (H1 & H2 & H3). rewrite <- H3.
  set (ed := match r_hash row with Some _ => _ | None => _ end).
  set (d1 := if negb (ed =? 0) then add_delta (acc_erc20_eth a) "eth" ed else acc_erc20_eth a).
  set (d1' := if negb (ed =? 0) then add_delta (acc_erc20_eth a') "eth" ed else acc_erc20_eth a').
  assert (Hd1 : Spec.same_entries d1 d1').
  { subst d1 d1'. destruct (negb (ed =? 0)); [now apply add_delta_same_entries|exact H1]. }
  eapply (same_outcome_bind Spec.same_entries).
  - rewrite <- (same_entries_mem d1 d1' "eth" Hd1).
    destruct (negb (dict_mem d1 "eth")); [|exact Hd1].
    destruct (of_option KeyError (r_hash row)) as [h|e]; cbn [bind]; [|exact I].
    destruct (trace_eth_delta w h (strip (lower wallet))) as [traced|]; [|exact Hd1].
    destruct (negb (traced =? 0)); [|exact Hd1].
    cbn [Spec.same_outcome]. now apply dict_set_same_entries.
  - intros d2 d2' Hd2. cbn [Spec.same_outcome fst snd]. split; [|exact H2].
    rewrite <- (same_entries_mem d2 d2' "eth" Hd2).
    destruct (negb (dict_mem d2 "eth")); [|exact Hd2].
    destruct (balance_delta w row rcpt (strip (lower wallet))) as [eth_delta|]; [|exact Hd2].
    destruct (negb (eth_delta =? 0)); [|exact Hd2].
    now apply dict_set_same_entries.
Qed.

Lemma dict_set_nodup {V : Type} (d : list (string * V)) (k : string) (v : V) :
  NoDup (map fst d) -> NoDup (map fst (dict_set d k v)).
Proof.
  intros Hnd. destruct (in_dec string_dec k (map fst d)) as [Hin|Hnin].
  - now rewrite dict_set_keys.
  - rewrite dict_set_fresh, map_app by exact Hnin. apply NoDup_app.
    split; [exact Hnd|]. split; [|apply NoDup_singleton].
    intros x Hx Hx'. apply list_elem_of_singleton in Hx'. subst x.
    apply Hnin. now apply list_elem_of_In.
Qed.

Lemma add_flows_nodup (flows d : list (string * Z)) :
  NoDup (map fst d) -> NoDup (map fst (Spec.add_flows d flows)).
Proof.
  revert d. induction flows as [|[k x] flows IH]; intros d H; [exact H|].
  cbn [Spec.add_flows fold_left fst snd]. apply IH. unfold add_delta. now apply dict_set_nodup.
Qed.

Lemma log_loop_nodup (w : World) (wallet : string) (logs : list LogEntry) (a a' : Acc) :
  NoDup (map fst (acc_erc20_eth a)) ->
  log_loop w wallet a logs = Ok a' ->
  NoDup (map fst (acc_erc20_eth a')).
Proof.
  revert a. induction logs as [|lg logs IH]; intros a Hnd H; cbn [log_loop] in H.
  - injection H as <-. exact Hnd.
  - destruct (log_step_effect w wallet lg) as [[e He]|(flows & moves & de & He)];
      rewrite He in H; cbn [bind] in H; [discriminate|].
    eapply IH; [|exact H]. cbn [acc_erc20_eth]. now apply add_flows_nodup.
Qed.

Lemma compute_wallet_deltas_nodup (w : World) (row : RawTx) (rcpt : Receipt) (wallet : string)
    (meta : list (string * TokenMeta)) (d : list (string * Z)) (moves : list NftMove) :
  compute_wallet_deltas w row rcpt wallet meta = Ok (d, moves) ->
  NoDup (map fst d).
Proof.
  unfold compute_wallet_deltas.
  destruct (log_loop _ _ _ _) as [a|e] eqn:Hl; cbn [bind]; [|discriminate].
  apply log_loop_nodup in Hl; [|apply NoDup_nil_2].
  set (ed := match r_hash row with Some _ => _ | None => _ end).
  set (d1 := if negb (ed =? 0) then add_delta (acc_erc20_eth a) "eth" ed else acc_erc20_eth a).
  assert (Hd1 : NoDup (map fst d1)).
  { subst d1. destruct (negb (ed =? 0)); [now apply dict_set_nodup|exact Hl]. }
  destruct (if negb (dict_mem d1 "eth") then _ else _) as [d2|e] eqn:E2; cbn [bind];
    [|discriminate].
  assert (Hd2 : NoDup (map fst d2)).
  { destruct (negb (dict_mem d1 "eth")); [|injection E2 as <-; exact Hd1].
    destruct (of_option KeyError (r_hash row)) as [h|]; cbn [bind] in E2; [|discriminate].
    destruct (trace_eth_delta w h _) as [traced|]; [|injection E2 as <-; exact Hd1].
    destruct (negb (traced =? 0)); injection E2 as <-; [now apply dict_set_nodup|exact Hd1]. }
  intros H. injection H as <- _.
  destruct (negb (dict_mem d2 "eth")); [|exact Hd2].
  destruct (balance_delta _ _ _ _) as [eth_delta|]; [|exact Hd2].
  destruct (negb (eth_delta =? 0)); [now apply dict_set_nodup|exact Hd2].
Qed.

Lemma dict_get_in {V : Type} (d : list (string * V)) (k : string) (v : V) :
  dict_get d k = Some v -> In (k, v) d.
Proof.
  induction d as [|[k' v'] d IH]; cbn [dict_get In]; [discriminate|].
  destruct (String.eqb_spec k' k) as [->|Hne].
  - intros H. injection H as <-. now left.
  - intros H. right. now apply IH.
Qed.

Lemma in_dict_get {V : Type} (d : list (string * V)) (k : string) (v : V) :
  NoDup (map fst d) -> In (k, v) d -> dict_get d k = Some v.
Proof.
  induction d as [|[k' v'] d IH]; cbn [dict_get In map fst]; [tauto|].
  intros Hnd [H|H].
  - injection H as -> ->. now rewrite String.eqb_refl.
  - apply NoDup_cons in Hnd. destruct Hnd as [Hk' Hnd].
    destruct (String.eqb_spec k' k) as [->|Hne]; [|now apply IH].
    exfalso. apply Hk'. apply list_elem_of_In. apply (in_map fst) in H. exact H.
Qed.

Lemma same_entries_perm (d d' : list (string * Z)) :
  NoDup (map fst d) -> NoDup (map fst d') -> Spec.same_entries d d' -> Permutation d d'.
Proof.
  intros Hnd Hnd' H.
  apply NoDup_Permutation.
  - now apply (NoDup_fmap_1 fst).
  - now apply (NoDup_fmap_1 fst).
  - intros [k v]. rewrite !list_elem_of_In. split; intros Hin.
    + apply dict_get_in. rewrite <- (H k). now apply in_dict_get.
    + apply dict_get_in. rewrite (H k). now apply in_dict_get.
Qed.

Lemma filter_length_perm {A : Type} (f : A -> bool) (l l' : list A) :
  Permutation l l' -> length (List.filter f l) = length (List.filter f l').
Proof.
  induction 1 as [|x l l' Hp IH|x y l|l1 l2 l3 Hp1 IH1 Hp2 IH2]; cbn [List.filter].
  - reflexivity.
  - destruct (f x); cbn [length]; congruence.
  - destruct (f x), (f y); reflexivity.
  - congruence.
Qed.

Lemma classify_from_balances_perm (d d' : list (string * Z)) :
  Permutation d d' -> classify_from_balances d = classify_from_balances d'.
Proof.
  intros Hp. unfold classify_from_balances.
  now rewrite !(filter_length_perm _ d d' Hp).
Qed.

Lemma action_type_of_perm (logs logs' : list LogEntry) (d d' : list (string * Z)) :
  Permutation logs logs' -> Permutation d d' ->
  action_type_of logs d = action_type_of logs' d'.
Proof.
  intros Hl Hd. unfold action_type_of, classify_from_topics.
  rewrite !(any_in_perm logs logs' _ Hl), (classify_from_balances_perm d d' Hd). reflexivity.
Qed.

Lemma ft_loop_returns (w : World) (meta : list (string * TokenMeta)) (items : list (string * Z))
    (sent recv : list string) :
  returns (ft_loop w meta items sent recv)
  <-> List.Forall (fun kv => snd kv = 0 \/ fst kv = "eth" \/ returns (to_checksum_address w (fst kv)))
        items.
Proof.
  revert sent recv. induction items as [|[key delta] items IH]; intros sent recv.
  - split; [constructor|intros _; now eexists].
  - cbn [ft_loop]. rewrite List.Forall_cons_iff. cbn [fst snd].
    destruct (Z.eqb_spec delta 0) as [->|Hd].
    { rewrite IH. split; [intros H; split; [now left|exact H]|now intros [_ H]]. }
    destruct (String.eqb_spec key "eth") as [->|Hk].
    { cbn [bind]. destruct (delta <? 0); rewrite IH;
        (split; [intros H; split; [right; now left|exact H]|now intros [_ H]]). }
    destruct (to_checksum_address w key) as [c|e]; cbn [bind].
    + destruct (delta <? 0); rewrite IH;
        (split; [intros H; split; [right; right; now eexists|exact H]|now intros [_ H]]).
    + split; [intros [x Hx]; discriminate|].
      intros [[H|[H|[x Hx]]] _]; [contradiction|contradiction|discriminate].
Qed.

Lemma nft_loop_returns (w : World) (meta : list (string * TokenMeta)) (moves : list NftMove)
    (parts : list string) :
  returns (nft_loop w meta moves parts)
  <-> List.Forall (fun m => returns (to_checksum_address w (fst (fst m)))) moves.
Proof.
  revert parts. induction moves as [|[[contract token_id] qty] moves IH]; intros parts.
  - split; [constructor|intros _; now eexists].
  - cbn [nft_loop]. rewrite List.Forall_cons_iff. cbn [fst].
    destruct (to_checksum_address w contract) as [c|e]; cbn [bind].
    + rewrite IH. split; [intros H; split; [now eexists|exact H]|now intros [_ H]].
    + split; [intros [x Hx]; discriminate|intros [[x Hx] _]; discriminate].
Qed.

Lemma forall_perm {A : Type} (P : A -> Prop) (l l' : list A) :
  Permutation l l' -> List.Forall P l -> List.Forall P l'.
Proof.
  intros Hp H. apply List.Forall_forall. intros x Hx.
  apply (proj1 (List.Forall_forall P l) H). apply (Permutation_in x (Permutation_sym Hp) Hx).
Qed.

Lemma build_ft_strings_perm (w : World) (meta : list (string * TokenMeta))
    (d d' : list (string * Z)) :
  Permutation d d' ->
  Spec.same_outcome (fun _ _ => True) (build_ft_strings w d meta) (build_ft_strings w d' meta).
Proof.
  intros Hp. unfold build_ft_strings.
  pose proof (ft_loop_returns w meta d [] []) as H1.
  pose proof (ft_loop_returns w meta d' [] []) as H2.
  destruct (ft_loop w meta d [] []) as [r|e], (ft_loop w meta d' [] []) as [r'|e'];
    cbn [bind Spec.same_outcome]; try exact I.
  - assert (H : returns (@Ok (list string * list string) r)) by now eexists.
    apply H1 in H. apply (forall_perm _ _ _ Hp), H2 in H. destruct H; discriminate.
  - assert (H : returns (@Ok (list string * list string) r')) by now eexists.
    apply H2 in H. apply (forall_perm _ _ _ (Permutation_sym Hp)), H1 in H.
    destruct H; discriminate.
Qed.

Lemma build_nft_field_perm (w : World) (meta : list (string * TokenMeta))
    (m m' : list NftMove) :
  Permutation m m' ->
  Spec.same_outcome (fun _ _ => True) (build_nft_field w m meta) (build_nft_field w m' meta).
Proof.
  intros Hp. unfold build_nft_field.
  pose proof (nft_loop_returns w meta m []) as H1.
  pose proof (nft_loop_returns w meta m' []) as H2.
  destruct (nft_loop w meta m []) as [r|e], (nft_loop w meta m' []) as [r'|e'];
    cbn [bind Spec.same_outcome]; try exact I.
  - assert (H : returns (@Ok (list string) r)) by now eexists.
    apply H1 in H. apply (forall_perm _ _ _ Hp), H2 in H. destruct H; discriminate.
  - assert (H : returns (@Ok (list string) r')) by now eexists.
    apply H2 in H. apply (forall_perm _ _ _ (Permutation_sym Hp)), H1 in H.
    destruct H; discriminate.
Qed.

Lemma log_loop_world (w : World) (r : Receipt) (wallet : string) (logs : list LogEntry) (a : Acc) :
  log_loop (Spec.with_receipt w r) wallet a logs = log_loop w wallet a logs.
Proof.
  revert a. induction logs as [|lg logs IH]; intros a; [reflexivity|].
  cbn [log_loop]. change (log_step (Spec.with_receipt w r) wallet a lg) with (log_step w wallet a lg).
  destruct (log_step w wallet a lg); cbn [bind]; [apply IH|reflexivity].
Qed.

Lemma trace_first_world (w : World) (r : Receipt) (urls : list string) (txhash wl : string) :
  trace_first (Spec.with_receipt w r) urls txhash wl = trace_first w urls txhash wl.
Proof.
  induction urls as [|url urls IH]; [reflexivity|]. cbn [trace_first].
  change (w_trace_transaction (Spec.with_receipt w r) url txhash)
    with (w_trace_transaction w url txhash).
  destruct (w_trace_transaction w url txhash); [reflexivity|exact IH].
Qed.

Lemma compute_wallet_deltas_world (w : World) (r : Receipt) (row : RawTx) (rcpt : Receipt)
    (wallet : string) (meta : list (string * TokenMeta)) :
  compute_wallet_deltas (Spec.with_receipt w r) row rcpt wallet meta
  = compute_wallet_deltas w row rcpt wallet meta.
Proof.
  unfold compute_wallet_deltas, trace_eth_delta. rewrite log_loop_world.
  change (balance_delta (Spec.with_receipt w r) row rcpt (strip (lower wallet)))
    with (balance_delta w row rcpt (strip (lower wallet))).
  change (w_txlistinternal (Spec.with_receipt w r)) with (w_txlistinternal w).
  destruct (log_loop w _ _ _) as [a|e]; cbn [bind]; [|reflexivity].
  destruct (negb (dict_mem _ "eth")); [|reflexivity].
  destruct (of_option KeyError (r_hash row)) as [h|e]; cbn [bind]; [|reflexivity].
  now rewrite trace_first_world.
Qed.

Lemma ft_loop_world (w : World) (r : Receipt) (meta : list (string * TokenMeta))
    (items : list (string * Z)) (sent recv : list string) :
  ft_loop (Spec.with_receipt w r) meta items sent recv = ft_loop w meta items sent recv.
Proof.
  revert sent recv. induction items as [|[key delta] items IH]; intros sent recv; [reflexivity|].
  cbn [ft_loop]. destruct (delta =? 0); [apply IH|].
  destruct (String.eqb key "eth"); cbn [bind].
  - destruct (delta <? 0); apply IH.
  - change (to_checksum_address (Spec.with_receipt w r) key) with (to_checksum_address w key).
    destruct (to_checksum_address w key) as [c|e]; cbn [bind]; [|reflexivity].
    change (erc20_symbol (Spec.with_receipt w r) c meta) with (erc20_symbol w c meta).
    change (erc20_decimals (Spec.with_receipt w r) c meta) with (erc20_decimals w c meta).
    destruct (delta <? 0); apply IH.
Qed.

Lemma nft_loop_world (w : World) (r : Receipt) (meta : list (string * TokenMeta))
    (moves : list NftMove) (parts : list string) :
  nft_loop (Spec.with_receipt w r) meta moves parts = nft_loop w meta moves parts.
Proof.
  revert parts. induction moves as [|[[contract token_id] qty] moves IH]; intros parts;
    [reflexivity|].
  cbn [nft_loop].
  change (to_checksum_address (Spec.with_receipt w r) contract)
    with (to_checksum_address w contract).
  destruct (to_checksum_address w contract) as [c|e]; cbn [bind]; [|reflexivity].
  change (erc20_symbol (Spec.with_receipt w r) c meta) with (erc20_symbol w c meta).
  change (w_token_name (Spec.with_receipt w r)) with (w_token_name w).
  apply IH.
Qed.

(** X8.  The type of a transaction does not depend on the order of the
    logs of its receipt: when the node answers with a receipt whose logs
    are the same in another order, [decode_one_from_row], which computes
    the deltas from those logs, skips the transaction in both cases, raises
    in both, or returns a row in both, and the two rows have the same type. *)
Theorem type_ignores_log_order (w : World) (WALLET_ADDRESS : string) (row : RawTx)
    (already_known : gset string) (rcpt : Receipt) (logs' : list LogEntry) :
  Permutation (rc_logs rcpt) logs' ->
  Spec.same_outcome Spec.same_type
    (decode_one_from_row (Spec.with_receipt w rcpt) WALLET_ADDRESS row already_known)
    (decode_one_from_row (Spec.with_receipt w (Spec.with_logs rcpt logs'))
       WALLET_ADDRESS row already_known).
Proof.
  intros Hp. unfold decode_one_from_row.
  destruct (_ || _); [exact I|].
  cbn [Spec.with_receipt w_get_tx_receipt bind Spec.with_logs rc_status rc_logs rc_gasUsed].
  change (resolve_ts_unix (Spec.with_receipt w rcpt) row) with (resolve_ts_unix w row).
  change (resolve_ts_unix (Spec.with_receipt w (Spec.with_logs rcpt logs')) row)
    with (resolve_ts_unix w row).
  destruct (resolve_ts_unix w row) as [ts_unix|e]; cbn [bind]; [|exact I].
  change (w_strftime (Spec.with_receipt w rcpt)) with (w_strftime w).
  change (w_strftime (Spec.with_receipt w (Spec.with_logs rcpt logs'))) with (w_strftime w).
  destruct (if negb (ts_unix =? 0) then w_strftime w ts_unix else Ok "") as [ts_iso|e];
    cbn [bind]; [|exact I].
  destruct (h2i (rc_gasUsed rcpt)) as [gas_used|e]; cbn [bind]; [|exact I].
  change (effective_price row (Spec.with_logs rcpt logs')) with (effective_price row rcpt).
  destruct (effective_price row rcpt) as [eff_price|e]; cbn [bind]; [|exact I].
  destruct (String.eqb (lower (str_or (rc_status rcpt) "")) "0x0"); [reflexivity|].
  change (w_fetch_tokentx_metadata (Spec.with_receipt w rcpt))
    with (w_fetch_tokentx_metadata w).
  change (w_fetch_tokentx_metadata (Spec.with_receipt w (Spec.with_logs rcpt logs')))
    with (w_fetch_tokentx_metadata w).
  destruct (w_fetch_tokentx_metadata w _) as [meta|e]; cbn [bind]; [|exact I].
  rewrite !compute_wallet_deltas_world.
  pose proof (compute_wallet_deltas_perm w row rcpt logs' WALLET_ADDRESS meta Hp) as Hd.
  pose proof (compute_wallet_deltas_nodup w row rcpt WALLET_ADDRESS meta) as Hn.
  pose proof (compute_wallet_deltas_nodup w row (Spec.with_logs rcpt logs') WALLET_ADDRESS meta)
    as Hn'.
  destruct (compute_wallet_deltas w row rcpt WALLET_ADDRESS meta) as [[d m]|e],
           (compute_wallet_deltas w row (Spec.with_logs rcpt logs') WALLET_ADDRESS meta)
             as [[d' m']|e'];
    cbn [Spec.same_outcome fst snd] in Hd; cbn [bind]; try exact I; try contradiction.
  destruct Hd as [Hd Hm].
  assert (Hpd : Permutation d d')
    by (apply same_entries_perm; [now apply (Hn d m)|now apply (Hn' d' m')|exact Hd]).
  unfold build_ft_strings, build_nft_field. rewrite !ft_loop_world, !nft_loop_world.
  pose proof (build_ft_strings_perm w meta d d' Hpd) as Hf.
  pose proof (build_nft_field_perm w meta m m' Hm) as Hnf.
  unfold build_ft_strings, build_nft_field in Hf, Hnf.
  destruct (ft_loop w meta d [] []) as [f|e], (ft_loop w meta d' [] []) as [f'|e'];
    cbn [bind Spec.same_outcome] in *; try exact I; try contradiction.
  destruct (nft_loop w meta m []) as [n|e], (nft_loop w meta m' []) as [n'|e'];
    cbn [bind Spec.same_outcome] in *; try exact I; try contradiction.
  cbn [Spec.same_type type]. now apply action_type_of_perm.
Qed.

Lemma type_ignores_log_order_witness :
  Permutation (rc_logs Samples.swap_receipt) (rev (rc_logs Samples.swap_receipt))
  /\ Spec.same_outcome Spec.same_type
       (decode_one_from_row (Spec.with_receipt Samples.quiet_world Samples.swap_receipt)
          Samples.wallet Samples.swap_row ∅)
       (decode_one_from_row
          (Spec.with_receipt Samples.quiet_world
             (Spec.with_logs Samples.swap_receipt (rev (rc_logs Samples.swap_receipt))))
          Samples.wallet Samples.swap_row ∅)
  /\ (let* r := decode_one_from_row
                   (Spec.with_receipt Samples.quiet_world Samples.swap_receipt)
                   Samples.wallet Samples.swap_row ∅ in
      Ok (option_map type r)) = Ok (Some "swap").
Proof.
  split; [apply Permutation_rev|]. split; [|vm_compute; reflexivity].
  apply (type_ignores_log_order Samples.quiet_world Samples.wallet Samples.swap_row ∅
           Samples.swap_receipt (rev (rc_logs Samples.swap_receipt))).
  apply Permutation_rev.
Defined.

(* ===================================================================== *)
(** * Further properties of the price runner                              *)
(* ===================================================================== *)

(** ** Cost and range of a resolution *)

Lemma get_block_calls (w3 : Web3) (n : Z) (bf : BlockFinder) :
  Spec.same_memo bf (snd (_get_block w3 n bf))
  /\ rpc_calls bf <= rpc_calls (snd (_get_block w3 n bf)) <= rpc_calls bf + 1.
Proof.
  unfold _get_block. destruct (get_block_timestamp w3 n); cbn [snd rpc_calls];
    (split; [now repeat split|lia]).
Qed.

Lemma get_block_ok (w3 : Web3) (n t : Z) (bf bf' : BlockFinder) :
  _get_block w3 n bf = (Ok t, bf') -> get_block_timestamp w3 n = Ok t.
Proof.
  unfold _get_block. destruct (get_block_timestamp w3 n); intros H; now inversion H.
Qed.

Lemma scan_loop_calls (w3 : Web3) (target : Z) (n : nat) :
  forall (cur ts : Z) (bf : BlockFinder),
    Spec.same_memo bf (snd (scan_loop n w3 target cur ts bf))
    /\ rpc_calls bf <= rpc_calls (snd (scan_loop n w3 target cur ts bf))
       <= rpc_calls bf + Z.of_nat n.
Proof.
  induction n as [|n IH]; intros cur ts bf.
  - cbn. split; [apply same_memo_refl|lia].
  - cbn [scan_loop]. destruct (_ && _); [|cbn; split; [apply same_memo_refl|lia]].
    unfold bindM. pose proof (get_block_calls w3 (cur + 1) bf) as [Hm Hc].
    destruct (_get_block w3 (cur + 1) bf) as [[ts'|e] bf1]; cbn [snd] in *.
    + destruct (IH (cur + 1) ts' bf1) as [Hm' Hc']. split; [|lia].
      eapply same_memo_trans; eassumption.
    + split; [exact Hm|lia].
Qed.

Lemma scan_loop_range (w3 : Web3) (target : Z) (n : nat) :
  forall (cur ts cur' ts' : Z) (bf bf' : BlockFinder),
    scan_loop n w3 target cur ts bf = (Ok (cur', ts'), bf') ->
    cur <= cur' /\ (cur' = cur \/ cur' <= block_number w3).
Proof.
  induction n as [|n IH]; intros cur ts cur' ts' bf bf' H.
  - cbn in H. inversion H. lia.
  - cbn [scan_loop] in H. destruct (ts <=? target); cbn [andb] in H;
      [|cbn in H; inversion H; lia].
    destruct (Z.ltb_spec cur (block_number w3)) as [Hlt|Hge]; [|cbn in H; inversion H; lia].
    unfold bindM in H. destruct (_get_block w3 (cur + 1) bf) as [[ts1|e] bf1]; [|discriminate H].
    apply IH in H. lia.
Qed.

Lemma bs_loop_calls (w3 : Web3) (target latest : Z) (fuel : nat) :
  forall (low high : Z) (bf : BlockFinder),
    Spec.same_memo bf (snd (bs_loop fuel w3 target latest low high bf))
    /\ rpc_calls bf <= rpc_calls (snd (bs_loop fuel w3 target latest low high bf))
       <= rpc_calls bf
          + 2 * (if high - low + 1 <=? 0 then 0 else Z.log2 (high - low + 1) + 1).
Proof.
  assert (Hstep : forall w w', 1 <= w -> w' <= w / 2 ->
            (if w' <=? 0 then 0 else Z.log2 w' + 1) + 1 <= Z.log2 w + 1).
  { intros w w' Hw Hw'. pose proof (Z.log2_nonneg w).
    destruct (Z.leb_spec w' 0) as [H0|H0]; [lia|].
    assert (H2 : 2 * w' <= w).
    { pose proof (Z.mul_div_le w 2 ltac:(lia)). lia. }
    pose proof (Z.log2_le_mono _ _ H2) as Hl. rewrite Z.log2_double in Hl by lia. lia. }
  induction fuel as [|fuel IH]; intros low high bf.
  - cbn [bs_loop]. destruct (low <=? high); cbn [raise ret snd];
      (split; [apply same_memo_refl|]); destruct (_ <=? 0); pose proof (Z.log2_nonneg (high - low + 1)); lia.
  - cbn [bs_loop]. destruct (Z.leb_spec low high) as [Hle|Hgt].
    + replace (high - low + 1 <=? 0) with false by (symmetry; apply Z.leb_gt; lia).
      set (mid := (low + high) / 2).
      assert (Hmid : low <= mid <= high).
      { unfold mid. split; [apply Z.div_le_lower_bound; lia|apply Z.div_le_upper_bound; lia]. }
      assert (Hleft : mid - 1 - low + 1 <= (high - low + 1) / 2).
      { unfold mid. apply Z.div_le_lower_bound; [lia|].
        pose proof (Z.mul_div_le (low + high) 2 ltac:(lia)).
        pose proof (Z.mod_pos_bound (low + high) 2 ltac:(lia)).
        pose proof (Z.div_mod (low + high) 2 ltac:(lia)). lia. }
      assert (Hright : high - (mid + 1) + 1 <= (high - low + 1) / 2).
      { unfold mid. apply Z.div_le_lower_bound; [lia|].
        pose proof (Z.mod_pos_bound (low + high) 2 ltac:(lia)).
        pose proof (Z.div_mod (low + high) 2 ltac:(lia)). lia. }
      pose proof (Hstep (high - low + 1) _ ltac:(lia) Hleft) as HL.
      pose proof (Hstep (high - low + 1) _ ltac:(lia) Hright) as HR.
      pose proof (Z.log2_nonneg (high - low + 1)) as Hnn.
      unfold bindM. pose proof (get_block_calls w3 mid bf) as [Hm1 Hc1].
      destruct (_get_block w3 mid bf) as [[ts|e] bf1]; cbn [snd] in *; [|split; [exact Hm1|lia]].
      destruct (target <? ts).
      * destruct (IH low (mid - 1) bf1) as [Hm Hc]. split; [|lia].
        eapply same_memo_trans; eassumption.
      * pose proof (get_block_calls w3 (Z.min (mid + 1) latest) bf1) as [Hm2 Hc2].
        destruct (_get_block w3 (Z.min (mid + 1) latest) bf1) as [[nts|e] bf2]; cbn [snd] in *;
          [|split; [eapply same_memo_trans; eassumption|lia]].
        destruct (target <? nts).
        -- cbn [ret snd]. split; [eapply same_memo_trans; eassumption|lia].
        -- destruct (IH (mid + 1) high bf2) as [Hm Hc]. split; [|lia].
           eapply same_memo_trans; [|exact Hm]. eapply same_memo_trans; eassumption.
    + cbn [ret snd]. split; [apply same_memo_refl|].
      replace (high - low + 1 <=? 0) with true by (symmetry; apply Z.leb_le; lia). lia.
Qed.

Lemma bs_loop_range (w3 : Web3) (target latest : Z) (fuel : nat) :
  forall (low high n : Z) (bf bf' : BlockFinder),
    1 <= low -> high <= latest -> 1 <= latest ->
    bs_loop fuel w3 target latest low high bf = (Ok n, bf') ->
    1 <= n <= latest.
Proof.
  induction fuel as [|fuel IH]; intros low high n bf bf' Hlow Hhigh Hlat H.
  - cbn [bs_loop] in H. destruct (low <=? high); [discriminate H|]. inversion H. lia.
  - cbn [bs_loop] in H. destruct (Z.leb_spec low high) as [Hle|Hgt]; [|inversion H; lia].
    set (mid := (low + high) / 2) in *.
    assert (Hmid : low <= mid <= high).
    { unfold mid. split; [apply Z.div_le_lower_bound; lia|apply Z.div_le_upper_bound; lia]. }
    unfold bindM in H.
    destruct (_get_block w3 mid bf) as [[ts|e] bf1]; [|discriminate H].
    destruct (target <? ts); [apply IH in H; lia|].
    destruct (_get_block w3 (Z.min (mid + 1) latest) bf1) as [[nts|e] bf2]; [|discriminate H].
    destruct (target <? nts); [inversion H; lia|apply IH in H; lia].
Qed.

Lemma ensure_latest_calls (w3 : Web3) (bf bf' : BlockFinder) (r : result (Z * Z)) :
  _ensure_latest w3 bf = (r, bf') ->
  Spec.same_cache bf bf'
  /\ rpc_calls bf <= rpc_calls bf' <= rpc_calls bf + 1
  /\ (Spec.head_memo_ok w3 bf ->
      Spec.head_memo_ok w3 bf' \/ exists e, r = Raise e)
  /\ (Spec.head_memo_ok w3 bf -> forall n t, r = Ok (n, t) -> n = block_number w3).
Proof.
  unfold _ensure_latest. destruct (_latest_num bf) as [n0|] eqn:Hn.
  - destruct (_latest_ts bf) as [t0|] eqn:Ht; intros H; inversion H; subst;
      (split; [reflexivity|]; split; [lia|]; split; [intros Hm; now left|]);
      intros Hmemo n t Hr; [|discriminate Hr].
    inversion Hr; subst. destruct Hmemo as [Hnone|(Hnum & _)]; congruence.
  - unfold bindM at 1. cbn [set_latest_num]. unfold bindM at 1.
    match goal with |- context [_get_block ?w ?n ?b] =>
      pose proof (get_block_calls w n b) as [Hm Hc];
      destruct (_get_block w n b) as [[ts|e] bf1] eqn:Hg
    end; cbn [snd fst rpc_calls] in *.
    + unfold bindM, set_latest_ts, ret. intros H. inversion H; subst. clear H.
      cbn [rpc_calls]. destruct Hm as (Hcache & Hnum & _). cbn in Hcache, Hnum.
      split; [exact Hcache|]. split; [lia|]. split.
      * intros _. left. right. cbn [_latest_num _latest_ts]. split; [exact Hnum|].
        exists ts. split; [|reflexivity]. eapply get_block_ok, Hg.
      * intros _ n t Hr. now inversion Hr.
    + intros H. inversion H; subst. destruct Hm as (Hcache & _). cbn in Hcache.
      split; [exact Hcache|]. split; [lia|]. split; [intros _; right; now exists e|].
      intros _ n t Hr. discriminate Hr.
Qed.

Lemma binary_search_calls (w3 : Web3) (target : Z) (bf bf' : BlockFinder) (r : result Z) :
  _binary_search w3 target bf = (r, bf') ->
  Spec.head_memo_ok w3 bf ->
  Spec.same_cache bf bf'
  /\ rpc_calls bf <= rpc_calls bf' <= rpc_calls bf + 1 + 2 * (Z.log2 (block_number w3) + 1)
  /\ (forall n, r = Ok n -> 1 <= block_number w3 -> 1 <= n <= block_number w3).
Proof.
  unfold _binary_search, bindM. intros H Hmemo.
  destruct (_ensure_latest w3 bf) as [[[latest_num latest_ts]|e] bf1] eqn:He.
  - destruct (ensure_latest_calls _ _ _ _ He) as (Hc & Hn & _ & Hhead).
    specialize (Hhead Hmemo _ _ eq_refl). subst latest_num.
    pose proof (Z.log2_nonneg (block_number w3)) as Hnn.
    destruct (latest_ts <=? target).
    + inversion H; subst. split; [exact Hc|]. split; [lia|]. intros n Hr Hb.
      inversion Hr. lia.
    + pose proof (bs_loop_calls w3 target (block_number w3) (Z.to_nat (block_number w3))
                    1 (block_number w3) bf1) as [Hm Hcalls].
      rewrite H in Hm, Hcalls. cbn [snd] in Hm, Hcalls.
      replace (block_number w3 - 1 + 1) with (block_number w3) in Hcalls by lia.
      split; [|split].
      * unfold Spec.same_cache in *. destruct Hm as (Hm & _). congruence.
      * destruct (block_number w3 <=? 0); lia.
      * intros n -> Hb. eapply bs_loop_range; [| | |exact H]; lia.
  - inversion H; subst. destruct (ensure_latest_calls _ _ _ _ He) as (Hc & Hn & _).
    pose proof (Z.log2_nonneg (block_number w3)) as Hnn.
    split; [exact Hc|]. split; [lia|]. intros n Hr. discriminate Hr.
Qed.

(** X17.  The cost of a resolution.  With the memo of the chain head
    unset or accurate, [find_before] never decreases [rpc_calls] and adds
    at most [2 + max(0, local_step_limit)] fetches for the hint, the scan
    and the head, and [2 * (log2(head) + 1)] for the binary search; on a
    cache hit it leaves the finder as it is. *)
Theorem find_before_rpc_budget (w3 : Web3) (bf bf' : BlockFinder) (target_ts : Z)
    (hint_block : option Z) (local_step_limit : Z) (r : result Z) :
  Spec.head_memo_ok w3 bf ->
  find_before w3 target_ts hint_block local_step_limit bf = (r, bf') ->
  rpc_calls bf <= rpc_calls bf'
  /\ rpc_calls bf' <= rpc_calls bf + (2 + Z.max 0 local_step_limit)
                      + 2 * (Z.log2 (block_number w3) + 1)
  /\ (truthy (_cache_by_minute bf !! Spec.bucket target_ts) <> None -> bf' = bf).
Proof.
  intros Hmemo H. unfold find_before in H. fold (Spec.bucket target_ts) in H.
  pose proof (Z.log2_nonneg (block_number w3)) as Hnn.
  destruct (truthy (_cache_by_minute bf !! Spec.bucket target_ts)) as [hit|] eqn:Hhit.
  { inversion H; subst. split; [lia|]. split; [lia|]. reflexivity. }
  assert (Hfb : forall b b' r',
            Spec.head_memo_ok w3 b ->
            bindM (_binary_search w3 target_ts)
              (fun ans => bindM (cache_store (Spec.bucket target_ts) ans) (fun _ => ret ans))
              b = (r', b') ->
            rpc_calls b <= rpc_calls b'
                        <= rpc_calls b + 1 + 2 * (Z.log2 (block_number w3) + 1)).
  { intros b b' r' Hb Hrun. unfold bindM in Hrun.
    destruct (_binary_search w3 target_ts b) as [[ans|e] b1] eqn:Hbs;
      destruct (binary_search_calls _ _ _ _ _ Hbs Hb) as (_ & Hc & _).
    - cbn in Hrun. inversion Hrun; subst. cbn [rpc_calls]. lia.
    - inversion Hrun; subst. lia. }
  assert (Hboth : rpc_calls bf <= rpc_calls bf'
                   <= rpc_calls bf + (2 + Z.max 0 local_step_limit)
                      + 2 * (Z.log2 (block_number w3) + 1)); [|split; [lia|split; [lia|congruence]]].
  destruct (truthy hint_block) as [hint|]; [|apply Hfb in H; [lia|exact Hmemo]].
  unfold bindM at 1 in H.
  pose proof (get_block_calls w3 (Z.max 1 hint) bf) as [Hm0 Hc0].
  destruct (_get_block w3 (Z.max 1 hint) bf) as [[ts|e] bf0]; cbn [snd] in *;
    [|inversion H; subst; lia].
  unfold bindM at 1 in H.
  pose proof (scan_loop_calls w3 target_ts (Z.to_nat local_step_limit) (Z.max 1 hint) ts bf0)
    as [Hm1 Hc1].
  destruct (scan_loop _ _ _ _ _ bf0) as [[[cur ts']|e] bf1]; cbn [snd] in *;
    [|inversion H; subst; lia].
  destruct (target_ts <? ts').
  - cbn in H. inversion H; subst. cbn [rpc_calls]. lia.
  - apply Hfb in H; [lia|]. eapply head_memo_same; [|exact Hmemo].
    eapply same_memo_trans; eassumption.
Qed.

Lemma find_before_rpc_budget_witness :
  let bf' := snd (find_before Samples.sparse_chain 250 None 64 BlockFinder_init) in
  rpc_calls BlockFinder_init <= rpc_calls bf'
  /\ rpc_calls bf' <= rpc_calls BlockFinder_init + (2 + Z.max 0 64)
                      + 2 * (Z.log2 (block_number Samples.sparse_chain) + 1)
  /\ (truthy (_cache_by_minute BlockFinder_init !! Spec.bucket 250) <> None ->
      bf' = BlockFinder_init).
Proof.
  intros bf'.
  apply (find_before_rpc_budget Samples.sparse_chain BlockFinder_init bf' 250 None 64
           (fst (find_before Samples.sparse_chain 250 None 64 BlockFinder_init))).
  - now left.
  - apply surjective_pairing.
Defined.

(** X18.  On a cache miss, on a chain whose head is at least block 1,
    a resolution that returns gives a block between 1 and the head, and
    stores it under the minute of the timestamp. *)
Theorem find_before_in_range (w3 : Web3) (bf bf' : BlockFinder) (target_ts : Z)
    (hint_block : option Z) (local_step_limit n : Z) :
  Spec.head_memo_ok w3 bf ->
  1 <= block_number w3 ->
  truthy (_cache_by_minute bf !! Spec.bucket target_ts) = None ->
  find_before w3 target_ts hint_block local_step_limit bf = (Ok n, bf') ->
  1 <= n <= block_number w3
  /\ _cache_by_minute bf' = <[Spec.bucket target_ts := n]> (_cache_by_minute bf).
Proof.
  intros Hmemo Hhead Hmiss H. unfold find_before in H. fold (Spec.bucket target_ts) in H.
  rewrite Hmiss in H.
  assert (Hfb : forall b b',
            Spec.head_memo_ok w3 b ->
            bindM (_binary_search w3 target_ts)
              (fun ans => bindM (cache_store (Spec.bucket target_ts) ans) (fun _ => ret ans))
              b = (Ok n, b') ->
            1 <= n <= block_number w3
            /\ _cache_by_minute b' = <[Spec.bucket target_ts := n]> (_cache_by_minute b)).
  { intros b b' Hb Hrun. unfold bindM in Hrun.
    destruct (_binary_search w3 target_ts b) as [[ans|e] b1] eqn:Hbs; [|discriminate Hrun].
    destruct (binary_search_calls _ _ _ _ _ Hbs Hb) as (Hc & _ & Hr).
    cbn in Hrun. inversion Hrun; subst. cbn [_cache_by_minute].
    split; [now apply Hr|]. now rewrite Hc. }
  destruct (truthy hint_block) as [hint|]; [|now apply Hfb].
  unfold bindM at 1 in H.
  pose proof (get_block_calls w3 (Z.max 1 hint) bf) as [Hm0 _].
  destruct (_get_block w3 (Z.max 1 hint) bf) as [[ts|e] bf0] eqn:Hg; cbn [snd] in *;
    [|discriminate H].
  apply get_block_ok, get_block_range in Hg.
  unfold bindM at 1 in H.
  pose proof (scan_loop_calls w3 target_ts (Z.to_nat local_step_limit) (Z.max 1 hint) ts bf0)
    as [Hm1 _].
  destruct (scan_loop _ _ _ _ _ bf0) as [[[cur ts']|e] bf1] eqn:Hs; cbn [snd] in *;
    [|discriminate H].
  apply scan_loop_range in Hs.
  assert (Hm : Spec.same_memo bf bf1) by (eapply same_memo_trans; eassumption).
  destruct (target_ts <? ts').
  - cbn in H. inversion H; subst. cbn [_cache_by_minute]. split; [lia|].
    destruct Hm as (Hc & _). now rewrite Hc.
  - destruct (Hfb bf1 bf' (head_memo_same _ _ _ Hm Hmemo) H) as [Hr Hc].
    split; [exact Hr|]. destruct Hm as (Hc1 & _). now rewrite Hc, Hc1.
Qed.

Lemma find_before_in_range_witness :
  let bf' := snd (find_before Samples.sparse_chain 250 None 64 BlockFinder_init) in
  find_before Samples.sparse_chain 250 None 64 BlockFinder_init = (Ok 2, bf')
  /\ 1 <= 2 <= block_number Samples.sparse_chain
  /\ _cache_by_minute bf' = <[Spec.bucket 250 := 2]> (_cache_by_minute BlockFinder_init).
Proof.
  intros bf'.
  assert (H : find_before Samples.sparse_chain 250 None 64 BlockFinder_init = (Ok 2, bf')).
  { assert (Hf : fst (find_before Samples.sparse_chain 250 None 64 BlockFinder_init) = Ok 2)
      by (vm_compute; reflexivity).
    unfold bf'. rewrite <- Hf. apply surjective_pairing. }
  split; [exact H|].
  apply (find_before_in_range Samples.sparse_chain BlockFinder_init bf' 250 None 64 2).
  - now left.
  - vm_compute. discriminate.
  - cbn. rewrite lookup_empty. reflexivity.
  - exact H.
Defined.

(** X19.  Once a timestamp has resolved to a block other than 0, every
    later resolution of a timestamp of the same minute returns that block,
    whatever its hint and step limit, and leaves the finder as it is. *)
Theorem find_before_same_minute (w3 : Web3) (bf bf' : BlockFinder) (ts ts' : Z)
    (hint hint' : option Z) (limit limit' n : Z) :
  find_before w3 ts hint limit bf = (Ok n, bf') ->
  n <> 0 ->
  ts' / 60 = ts / 60 ->
  find_before w3 ts' hint' limit' bf' = (Ok n, bf').
Proof.
  intros H Hn Hmin.
  assert (Hcache : _cache_by_minute bf' !! Spec.bucket ts = Some n).
  { unfold find_before in H. fold (Spec.bucket ts) in H.
    destruct (truthy (_cache_by_minute bf !! Spec.bucket ts)) as [hit|] eqn:Hhit.
    - inversion H; subst. now apply truthy_some.
    - assert (Hfb : forall b,
                bindM (_binary_search w3 ts)
                  (fun ans => bindM (cache_store (Spec.bucket ts) ans) (fun _ => ret ans))
                  b = (Ok n, bf') ->
                _cache_by_minute bf' !! Spec.bucket ts = Some n).
      { intros b Hrun. unfold bindM in Hrun.
        destruct (_binary_search w3 ts b) as [[ans|e] b1]; [|discriminate Hrun].
        cbn in Hrun. inversion Hrun; subst. cbn [_cache_by_minute]. apply lookup_insert_eq. }
      destruct (truthy hint) as [h|]; [|now apply (Hfb bf)].
      unfold bindM at 1 in H.
      destruct (_get_block w3 (Z.max 1 h) bf) as [[t0|e] bf0]; [|discriminate H].
      unfold bindM at 1 in H.
      destruct (scan_loop _ _ _ _ _ bf0) as [[[cur t1]|e] bf1]; [|discriminate H].
      destruct (ts <? t1); [|now apply (Hfb bf1)].
      cbn in H. inversion H; subst. cbn [_cache_by_minute]. apply lookup_insert_eq. }
  unfold find_before. rewrite Hmin. fold (Spec.bucket ts). rewrite Hcache.
  unfold truthy. now rewrite (proj2 (Z.eqb_neq n 0) Hn).
Qed.

Lemma find_before_same_minute_witness :
  let bf' := snd (find_before Samples.minute_chain 60 None 64 BlockFinder_init) in
  find_before Samples.minute_chain 60 None 64 BlockFinder_init = (Ok 1, bf')
  /\ find_before Samples.minute_chain 85 (Some 3) 8 bf' = (Ok 1, bf').
Proof.
  intros bf'.
  assert (H : find_before Samples.minute_chain 60 None 64 BlockFinder_init = (Ok 1, bf')).
  { assert (Hf : fst (find_before Samples.minute_chain 60 None 64 BlockFinder_init) = Ok 1)
      by (vm_compute; reflexivity).
    unfold bf'. rewrite <- Hf. apply surjective_pairing. }
  split; [exact H|].
  apply (find_before_same_minute Samples.minute_chain BlockFinder_init bf' 60 85 None (Some 3)
           64 8 1 H); [discriminate|reflexivity].
Defined.

Lemma bs_loop_all_later (w3 : Web3) (target : Z) (fuel : nat) :
  (forall m, 1 <= m <= block_number w3 ->
     exists t, get_block_timestamp w3 m = Ok t /\ target < t) ->
  forall (high : Z) (bf : BlockFinder),
    high <= Z.of_nat fuel -> high <= block_number w3 ->
    exists bf',
      bs_loop fuel w3 target (block_number w3) 1 high bf = (Ok 1, bf')
      /\ Spec.same_memo bf bf'.
Proof.
  intros Hall. induction fuel as [|fuel IH]; intros high bf Hf Hh.
  - cbn [bs_loop]. replace (1 <=? high) with false by (symmetry; apply Z.leb_gt; lia).
    exists bf. split; [unfold ret; f_equal; f_equal; lia|apply same_memo_refl].
  - cbn [bs_loop]. destruct (Z.leb_spec 1 high) as [Hle|Hgt].
    + set (mid := (1 + high) / 2).
      assert (Hmid : 1 <= mid <= high).
      { unfold mid. split; [apply Z.div_le_lower_bound; lia|apply Z.div_le_upper_bound; lia]. }
      destruct (Hall mid ltac:(lia)) as (t & Hget & Hlt).
      destruct (get_block_run w3 mid t bf Hget) as (bf1 & Hrun & Hsame).
      rewrite (bindM_ok _ _ _ _ _ Hrun).
      replace (target <? t) with true by (symmetry; apply Z.ltb_lt; lia).
      destruct (IH (mid - 1) bf1) as (bf' & Hloop & Hsame'); [lia|lia|].
      exists bf'. split; [exact Hloop|eapply same_memo_trans; eassumption].
    + exists bf. split; [unfold ret; f_equal; f_equal; lia|apply same_memo_refl].
Qed.

(** X20.  A timestamp before the first block.  On a chain whose
    timestamps never decrease, resolving without hint a timestamp that is
    earlier than block 1 returns block 1 and caches it, although block 1 is
    after the timestamp. *)
Theorem target_before_first_block (w3 : Web3) (bf : BlockFinder) (target_ts limit t1 : Z) :
  Spec.sorted_chain w3 ->
  Spec.head_memo_ok w3 bf ->
  get_block_timestamp w3 1 = Ok t1 ->
  target_ts < t1 ->
  truthy (_cache_by_minute bf !! Spec.bucket target_ts) = None ->
  exists bf',
    find_before w3 target_ts None limit bf = (Ok 1, bf')
    /\ _cache_by_minute bf' = <[Spec.bucket target_ts := 1]> (_cache_by_minute bf)
    /\ ~ Spec.at_or_before w3 target_ts 1.
Proof.
  intros Hsorted Hmemo H1 Hlt Hmiss.
  pose proof (get_block_range _ _ _ H1) as Hhead.
  assert (Hall : forall m, 1 <= m <= block_number w3 ->
            exists t, get_block_timestamp w3 m = Ok t /\ target_ts < t).
  { intros m Hm. destruct (get_block_in_range w3 m) as [t Ht]; [lia|].
    exists t. split; [exact Ht|]. pose proof (Hsorted 1 m t1 t ltac:(lia) H1 Ht). lia. }
  destruct (ensure_latest_run w3 bf Hmemo) as (t & bf1 & Hrun & Hget & Hc1 & Hm1); [lia|].
  destruct (Hall (block_number w3) ltac:(lia)) as (t' & Hget' & Hlt').
  assert (t' = t) by congruence. subst t'.
  destruct (bs_loop_all_later w3 target_ts (Z.to_nat (block_number w3)) Hall
              (block_number w3) bf1 ltac:(lia) ltac:(lia)) as (bf2 & Hloop & Hsame).
  unfold find_before. fold (Spec.bucket target_ts). rewrite Hmiss. cbn [truthy].
  unfold _binary_search. unfold bindM at 1. unfold bindM at 1. rewrite Hrun.
  replace (t <=? target_ts) with false by (symmetry; apply Z.leb_gt; lia).
  rewrite Hloop. cbn. eexists. split; [reflexivity|]. cbn [_cache_by_minute]. split.
  - destruct Hsame as (Hc2 & _). unfold Spec.same_cache in Hc1. now rewrite Hc2, Hc1.
  - intros (tb & Hb & Hle). assert (tb = t1) by congruence. lia.
Qed.

Lemma target_before_first_block_witness :
  exists bf',
    find_before Samples.sparse_chain 50 None 64 BlockFinder_init = (Ok 1, bf')
    /\ _cache_by_minute bf' = <[Spec.bucket 50 := 1]> (_cache_by_minute BlockFinder_init)
    /\ ~ Spec.at_or_before Samples.sparse_chain 50 1.
Proof.
  apply (target_before_first_block Samples.sparse_chain BlockFinder_init 50 64 100).
  - apply chain_of_sorted. reflexivity.
  - now left.
  - reflexivity.
  - lia.
  - cbn. rewrite lookup_empty. reflexivity.
Defined.

(** ** Prices for any decimals and for constant-product pools *)

Section OracleMore.

#[local] Open Scope Q_scope.

Lemma reciprocal_close (ratio : Q) :
  0 < ratio -> Qabs (ratio * Dec.round_sig WORKER_PREC (1 / ratio) - 1) <= 5 # 10 ^ 28.
Proof.
  intros Hpos. destruct u28_facts as (Hu0 & Hu1 & _ & _ & _ & _ & _ & Hu).
  set (recip := Dec.round_sig WORKER_PREC (1 / ratio)).
  pose proof (round_sig_error WORKER_PREC (1 / ratio)) as Herr. fold recip Spec.u28 in Herr.
  assert (Hinv : 0 < 1 / ratio).
  { unfold Qdiv. rewrite Qmult_1_l. now apply Qinv_lt_0_compat. }
  rewrite (Qabs_pos (1 / ratio)) in Herr by (apply Qlt_le_weak, Hinv).
  assert (Heq : ratio * recip - 1 == ratio * (recip - 1 / ratio)).
  { field. intros Hz. rewrite Hz in Hpos. discriminate Hpos. }
  rewrite Heq, Qabs_Qmult, (Qabs_pos ratio) by (apply Qlt_le_weak, Hpos).
  eapply Qle_trans; [apply Qmult_le_l; [exact Hpos|exact Herr]|].
  assert (Heq2 : ratio * (1 / ratio * Spec.u28) == Spec.u28).
  { field. intros Hz. rewrite Hz in Hpos. discriminate Hpos. }
  rewrite Heq2. exact Hu.
Qed.

Lemma v3_price_bounds (X k : Z) :
  (0 < X)%Z ->
  let ratio :=
    Dec.mul WORKER_PREC
      (Dec.round_sig WORKER_PREC
         (Dec.mul WORKER_PREC (inject_Z X) (inject_Z X) / Dec.mul WORKER_PREC Q96 Q96))
      (Dec.pow WORKER_PREC (inject_Z 10) k) in
  0 < ratio /\ Qabs (ratio - Spec.v3_price X k) <= Spec.v3_price X k * (3 # 10 ^ 27).
Proof.
  intros HX. cbv zeta.
  destruct u28_facts as (Hu0 & Hu1 & Hu2 & Hup & Hdn & _).
  set (u := Spec.u28) in *.
  set (E0 := inject_Z X * inject_Z X).
  set (K := inject_Z (2 ^ 96) * inject_Z (2 ^ 96)). set (k2 := Dec.pow10 k).
  assert (HE0 : 0 < E0).
  { unfold E0. assert (0 < inject_Z X) by (change 0 with (inject_Z 0); rewrite <- Zlt_Qlt; lia).
    nra. }
  assert (HK : 0 < K) by (vm_compute; reflexivity).
  assert (Hk2 : 0 < k2) by apply pow10_pos.
  assert (HE : Spec.v3_price X k == E0 * / K * k2).
  { unfold Spec.v3_price, E0, K, k2. field. vm_compute. discriminate. }
  set (s := Dec.mul WORKER_PREC (inject_Z X) (inject_Z X)).
  pose proof (round_sig_error WORKER_PREC (inject_Z X * inject_Z X)) as Hs.
  fold (Dec.mul WORKER_PREC (inject_Z X) (inject_Z X)) in Hs. fold s E0 Spec.u28 u in Hs.
  rewrite Q96_exact. fold K.
  set (qq := Dec.mul WORKER_PREC (inject_Z (2 ^ 96)) (inject_Z (2 ^ 96))).
  pose proof (round_sig_error WORKER_PREC K) as Hqq.
  change (Dec.round_sig WORKER_PREC K) with qq in Hqq. fold Spec.u28 u in Hqq.
  set (raw := Dec.round_sig WORKER_PREC (s / qq)).
  pose proof (round_sig_error WORKER_PREC (s / qq)) as Hr. fold raw Spec.u28 u in Hr.
  change (s / qq) with (s * / qq) in Hr.
  unfold Dec.pow. change (inject_Z 10 ^ k) with k2.
  set (adj := Dec.round_sig WORKER_PREC k2).
  pose proof (round_sig_error WORKER_PREC k2) as Ha. fold adj Spec.u28 u in Ha.
  unfold Dec.mul. set (ratio := Dec.round_sig WORKER_PREC (raw * adj)).
  pose proof (round_sig_error WORKER_PREC (raw * adj)) as Hq. fold ratio Spec.u28 u in Hq.
  clearbody ratio adj raw qq s E0 K k2 u.
  destruct (rel_interval u E0 s E0 E0 Hu0 Hu1 (Qlt_le_weak _ _ HE0) (Qle_refl _)
              (Qle_refl _) Hs) as (Hs0 & Hs1 & Hs2).
  destruct (rel_interval u K qq K K Hu0 Hu1 (Qlt_le_weak _ _ HK) (Qle_refl _)
              (Qle_refl _) Hqq) as (Hc0 & Hc1 & Hc2).
  assert (HKlo : 0 < K * (1 - u)) by (apply Qmult_lt_0_compat; assumption).
  destruct (interval_inv _ _ _ HKlo Hc1 Hc2) as (Hi0 & Hi1 & Hi2).
  destruct (interval_mul _ _ _ _ _ _ Hs0 Hs1 Hs2 Hi0 Hi1 Hi2) as (Hd0 & Hd1 & Hd2).
  destruct (rel_interval u _ raw _ _ Hu0 Hu1 Hd0 Hd1 Hd2 Hr) as (Hr0 & Hr1 & Hr2).
  destruct (rel_interval u k2 adj k2 k2 Hu0 Hu1 (Qlt_le_weak _ _ Hk2) (Qle_refl _)
              (Qle_refl _) Ha) as (Hj0 & Hj1 & Hj2).
  destruct (interval_mul _ _ _ _ _ _ Hr0 Hr1 Hr2 Hj0 Hj1 Hj2) as (Hb0 & Hb1 & Hb2).
  destruct (rel_interval u _ ratio _ _ Hu0 Hu1 Hb0 Hb1 Hb2 Hq) as (Hq0 & Hq1 & Hq2).
  set (E := E0 * / K * k2) in *. assert (HEpos : 0 < E).
  { unfold E. apply Qmult_lt_0_compat; [apply Qmult_lt_0_compat|]; try assumption.
    now apply Qinv_lt_0_compat. }
  assert (Hu3 : 0 < 1 + u) by lra.
  assert (Hlo : E * (1 - (3 # 10 ^ 27)) <= ratio).
  { eapply Qle_trans; [|exact Hq1].
    assert (Heq : E0 * (1 - u) * / (K * (1 + u)) * (1 - u) * (k2 * (1 - u)) * (1 - u)
                  == E * ((1 - u) * (1 - u) * (1 - u) * (1 - u) / (1 + u))).
    { unfold E. field. split; intros Hz; [rewrite Hz in Hu3|rewrite Hz in HK];
        discriminate. }
    rewrite Heq. apply Qmult_le_l; [exact HEpos|exact Hdn]. }
  assert (Hhi : ratio <= E * (1 + (3 # 10 ^ 27))).
  { eapply Qle_trans; [exact Hq2|].
    assert (Heq : E0 * (1 + u) * / (K * (1 - u)) * (1 + u) * (k2 * (1 + u)) * (1 + u)
                  == E * ((1 + u) * (1 + u) * (1 + u) * (1 + u) / (1 - u))).
    { unfold E. field. split; intros Hz; [rewrite Hz in Hu2|rewrite Hz in HK];
        discriminate. }
    rewrite Heq. apply Qmult_le_l; [exact HEpos|exact Hup]. }
  split.
  - eapply Qlt_le_trans; [|exact Hlo].
    assert (0 < 1 - (3 # 10 ^ 27)) by (vm_compute; reflexivity). nra.
  - rewrite HE. apply Qabs_Qle_condition. split; lra.
Qed.

(** X21.  For any decimals of the two tokens, at the 28 digits of the
    threads that compute the ratios: whenever [slot0()] gives the
    square-root price [X], the ratios of a concentrated-liquidity pool are
    returned, the first is positive and within a relative error of 3e-27
    of [(X / 2^96)^2 * 10^(d0 - d1)], and the product of the two is within
    5e-28 of 1. *)
Theorem v3_ratio_for_any_decimals (w3 : Web3) (meta : Meta) (block_tag X : Z) :
  read_v3_sqrtPriceX96_raw w3 block_tag = Ok X ->
  exists ratio recip : Q,
    ratios_at_block WORKER_PREC w3 "v3" meta block_tag = Ok (ratio, recip)
    /\ 0 < ratio
    /\ Qabs (ratio - Spec.v3_price X (d0 meta - d1 meta))
       <= Spec.v3_price X (d0 meta - d1 meta) * (3 # 10 ^ 27)
    /\ Qabs (ratio * recip - 1) <= 5 # 10 ^ 28.
Proof.
  intros Hread. pose proof (read_v3_positive w3 block_tag X Hread) as HX.
  destruct (v3_price_bounds X (d0 meta - d1 meta) HX) as [Hpos Hclose].
  match type of Hpos with 0 < ?r => set (ratio := r) in * end.
  exists ratio, (Dec.round_sig WORKER_PREC (1 / ratio)).
  split; [|split; [exact Hpos|split; [exact Hclose|now apply reciprocal_close]]].
  unfold ratios_at_block. change (String.eqb "v3" "v3") with true. cbv iota.
  rewrite Hread. cbn [Py.bind]. unfold price_from_sqrtPriceX96. unfold Dec.div at 1.
  replace (Qeq_bool (Dec.mul WORKER_PREC Q96 Q96) 0) with false
    by (vm_compute; reflexivity).
  cbv iota. cbn [Py.bind].
  fold ratio. unfold Dec.div. rewrite (pos_not_zero ratio Hpos). reflexivity.
Qed.

Lemma v3_ratio_for_any_decimals_witness :
  exists ratio recip : Q,
    ratios_at_block WORKER_PREC (Samples.pool_chain Samples.sample_sqrt_price) "v3"
      Samples.wbtc_weth_meta 2 = Ok (ratio, recip)
    /\ 0 < ratio
    /\ Qabs (ratio - Spec.v3_price Samples.sample_sqrt_price
                       (d0 Samples.wbtc_weth_meta - d1 Samples.wbtc_weth_meta))
       <= Spec.v3_price Samples.sample_sqrt_price
            (d0 Samples.wbtc_weth_meta - d1 Samples.wbtc_weth_meta) * (3 # 10 ^ 27)
    /\ Qabs (ratio * recip - 1) <= 5 # 10 ^ 28.
Proof.
  apply (v3_ratio_for_any_decimals (Samples.pool_chain Samples.sample_sqrt_price)
           Samples.wbtc_weth_meta 2 Samples.sample_sqrt_price).
  vm_compute. reflexivity.
Defined.

Lemma v2_price_bounds (r0 r1 k : Z) :
  (0 < r0)%Z -> (0 < r1)%Z ->
  let ratio :=
    Dec.mul WORKER_PREC (Dec.round_sig WORKER_PREC (inject_Z r1 / inject_Z r0))
      (Dec.pow WORKER_PREC (inject_Z 10) k) in
  0 < ratio /\ Qabs (ratio - Spec.v2_price r0 r1 k) <= Spec.v2_price r0 r1 k * (3 # 10 ^ 27).
Proof.
  intros H0 H1. cbv zeta.
  destruct u28_facts as (Hu0 & Hu1 & _ & _ & _ & Hup & Hdn & _).
  set (u := Spec.u28) in *.
  set (E0 := inject_Z r1 / inject_Z r0). set (k2 := Dec.pow10 k).
  assert (HE0 : 0 < E0).
  { unfold E0. apply Qlt_shift_div_l.
    - change 0 with (inject_Z 0). rewrite <- Zlt_Qlt. lia.
    - rewrite Qmult_0_l. change 0 with (inject_Z 0). rewrite <- Zlt_Qlt. lia. }
  assert (Hk2 : 0 < k2) by apply pow10_pos.
  set (q := Dec.round_sig WORKER_PREC E0).
  pose proof (round_sig_error WORKER_PREC E0) as Hs. fold q Spec.u28 u in Hs.
  unfold Dec.pow. change (inject_Z 10 ^ k) with k2.
  set (adj := Dec.round_sig WORKER_PREC k2).
  pose proof (round_sig_error WORKER_PREC k2) as Ha. fold adj Spec.u28 u in Ha.
  unfold Dec.mul. set (ratio := Dec.round_sig WORKER_PREC (q * adj)).
  pose proof (round_sig_error WORKER_PREC (q * adj)) as Hq. fold ratio Spec.u28 u in Hq.
  unfold Spec.v2_price. fold E0 k2.
  clearbody ratio adj q E0 k2 u.
  destruct (rel_interval u E0 q E0 E0 Hu0 Hu1 (Qlt_le_weak _ _ HE0) (Qle_refl _)
              (Qle_refl _) Hs) as (Hs0 & Hs1 & Hs2).
  destruct (rel_interval u k2 adj k2 k2 Hu0 Hu1 (Qlt_le_weak _ _ Hk2) (Qle_refl _)
              (Qle_refl _) Ha) as (Hj0 & Hj1 & Hj2).
  destruct (interval_mul _ _ _ _ _ _ Hs0 Hs1 Hs2 Hj0 Hj1 Hj2) as (Hb0 & Hb1 & Hb2).
  destruct (rel_interval u _ ratio _ _ Hu0 Hu1 Hb0 Hb1 Hb2 Hq) as (Hq0 & Hq1 & Hq2).
  set (E := E0 * k2) in *. assert (HEpos : 0 < E)
    by (unfold E; apply Qmult_lt_0_compat; assumption).
  assert (Hlo : E * (1 - (3 # 10 ^ 27)) <= ratio).
  { eapply Qle_trans; [|exact Hq1].
    assert (Heq : E0 * (1 - u) * (k2 * (1 - u)) * (1 - u)
                  == E * ((1 - u) * (1 - u) * (1 - u)))
      by (unfold E; ring).
    rewrite Heq. apply Qmult_le_l; [exact HEpos|exact Hdn]. }
  assert (Hhi : ratio <= E * (1 + (3 # 10 ^ 27))).
  { eapply Qle_trans; [exact Hq2|].
    assert (Heq : E0 * (1 + u) * (k2 * (1 + u)) * (1 + u)
                  == E * ((1 + u) * (1 + u) * (1 + u)))
      by (unfold E; ring).
    rewrite Heq. apply Qmult_le_l; [exact HEpos|exact Hup]. }
  split.
  - eapply Qlt_le_trans; [|exact Hlo].
    assert (0 < 1 - (3 # 10 ^ 27)) by (vm_compute; reflexivity). nra.
  - apply Qabs_Qle_condition. split; lra.
Qed.

Lemma round_sig_zero (prec : Z) (x : Q) : x == 0 -> Dec.round_sig prec x = 0.
Proof. intros H. unfold Dec.round_sig. apply Qeq_bool_iff in H. now rewrite H. Qed.

(** X22.  For a pool that is not of type v3, at the 28 digits of the
    threads that compute the ratios: with a reserve that is zero the ratios
    raise an exception; with two positive reserves they are returned, the
    first is positive and within a relative error of 3e-27 of
    [(r1 / r0) * 10^(d0 - d1)], and the product of the two is within 5e-28
    of 1. *)
Theorem v2_ratio_needs_both_reserves (w3 : Web3) (pool_type : string) (meta : Meta)
    (block_tag r0 r1 stamp : Z) :
  String.eqb pool_type "v3" = false ->
  w3_getReserves w3 block_tag = Ok (r0, r1, stamp) ->
  (r0 = 0%Z \/ r1 = 0%Z ->
   exists e, ratios_at_block WORKER_PREC w3 pool_type meta block_tag = Raise e)
  /\ ((0 < r0)%Z -> (0 < r1)%Z ->
      exists ratio recip : Q,
        ratios_at_block WORKER_PREC w3 pool_type meta block_tag = Ok (ratio, recip)
        /\ 0 < ratio
        /\ Qabs (ratio - Spec.v2_price r0 r1 (d0 meta - d1 meta))
           <= Spec.v2_price r0 r1 (d0 meta - d1 meta) * (3 # 10 ^ 27)
        /\ Qabs (ratio * recip - 1) <= 5 # 10 ^ 28).
Proof.
  intros Hty Hres. unfold ratios_at_block. rewrite Hty, Hres. cbn [Py.bind]. split.
  - intros [->| ->].
    + eexists. reflexivity.
    + unfold Dec.div at 1. destruct (Qeq_bool (inject_Z r0) 0); [eexists; reflexivity|].
      cbn [Py.bind]. rewrite (round_sig_zero WORKER_PREC (inject_Z 0 / inject_Z r0))
        by (unfold Qdiv; apply Qmult_0_l).
      unfold Dec.mul. rewrite (round_sig_zero WORKER_PREC (0 * _)) by apply Qmult_0_l.
      eexists. reflexivity.
  - intros H0 H1.
    destruct (v2_price_bounds r0 r1 (d0 meta - d1 meta) H0 H1) as [Hpos Hclose].
    match type of Hpos with 0 < ?r => set (ratio := r) in * end.
    exists ratio, (Dec.round_sig WORKER_PREC (1 / ratio)).
    split; [|split; [exact Hpos|split; [exact Hclose|now apply reciprocal_close]]].
    unfold Dec.div at 1.
    rewrite (pos_not_zero (inject_Z r0))
      by (change 0 with (inject_Z 0); rewrite <- Zlt_Qlt; lia).
    cbn [Py.bind]. fold ratio. unfold Dec.div. rewrite (pos_not_zero ratio Hpos). reflexivity.
Qed.

Lemma v2_ratio_needs_both_reserves_witness :
  (exists e, ratios_at_block WORKER_PREC (Samples.v2_chain 0 7) "v2" Samples.wbtc_weth_meta 2
             = Raise e)
  /\ exists ratio recip : Q,
       ratios_at_block WORKER_PREC (Samples.v2_chain 5 7) "v2" Samples.wbtc_weth_meta 2
       = Ok (ratio, recip)
       /\ 0 < ratio
       /\ Qabs (ratio - Spec.v2_price 5 7 (d0 Samples.wbtc_weth_meta - d1 Samples.wbtc_weth_meta))
          <= Spec.v2_price 5 7 (d0 Samples.wbtc_weth_meta - d1 Samples.wbtc_weth_meta)
             * (3 # 10 ^ 27)
       /\ Qabs (ratio * recip - 1) <= 5 # 10 ^ 28.
Proof.
  split.
  - apply (proj1 (v2_ratio_needs_both_reserves (Samples.v2_chain 0 7) "v2"
                    Samples.wbtc_weth_meta 2 0 7 1755631388 eq_refl eq_refl)).
    now left.
  - apply (proj2 (v2_ratio_needs_both_reserves (Samples.v2_chain 5 7) "v2"
                    Samples.wbtc_weth_meta 2 5 7 1755631388 eq_refl eq_refl));
      reflexivity.
Defined.

End OracleMore.

(** ** From the ratios of the pool to the two prices *)

Lemma upper_app (a b : string) : upper (a ++ b) = upper a ++ upper b.
Proof.
  induction a as [|c a IH]; [reflexivity|].
  rewrite append_cons. cbn [upper]. now rewrite IH, append_cons.
Qed.

Lemma prefix_app (p a b : string) : String.prefix p a = true -> String.prefix p (a ++ b) = true.
Proof.
  revert a. induction p as [|c p IH]; intros a H; [now destruct (a ++ b)|].
  destruct a as [|c' a]; [discriminate H|]. rewrite append_cons. cbn [String.prefix] in H |- *.
  destruct (Ascii.ascii_dec c c'); [now apply IH|discriminate H].
Qed.

Lemma contains_app_l (sub a b : string) :
  contains sub a = true -> contains sub (a ++ b) = true.
Proof.
  induction a as [|c a IH]; intros H.
  - cbn in H. rewrite orb_false_r in H. destruct sub; [|discriminate H].
    destruct b; reflexivity.
  - cbn [contains] in H. apply orb_prop in H.
    destruct H as [H|H].
    + pose proof (prefix_app _ _ b H) as Hp. rewrite append_cons in Hp |- *.
      cbn [contains]. now rewrite Hp.
    + rewrite append_cons. cbn [contains]. rewrite (IH H). apply orb_true_r.
Qed.

Lemma contains_app_r (sub a b : string) :
  contains sub b = true -> contains sub (a ++ b) = true.
Proof.
  intros H. induction a as [|c a IH]; [exact H|].
  rewrite append_cons. cbn [contains]. rewrite IH. apply orb_true_r.
Qed.

Lemma contains_slash (c : ascii) (r : string) :
  contains "/" (String c r) = Ascii.eqb c "/" || contains "/" r.
Proof.
  cbn [contains String.prefix]. destruct (Ascii.ascii_dec "/" c) as [<-|Hne].
  - cbn. now destruct r.
  - replace (Ascii.eqb c "/") with false; [reflexivity|].
    symmetry. apply Ascii.eqb_neq. congruence.
Qed.

Lemma upper_char_slash (c : ascii) : Ascii.eqb (upper_char c) "/" = Ascii.eqb c "/".
Proof.
  destruct c as [b0 b1 b2 b3 b4 b5 b6 b7].
  destruct b0, b1, b2, b3, b4, b5, b6, b7; reflexivity.
Qed.

Lemma contains_slash_upper (s : string) : contains "/" (upper s) = contains "/" s.
Proof.
  induction s as [|c s IH]; [reflexivity|].
  cbn [upper]. now rewrite !contains_slash, upper_char_slash, IH.
Qed.

Lemma split_char_no_sep (s : string) : contains "/" s = false -> split_char "/" s = [s].
Proof.
  induction s as [|c s IH]; intros H; [reflexivity|].
  rewrite contains_slash in H. apply orb_false_elim in H. destruct H as [Hc Hs].
  cbn [split_char]. now rewrite Hc, (IH Hs).
Qed.

Lemma split_char_pair (a b : string) :
  contains "/" a = false -> contains "/" b = false ->
  split_char "/" (a ++ "/" ++ b) = [a; b].
Proof.
  intros Ha Hb. induction a as [|c a IH].
  - rewrite append_nil, append_cons, append_nil. cbn [split_char].
    change (Ascii.eqb "/" "/") with true. cbv iota.
    now rewrite (split_char_no_sep b Hb).
  - rewrite contains_slash in Ha. apply orb_false_elim in Ha. destruct Ha as [Hc Ha].
    rewrite append_cons. cbn [split_char]. rewrite Hc. now rewrite (IH Ha).
Qed.

Lemma extract_two_keys (prec : Z) (a b : string) (x y : Q) :
  Spec.wbtc_like a -> Spec.eth_like b ->
  extract_eth_wbtc_ratios prec [((a ++ "/" ++ b)%string, x); ((b ++ "/" ++ a)%string, y)]
  = Ok (y, x)
  /\ extract_eth_wbtc_ratios prec [((b ++ "/" ++ a)%string, y); ((a ++ "/" ++ b)%string, x)]
     = Ok (y, x).
Proof.
  intros (Ha1 & Ha2 & Ha3) (Hb1 & Hb2 & Hb3).
  assert (Hab : forall p q : string,
            (p = a /\ q = b) \/ (p = b /\ q = a) ->
            (contains "ETH" (upper (p ++ "/" ++ q)) || contains "WETH" (upper (p ++ "/" ++ q)))
            && contains "WBTC" (upper (p ++ "/" ++ q)) = true
            /\ split_char "/" (upper (p ++ "/" ++ q)) = [upper p; upper q]).
  { intros p q Hpq. rewrite !upper_app. change (upper "/") with "/". split.
    - apply andb_true_intro. apply orb_prop in Hb1.
      destruct Hpq as [[-> ->]|[-> ->]]; split.
      + apply orb_true_intro.
        destruct Hb1 as [H|H]; [left|right]; now apply contains_app_r, contains_app_r.
      + now apply contains_app_l.
      + apply orb_true_intro. destruct Hb1 as [H|H]; [left|right]; now apply contains_app_l.
      + now apply contains_app_r, contains_app_r.
    - apply split_char_pair; rewrite contains_slash_upper;
        destruct Hpq as [[-> ->]|[-> ->]]; assumption. }
  destruct (Hab a b ltac:(now left)) as [G1 S1].
  destruct (Hab b a ltac:(now right)) as [G2 S2].
  unfold extract_eth_wbtc_ratios. split; cbn [extract_loop].
  - rewrite G1, S1, G2, S2, Ha1, Ha2, Hb1, Hb2. cbn. reflexivity.
  - rewrite G1, S1, G2, S2, Ha1, Ha2, Hb1, Hb2. cbn. reflexivity.
Qed.

Lemma pair_keys_differ (a b : string) :
  Spec.wbtc_like a -> Spec.eth_like b -> String.eqb (a ++ "/" ++ b) (b ++ "/" ++ a) = false.
Proof.
  intros (Ha1 & _ & Ha3) (_ & Hb2 & Hb3). apply eqb_neq_false. intros Heq.
  pose proof (split_char_pair a b Ha3 Hb3) as S1.
  pose proof (split_char_pair b a Hb3 Ha3) as S2.
  rewrite Heq in S1. rewrite S1 in S2. injection S2 as -> _. congruence.
Qed.

(** X23.  The two prices follow the symbols of the pool, not the order
    of its tokens, at any precision of the thread.  Let the ratios at a
    block be [(ratio, recip)], the first being token1 per token0.  If
    token0 is the wrapped bitcoin and token1 the native asset,
    [extract_eth_wbtc_ratios] applied to the dictionary of
    [get_ratios_at_block] returns [(ratio, recip)]; with the tokens the
    other way round it returns [(recip, ratio)]. *)
Theorem priced_ratios_follow_the_symbols (prec : Z) (w3 : Web3) (pool_type : string)
    (meta : Meta) (block_tag : Z) (ratio recip : Q) :
  ratios_at_block prec w3 pool_type meta block_tag = Ok (ratio, recip) ->
  (Spec.wbtc_like (s0 meta) -> Spec.eth_like (s1 meta) ->
   (let* hist := get_ratios_at_block prec w3 pool_type meta block_tag in
    extract_eth_wbtc_ratios prec hist) = Ok (ratio, recip))
  /\ (Spec.eth_like (s0 meta) -> Spec.wbtc_like (s1 meta) ->
      (let* hist := get_ratios_at_block prec w3 pool_type meta block_tag in
       extract_eth_wbtc_ratios prec hist) = Ok (recip, ratio)).
Proof.
  intros Hrun. unfold get_ratios_at_block. rewrite Hrun. cbn [Py.bind]. split.
  - intros Ha Hb. cbn [dict_set]. rewrite (pair_keys_differ _ _ Ha Hb).
    apply (extract_two_keys prec _ _ recip ratio Ha Hb).
  - intros Hb Ha. cbn [dict_set].
    rewrite String.eqb_sym, (pair_keys_differ _ _ Ha Hb).
    apply (extract_two_keys prec _ _ ratio recip Ha Hb).
Qed.

Lemma priced_ratios_follow_the_symbols_witness :
  exists ratio recip : Q,
    ratios_at_block WORKER_PREC (Samples.v2_chain 5 7) "v2" Samples.wbtc_weth_meta 2
    = Ok (ratio, recip)
    /\ (let* hist := get_ratios_at_block WORKER_PREC (Samples.v2_chain 5 7) "v2"
                       Samples.wbtc_weth_meta 2 in
        extract_eth_wbtc_ratios WORKER_PREC hist) = Ok (ratio, recip).
Proof.
  eexists _, _. split; [vm_compute; reflexivity|].
  apply (proj1 (priced_ratios_follow_the_symbols WORKER_PREC (Samples.v2_chain 5 7) "v2"
                  Samples.wbtc_weth_meta 2 _ _ ltac:(vm_compute; reflexivity)));
    vm_compute; repeat split.
Defined.

(** ** The rows to price *)

Lemma todo_loop_spec (done_hashes : gset string) (raw_rows : list (list (string * string))) :
  forall (already : Z) (seen : gset string) (todo : list (list (string * string))),
    (forall h, h ∈ seen <-> In h (map Spec.row_hash todo)) ->
    NoDup (map Spec.row_hash todo) ->
    exists new,
      snd (todo_loop done_hashes raw_rows already seen todo) = (todo ++ new)%list
      /\ NoDup (map Spec.row_hash (todo ++ new))
      /\ sublist new raw_rows
      /\ (forall r, In r new -> Spec.row_hash r <> "" /\ (Spec.row_hash r ∉ done_hashes))
      /\ (forall r, In r raw_rows -> Spec.row_hash r <> "" -> Spec.row_hash r ∉ done_hashes ->
            In (Spec.row_hash r) (map Spec.row_hash (todo ++ new)))
      /\ fst (todo_loop done_hashes raw_rows already seen todo)
         = already
           + Z.of_nat (length (List.filter
                                 (fun r => negb (String.eqb (Spec.row_hash r) "")
                                           && bool_decide (Spec.row_hash r ∈ done_hashes))
                                 raw_rows)).
Proof.
  induction raw_rows as [|r rest IH]; intros already seen todo Hseen Hnd.
  - exists []. cbn. rewrite app_nil_r.
    split; [reflexivity|]. split; [exact Hnd|]. split; [constructor|].
    split; [intros ? []|]. split; [intros ? []|]. lia.
  - cbn [todo_loop List.filter]. fold (Spec.row_hash r).
    destruct (String.eqb_spec (Spec.row_hash r) "") as [He|Hne]; cbn [negb andb].
    { destruct (IH already seen todo Hseen Hnd) as (new & H1 & H2 & H3 & H4 & H5 & H6).
      exists new. split; [exact H1|]. split; [exact H2|]. split; [now apply sublist_cons|].
      split; [exact H4|]. split; [|exact H6].
      intros r' [<-|Hin] Hr' Hd; [contradiction|]. now apply H5. }
    destruct (bool_decide_reflect (Spec.row_hash r ∈ done_hashes)) as [Hd|Hnd'].
    { destruct (IH (already + 1) seen todo Hseen Hnd) as (new & H1 & H2 & H3 & H4 & H5 & H6).
      exists new. split; [exact H1|]. split; [exact H2|]. split; [now apply sublist_cons|].
      split; [exact H4|]. split.
      - intros r' [<-|Hin] Hr' Hd'; [contradiction|]. now apply H5.
      - rewrite H6. cbn [length]. lia. }
    destruct (bool_decide_reflect (Spec.row_hash r ∈ seen)) as [Hs|Hns].
    { destruct (IH already seen todo Hseen Hnd) as (new & H1 & H2 & H3 & H4 & H5 & H6).
      exists new. split; [exact H1|]. split; [exact H2|]. split; [now apply sublist_cons|].
      split; [exact H4|]. split; [|exact H6].
      intros r' [<-|Hin] Hr' Hd'; [|now apply H5].
      rewrite map_app. apply in_or_app. left. now apply Hseen. }
    assert (Hseen' : forall h, h ∈ {[Spec.row_hash r]} ∪ seen <-> In h (map Spec.row_hash (todo ++ [r]))).
    { intros h. rewrite map_app, in_app_iff. cbn [map In]. rewrite elem_of_union, elem_of_singleton.
      rewrite Hseen. intuition. }
    assert (Hnd2 : NoDup (map Spec.row_hash (todo ++ [r]))).
    { rewrite map_app. cbn [map]. apply NoDup_app. split; [exact Hnd|]. split.
      - intros h Hin Hh. apply list_elem_of_singleton in Hh. subst h.
        apply Hns, Hseen. now apply list_elem_of_In.
      - apply NoDup_singleton. }
    destruct (IH already _ _ Hseen' Hnd2) as (new & H1 & H2 & H3 & H4 & H5 & H6).
    exists (r :: new). rewrite <- app_assoc in H1, H2, H5. cbn [app] in H1, H2, H5.
    split; [exact H1|]. split; [exact H2|]. split; [now apply sublist_skip|].
    split; [|split; [|exact H6]].
    + intros r' [<-|Hin]; [now split|now apply H4].
    + intros r' [<-|Hin] Hr' Hd'; [|now apply H5].
      rewrite map_app. apply in_or_app. right. now left.
Qed.

(** X24.  The rows that [run_incremental] queues for pricing are a
    sub-list of the raw rows, in their order, with no hash twice (up to
    case), no empty hash and no hash that is priced already; the hash of
    every raw row that is neither empty nor priced is queued; and [already]
    counts the raw rows whose hash is priced. *)
Theorem each_hash_is_priced_once (done_hashes : gset string)
    (raw_rows : list (list (string * string))) :
  let todo_rows := snd (todo_loop done_hashes raw_rows 0 ∅ []) in
  let already := fst (todo_loop done_hashes raw_rows 0 ∅ []) in
  NoDup (map Spec.row_hash todo_rows)
  /\ sublist todo_rows raw_rows
  /\ (forall r, In r todo_rows -> Spec.row_hash r <> "" /\ (Spec.row_hash r ∉ done_hashes))
  /\ (forall r, In r raw_rows -> Spec.row_hash r <> "" -> Spec.row_hash r ∉ done_hashes ->
        In (Spec.row_hash r) (map Spec.row_hash todo_rows))
  /\ already = Z.of_nat (length (List.filter
                                   (fun r => negb (String.eqb (Spec.row_hash r) "")
                                             && bool_decide (Spec.row_hash r ∈ done_hashes))
                                   raw_rows)).
Proof.
  cbv zeta.
  destruct (todo_loop_spec done_hashes raw_rows 0 ∅ []) as (new & H1 & H2 & H3 & H4 & H5 & H6).
  - intros h. cbn. split; [intros H; now apply not_elem_of_empty in H|intros []].
  - constructor.
  - cbn [app] in H1, H2, H5. rewrite H1, H6.
    split; [exact H2|]. split; [exact H3|]. split; [exact H4|]. split; [exact H5|]. lia.
Qed.

(** ** The order of the priced rows *)

Section Sorting.

Context {A K : Type} (ltb : K -> K -> bool) (key : A -> K).

Lemma insert_reverse_perm (x : A) (l : list A) :
  Permutation (insert_reverse ltb key x l) (x :: l).
Proof.
  induction l as [|y l IH]; [reflexivity|]. cbn [insert_reverse].
  destruct (ltb (key x) (key y)); [|reflexivity].
  rewrite IH. apply perm_swap.
Qed.

Lemma sort_reverse_perm (l : list A) : Permutation (sort_reverse ltb key l) l.
Proof.
  induction l as [|x l IH]; [reflexivity|]. cbn [sort_reverse fold_right].
  fold (sort_reverse ltb key l). rewrite insert_reverse_perm. now constructor.
Qed.

Hypothesis ltb_asym : forall a b, ltb a b = true -> ltb b a = false.

Lemma insert_reverse_sorted (x : A) (l : list A) :
  Sorted (fun a b => ltb (key a) (key b) = false) l ->
  Sorted (fun a b => ltb (key a) (key b) = false) (insert_reverse ltb key x l).
Proof.
  induction l as [|y l IH]; intros Hs; [repeat constructor|].
  cbn [insert_reverse]. destruct (ltb (key x) (key y)) eqn:E.
  - apply Sorted_inv in Hs. destruct Hs as [Hs Hhd]. constructor; [now apply IH|].
    destruct l as [|z l]; cbn [insert_reverse].
    + constructor. now apply ltb_asym.
    + destruct (ltb (key x) (key z)).
      * constructor. now apply HdRel_inv in Hhd.
      * constructor. now apply ltb_asym.
  - constructor; [exact Hs|]. now constructor.
Qed.

Lemma sort_reverse_sorted (l : list A) :
  Sorted (fun a b => ltb (key a) (key b) = false) (sort_reverse ltb key l).
Proof.
  induction l as [|x l IH]; [constructor|]. cbn [sort_reverse fold_right].
  now apply insert_reverse_sorted.
Qed.

Lemma insert_reverse_stable (same : A -> bool) (x : A) (l : list A) :
  (forall y, same x = true -> ltb (key x) (key y) = true -> same y = false) ->
  List.filter same (insert_reverse ltb key x l) = List.filter same (x :: l).
Proof.
  intros Hsame. induction l as [|y l IH]; [reflexivity|]. cbn [insert_reverse].
  destruct (ltb (key x) (key y)) eqn:E; [|reflexivity].
  cbn [List.filter] in IH |- *. rewrite IH.
  destruct (same x) eqn:Hx; [|reflexivity]. now rewrite (Hsame y eq_refl E).
Qed.

End Sorting.

Lemma sort_reverse_stable {A : Type} (key : A -> Z) (k : Z) (l : list A) :
  List.filter (fun r => key r =? k) (sort_reverse Z.ltb key l)
  = List.filter (fun r => key r =? k) l.
Proof.
  induction l as [|x l IH]; [reflexivity|]. cbn [sort_reverse fold_right].
  fold (sort_reverse Z.ltb key l). rewrite insert_reverse_stable.
  - cbn [List.filter]. now rewrite IH.
  - intros y Hx Hlt. apply Z.eqb_eq in Hx. apply Z.ltb_lt in Hlt. apply Z.eqb_neq. lia.
Qed.

Lemma dict_pop_set_fresh {V : Type} (d : list (string * V)) (k : string) (v : V) :
  dict_get d k = None -> dict_pop (dict_set d k v) k = d.
Proof.
  induction d as [|[k' v'] d IH]; intros H; cbn [dict_set dict_pop].
  - now rewrite String.eqb_refl.
  - cbn [dict_get] in H. destruct (String.eqb k' k) eqn:E; [discriminate H|].
    cbn [dict_pop]. now rewrite E, (IH H).
Qed.

(** X25.  The order of the priced ledger.  For rows that have no
    [_sort_ts] field, the three steps of [run_incremental] (store
    [_sort_ts], sort on it in reverse, drop it) give the same rows back,
    rearranged so that their transaction times never increase, a time that
    does not parse counting as 0; rows of the same time keep their
    order. *)
Theorem rows_are_written_latest_first (dtparse : string -> option Z)
    (rows : list (list (string * pyval))) :
  Forall (fun r => dict_get r "_sort_ts" = None) rows ->
  Permutation (sort_latest_first dtparse rows) rows
  /\ Sorted (fun a b => Spec.tx_time dtparse b <= Spec.tx_time dtparse a) (sort_latest_first dtparse rows)
  /\ (forall t, List.filter (fun r => Spec.tx_time dtparse r =? t) (sort_latest_first dtparse rows)
                = List.filter (fun r => Spec.tx_time dtparse r =? t) rows).
Proof.
  intros Hfresh. unfold sort_latest_first.
  set (stamp := fun r : list (string * pyval) =>
                  dict_set r "_sort_ts"
                    (VInt (parse_tx_time_for_sort dtparse
                             (dict_get_default r "tx_timestamp" (VStr ""))))).
  set (drop_ts := fun r : list (string * pyval) => dict_pop r "_sort_ts").
  assert (Hkey : forall r, sort_ts_of (stamp r) = Spec.tx_time dtparse r).
  { intros r. unfold sort_ts_of, stamp. now rewrite dict_get_set_same. }
  assert (Hround : forall r, In r rows -> drop_ts (stamp r) = r).
  { intros r Hin. apply dict_pop_set_fresh. rewrite Forall_forall in Hfresh.
    apply Hfresh. now apply list_elem_of_In. }
  assert (Hsort : sort_reverse Z.ltb sort_ts_of (map stamp rows)
                  = map stamp (sort_reverse Z.ltb (Spec.tx_time dtparse) rows)).
  { clear Hround Hfresh. induction rows as [|r rows IH]; [reflexivity|].
    cbn [map sort_reverse fold_right].
    fold (sort_reverse Z.ltb sort_ts_of (map stamp rows)).
    fold (sort_reverse Z.ltb (Spec.tx_time dtparse) rows). rewrite IH.
    generalize (sort_reverse Z.ltb (Spec.tx_time dtparse) rows). intros l.
    induction l as [|y l IHl]; [reflexivity|]. cbn [map insert_reverse].
    rewrite !Hkey. destruct (Spec.tx_time dtparse r <? Spec.tx_time dtparse y); [|reflexivity].
    cbn [map]. now rewrite IHl. }
  rewrite Hsort, map_map.
  assert (Hid : map (fun r => drop_ts (stamp r)) (sort_reverse Z.ltb (Spec.tx_time dtparse) rows)
                = sort_reverse Z.ltb (Spec.tx_time dtparse) rows).
  { rewrite <- (map_id (sort_reverse Z.ltb (Spec.tx_time dtparse) rows)) at 2.
    apply map_ext_in. intros r Hin. apply Hround.
    eapply Permutation_in; [apply (sort_reverse_perm Z.ltb (Spec.tx_time dtparse))|exact Hin]. }
  rewrite Hid. split; [apply (sort_reverse_perm Z.ltb (Spec.tx_time dtparse))|]. split; [|intros t; apply (sort_reverse_stable (Spec.tx_time dtparse) t rows)].
  eapply Sorted_ind with (P := fun l => Sorted _ l);
    [constructor| |apply (sort_reverse_sorted Z.ltb (Spec.tx_time dtparse))].
  - intros a l Hs IH Hhd. constructor; [exact IH|].
    destruct Hhd as [|b l' Hb]; constructor. apply Z.ltb_ge in Hb. exact Hb.
  - intros a b Hab. apply Z.ltb_lt in Hab. apply Z.ltb_ge. lia.
Qed.

Lemma rows_are_written_latest_first_witness :
  sort_latest_first Samples.seconds_parser Samples.priced_rows
  = [Samples.priced_row "0xb" "300"; Samples.priced_row "0xd" "300";
     Samples.priced_row "0xa" "100"; Samples.priced_row "0xc" ""]
  /\ Permutation (sort_latest_first Samples.seconds_parser Samples.priced_rows)
       Samples.priced_rows
  /\ Sorted (fun a b => Spec.tx_time Samples.seconds_parser b <= Spec.tx_time Samples.seconds_parser a)
       (sort_latest_first Samples.seconds_parser Samples.priced_rows)
  /\ (forall t,
        List.filter (fun r => Spec.tx_time Samples.seconds_parser r =? t)
          (sort_latest_first Samples.seconds_parser Samples.priced_rows)
        = List.filter (fun r => Spec.tx_time Samples.seconds_parser r =? t) Samples.priced_rows).
Proof.
  split; [vm_compute; reflexivity|].
  apply (rows_are_written_latest_first Samples.seconds_parser Samples.priced_rows).
  repeat constructor.
Defined.
